(* ===== verification/_CoqProject ===== *)
-Q . S2P
Prelude.v
CString.v
Platform.v
VectorStr.v
VectorAux.v
DemState.v
DemQual.v
DemLex.v
DemReaders.v
DemNames.v
DemTypes.v
Demangler.v
DemFrame.v
DemLogic.v
DemTotal.v
DemFuel.v
DemCrash.v
DemEval.v
DemLexEval.v
DemSeq.v
Mangling.v
Roundtrip.v
RoundtripTypes.v
CxaAtexit.v
DwarfEh.v
Guard.v
TypeInfo.v
CxaDemangle.v
OperatorNew.v
ExnState.v
ExnHandlers.v
ExnAlloc.v
Exception.v
EmergencyPool.v
ExnShared.v
Personality.v
Diagnostics.v
AuxHelper.v
ExnSpec.v
ExnSpecLemmas.v
ExnRefine.v
ExnSim.v
VectorTheorems.v
DemTheorems.v
RoundtripTheorems.v
Compression.v
CompressionTheorems.v
LexTheorems.v
PathTheorems.v
TestCases.v
CxaDemangleTheorems.v
CxaAtexitTheorems.v
DwarfEhTheorems.v
GuardTheorems.v
TypeInfoTheorems.v
ExnTheorems.v
ExnEdges.v
PersonalityTheorems.v
PersonalityProtocol.v
DiagnosticsTheorems.v
AuxTheorems.v
Ehabi.v
EhabiTheorems.v
ThreadInfo.v
