(* ===== verification/Prelude.v ===== *)
(** * libcxxrt, verified

    libcxxrt is a C++ runtime: exceptions, run-time type information, guards
    of static initialisation, operator new, and the demangler behind
    [__cxa_demangle].  This development models it: the demangler
    ([src/libelftc_dem_gnu3.c]) and its entry point, exit handlers
    ([src/cxa_atexit.c], [src/cxa_finalize.c]), the readers of exception
    tables ([src/dwarf_eh.h]), guards ([src/guard.cc] over [src/atomic.h]),
    [type_info] and [dynamic_cast] ([src/typeinfo.h], [src/typeinfo.cc],
    [src/dynamic_cast.cc]), operator new and delete ([src/memory.cc]), and
    exceptions ([src/exception.cc], [src/cxxabi.h]) with their helpers
    ([src/auxhelper.cc], [src/stdexcept.cc], [src/terminate.cc],
    [src/noexception.cc]) and what is different on 32-bit ARM
    ([src/unwind-arm.h]).

    The demangler, exit handlers, guards and operator new stand alone.
    Exceptions are the part where the others meet: the personality function
    reads the tables of the frame with [dwarf_eh.h], compares types with
    [dynamic_cast.cc], and keeps what it finds in the header of the exception,
    which [__cxa_throw] made and [__cxa_begin_catch] and [__cxa_end_catch]
    count.

    ** How C is modelled

    - A function with a status is a computation [comp S A := S -> res S A]
      (Prelude).  It ends in [Ok a s] (status 1, or a value), [Fail s] (status
      0, with the state it leaves behind; in [emergency_malloc], that the
      thread has to wait), [Crash c] (undefined behaviour, a failed [assert]
      or [std::terminate], with its kind), or [NoFuel] (the model's recursion
      bound).
    - Integers are [Z]; [size_t] is reduced modulo 2^64 where the code can
      wrap, signed [long] saturates in [strtol] and overflows into
      [Crash SignedOverflow] (CString, DemReaders); so does [int] in the
      handler counts, while [unsigned int] wraps (ExnState).
    - A [char *] to data is a [mem] (CString): the bytes up to the NUL, or an
      uninitialised or freed block; reading those is a [Crash].  Each
      allocation has an identity, so that [last_sname], a pointer into a
      vector of strings, is followed only while its string is alive.
    - An exception is a block of memory, words at the offsets of the fields of
      [struct __cxa_exception] (ExnState): pointers are a block and an offset,
      so that the code's arithmetic between the object, the header and the
      unwinder's part of it is done as written, and an access to a freed
      block, or outside one, is a [Crash].
    - Read-only memory (exception tables, objects and vtables) is a class:
      [Memory] of bytes, [Words] of words.
    - What the code leaves to the platform is the class [Platform]: which
      allocations succeed, whether [strtol] sets [EINVAL], the size of [long
      double] and the text [snprintf] gives for a floating-point image.
      Theorems hold for every instance; those that need memory ask for
      [never_oom].
    - The input of the demangler is the class [Input]: its bytes, with the NUL
      behind them; the cursor is an index, and a read or a move beyond the NUL
      is a [Crash OutOfBounds].
    - Code the runtime calls but does not contain is in the classes [Linked]
      (ExnHandlers: [calloc], the unwinder, destructors, unexpected handlers),
      [Allocator] (OperatorNew: [malloc], [free], new-handlers),
      [AddressSpace] (Personality: addresses of types and blocks), [Program]
      (Diagnostics: names, [what], the loader, the walk of the stack),
      [Emitted] (AuxHelper: what compilers emit for a class), [Posix]
      (ThreadInfo: [pthread_once] and thread-specific data) and [Vrs] (Ehabi:
      the registers of a frame, and the step to the next).

    ** Files and what they correspond to

    - Prelude, CString, Platform: outcomes, monad, generic lemmas; the parts
      of <string.h>, <ctype.h> and [strtol] that are used; the allocator.
    - VectorStr ([struct vector_str], the [vector_str_*] functions) and
      VectorAux ([vector_type_qualifier_*], [vector_read_cmd_*]).
    - DemState: [struct cpp_demangle_data] and the helpers on it.
    - DemQual: [cpp_demangle_push_type_qualifier].
    - DemLex: numbers, offsets, source names, floating-point literals.
    - DemReaders: operator names, expressions, template parameters and
      arguments.  DemNames: names and substitutions.  DemTypes: types.
    - Demangler: encodings, [__cxa_demangle_gnu3], [is_cpp_mangled_gnu3].
      CxaDemangle: [__cxa_demangle], over it.
    - CxaAtexit: [__cxa_atexit], [__cxa_finalize] and [cleanup].
    - DwarfEh: LEB128 and the other encoded values, [parse_lsda] and
      [dwarf_eh_find_callsite], over a memory (class [Memory]) and what the
      unwinder says of the frame ([unwind_context]); the state of a
      computation is the pointer into the table.
    - Guard: modules [Single] and [Double], the two layouts of a guard.  The
      functions are cut at their accesses to the guard: a thread has a program
      counter, [step t c] is the next access of thread [t], [reachable] the
      states of any interleaving.
    - TypeInfo: [type_info] with its subclasses, [__do_upcast], [cast_to],
      [__do_catch], [__dynamic_cast].
    - OperatorNew: all forms of operator new and delete, with their theorems.
    - ExnState (headers, threads, memory), ExnHandlers ([thread_info], terminate
      and unexpected handlers), ExnAlloc (emergency buffers, allocation and
      release), Exception ([__cxa_throw], [__cxa_begin_catch],
      [__cxa_end_catch], [__cxa_rethrow], [exception_ptr], the end of a
      thread): the functions of [exception.cc], one definition each.
    - Personality: [__gxx_personality_v0] and what it calls.
    - EmergencyPool: [emergency_malloc] and [emergency_malloc_free] again, cut
      at their accesses to what threads share, as in Guard.  ExnShared:
      [releaseException] and the copies of [exception_ptr], the same way.
    - Diagnostics: [terminate_with_diagnostics] and [trace].  AuxHelper:
      [__cxa_bad_cast] and the other helpers, with the classes they throw.
    - ThreadInfo: [init_key], [thread_info], [__cxa_get_globals], with their
      theorems; elsewhere a thread simply has its information.
    - Ehabi: the ARM branches of [exception.cc] and [unwind-arm.h]: the stack
      of clean-ups, the registers of a frame, both phases of the personality
      function.
    - ExnSpec: the protocol that exceptions implement: a stack of exceptions
      in flight and active handlers per thread, and who owns an exception.

    The readers of the grammar call each other in cycles, and every cycle
    passes through one of four of them.  The class [Readers] (DemReaders) has
    these four as its operations; the other readers are ordinary definitions
    over it, and [Demangler.readers] is the instance: level [n + 1] runs the
    bodies over level [n].  Local vectors a C function puts on its stack are
    the stack [locals] of the state, and [cur_output], a pointer to one of the
    vectors, is a [vref].

    ** Bounds

    [recursion_fuel] is the length of the input plus 3 levels: every level
    consumes a character before it calls the next ([reader_depth_bounded]),
    so this is enough ([demangle_terminates]) and more makes no difference
    ([demangle_fuel_irrelevant]).  The loop over qualifiers in
    [cpp_demangle_read_type] has the length of the input plus 2 turns, for the
    same reason.  The loops the code bounds by [CPP_DEMANGLE_TRY_LIMIT] have
    that bound, [MORE_TRIES].  [finalize_loop] has one turn per block of the
    heap, and a list in the heap is not longer.  [read_leb128] has the ten
    turns its assertion allows and one for the assertion; [callsite_loop] has
    one turn per byte of the table, and a record takes four at least.
    [release] goes from a dependent exception to its primary, one level per
    block of memory at most; [calls_refine_protocol] shows that it ends.
    [new_loop] and [action_loop] take their fuel as an argument, since both
    can run for ever ([operator_new_diverges], [cyclic_chain_never_decided]);
    how much is enough is part of [operator_new_refines], [operator_new_live]
    and [action_chain_decided].

    ** What is proved

    - VectorTheorems: a vector driven by any sequence of operations refines a
      list of strings, also when memory runs out (appending excepted, where
      the cleanup of the code frees too much); the command stack is last in,
      first out.
    - DemTheorems, on DemFrame (what every operation keeps), DemLogic (the
      judgement for the recursive readers, and every reader's proof of it),
      DemTotal, DemFuel and DemCrash (in which ways a run can go wrong): for
      every input and platform, termination, the shape of the result, the
      discipline of the stacks, the stability of back-references, the
      independence of the fuel.
    - RoundtripTheorems, on Mangling (the fragment: its syntax, its mangled
      form and its text), Roundtrip, RoundtripTypes, DemEval, DemLexEval and
      DemSeq (evaluating readers on a known piece of input, with known tables):
      a mangling function for a fragment is inverted by the demangler.  The
      fragment has plain and nested names with template arguments of any number
      and depth, built-in and class types, qualified, template parameters, and
      back-references to any candidate, as variables, functions and instances
      of function templates with their return types.
    - CompressionTheorems, on Compression: the mangling as compilers write it,
      where every component that occurred before, instances and the prefixes of
      names included, is replaced by its sequence id, is inverted too, as long
      as no candidate is a proper prefix of an earlier one.
    - LexTheorems: numbers, back-references by their base-36 number, names,
      offsets, floating-point images, and what happens at their bounds.
    - PathTheorems: operator names, the tables of codes, and complete runs
      where the code does something it does not mean to.  TestCases: cases of
      the repository's own test file, run on the model, with the wrong answers
      the file records, and minimal inputs for them.
    - CxaDemangleTheorems: what [__cxa_demangle] returns, in which buffer and
      with which status; the round trip through it.
    - CxaAtexitTheorems: registration and finalization refine a list of
      handlers; the loop of [__cxa_finalize] reads a node it has freed.
    - DwarfEhTheorems: LEB128 numbers are read back as encoded, within the 31
      bits the code has in fact; the search of a call-site table finds the
      record for the instruction, ends, and may read one record too many.
    - GuardTheorems: mutual exclusion, one initialisation, and what a thread
      may rely on after an acquire, for both layouts and any interleaving; an
      assertion that can fail because it is evaluated without the lock.
    - TypeInfoTheorems: upcasts and [dynamic_cast] find the subobjects of a
      class; handlers for pointers decide the qualification conversions.
    - OperatorNew: the loop is the standard's; the [nothrow] forms; when it
      ends.
    - ExnTheorems: the functions of Exception, driven by any threads in any
      order compiled code may call them, refine the protocol of ExnSpec; from
      it, no object is destroyed twice or never, and nothing leaks.  The
      protocol's invariant is in ExnSpecLemmas, the relation between memory
      and protocol with the rules to keep it in ExnRefine, and a simulation
      lemma per function in ExnSim.
    - PersonalityProtocol: calls of the personality function may come anywhere
      in such a run.  AuxTheorems: the helpers throw by calls of the protocol.
    - ExnShared: an exception shared by threads is destroyed and freed once,
      after its last owner.
    - ExnEdges: handlers, foreign exceptions, and runs that go wrong.
    - PersonalityTheorems: how a chain of action records is decided, which
      objects a clause catches, that the two phases agree, and [terminate] for
      calls no call site covers.
    - EmergencyPool: a buffer belongs to one thread at a time and is zeroed;
      no sleeper is forgotten while memory stays short, and how one can be
      when it does not.
    - DiagnosticsTheorems: what the default terminate handler prints, and what
      it does not.
    - EhabiTheorems: on ARM clean-ups nest, and the two phases agree; what a
      foreign exception does to the clean-ups it interrupts, and which frame
      phase 2 misses.
    - ThreadInfo: every thread gets information of its own, always the same;
      what happens when there is no free key, or no slot.

    Theorems named after a fault ([overlong_name_out_of_bounds],
    [seq_id_negative_aborts], [cxx_inside_foreign_corrupts] ...) state what
    the code does, not what it should do.

    ** What is not modelled

    The unwinder is outside the repository, and so are libc's allocator and
    its printing of floating-point numbers.  Pointers have 64 bits, on ARM too,
    where the layout of headers is not modelled again, and the tables of a frame
    are given as what they say of it.  The build without emergency buffers
    ([LIBCXXRT_NO_EMERGENCY_MALLOC]) and the tests are left out.  ExnTheorems
    asks for destructors that return and an unwinder that finds a frame to
    enter; what a destructor does to the runtime is a sequence of calls of its own, between
    those of its thread; what else is written to an exception between calls, to
    its object and to the fields of the unwinder, is arbitrary.
    Calls on exceptions are not interrupted by other threads except in
    EmergencyPool and ExnShared.  Threads see each other's accesses in one order
    (the memory orders of [atomic.h] are not told apart).  Sizes of
    allocations are not bounded by the address space; the round trips ask for
    inputs shorter than 2^60 bytes.  Function types, arrays,
    pointers to members and expressions are in the theorems on every input
    (DemTheorems), not in the fragment of the round trips; and the compressing
    mangling has no template parameters. *)

From stdpp Require Export base list strings.
From Stdlib Require Export ZArith Ascii.
From Stdlib Require Export Lia.

#[global] Open Scope Z_scope.

(** ** Ways a C execution goes wrong

    A behaviour the C standard leaves undefined, or a failed [assert], is a
    value of the model, so that theorems can say where it happens and where
    it cannot. *)
Inductive crash :=
  | OutOfBounds      (** read or pointer arithmetic outside the input *)
  | NullDeref        (** access through a null pointer *)
  | UseAfterFree
  | DoubleFree
  | UninitRead       (** a byte or a variable read before it is written *)
  | SignedOverflow
  | BadShift         (** a shift by the width of the type or more *)
  | BadWord          (** a word of memory used as what it does not hold *)
  | AssertFail       (** [assert], or [abort], stops the process *)
  | Terminate        (** [std::terminate] is called *)
  | Deadlock.        (** a thread waits for a lock it holds itself *)

#[global] Instance crash_eq_dec : EqDecision crash.
Proof. solve_decision. Defined.

(** ** Outcomes and computations

    A C function that returns a status is a computation over its state:
    [Ok] is a non-zero return, [Fail] is [return 0] (the state is kept: what
    was done before the failure stays done), [Crash] is the end of the
    process, and [NoFuel] only says that the fuel of the recursion ran out;
    no C execution corresponds to it. *)
Inductive outcome (S A : Type) :=
  | Ok (a : A) (s : S)
  | Fail (s : S)
  | Crash (c : crash)
  | NoFuel.
Arguments Ok {S A} _ _.
Arguments Fail {S A} _.
Arguments Crash {S A} _.
Arguments NoFuel {S A}.

Definition comp (S A : Type) : Type := S -> outcome S A.

Section Monad.
Context {S : Type}.

#[global] Instance comp_ret : MRet (comp S) := fun A a s => Ok a s.

#[global] Instance comp_bind : MBind (comp S) := fun A B f m s =>
  match m s with
  | Ok a s' => f a s'
  | Fail s' => Fail s'
  | Crash c => Crash c
  | NoFuel => NoFuel
  end.

Definition failed {A} : comp S A := fun s => Fail s.
Definition crashed {A} (c : crash) : comp S A := fun _ => Crash c.
Definition no_fuel {A} : comp S A := fun _ => NoFuel.
Definition gets {A} (f : S -> A) : comp S A := fun s => Ok (f s) s.
Definition modify (f : S -> S) : comp S unit := fun s => Ok tt (f s).

(** [if (!b) return 0;] *)
Definition guard_ (b : bool) : comp S unit := if b then mret tt else failed.

(** [assert(b)] *)
Definition assert_ (b : bool) : comp S unit :=
  if b then mret tt else crashed AssertFail.

(** The status of a call as a value, for the callers that do not simply
    propagate it. *)
Definition status {A} (m : comp S A) : comp S bool := fun s =>
  match m s with
  | Ok _ s' => Ok true s'
  | Fail s' => Ok false s'
  | Crash c => Crash c
  | NoFuel => NoFuel
  end.

(** [m], and on failure the cleanup [h] before the failure is returned. *)
Definition on_fail {A} (m : comp S A) (h : comp S unit) : comp S A := fun s =>
  match m s with
  | Fail s' => match h s' with
               | Ok _ s'' | Fail s'' => Fail s''
               | Crash c => Crash c
               | NoFuel => NoFuel
               end
  | o => o
  end.
End Monad.

(** A C [switch] on a constant expression: the first label equal to the
    scrutinee is taken, the default otherwise. *)
Fixpoint switch {K A : Type} `{EqDecision K} (k : K) (cases : list (K * A))
    (default : A) : A :=
  match cases with
  | [] => default
  | (k', a) :: cases => if decide (k = k') then a else switch k cases default
  end.

(** Evaluating a sequence whose first part has a known result. *)
Lemma bind_Ok {S A B} (m : comp S A) (f : A -> comp S B) s a s' :
  m s = Ok a s' -> (m ≫= f) s = f a s'.
Proof. intros H. unfold mbind, comp_bind. by rewrite H. Qed.

Lemma bind_Fail {S A B} (m : comp S A) (f : A -> comp S B) s s' :
  m s = Fail s' -> (m ≫= f) s = Fail s'.
Proof. intros H. unfold mbind, comp_bind. by rewrite H. Qed.

Lemma bind_Crash {S A B} (m : comp S A) (f : A -> comp S B) s c :
  m s = Crash c -> (m ≫= f) s = Crash c.
Proof. intros H. unfold mbind, comp_bind. by rewrite H. Qed.

Lemma bind_ret {S A B} (a : A) (f : A -> comp S B) s : (mret a ≫= f) s = f a s.
Proof. done. Qed.

Lemma bind_assoc {S A B C} (m : comp S A) (f : A -> comp S B) (g : B -> comp S C) s :
  ((m ≫= f) ≫= g) s = (m ≫= fun a => f a ≫= g) s.
Proof. unfold mbind, comp_bind. by destruct (m s). Qed.

Lemma bind_guard {S B} b (f : unit -> comp S B) s :
  b = true -> (guard_ b ≫= f) s = f tt s.
Proof. by intros ->. Qed.

Lemma bind_assert {S B} b (f : unit -> comp S B) s :
  b = true -> (assert_ b ≫= f) s = f tt s.
Proof. by intros ->. Qed.

(** [run H]: the first computation of the sequence has the result [H]. *)
Ltac run H := first
  [ erewrite bind_Ok by (eapply H; eauto)
  | erewrite bind_Fail by (eapply H; eauto)
  | erewrite bind_Crash by (eapply H; eauto) ]; cbv beta iota.

(** [run1]: the first computation evaluates by conversion. *)
Ltac run1 := erewrite bind_Ok by reflexivity; cbv beta iota.

(** ** Reasoning about computations

    [pres R m] is the invariant form: every step of [m] is in [R]. *)
Section Logic.
Context {S : Type}.

(** A relation between the states before and after, whatever the status;
    and the fuel does not run out. *)
Definition pres (R : S -> S -> Prop) {A} (m : comp S A) : Prop := forall s,
  match m s with
  | Ok _ s' | Fail s' => R s s'
  | Crash _ => True
  | NoFuel => False
  end.

Context (R : S -> S -> Prop) `{HR : !PreOrder R}.

Lemma pres_ret {A} (a : A) : pres R (mret a).
Proof. intros s. cbn. reflexivity. Qed.

Lemma pres_failed {A} : pres R (failed (A := A)).
Proof. intros s. cbn. reflexivity. Qed.

Lemma pres_crashed {A} c : pres R (crashed (A := A) c).
Proof. intros s. exact I. Qed.

Lemma pres_gets {A} (f : S -> A) : pres R (gets f).
Proof. intros s. cbn. reflexivity. Qed.

Lemma pres_modify f : (forall s, R s (f s)) -> pres R (modify f).
Proof. intros H s. apply H. Qed.

Lemma pres_guard b : pres R (guard_ b).
Proof. destruct b; [apply pres_ret | apply pres_failed]. Qed.

Lemma pres_assert b : pres R (assert_ b).
Proof. destruct b; [apply pres_ret | apply pres_crashed]. Qed.

Lemma pres_bind {A B} (m : comp S A) (f : A -> comp S B) :
  pres R m -> (forall a, pres R (f a)) -> pres R (m ≫= f).
Proof.
  intros Hm Hf s. unfold mbind, comp_bind. specialize (Hm s).
  destruct (m s) as [a s'|s'|c|]; try done.
  specialize (Hf a s'). destruct (f a s'); try done; by etrans.
Qed.

Lemma pres_status {A} (m : comp S A) : pres R m -> pres R (status m).
Proof. intros Hm s. unfold status. specialize (Hm s). by destruct (m s). Qed.

Lemma pres_on_fail {A} (m : comp S A) h :
  pres R m -> pres R h -> pres R (on_fail m h).
Proof.
  intros Hm Hh s. unfold on_fail. specialize (Hm s). destruct (m s) as [|s'| |]; try done.
  specialize (Hh s'). destruct (h s'); try done; by etrans.
Qed.

Lemma pres_switch {K A} `{EqDecision K} (k : K) (cs : list (K * comp S A)) d :
  Forall (fun c => pres R c.2) cs -> pres R d -> pres R (switch k cs d).
Proof.
  intros Hcs Hd. induction Hcs as [|[k' m] cs Hm _ IH]; [done|].
  cbn. case_decide; done.
Qed.
End Logic.

Create HintDb pres.
Create HintDb vec.
#[export] Hint Resolve pres_ret pres_failed pres_crashed pres_gets
  pres_guard pres_assert : pres.

(** Walks through a computation, one monadic combinator at a time; what is
    left are the primitive steps the hint database does not know. *)
Ltac pres_step :=
  match goal with
  | |- PreOrder _ => typeclasses eauto
  | |- pres _ (mbind _ _) => apply pres_bind; [.. | intros ?]
  | |- pres _ (status _) => apply pres_status
  | |- pres _ (on_fail _ _) => apply pres_on_fail
  | |- pres _ (switch _ _ _) =>
      apply pres_switch; [repeat apply Forall_cons_2; [..| apply Forall_nil_2]; cbn [snd] |]
  | |- pres _ (if ?b then _ else _) => destruct b eqn:?
  | |- pres _ (match ?x with _ => _ end) => destruct x eqn:?
  | |- _ => solve [eauto 4 with pres typeclass_instances]
  end.
Ltac pres_auto := repeat pres_step.

(** ** Machine integers *)
Definition SIZE_MOD : Z := 2 ^ 64.
Definition LONG_MAX : Z := 2 ^ 63 - 1.
Definition LONG_MIN : Z := - 2 ^ 63.

(** Unsigned 64-bit arithmetic wraps around. *)
Definition size_t (z : Z) : Z := z mod SIZE_MOD.

Lemma size_t_small z : 0 <= z < SIZE_MOD -> size_t z = z.
Proof. apply Z.mod_small. Qed.

(** Lengths, as the [size_t] the code counts in. *)
Definition zlength {A} (l : list A) : Z := Z.of_nat (length l).

Lemma zlength_app {A} (l1 l2 : list A) : zlength (l1 ++ l2) = zlength l1 + zlength l2.
Proof. unfold zlength. rewrite length_app. lia. Qed.
Lemma zlength_cons {A} (a : A) l : zlength (a :: l) = 1 + zlength l.
Proof. unfold zlength. cbn. lia. Qed.
Lemma zlength_nonneg {A} (l : list A) : 0 <= zlength l.
Proof. unfold zlength. lia. Qed.
#[export] Hint Resolve zlength_nonneg : core.

(** [take]/[drop] by a [Z] count; the count is clipped to the list first, so
    that a huge count from the input stays cheap to evaluate. *)
Definition ztake {A} (n : Z) (l : list A) : list A := take (Z.to_nat (Z.min n (zlength l))) l.
Definition zdrop {A} (n : Z) (l : list A) : list A := drop (Z.to_nat (Z.min n (zlength l))) l.

Lemma ztake_app {A} (l1 l2 : list A) : ztake (zlength l1) (l1 ++ l2) = l1.
Proof.
  unfold ztake. rewrite zlength_app. pose proof (zlength_nonneg l2).
  rewrite Z.min_l by lia. unfold zlength. rewrite Nat2Z.id. apply take_app_length.
Qed.
Lemma ztake_all {A} n (l : list A) : zlength l <= n -> ztake n l = l.
Proof.
  intros. unfold ztake. rewrite Z.min_r by done. unfold zlength.
  rewrite Nat2Z.id. by apply take_ge.
Qed.
Lemma zdrop_app {A} (l1 l2 : list A) : zdrop (zlength l1) (l1 ++ l2) = l2.
Proof.
  unfold zdrop. rewrite zlength_app. pose proof (zlength_nonneg l2).
  rewrite Z.min_l by lia. unfold zlength. rewrite Nat2Z.id. apply drop_app_length.
Qed.
Lemma zdrop_0 {A} (l : list A) : zdrop 0 l = l.
Proof. unfold zdrop. rewrite Z.min_l by done. apply drop_0. Qed.

(** ** Counting in lists *)

Section Weighing.
  Context {A : Type} (w : A -> nat).

Fixpoint weigh (l : list A) : nat := match l with [] => 0 | x :: l => w x + weigh l end%nat.

Lemma weigh_insert (l : list A) i x y : l !! i = Some x -> (weigh (<[i := y]> l) + w x = weigh l + w y)%nat.
Proof.
  revert i. induction l as [|z l IH]; intros [|i] H; try done; cbn in *.
  - injection H as ->. lia.
  - specialize (IH _ H). unfold insert in *. lia.
Qed.

Lemma weigh_positive (l : list A) : (0 < weigh l)%nat <-> exists i x, l !! i = Some x /\ (0 < w x)%nat.
Proof.
  induction l as [|z l IH]; cbn; [split; [lia|by intros (i & x & ? & _)]|]. split.
  - intros H. destruct (decide (0 < w z)%nat) as [Hz|Hz]; [by exists 0%nat, z|].
    destruct (proj1 IH) as (i & x & Hx & Hw); [lia|]. by exists (S i), x.
  - intros ([|i] & x & Hx & Hw); cbn in Hx; [injection Hx as ->; lia|].
    enough (0 < weigh l)%nat by lia. apply IH. by exists i, x.
Qed.
End Weighing.
