(* ===== verification/CString.v ===== *)
(** * C strings and the parts of libc the demangler relies on

    Bytes are [ascii]; a NUL-terminated string is the list of the bytes
    before its terminator.  What [libelftc_dem_gnu3.c] uses of <string.h>,
    <ctype.h>, [strtol] and [printf("%ld")] is written out here; [char] is
    signed, [long] has 64 bits (the LP64 targets the library is built for). *)
From S2P Require Import Prelude.

Abbreviation bytes := (list ascii).

Definition NUL : ascii := Ascii.zero.

(** String literals of the source, as bytes. *)
Definition lit (s : string) : bytes := String.list_ascii_of_string s.

(** What a [char *] may point at. *)
Inductive mem :=
  | Bytes (l : bytes)   (** a live, NUL-terminated string *)
  | Uninit              (** allocated, never written *)
  | Freed.

#[global] Instance mem_eq_dec : EqDecision mem.
Proof. solve_decision. Defined.

(** Any read through the pointer. *)
Definition read_cstr {S} (p : mem) : comp S bytes :=
  match p with
  | Bytes l => mret l
  | Uninit => crashed UninitRead
  | Freed => crashed UseAfterFree
  end.

Lemma pres_read_cstr {S} (R : S -> S -> Prop) `{!PreOrder R} p : pres R (read_cstr p).
Proof. destruct p; cbn; auto with pres typeclass_instances. Qed.
#[export] Hint Resolve pres_read_cstr : pres.

(** ** Characters *)
Definition uchar (c : ascii) : Z := Z.of_N (N_of_ascii c).

(** The value of a (signed) [char] promoted to [int]. *)
Definition schar (c : ascii) : Z := if uchar c <? 128 then uchar c else uchar c - 256.

Definition char_le (a b : ascii) : bool := schar a <=? schar b.

(** [ELFTC_ISDIGIT] *)
Definition ELFTC_ISDIGIT (c : ascii) : bool :=
  let i := Z.land (schar c) 255 in (48 <=? i) && (i <=? 57).

(** [isspace] in the C locale *)
Definition isspace (c : ascii) : bool :=
  (uchar c =? 32) || ((9 <=? uchar c) && (uchar c <=? 13)).

(** [#define SIMPLE_HASH(x,y) (64 * x + y)] *)
Definition SIMPLE_HASH (x y : ascii) : Z := 64 * schar x + schar y.

(** ** Comparison and search *)

(** [strncmp(a, b, n) == 0] on the bytes before the terminators. *)
Fixpoint strncmp_eq (a b : bytes) (n : nat) {struct n} : bool :=
  match n with
  | O => true
  | S n => match a, b with
           | [], [] => true
           | x :: a, y :: b => if decide (x = y) then strncmp_eq a b n else false
           | _, _ => false
           end
  end.

Fixpoint is_prefix (p s : bytes) {struct p} : bool :=
  match p, s with
  | [], _ => true
  | x :: p, y :: s => if decide (x = y) then is_prefix p s else false
  | _ :: _, [] => false
  end.

(** [strstr(s, p) != NULL] *)
Fixpoint strstr (s p : bytes) : bool :=
  is_prefix p s || match s with [] => false | _ :: s => strstr s p end.

Lemma is_prefix_spec p s : is_prefix p s = true <-> p `prefix_of` s.
Proof.
  revert s. induction p as [|x p IH]; intros s.
  { cbn. split; [intros _; apply prefix_nil | done]. }
  destruct s as [|y s]; cbn.
  { split; [done | by intros ?%prefix_nil_not]. }
  case_decide as Hxy; subst.
  - rewrite IH. split; [apply prefix_cons | apply prefix_cons_inv_2].
  - split; [done | by intros ?%prefix_cons_inv_1].
Qed.

(** Comparing at most [n] bytes with a string of length [n] tests whether
    that string is a prefix; so does stopping at the terminator of [a]. *)
Lemma strncmp_eq_prefix a b n :
  (length b = n \/ (length a < n <= length b)%nat) -> strncmp_eq a b n = is_prefix b a.
Proof.
  revert b n. induction a as [|x a IH]; intros b n H.
  - destruct b as [|y b]; cbn in *; [by replace n with 0%nat by lia|].
    by destruct n; [cbn in *; lia|].
  - destruct b as [|y b]; cbn in *; [by replace n with 0%nat by lia|].
    destruct n as [|n]; [lia|]. cbn.
    destruct (decide (x = y)) as [->|Hne].
    + rewrite decide_True by done. apply IH. lia.
    + by rewrite decide_False by congruence.
Qed.

Lemma strstr_app a p b : strstr (a ++ p ++ b) p = true.
Proof.
  induction a as [|x a IH]; cbn [app].
  - assert (is_prefix p (p ++ b) = true) as Hp by (apply is_prefix_spec; by exists b).
    destruct (p ++ b); cbn [strstr]; by rewrite Hp.
  - cbn [strstr]. by rewrite IH, orb_true_r.
Qed.

(** ** strtol *)

(** The digit value of an alphanumeric character, as [strtol] takes it. *)
Definition digit_value (c : ascii) : option Z :=
  let u := uchar c in
  if (48 <=? u) && (u <=? 57) then Some (u - 48)
  else if (65 <=? u) && (u <=? 90) then Some (u - 55)
  else if (97 <=? u) && (u <=? 122) then Some (u - 87)
  else None.

(** The longest run of digits of the base, and whether there is one. *)
Fixpoint digits_from (base acc : Z) (some : bool) (s : bytes) : Z * bool :=
  match s with
  | [] => (acc, some)
  | c :: s' => match digit_value c with
               | Some d => if d <? base then digits_from base (acc * base + d) true s'
                           else (acc, some)
               | None => (acc, some)
               end
  end.

Fixpoint skip_spaces (s : bytes) : bytes :=
  match s with
  | [] => []
  | c :: s' => if isspace c then skip_spaces s' else s
  end.

(** The value, saturated to [long], and whether [errno] is set: [ERANGE] on
    overflow; when nothing is converted POSIX lets the C library choose
    ([einval]) whether to set [EINVAL]. *)
Definition strtol (einval : bool) (base : Z) (s : bytes) : Z * bool :=
  let s := skip_spaces s in
  let '(sign, s) := match s with
                    | c :: s' => if decide (c = "-"%char) then (-1, s')
                                 else if decide (c = "+"%char) then (1, s')
                                 else (1, s)
                    | [] => (1, [])
                    end in
  let '(v, converted) := digits_from base 0 false s in
  let v := sign * v in
  if negb converted then (0, einval)
  else if v >? LONG_MAX then (LONG_MAX, true)
  else if v <? LONG_MIN then (LONG_MIN, true)
  else (v, false).

(** ** Decimal output *)
Definition digit_char (d : Z) : ascii := ascii_of_N (Z.to_N (48 + d)).

Fixpoint dec_digits (fuel : nat) (n : Z) : bytes :=
  match fuel with
  | O => []
  | S fuel => if n <? 10 then [digit_char n]
              else dec_digits fuel (n / 10) ++ [digit_char (n mod 10)]
  end.

(** The decimal digits of a natural number; [log2 n + 1] divisions by ten
    always reach zero. *)
Definition dec_of_nat_Z (n : Z) : bytes := dec_digits (S (Z.to_nat (Z.log2 n))) n.

(** [printf("%ld", n)] *)
Definition fmt_ld (n : Z) : bytes :=
  if n <? 0 then "-"%char :: dec_of_nat_Z (- n) else dec_of_nat_Z n.

(** *** The decimal digits read back *)
Lemma uchar_digit d : 0 <= d < 10 -> uchar (digit_char d) = 48 + d.
Proof.
  intros. unfold uchar, digit_char. rewrite N_ascii_embedding by lia. lia.
Qed.

Lemma digit_value_digit d : 0 <= d < 10 -> digit_value (digit_char d) = Some d.
Proof.
  intros. unfold digit_value. rewrite uchar_digit by done.
  rewrite (proj2 (Z.leb_le 48 _)), (proj2 (Z.leb_le _ 57)) by lia. cbn. f_equal. lia.
Qed.

Lemma isdigit_digit d : 0 <= d < 10 -> ELFTC_ISDIGIT (digit_char d) = true.
Proof.
  intros. unfold ELFTC_ISDIGIT, schar. rewrite uchar_digit by done.
  assert (d = 0 \/ d = 1 \/ d = 2 \/ d = 3 \/ d = 4 \/ d = 5 \/ d = 6 \/ d = 7 \/ d = 8 \/ d = 9) as Hd by lia.
  repeat (destruct Hd as [->|Hd]; [reflexivity|]). by subst.
Qed.

Lemma dec_digits_isdigit fuel n :
  0 <= n -> Forall (fun c => ELFTC_ISDIGIT c = true) (dec_digits fuel n).
Proof.
  revert n. induction fuel as [|fuel IH]; intros n Hn; cbn; [constructor|].
  destruct (Z.ltb_spec n 10).
  - repeat constructor. apply isdigit_digit. lia.
  - apply Forall_app. split; [apply IH; apply Z.div_pos; lia|].
    repeat constructor. apply isdigit_digit. apply Z.mod_pos_bound. lia.
Qed.

Lemma digits_from_app base acc b s1 s2 :
  Forall (fun c => exists d, digit_value c = Some d /\ d < base) s1 ->
  digits_from base acc b (s1 ++ s2)
  = digits_from base (digits_from base acc b s1).1 (digits_from base acc b s1).2 s2.
Proof.
  intros H. revert acc b. induction H as [|c s1 (d & Hd & Hlt) _ IH]; intros acc b; [done|].
  cbn. rewrite Hd. rewrite (proj2 (Z.ltb_lt _ _)) by done. apply IH.
Qed.

Lemma dec_digits_decimal fuel n :
  0 <= n -> Forall (fun c => exists d, digit_value c = Some d /\ d < 10) (dec_digits fuel n).
Proof.
  revert n. induction fuel as [|fuel IH]; intros n Hn; cbn; [constructor|].
  destruct (Z.ltb_spec n 10).
  - repeat constructor. exists n. rewrite digit_value_digit by lia. auto with lia.
  - apply Forall_app. split; [apply IH; apply Z.div_pos; lia|].
    pose proof (Z.mod_pos_bound n 10 ltac:(lia)).
    repeat constructor. exists (n mod 10). rewrite digit_value_digit by lia. auto with lia.
Qed.

Lemma dec_digits_value fuel n :
  0 <= n < 2 ^ Z.of_nat fuel -> digits_from 10 0 false (dec_digits fuel n) = (n, bool_decide (fuel <> 0%nat)).
Proof.
  revert n. induction fuel as [|fuel IH]; intros n Hn.
  { cbn in *. f_equal. lia. }
  cbn [dec_digits]. rewrite bool_decide_true by done.
  destruct (Z.ltb_spec n 10).
  - cbn. rewrite digit_value_digit by lia. by rewrite (proj2 (Z.ltb_lt _ _)) by lia.
  - rewrite Nat2Z.inj_succ, Z.pow_succ_r in Hn by lia.
    rewrite digits_from_app by (apply dec_digits_decimal; apply Z.div_pos; lia).
    rewrite IH by (split; [apply Z.div_pos; lia | apply Z.div_lt_upper_bound; lia]).
    pose proof (Z.mod_pos_bound n 10 ltac:(lia)).
    cbn. rewrite digit_value_digit by lia. rewrite (proj2 (Z.ltb_lt _ _)) by lia.
    pose proof (Z.div_mod n 10). f_equal. lia.
Qed.

Lemma dec_of_nat_Z_value n : 0 <= n -> digits_from 10 0 false (dec_of_nat_Z n) = (n, true).
Proof.
  intros Hn. unfold dec_of_nat_Z. rewrite dec_digits_value; [done|].
  rewrite Nat2Z.inj_succ, Z2Nat.id by apply Z.log2_nonneg.
  destruct (decide (n = 0)) as [->|]; [cbn; lia|].
  pose proof (Z.log2_spec n). lia.
Qed.
