(* ===== verification/Platform.v ===== *)
(** * The platform: allocator and the freedoms the C standard leaves to libc

    One type class gathers what the demangler's behaviour depends on besides
    its input.  Nothing is assumed of it: theorems hold for every platform,
    unless they ask for [never_oom]. *)
From S2P Require Import Prelude CString.

(** The three representations [snprintf] is asked to print. *)
Inductive fp_kind := FpDouble | FpFloat | FpLongDouble.

Class Platform := {
  (** Does the [n]-th allocation of the run, for [size] bytes, succeed? *)
  malloc_ok : nat -> Z -> bool;
  (** Does [strtol] set [EINVAL] when nothing could be converted? POSIX
      permits both. *)
  strtol_einval : bool;
  (** [sizeof(long double)]: 16 on amd64, 12 on i386, 8 where it is a double *)
  sizeof_long_double : Z;
  (** The text of [%f] ([%Lf]) for an object with this memory image. *)
  fmt_f : fp_kind -> list Z -> bytes;
}.

(** A platform whose allocator never fails. *)
Definition never_oom {P : Platform} : Prop := forall n size, malloc_ok n size = true.

(** The plainest platform, for evaluations. *)
Definition plain_platform : Platform := {|
  malloc_ok _ _ := true;
  strtol_einval := false;
  sizeof_long_double := 16;
  fmt_f _ _ := lit "0.000000";
|}.

Lemma plain_never_oom : @never_oom plain_platform.
Proof. done. Qed.

Section Alloc.
Context {P : Platform}.

(** [malloc]: the identity of the new block, or NULL. The state counts the
    allocations, so identities are never reused. *)
Definition malloc (size : Z) : comp nat (option nat) := fun n =>
  Ok (if malloc_ok n size then Some n else None) (S n).

Lemma malloc_never_oom size n : never_oom -> malloc size n = Ok (Some n) (S n).
Proof. intros H. unfold malloc. by rewrite H. Qed.
End Alloc.
