(* ===== verification/VectorStr.v ===== *)
(** * struct vector_str: the growable vector of owned strings

    Models [libelftc_dem_gnu3.c], the [vector_str_*] functions.  A vector owns
    its strings: the container is the list of its cells in order, [size] is
    the length of the list, and a cell carries the identity of the allocation
    (what a [char *] into the vector compares) and what it points at.
    [capacity] is kept because growing depends on it.  Functions that return
    [false] return the vector as they leave it. *)
From S2P Require Import Prelude CString Platform.

Record cell := Cell { cid : nat; cval : mem }.

Record vector_str := VectorStr { capacity : Z; container : list cell }.

#[global] Instance cell_eq_dec : EqDecision cell.
Proof. solve_decision. Defined.
#[global] Instance vector_str_eq_dec : EqDecision vector_str.
Proof. solve_decision. Defined.

Definition size (v : vector_str) : Z := zlength (container v).

(** [BUFFER_GROW(x)] is [((x)+0.5)*1.618] truncated to [size_t]. *)
Definition BUFFER_GROW (x : Z) : Z := (2 * x + 1) * 809 / 1000.

Definition VECTOR_DEF_CAPACITY : Z := 8.
Definition SIZEOF_PTR : Z := 8.

Section Ops.
Context {P : Platform}.

Fixpoint strlen_sum (cs : list cell) : comp nat Z :=
  match cs with
  | [] => mret 0
  | c :: cs => s ← read_cstr (cval c); n ← strlen_sum cs; mret (zlength s + n)
  end.

Definition get_strlen_sum (v : vector_str) : comp nat Z :=
  assert_ (0 <? size v);;
  strlen_sum (container v).

Fixpoint free_cells (cs : list cell) : comp nat unit :=
  match cs with
  | [] => mret tt
  | c :: cs => match cval c with
               | Freed => crashed DoubleFree
               | _ => free_cells cs
               end
  end.

Definition vector_str_dest (v : vector_str) : comp nat unit :=
  free_cells (container v).

Fixpoint find_cells (cs : list cell) (o : mem) (l : Z) : comp nat Z :=
  match cs with
  | [] => mret 0
  | c :: cs =>
      b ← (if l =? 0 then mret true else
             a ← read_cstr (cval c); b ← read_cstr o;
             (** no comparison reads past the shorter string's terminator *)
             mret (strncmp_eq a b (Z.to_nat (Z.min l (1 + zlength a)))));
      if (b : bool) then mret 1 else find_cells cs o l
  end.

(** -1 on a NULL argument, 0 not found, 1 found *)
Definition vector_str_find (v : vector_str) (o : option mem) (l : Z) : comp nat Z :=
  match o with
  | None => mret (-1)
  | Some o => find_cells (container v) o l
  end.

Fixpoint concat_cells (cs : list cell) : comp nat bytes :=
  match cs with
  | [] => mret []
  | c :: cs => s ← read_cstr (cval c); r ← concat_cells cs; mret (s ++ r)
  end.

(** The flat string and its length, or NULL. *)
Definition vector_str_get_flat (v : vector_str) : comp nat (option (mem * Z)) :=
  if size v =? 0 then mret None else
  rtn_size ← get_strlen_sum v;
  if rtn_size =? 0 then mret None else
  p ← malloc (rtn_size + 1);
  match p with
  | None => mret None
  | Some _ => s ← concat_cells (container v); mret (Some (Bytes s, rtn_size))
  end.

Definition vector_str_grow (v : vector_str) : comp nat (bool * vector_str) :=
  assert_ (0 <? capacity v);;
  let tmp_cap := BUFFER_GROW (capacity v) in
  assert_ (capacity v <? tmp_cap);;
  p ← malloc (SIZEOF_PTR * tmp_cap);
  match p with
  | None => mret (false, v)
  | Some _ => mret (true, VectorStr tmp_cap (container v))
  end.

Definition vector_str_init : comp nat (option vector_str) :=
  p ← malloc (SIZEOF_PTR * VECTOR_DEF_CAPACITY);
  mret (match p with
        | None => None
        | Some _ => Some (VectorStr VECTOR_DEF_CAPACITY [])
        end).

(** The last string is freed; popping an empty vector is a success. *)
Definition vector_str_pop (v : vector_str) : comp nat (bool * vector_str) :=
  if size v =? 0 then mret (true, v) else
  match last (container v) with
  | Some (Cell _ Freed) => crashed DoubleFree
  | _ => mret (true, VectorStr (capacity v) (removelast (container v)))
  end.

(** [strlcpy]: at most [dsize - 1] bytes of the source, then a NUL. With
    [dsize = 1] the source is not read at all. *)
Definition copy_string (src : mem) (dsize : Z) : comp nat bytes :=
  if dsize <=? 1 then mret [] else
  s ← read_cstr src; mret (ztake (dsize - 1) s).

Definition vector_str_push (v : vector_str) (str : mem) (len : Z)
    : comp nat (bool * vector_str) :=
  '(ok, v) ← (if size v =? capacity v then vector_str_grow v else mret (true, v));
  if negb ok then mret (false, v) else
  p ← malloc (len + 1);
  match p with
  | None => mret (false, v)
  | Some id =>
      s ← copy_string str (len + 1);
      mret (true, VectorStr (capacity v) (container v ++ [Cell id (Bytes s)]))
  end.

(** [strdup] of each string in turn; stops at the first that fails. *)
Fixpoint dup_cells (cs : list cell) : comp nat (option (list cell)) :=
  match cs with
  | [] => mret (Some [])
  | c :: cs =>
      s ← read_cstr (cval c);
      p ← malloc (zlength s + 1);
      match p with
      | None => mret None
      | Some id => r ← dup_cells cs;
                   mret (match r with
                         | None => None
                         | Some l => Some (Cell id (Bytes s) :: l)
                         end)
      end
  end.

(** On failure the copies made so far are freed and [dst] is intact. *)
Definition vector_str_push_vector_head (dst org : vector_str)
    : comp nat (bool * vector_str) :=
  let tmp_cap := BUFFER_GROW (size dst + size org) in
  p ← malloc (SIZEOF_PTR * tmp_cap);
  match p with
  | None => mret (false, dst)
  | Some _ =>
      r ← dup_cells (container org);
      match r with
      | None => mret (false, dst)
      | Some copies => mret (true, VectorStr tmp_cap (copies ++ container dst))
      end
  end.

(** On failure the cleanup loop runs over [j < i + dst->size], which frees
    the strings of [dst] itself: [dst] keeps pointing at freed blocks. *)
Definition vector_str_push_vector (dst org : vector_str)
    : comp nat (bool * vector_str) :=
  let tmp_cap := BUFFER_GROW (size dst + size org) in
  p ← malloc (SIZEOF_PTR * tmp_cap);
  match p with
  | None => mret (false, dst)
  | Some _ =>
      r ← dup_cells (container org);
      match r with
      | None =>
          mret (false, VectorStr (capacity dst)
                         ((fun c => Cell (cid c) Freed) <$> container dst))
      | Some copies => mret (true, VectorStr tmp_cap (container dst ++ copies))
      end
  end.

(** The cells [begin .. end] flattened. The loop bound [end + 1] is a
    [size_t]: for [end = SIZE_MAX] (an empty vector's [size - 1]) the loop
    does not run, and the one byte that was allocated is never written. *)
Definition vector_str_substr (v : vector_str) (begin end_ : Z)
    : comp nat (option (mem * Z)) :=
  if end_ <? begin then mret None else
  let stop := size_t (end_ + 1) in
  if stop <=? begin then
    p ← malloc 1;
    mret (match p with None => None | Some _ => Some (Uninit, 0) end)
  else
    if size v <? stop then crashed OutOfBounds else
    let cs := ztake (stop - begin) (zdrop begin (container v)) in
    len ← strlen_sum cs;
    p ← malloc (len + 1);
    match p with
    | None => mret None
    | Some _ => s ← concat_cells cs; mret (Some (Bytes s, len))
    end.
End Ops.

(** ** Specification

    The abstract value of a vector is its list of strings; [vec_ok v ss] says
    that [v] is well-formed (positive capacity, never over-full, every string
    live) and holds [ss]. *)
Definition vec_ok (v : vector_str) (ss : list bytes) : Prop :=
  0 < capacity v /\ size v <= capacity v /\ cval <$> container v = Bytes <$> ss.

Lemma vec_ok_size v ss : vec_ok v ss -> size v = zlength ss.
Proof.
  intros (_ & _ & H). unfold size, zlength.
  by rewrite <- (length_fmap cval), H, length_fmap.
Qed.

Lemma BUFFER_GROW_gt x : 0 < x -> x < BUFFER_GROW x.
Proof.
  intros. unfold BUFFER_GROW.
  assert (x + 1 <= (2 * x + 1) * 809 / 1000); [|lia].
  apply Z.div_le_lower_bound; lia.
Qed.

Lemma BUFFER_GROW_ge x : 0 <= x -> x <= BUFFER_GROW x.
Proof. intros. unfold BUFFER_GROW. apply Z.div_le_lower_bound; lia. Qed.

#[export] Hint Resolve BUFFER_GROW_gt BUFFER_GROW_ge : vec.

Section Specs.
Context {P : Platform}.

Lemma cells_cons c cs ss :
  cval <$> (c :: cs) = Bytes <$> ss ->
  exists s ss', ss = s :: ss' /\ cval c = Bytes s /\ cval <$> cs = Bytes <$> ss'.
Proof. destruct ss as [|s ss']; [done|]. cbn. intros [= ? ?]. eauto. Qed.

Lemma strlen_sum_ok cs ss n :
  cval <$> cs = Bytes <$> ss ->
  strlen_sum cs n = Ok (zlength (concat ss)) n.
Proof.
  revert ss. induction cs as [|c cs IH]; intros ss H.
  - by destruct ss.
  - apply cells_cons in H as (s & ss' & -> & Hc & Hcs).
    cbn [strlen_sum concat]. rewrite Hc. run1. run (IH ss' Hcs).
    by rewrite zlength_app.
Qed.

Lemma concat_cells_ok cs ss n :
  cval <$> cs = Bytes <$> ss -> concat_cells cs n = Ok (concat ss) n.
Proof.
  revert ss. induction cs as [|c cs IH]; intros ss H.
  - by destruct ss.
  - apply cells_cons in H as (s & ss' & -> & Hc & Hcs).
    cbn [concat_cells]. rewrite Hc. run1. by run (IH ss' Hcs).
Qed.

Lemma free_cells_ok cs ss n :
  cval <$> cs = Bytes <$> ss -> free_cells cs n = Ok tt n.
Proof.
  revert ss. induction cs as [|c cs IH]; intros ss H; [done|].
  apply cells_cons in H as (s & ss' & -> & Hc & Hcs).
  cbn [free_cells]. rewrite Hc. eauto.
Qed.

Lemma dup_cells_ok cs ss n :
  cval <$> cs = Bytes <$> ss ->
  exists r n', dup_cells cs n = Ok r n' /\ (n <= n')%nat /\
    (never_oom -> is_Some r) /\
    (forall l, r = Some l -> cval <$> l = Bytes <$> ss).
Proof.
  revert ss n. induction cs as [|c cs IH]; intros ss n H.
  - destruct ss; [|done]. exists (Some []), n. split; [done|].
    split; [lia|]. split; [eauto|]. by intros l [= <-].
  - apply cells_cons in H as (s & ss' & -> & Hc & Hcs).
    cbn [dup_cells]. rewrite Hc. run1. run1.
    destruct (malloc_ok n (zlength s + 1)) eqn:Hm.
    + destruct (IH ss' (S n) Hcs) as (r & n' & Hr & Hn & Hoom & Hl). run Hr.
      eexists _, n'. split; [done|]. split; [lia|].
      destruct r as [l|]; [|naive_solver].
      split; [eauto|]. intros ? [= <-]. cbn. by rewrite (Hl l).
    + eexists None, (S n). split; [done|]. split; [lia|]. split; [|done].
      intros Ho. by rewrite Ho in Hm.
Qed.

(** Growing keeps the strings and makes room. *)
Lemma vector_str_grow_ok v ss n :
  vec_ok v ss ->
  exists b v', vector_str_grow v n = Ok (b, v') (S n) /\
    vec_ok v' ss /\ (b = true -> size v < capacity v') /\ (never_oom -> b = true).
Proof.
  intros (Hc & Hs & Hss). pose proof (BUFFER_GROW_gt _ Hc) as Hg.
  unfold vector_str_grow. rewrite bind_assert by (by apply Z.ltb_lt).
  rewrite bind_assert by (by apply Z.ltb_lt). run1.
  destruct (malloc_ok _ _) eqn:Hm; eexists _, _; (split; [done|]);
    unfold vec_ok, size in *; cbn in *; repeat split; try done; try lia.
  intros Ho. by rewrite Ho in Hm.
Qed.

(** What a push stores: at most [len] bytes of a live source string (which
    is not read at all when [len] is 0). *)
Definition pushed (str : mem) (len : Z) (s : bytes) : Prop :=
  (len = 0 /\ s = []) \/ (0 < len /\ exists src, str = Bytes src /\ s = ztake len src).

Lemma copy_string_ok str len s n :
  pushed str len s -> copy_string str (len + 1) n = Ok s n.
Proof.
  intros [[-> ->]|(Hlen & src & -> & ->)]; [done|]. unfold copy_string.
  rewrite (proj2 (Z.leb_gt _ _)) by lia. run1.
  by replace (len + 1 - 1) with len by lia.
Qed.

Lemma vec_ok_snoc v ss id s :
  vec_ok v ss -> size v < capacity v ->
  vec_ok (VectorStr (capacity v) (container v ++ [Cell id (Bytes s)])) (ss ++ [s]).
Proof.
  intros (Hc & Hs & Hss) Hlt. unfold vec_ok, size in *. cbn [container capacity].
  rewrite zlength_app, !fmap_app, Hss, zlength_cons.
  split; [done|]. split; [unfold zlength at 2; cbn [length]; lia | done].
Qed.

(** Pushing appends the string, or fails and changes nothing. *)
Lemma vector_str_push_ok v ss str len s n :
  vec_ok v ss -> pushed str len s ->
  exists b v' n', vector_str_push v str len n = Ok (b, v') n' /\ (n <= n')%nat /\
    vec_ok v' (if b then ss ++ [s] else ss) /\ (never_oom -> b = true).
Proof.
  intros Hv Hp. unfold vector_str_push.
  assert (exists b v1 n1,
    (if size v =? capacity v then vector_str_grow v else mret (true, v)) n = Ok (b, v1) n1 /\
    (n <= n1)%nat /\ vec_ok v1 ss /\ (b = true -> size v1 < capacity v1) /\
    (never_oom -> b = true)) as (b & v1 & n1 & Hg & Hn & Hv1 & Hroom & Hoom).
  { destruct (Z.eqb_spec (size v) (capacity v)).
    - destruct (vector_str_grow_ok v ss n Hv) as (b & v1 & Hg & Hv1 & Hr & Ho).
      eexists _, _, _. split; [done|]. split; [lia|]. split; [done|]. split; [|done].
      rewrite (vec_ok_size v1 ss), <- (vec_ok_size v ss) by done. done.
    - eexists _, _, _. split; [done|]. split; [lia|]. split; [done|].
      split; [|done]. destruct Hv as (? & ? & ?). lia. }
  run Hg. destruct b; cbn [negb].
  - run1. destruct (malloc_ok n1 (len + 1)) eqn:Hm.
    + erewrite bind_Ok by (by apply copy_string_ok).
      eexists _, _, _. split; [done|]. split; [lia|]. split; [|done].
      apply vec_ok_snoc; auto.
    + eexists _, _, _. split; [done|]. split; [lia|]. split; [done|].
      intros Ho. by rewrite Ho in Hm.
  - eexists _, _, _. split; [done|]. split; [lia|]. split; [done|].
    intros Ho. by apply Hoom.
Qed.

Lemma vector_str_init_ok n :
  exists r, vector_str_init n = Ok r (S n) /\
    (never_oom -> is_Some r) /\ (forall v, r = Some v -> vec_ok v []).
Proof.
  unfold vector_str_init. run1. eexists. split; [done|].
  destruct (malloc_ok _ _) eqn:Hm.
  - split; [eauto|]. intros v [= <-]. unfold vec_ok, size, VECTOR_DEF_CAPACITY. by cbn.
  - split; [|done]. intros Ho. by rewrite Ho in Hm.
Qed.

Lemma vector_str_dest_ok v ss n : vec_ok v ss -> vector_str_dest v n = Ok tt n.
Proof. intros (_ & _ & H). by eapply free_cells_ok. Qed.

Lemma fmap_removelast {A B} (f : A -> B) (l : list A) :
  f <$> removelast l = removelast (f <$> l).
Proof.
  induction l as [|x l IH]; [done|]. destruct l as [|y l]; [done|].
  change (f x :: (f <$> removelast (y :: l)) = f x :: removelast (f <$> (y :: l))).
  by rewrite IH.
Qed.

(** Popping removes the last string; on an empty vector it does nothing. *)
Lemma vector_str_pop_ok v ss n :
  vec_ok v ss ->
  exists v', vector_str_pop v n = Ok (true, v') n /\ vec_ok v' (removelast ss).
Proof.
  intros Hv. pose proof (vec_ok_size v ss Hv) as Hsz. unfold vector_str_pop.
  destruct (Z.eqb_spec (size v) 0) as [H0|H0].
  - eexists. split; [done|]. destruct ss; [done|]. unfold zlength in *; cbn in *; lia.
  - destruct Hv as (Hc & Hs & Hss).
    assert (vec_ok (VectorStr (capacity v) (removelast (container v))) (removelast ss)).
    { split; [done|]. split; cbn.
      - unfold size, zlength in *. cbn. rewrite removelast_firstn_len, length_firstn. lia.
      - by rewrite !fmap_removelast, Hss. }
    destruct (last (container v)) as [[id [ | | ]]|] eqn:Hl; try by eexists.
    exfalso. assert (Freed ∈ cval <$> container v) as Hin.
    { apply last_Some_elem_of in Hl. apply list_elem_of_fmap. by exists (Cell id Freed). }
    rewrite Hss in Hin. apply list_elem_of_fmap in Hin as (? & ? & ?). done.
Qed.

(** [vector_str_find] finds a string as soon as it is a prefix of one of the
    vector's strings. *)
Lemma find_cells_ok cs ss o n :
  cval <$> cs = Bytes <$> ss ->
  find_cells cs (Bytes o) (zlength o) n
  = Ok (if existsb (is_prefix o) ss then 1 else 0) n.
Proof.
  revert ss. induction cs as [|c cs IH]; intros ss H.
  { by destruct ss. }
  apply cells_cons in H as (s & ss' & -> & Hc & Hcs). cbn [find_cells existsb].
  assert ((if zlength o =? 0 then mret true
    else a ← read_cstr (cval c); b ← read_cstr (Bytes o);
         mret (strncmp_eq a b (Z.to_nat (Z.min (zlength o) (1 + zlength a))))) n
    = Ok (is_prefix o s) n) as Hb.
  { destruct (Z.eqb_spec (zlength o) 0) as [H0|H0].
    - destruct o; [done|]. unfold zlength in H0. cbn in H0. lia.
    - rewrite Hc. run1. run1. unfold mret, comp_ret. f_equal.
      apply strncmp_eq_prefix. unfold zlength in *. lia. }
  run Hb. destruct (is_prefix o s); [done|]. by apply IH.
Qed.

Lemma vector_str_find_ok v ss o n :
  vec_ok v ss ->
  vector_str_find v (Some (Bytes o)) (zlength o) n
  = Ok (if existsb (is_prefix o) ss then 1 else 0) n.
Proof. intros (_ & _ & H). by apply find_cells_ok. Qed.

(** The flat string is the concatenation; the empty string comes out as
    NULL. *)
Lemma vector_str_get_flat_ok v ss n :
  vec_ok v ss ->
  exists r n', vector_str_get_flat v n = Ok r n' /\ (n <= n')%nat /\
    (r = None \/ r = Some (Bytes (concat ss), zlength (concat ss))) /\
    (concat ss = [] -> r = None) /\
    (never_oom -> concat ss <> [] -> is_Some r).
Proof.
  intros Hv. pose proof (vec_ok_size v ss Hv) as Hsz. destruct Hv as (Hc & Hs & Hss).
  unfold vector_str_get_flat. destruct (Z.eqb_spec (size v) 0) as [H0|H0].
  { eexists _, _. split; [done|]. split; [lia|]. split; [by left|]. split; [done|].
    intros _ Hne. destruct ss; [done|]. unfold zlength in *. cbn in *. lia. }
  assert (get_strlen_sum v n = Ok (zlength (concat ss)) n) as Hsum.
  { unfold get_strlen_sum. rewrite bind_assert; [by apply strlen_sum_ok|].
    apply Z.ltb_lt. pose proof (zlength_nonneg ss). lia. }
  run Hsum. destruct (Z.eqb_spec (zlength (concat ss)) 0) as [Hz|Hz].
  { eexists _, _. split; [done|]. split; [lia|]. split; [by left|]. split; [done|].
    intros _ Hne. destruct (concat ss); [done|]. unfold zlength in *. cbn in *. lia. }
  run1. destruct (malloc_ok _ _) eqn:Hm.
  - run (concat_cells_ok (container v) ss (S n) Hss).
    eexists _, _. split; [done|]. split; [lia|]. split; [by right|].
    split; [by intros Hnil; rewrite Hnil in Hz | eauto].
  - eexists _, _. split; [done|]. split; [lia|]. split; [by left|]. split; [done|].
    intros Ho. by rewrite Ho in Hm.
Qed.

(** [mid] is what lies between [begin] and [end], both included. *)
Lemma vector_str_substr_ok v pre mid post n :
  vec_ok v (pre ++ mid ++ post) -> mid <> [] -> size v < SIZE_MOD ->
  exists r, vector_str_substr v (zlength pre) (zlength pre + zlength mid - 1) n = Ok r (S n) /\
    (r = None \/ r = Some (Bytes (concat mid), zlength (concat mid))) /\
    (never_oom -> is_Some r).
Proof.
  intros Hv Hne Hmod. pose proof (vec_ok_size _ _ Hv) as Hsz. destruct Hv as (Hc & Hs & Hss).
  rewrite !zlength_app in Hsz.
  pose proof (zlength_nonneg pre). pose proof (zlength_nonneg post).
  assert (0 < zlength mid) by (destruct mid; [done|]; rewrite zlength_cons; pose proof (zlength_nonneg mid); lia).
  unfold vector_str_substr. rewrite (proj2 (Z.ltb_ge _ _)) by lia.
  rewrite size_t_small by (unfold SIZE_MOD in *; lia).
  rewrite (proj2 (Z.leb_gt _ _)) by lia. rewrite (proj2 (Z.ltb_ge _ _)) by lia.
  replace (zlength pre + zlength mid - 1 + 1 - zlength pre) with (zlength mid) by lia.
  set (cs := ztake _ _).
  assert (cval <$> cs = Bytes <$> mid) as Hcs.
  { subst cs. unfold ztake, zdrop.
    rewrite fmap_take, fmap_drop, Hss. unfold size, zlength in *.
    rewrite !fmap_app. rewrite drop_app_length'.
    2: { rewrite length_fmap. lia. }
    apply take_app_length'. rewrite length_drop, length_fmap. lia. }
  erewrite bind_Ok by (by apply strlen_sum_ok). cbv beta. run1.
  destruct (malloc_ok _ _) eqn:Hm.
  - erewrite bind_Ok by (by apply concat_cells_ok). eexists. split; [done|]. split; [by right|eauto].
  - eexists. split; [done|]. split; [by left|]. intros Ho. by rewrite Ho in Hm.
Qed.

Lemma vec_ok_app_sizes cs1 cs2 ss1 ss2 :
  cval <$> cs1 = Bytes <$> ss1 -> cval <$> cs2 = Bytes <$> ss2 -> ss1 ++ ss2 <> [] ->
  vec_ok (VectorStr (BUFFER_GROW (zlength cs1 + zlength cs2)) (cs1 ++ cs2)) (ss1 ++ ss2).
Proof.
  intros H1 H2 Hne.
  assert (zlength cs1 + zlength cs2 = zlength (ss1 ++ ss2)) as Hlen.
  { unfold zlength. rewrite <- Nat2Z.inj_add, <- (length_fmap cval cs1), <- (length_fmap cval cs2), H1, H2.
    by rewrite !length_fmap, length_app. }
  assert (0 < zlength (ss1 ++ ss2)).
  { destruct (ss1 ++ ss2); [done|]. unfold zlength. cbn. lia. }
  pose proof (BUFFER_GROW_gt (zlength cs1 + zlength cs2)).
  unfold vec_ok, size. cbn [capacity container]. rewrite zlength_app, !fmap_app, H1, H2.
  split; [lia|]. split; [lia|]. done.
Qed.

(** Prepending and appending another vector copies its strings; the only
    case that leaves the destination ill-formed is when both are empty,
    because the new capacity is then [BUFFER_GROW 0 = 0]. *)
Lemma vector_str_push_vector_head_ok dst org d o n :
  vec_ok dst d -> vec_ok org o -> o ++ d <> [] ->
  exists b dst' n', vector_str_push_vector_head dst org n = Ok (b, dst') n' /\
    (n <= n')%nat /\ vec_ok dst' (if b then o ++ d else d) /\ (never_oom -> b = true).
Proof.
  intros Hd Ho Hne. unfold vector_str_push_vector_head. run1.
  destruct (malloc_ok _ _) eqn:Hm.
  2: { eexists _, _, _. split; [done|]. split; [lia|]. split; [done|].
       intros H. by rewrite H in Hm. }
  destruct Ho as (_ & _ & Ho), Hd as (Hc & Hs & Hss).
  destruct (dup_cells_ok (container org) o (S n) Ho) as (r & n' & Hr & Hn & Hoom & Hl).
  run Hr. destruct r as [cs|].
  - eexists _, _, _. split; [done|]. split; [lia|]. split; [|done].
    specialize (Hl cs eq_refl).
    replace (size dst + size org) with (zlength cs + zlength (container dst)).
    + by apply vec_ok_app_sizes.
    + unfold size, zlength.
      rewrite <- (length_fmap cval cs), Hl, <- Ho, length_fmap. lia.
  - eexists _, _, _. split; [done|]. split; [lia|]. split; [done|].
    intros H. destruct (Hoom H). done.
Qed.

Lemma vector_str_push_vector_ok dst org d o n :
  vec_ok dst d -> vec_ok org o -> d ++ o <> [] ->
  exists b dst' n', vector_str_push_vector dst org n = Ok (b, dst') n' /\
    (n <= n')%nat /\ (b = true -> vec_ok dst' (d ++ o)) /\ (never_oom -> b = true).
Proof.
  intros Hd Ho Hne. unfold vector_str_push_vector. run1.
  destruct (malloc_ok _ _) eqn:Hm.
  2: { eexists _, _, _. split; [done|]. split; [lia|]. split; [done|].
       intros H. by rewrite H in Hm. }
  destruct Ho as (_ & _ & Ho), Hd as (Hc & Hs & Hss).
  destruct (dup_cells_ok (container org) o (S n) Ho) as (r & n' & Hr & Hn & Hoom & Hl).
  run Hr. destruct r as [cs|].
  - eexists _, _, _. split; [done|]. split; [lia|]. split; [|done]. intros _.
    specialize (Hl cs eq_refl).
    replace (size dst + size org) with (zlength (container dst) + zlength cs).
    + by apply vec_ok_app_sizes.
    + unfold size, zlength.
      rewrite <- (length_fmap cval cs), Hl, <- Ho, length_fmap. lia.
  - eexists _, _, _. split; [done|]. split; [lia|]. split; [done|].
    intros H. destruct (Hoom H). done.
Qed.
End Specs.
