(* ===== verification/VectorAux.v ===== *)
(** * struct vector_type_qualifier and struct vector_read_cmd

    Models the two other growable vectors of [libelftc_dem_gnu3.c]: the
    qualifiers read in front of a type, and the stack of commands that tells
    nested readers what they are inside of. *)
From S2P Require Import Prelude CString Platform VectorStr.

Inductive type_qualifier :=
  | TYPE_PTR | TYPE_REF | TYPE_CMX | TYPE_IMG | TYPE_EXT | TYPE_RST | TYPE_VAT
  | TYPE_CST | TYPE_VEC | TYPE_RREF.

#[global] Instance type_qualifier_eq_dec : EqDecision type_qualifier.
Proof. solve_decision. Defined.

Record vector_type_qualifier := VectorTypeQualifier {
  q_capacity : Z;
  q_container : list type_qualifier;
  ext_name : vector_str;
}.

Definition q_size (v : vector_type_qualifier) : Z := zlength (q_container v).

Inductive read_cmd :=
  | READ_FAIL | READ_NEST | READ_TMPL | READ_EXPR | READ_EXPL | READ_LOCAL
  | READ_TYPE | READ_FUNC | READ_PTRMEM.

#[global] Instance read_cmd_eq_dec : EqDecision read_cmd.
Proof. solve_decision. Defined.

(** [data] is NULL or points at the qualifier vector of the caller that pushed
    the item; that caller does not touch the vector until it has popped the
    item, so the item carries the vector's value. *)
Record read_cmd_item := ReadCmdItem {
  item_cmd : read_cmd;
  item_data : option vector_type_qualifier;
}.

Record vector_read_cmd := VectorReadCmd {
  r_capacity : Z;
  r_container : list read_cmd_item;
}.

Definition r_size (v : vector_read_cmd) : Z := zlength (r_container v).

Definition SIZEOF_QUALIFIER : Z := 4.
Definition SIZEOF_CMD_ITEM : Z := 16.

Section Ops.
Context {P : Platform}.

(** ** Qualifiers *)
Definition vector_type_qualifier_dest (v : vector_type_qualifier) : comp nat unit :=
  vector_str_dest (ext_name v).

Definition vector_type_qualifier_init : comp nat (option vector_type_qualifier) :=
  p ← malloc (SIZEOF_QUALIFIER * VECTOR_DEF_CAPACITY);
  match p with
  | None => mret None
  | Some _ =>
      e ← vector_str_init;
      mret (match e with
            | None => None
            | Some e => Some (VectorTypeQualifier VECTOR_DEF_CAPACITY [] e)
            end)
  end.

Definition vector_type_qualifier_push (v : vector_type_qualifier) (t : type_qualifier)
    : comp nat (bool * vector_type_qualifier) :=
  let append v := VectorTypeQualifier (q_capacity v) (q_container v ++ [t]) (ext_name v) in
  if q_size v =? q_capacity v then
    let tmp_cap := BUFFER_GROW (q_capacity v) in
    p ← malloc (SIZEOF_QUALIFIER * tmp_cap);
    match p with
    | None => mret (false, v)
    | Some _ =>
        mret (true, append (VectorTypeQualifier tmp_cap (q_container v) (ext_name v)))
    end
  else mret (true, append v).

(** ** Commands *)
Definition vector_read_cmd_dest (v : vector_read_cmd) : comp nat unit := mret tt.

(** The most recent item with the command. *)
Definition vector_read_cmd_find (v : vector_read_cmd) (dst : read_cmd)
    : option read_cmd_item :=
  match dst with
  | READ_FAIL => None
  | _ => find (fun i => bool_decide (item_cmd i = dst)) (rev (r_container v))
  end.

Definition vector_read_cmd_init : comp nat (option vector_read_cmd) :=
  p ← malloc (SIZEOF_CMD_ITEM * VECTOR_DEF_CAPACITY);
  mret (match p with
        | None => None
        | Some _ => Some (VectorReadCmd VECTOR_DEF_CAPACITY [])
        end).

Definition vector_read_cmd_pop (v : vector_read_cmd) : bool * vector_read_cmd :=
  if r_size v =? 0 then (false, v)
  else (true, VectorReadCmd (r_capacity v) (removelast (r_container v))).

Definition vector_read_cmd_push (v : vector_read_cmd) (cmd : read_cmd)
    (data : option vector_type_qualifier) : comp nat (bool * vector_read_cmd) :=
  let append v := VectorReadCmd (r_capacity v) (r_container v ++ [ReadCmdItem cmd data]) in
  if r_size v =? r_capacity v then
    let tmp_cap := BUFFER_GROW (r_capacity v) in
    p ← malloc (SIZEOF_CMD_ITEM * tmp_cap);
    match p with
    | None => mret (false, v)
    | Some _ => mret (true, append (VectorReadCmd tmp_cap (r_container v)))
    end
  else mret (true, append v).
End Ops.

(** ** Specification *)
Definition q_ok (v : vector_type_qualifier) (qs : list type_qualifier) (es : list bytes) : Prop :=
  0 < q_capacity v /\ q_size v <= q_capacity v /\ q_container v = qs /\ vec_ok (ext_name v) es.

Definition r_ok (v : vector_read_cmd) (its : list read_cmd_item) : Prop :=
  0 < r_capacity v /\ r_size v <= r_capacity v /\ r_container v = its.

Section Specs.
Context {P : Platform}.

Lemma vector_type_qualifier_init_ok n :
  exists r n', vector_type_qualifier_init n = Ok r n' /\ (n <= n')%nat /\
    (never_oom -> is_Some r) /\ (forall v, r = Some v -> q_ok v [] []).
Proof.
  unfold vector_type_qualifier_init. run1. destruct (malloc_ok _ _) eqn:Hm.
  - destruct (vector_str_init_ok (S n)) as (e & He & Hoom & Hok). run He.
    eexists _, _. split; [done|]. split; [lia|]. destruct e as [e|].
    + split; [eauto|]. intros v [= <-]. unfold q_ok, q_size, VECTOR_DEF_CAPACITY, zlength. cbn. split_and!; auto; lia.
    + split; [|done]. intros H. by destruct (Hoom H).
  - eexists _, _. split; [done|]. split; [lia|]. split; [|done].
    intros Ho. by rewrite Ho in Hm.
Qed.

Lemma vector_type_qualifier_push_ok v t qs es n :
  q_ok v qs es ->
  exists b v' n', vector_type_qualifier_push v t n = Ok (b, v') n' /\ (n <= n')%nat /\
    q_ok v' (if b then qs ++ [t] else qs) es /\ (never_oom -> b = true).
Proof.
  intros (Hc & Hs & <- & He). unfold vector_type_qualifier_push.
  pose proof (BUFFER_GROW_gt _ Hc).
  assert (zlength (q_container v ++ [t]) = q_size v + 1) as Hlen.
  { unfold q_size. rewrite zlength_app. done. }
  destruct (Z.eqb_spec (q_size v) (q_capacity v)).
  - run1. destruct (malloc_ok _ _) eqn:Hm; eexists _, _, _; (split; [done|]); (split; [lia|]).
    + split; [|done]. unfold q_ok, q_size in *. cbn. rewrite Hlen. split_and!; auto; lia.
    + split; [done|]. intros Ho. by rewrite Ho in Hm.
  - eexists _, _, _. split; [done|]. split; [lia|]. split; [|done].
    unfold q_ok, q_size in *. cbn. rewrite Hlen. split_and!; auto; lia.
Qed.

Lemma vector_read_cmd_push_ok v c d its n :
  r_ok v its ->
  exists b v' n', vector_read_cmd_push v c d n = Ok (b, v') n' /\ (n <= n')%nat /\
    r_ok v' (if b then its ++ [ReadCmdItem c d] else its) /\ (never_oom -> b = true).
Proof.
  intros (Hc & Hs & <-). unfold vector_read_cmd_push.
  pose proof (BUFFER_GROW_gt _ Hc).
  assert (zlength (r_container v ++ [ReadCmdItem c d]) = r_size v + 1) as Hlen.
  { unfold r_size. rewrite zlength_app. done. }
  destruct (Z.eqb_spec (r_size v) (r_capacity v)).
  - run1. destruct (malloc_ok _ _) eqn:Hm; eexists _, _, _; (split; [done|]); (split; [lia|]).
    + split; [|done]. unfold r_ok, r_size in *. cbn. rewrite Hlen. split_and!; auto; lia.
    + split; [done|]. intros Ho. by rewrite Ho in Hm.
  - eexists _, _, _. split; [done|]. split; [lia|]. split; [|done].
    unfold r_ok, r_size in *. cbn. rewrite Hlen. split_and!; auto; lia.
Qed.

Lemma removelast_snoc {A} (l : list A) x : removelast (l ++ [x]) = l.
Proof. rewrite removelast_app by done. apply app_nil_r. Qed.

Lemma vector_read_cmd_pop_ok v its i :
  r_ok v (its ++ [i]) -> exists v', vector_read_cmd_pop v = (true, v') /\ r_ok v' its.
Proof.
  intros (Hc & Hs & Hq). unfold vector_read_cmd_pop, r_size in *. rewrite Hq in *.
  rewrite zlength_app in *. change (zlength [i]) with 1 in *. pose proof (zlength_nonneg its).
  rewrite (proj2 (Z.eqb_neq _ _)) by lia. eexists. split; [done|].
  unfold r_ok, r_size. cbn. rewrite removelast_snoc. split_and!; auto; lia.
Qed.

Lemma vector_read_cmd_find_snoc v its i dst :
  r_container v = its ++ [i] -> dst <> READ_FAIL ->
  vector_read_cmd_find v dst
  = if decide (item_cmd i = dst) then Some i
    else vector_read_cmd_find (VectorReadCmd (r_capacity v) its) dst.
Proof.
  intros Hv Hd. unfold vector_read_cmd_find. rewrite Hv, rev_unit. cbn.
  destruct dst; try done; case_decide; by case_bool_decide.
Qed.
End Specs.
