(* ===== verification/DemState.v ===== *)
(** * struct cpp_demangle_data: the demangler's state and its basic operations

    Models, in [libelftc_dem_gnu3.c]: the structure, its initialisation and
    destruction, reading through and moving [ddata->cur], the [push_str],
    [pop_str], [push_subst], [push_subst_v], [get_subst] and [get_tmpl_param]
    helpers.  A reader of the C code returning 0 is [Fail]; returning 1 is
    [Ok]. *)
From S2P Require Import Prelude CString Platform VectorStr VectorAux.

Inductive push_qualifier_t :=
  | PUSH_ALL_QUALIFIER | PUSH_CV_QUALIFIER | PUSH_NON_CV_QUALIFIER.

#[global] Instance push_qualifier_eq_dec : EqDecision push_qualifier_t.
Proof. solve_decision. Defined.

(** The string vectors that live across calls: the four members of the
    structure and the vectors on the C stack that [cur_output] may point at
    ([ret_type], [local_name]), innermost last. *)
Inductive vref := VOutput | VSubst | VTmpl | VClass | VLocal (i : nat).

#[global] Instance vref_eq_dec : EqDecision vref.
Proof. solve_decision. Defined.

(** [const char *last_sname]: a literal, or a string owned by some vector. *)
Inductive sname_ptr := SLit (s : bytes) | SCell (id : nat).

Record cpp_demangle_data := DD {
  output : vector_str;
  subst : vector_str;
  tmpl : vector_str;
  class_type : vector_str;
  cur_output : vref;
  cmd : vector_read_cmd;
  mem_rst : bool;
  mem_vat : bool;
  mem_cst : bool;
  mem_ref : bool;
  mem_rref : bool;
  is_tmpl : bool;
  is_functype : bool;
  ref_qualifier : bool;
  ref_qualifier_type : option type_qualifier;  (** [None]: not yet written *)
  push_qualifier : push_qualifier_t;
  func_type : Z;
  cur : Z;                                     (** index into the input *)
  last_sname : option sname_ptr;
  (** the machine: live stack vectors and the allocation counter *)
  locals : list vector_str;
  clock : nat;
}.

(** One setter per assigned field. *)
Definition set_output x s := DD x (subst s) (tmpl s) (class_type s) (cur_output s) (cmd s) (mem_rst s) (mem_vat s) (mem_cst s) (mem_ref s) (mem_rref s) (is_tmpl s) (is_functype s) (ref_qualifier s) (ref_qualifier_type s) (push_qualifier s) (func_type s) (cur s) (last_sname s) (locals s) (clock s).
Definition set_subst x s := DD (output s) x (tmpl s) (class_type s) (cur_output s) (cmd s) (mem_rst s) (mem_vat s) (mem_cst s) (mem_ref s) (mem_rref s) (is_tmpl s) (is_functype s) (ref_qualifier s) (ref_qualifier_type s) (push_qualifier s) (func_type s) (cur s) (last_sname s) (locals s) (clock s).
Definition set_tmpl x s := DD (output s) (subst s) x (class_type s) (cur_output s) (cmd s) (mem_rst s) (mem_vat s) (mem_cst s) (mem_ref s) (mem_rref s) (is_tmpl s) (is_functype s) (ref_qualifier s) (ref_qualifier_type s) (push_qualifier s) (func_type s) (cur s) (last_sname s) (locals s) (clock s).
Definition set_class_type x s := DD (output s) (subst s) (tmpl s) x (cur_output s) (cmd s) (mem_rst s) (mem_vat s) (mem_cst s) (mem_ref s) (mem_rref s) (is_tmpl s) (is_functype s) (ref_qualifier s) (ref_qualifier_type s) (push_qualifier s) (func_type s) (cur s) (last_sname s) (locals s) (clock s).
Definition set_cur_output x s := DD (output s) (subst s) (tmpl s) (class_type s) x (cmd s) (mem_rst s) (mem_vat s) (mem_cst s) (mem_ref s) (mem_rref s) (is_tmpl s) (is_functype s) (ref_qualifier s) (ref_qualifier_type s) (push_qualifier s) (func_type s) (cur s) (last_sname s) (locals s) (clock s).
Definition set_cmd x s := DD (output s) (subst s) (tmpl s) (class_type s) (cur_output s) x (mem_rst s) (mem_vat s) (mem_cst s) (mem_ref s) (mem_rref s) (is_tmpl s) (is_functype s) (ref_qualifier s) (ref_qualifier_type s) (push_qualifier s) (func_type s) (cur s) (last_sname s) (locals s) (clock s).
Definition set_mem_rst x s := DD (output s) (subst s) (tmpl s) (class_type s) (cur_output s) (cmd s) x (mem_vat s) (mem_cst s) (mem_ref s) (mem_rref s) (is_tmpl s) (is_functype s) (ref_qualifier s) (ref_qualifier_type s) (push_qualifier s) (func_type s) (cur s) (last_sname s) (locals s) (clock s).
Definition set_mem_vat x s := DD (output s) (subst s) (tmpl s) (class_type s) (cur_output s) (cmd s) (mem_rst s) x (mem_cst s) (mem_ref s) (mem_rref s) (is_tmpl s) (is_functype s) (ref_qualifier s) (ref_qualifier_type s) (push_qualifier s) (func_type s) (cur s) (last_sname s) (locals s) (clock s).
Definition set_mem_cst x s := DD (output s) (subst s) (tmpl s) (class_type s) (cur_output s) (cmd s) (mem_rst s) (mem_vat s) x (mem_ref s) (mem_rref s) (is_tmpl s) (is_functype s) (ref_qualifier s) (ref_qualifier_type s) (push_qualifier s) (func_type s) (cur s) (last_sname s) (locals s) (clock s).
Definition set_mem_ref x s := DD (output s) (subst s) (tmpl s) (class_type s) (cur_output s) (cmd s) (mem_rst s) (mem_vat s) (mem_cst s) x (mem_rref s) (is_tmpl s) (is_functype s) (ref_qualifier s) (ref_qualifier_type s) (push_qualifier s) (func_type s) (cur s) (last_sname s) (locals s) (clock s).
Definition set_mem_rref x s := DD (output s) (subst s) (tmpl s) (class_type s) (cur_output s) (cmd s) (mem_rst s) (mem_vat s) (mem_cst s) (mem_ref s) x (is_tmpl s) (is_functype s) (ref_qualifier s) (ref_qualifier_type s) (push_qualifier s) (func_type s) (cur s) (last_sname s) (locals s) (clock s).
Definition set_is_tmpl x s := DD (output s) (subst s) (tmpl s) (class_type s) (cur_output s) (cmd s) (mem_rst s) (mem_vat s) (mem_cst s) (mem_ref s) (mem_rref s) x (is_functype s) (ref_qualifier s) (ref_qualifier_type s) (push_qualifier s) (func_type s) (cur s) (last_sname s) (locals s) (clock s).
Definition set_is_functype x s := DD (output s) (subst s) (tmpl s) (class_type s) (cur_output s) (cmd s) (mem_rst s) (mem_vat s) (mem_cst s) (mem_ref s) (mem_rref s) (is_tmpl s) x (ref_qualifier s) (ref_qualifier_type s) (push_qualifier s) (func_type s) (cur s) (last_sname s) (locals s) (clock s).
Definition set_ref_qualifier x s := DD (output s) (subst s) (tmpl s) (class_type s) (cur_output s) (cmd s) (mem_rst s) (mem_vat s) (mem_cst s) (mem_ref s) (mem_rref s) (is_tmpl s) (is_functype s) x (ref_qualifier_type s) (push_qualifier s) (func_type s) (cur s) (last_sname s) (locals s) (clock s).
Definition set_ref_qualifier_type x s := DD (output s) (subst s) (tmpl s) (class_type s) (cur_output s) (cmd s) (mem_rst s) (mem_vat s) (mem_cst s) (mem_ref s) (mem_rref s) (is_tmpl s) (is_functype s) (ref_qualifier s) x (push_qualifier s) (func_type s) (cur s) (last_sname s) (locals s) (clock s).
Definition set_push_qualifier x s := DD (output s) (subst s) (tmpl s) (class_type s) (cur_output s) (cmd s) (mem_rst s) (mem_vat s) (mem_cst s) (mem_ref s) (mem_rref s) (is_tmpl s) (is_functype s) (ref_qualifier s) (ref_qualifier_type s) x (func_type s) (cur s) (last_sname s) (locals s) (clock s).
Definition set_func_type x s := DD (output s) (subst s) (tmpl s) (class_type s) (cur_output s) (cmd s) (mem_rst s) (mem_vat s) (mem_cst s) (mem_ref s) (mem_rref s) (is_tmpl s) (is_functype s) (ref_qualifier s) (ref_qualifier_type s) (push_qualifier s) x (cur s) (last_sname s) (locals s) (clock s).
Definition set_cur x s := DD (output s) (subst s) (tmpl s) (class_type s) (cur_output s) (cmd s) (mem_rst s) (mem_vat s) (mem_cst s) (mem_ref s) (mem_rref s) (is_tmpl s) (is_functype s) (ref_qualifier s) (ref_qualifier_type s) (push_qualifier s) (func_type s) x (last_sname s) (locals s) (clock s).
Definition set_last_sname x s := DD (output s) (subst s) (tmpl s) (class_type s) (cur_output s) (cmd s) (mem_rst s) (mem_vat s) (mem_cst s) (mem_ref s) (mem_rref s) (is_tmpl s) (is_functype s) (ref_qualifier s) (ref_qualifier_type s) (push_qualifier s) (func_type s) (cur s) x (locals s) (clock s).
Definition set_locals x s := DD (output s) (subst s) (tmpl s) (class_type s) (cur_output s) (cmd s) (mem_rst s) (mem_vat s) (mem_cst s) (mem_ref s) (mem_rref s) (is_tmpl s) (is_functype s) (ref_qualifier s) (ref_qualifier_type s) (push_qualifier s) (func_type s) (cur s) (last_sname s) x (clock s).
Definition set_clock x s := DD (output s) (subst s) (tmpl s) (class_type s) (cur_output s) (cmd s) (mem_rst s) (mem_vat s) (mem_cst s) (mem_ref s) (mem_rref s) (is_tmpl s) (is_functype s) (ref_qualifier s) (ref_qualifier_type s) (push_qualifier s) (func_type s) (cur s) (last_sname s) (locals s) x.

Abbreviation M := (comp cpp_demangle_data).

(** The mangled name: the bytes before its terminating NUL. *)
Class Input := input : bytes.

(** ** The machine *)

(** A call that only allocates and frees. *)
Definition on_clock {A} (m : comp nat A) : M A := fun s =>
  match m (clock s) with
  | Ok a n => Ok a (set_clock n s)
  | Fail n => Fail (set_clock n s)
  | Crash c => Crash c
  | NoFuel => NoFuel
  end.

Definition vec_lookup (r : vref) (s : cpp_demangle_data) : option vector_str :=
  match r with
  | VOutput => Some (output s)
  | VSubst => Some (subst s)
  | VTmpl => Some (tmpl s)
  | VClass => Some (class_type s)
  | VLocal i => locals s !! i
  end.

Definition vec_get (r : vref) : M vector_str := fun s =>
  match vec_lookup r s with
  | Some v => Ok v s
  | None => Crash UseAfterFree
  end.

Definition vec_update (r : vref) (v : vector_str) (s : cpp_demangle_data) : cpp_demangle_data :=
  match r with
  | VOutput => set_output v s
  | VSubst => set_subst v s
  | VTmpl => set_tmpl v s
  | VClass => set_class_type v s
  | VLocal i => set_locals (<[i := v]> (locals s)) s
  end.

Definition vec_set (r : vref) (v : vector_str) : M unit := modify (vec_update r v).

(** A vector declared on the stack: its address. *)
Definition push_local (v : vector_str) : M vref :=
  i ← gets (fun s => length (locals s));
  modify (fun s => set_locals (locals s ++ [v]) s);;
  mret (VLocal i).

(** The innermost stack vector is destroyed. *)
Definition drop_local : M unit :=
  l ← gets locals;
  match last l with
  | Some v => on_clock (vector_str_dest v)
  | None => mret tt
  end;;
  modify (fun s => set_locals (removelast (locals s)) s).

Section Ops.
Context {P : Platform} {I : Input}.

(** ** The cursor *)

(** [*(ddata->cur + k)]: the byte, NUL at the end, outside beyond it. *)
Definition peek_at (k : Z) : M ascii := fun s =>
  let i := cur s + k in
  if (0 <=? i) && (i <=? zlength input) then
    Ok (default NUL (input !! Z.to_nat i)) s
  else Crash OutOfBounds.

Definition peek : M ascii := peek_at 0.

(** [ddata->cur += k]: a pointer may move up to one past the NUL. *)
Definition advance (k : Z) : M unit := fun s =>
  if cur s + k <=? zlength input + 1 then Ok tt (set_cur (cur s + k) s)
  else Crash OutOfBounds.

(** The string at an index of the input. *)
Definition text_at (i : Z) : M mem :=
  if (0 <=? i) && (i <=? zlength input) then mret (Bytes (zdrop i input))
  else crashed OutOfBounds.

Fixpoint count_while (p : ascii -> bool) (l : bytes) : Z :=
  match l with
  | [] => 0
  | c :: l => if p c then 1 + count_while p l else 0
  end.

(** [while (p( *ddata->cur)) ++ddata->cur;] *)
Definition skip_while (p : ascii -> bool) : M unit :=
  _ ← peek;
  c ← gets cur;
  let rest := zdrop c input in
  let n := count_while p rest in
  if (n =? zlength rest) && p NUL then crashed OutOfBounds else advance n.

(** [if ( *ddata->cur == '\0') return 0;] *)
Definition guard_more : M unit :=
  c ← peek; guard_ (bool_decide (c <> NUL)).

(** ** Initialisation and destruction *)
Definition cpp_demangle_data_init (start : Z) : comp nat (option cpp_demangle_data) :=
  o ← vector_str_init;
  match o with None => mret None | Some o =>
  s ← vector_str_init;
  match s with None => vector_str_dest o;; mret None | Some s =>
  t ← vector_str_init;
  match t with None => vector_str_dest s;; vector_str_dest o;; mret None | Some t =>
  c ← vector_str_init;
  match c with
  | None => vector_str_dest t;; vector_str_dest s;; vector_str_dest o;; mret None
  | Some c =>
  r ← vector_read_cmd_init;
  match r with
  | None => vector_str_dest c;; vector_str_dest t;; vector_str_dest s;;
            vector_str_dest o;; mret None
  | Some r =>
    n ← gets id;
    mret (Some {|
      output := o; subst := s; tmpl := t; class_type := c; cur_output := VOutput;
      cmd := r; mem_rst := false; mem_vat := false; mem_cst := false;
      mem_ref := false; mem_rref := false; is_tmpl := false;
      is_functype := false; ref_qualifier := false; ref_qualifier_type := None;
      push_qualifier := PUSH_ALL_QUALIFIER; func_type := 0; cur := start;
      last_sname := None; locals := []; clock := n |})
  end end end end end.

Definition cpp_demangle_data_dest : M unit :=
  s ← gets id;
  on_clock (vector_read_cmd_dest (cmd s);;
            vector_str_dest (class_type s);;
            vector_str_dest (tmpl s);;
            vector_str_dest (subst s);;
            vector_str_dest (output s)).

(** ** Vectors of the state *)
Definition vec_push (r : vref) (str : mem) (len : Z) : M unit :=
  v ← vec_get r;
  '(ok, v) ← on_clock (vector_str_push v str len);
  vec_set r v;;
  guard_ ok.

Definition vec_pop (r : vref) : M unit :=
  v ← vec_get r;
  '(ok, v) ← on_clock (vector_str_pop v);
  vec_set r v;;
  guard_ ok.

(** [for (i = p_idx; i < idx; ++i) vector_str_pop(v)] with [idx] the size *)
Fixpoint vec_pops (r : vref) (n : nat) : M unit :=
  match n with
  | O => mret tt
  | S n => vec_pop r;; vec_pops r n
  end.

Definition vec_pop_to (r : vref) (p_idx : Z) : M unit :=
  v ← vec_get r;
  vec_pops r (Z.to_nat (size v - p_idx)).

Definition vec_size (r : vref) : M Z := v ← vec_get r; mret (size v).

(** [vector_str_substr(v, p_idx, v->size - 1, &len)] *)
Definition vec_substr (r : vref) (p_idx : Z) : M (option (mem * Z)) :=
  v ← vec_get r;
  on_clock (vector_str_substr v p_idx (size_t (size v - 1))).

(** the same, where NULL makes the caller fail *)
Definition vec_substr_or_fail (r : vref) (p_idx : Z) : M (mem * Z) :=
  o ← vec_substr r p_idx;
  match o with Some x => mret x | None => failed end.

(** A fresh [struct vector_str] on the stack that [cur_output] never sees. *)
Definition local_vec : M vector_str :=
  o ← on_clock vector_str_init;
  match o with Some v => mret v | None => failed end.

Definition local_push (v : vector_str) (str : mem) (len : Z) : M vector_str :=
  '(ok, v) ← on_clock (vector_str_push v str len);
  guard_ ok;; mret v.

(** [VEC_PUSH_STR] *)
Definition VEC_PUSH_STR (v : vector_str) (str : mem) : M vector_str :=
  s ← read_cstr str; local_push v str (zlength s).

(** ** Output *)
Definition cpp_demangle_push_str (str : mem) (len : Z) : M unit :=
  guard_ (negb (len =? 0));;
  modify (set_is_tmpl false);;
  r ← gets cur_output;
  vec_push r str len.

Definition cpp_demangle_pop_str : M unit := r ← gets cur_output; vec_pop r.

(** [DEM_PUSH_STR] of a literal, and of a [char *] *)
Definition DEM_PUSH_STR (s : string) : M unit :=
  cpp_demangle_push_str (Bytes (lit s)) (zlength (lit s)).

Definition DEM_PUSH_CSTR (p : mem) : M unit :=
  s ← read_cstr p; cpp_demangle_push_str p (zlength s).

(** ** Substitution candidates and template arguments *)
Definition cpp_demangle_push_subst (str : mem) (len : Z) : M unit :=
  guard_ (negb (len =? 0));;
  v ← vec_get VSubst;
  f ← on_clock (vector_str_find v (Some str) len);
  if f =? 0 then vec_push VSubst str len else mret tt.

Definition cpp_demangle_push_subst_v (v : vector_str) : M unit :=
  o ← on_clock (vector_str_get_flat v);
  match o with
  | None => failed
  | Some (str, str_len) => cpp_demangle_push_subst str str_len
  end.

(** The entry of a table pushed to the output, then the ['_'] skipped. *)
Definition push_entry (r : vref) (idx : Z) : M unit :=
  v ← vec_get r;
  guard_ (negb (size v <=? idx));;
  match container v !! Z.to_nat idx with
  | None => crashed OutOfBounds
  | Some c =>
      s ← read_cstr (cval c);
      let len := zlength s in
      guard_ (negb (len =? 0));;
      cpp_demangle_push_str (cval c) len;;
      advance 1
  end.

Definition cpp_demangle_get_subst (idx : Z) : M unit := push_entry VSubst idx.
Definition cpp_demangle_get_tmpl_param (idx : Z) : M unit := push_entry VTmpl idx.

(** [strlen(ddata->last_sname)] and the characters: the owner of the string
    must still be alive. *)
Definition read_sname_ptr (p : sname_ptr) : M bytes :=
  match p with
  | SLit s => mret s
  | SCell id =>
      s ← gets (fun s => s);
      let live := container (output s) ++ concat (container <$> locals s) in
      match find (fun c => Nat.eqb (cid c) id) live with
      | Some c => read_cstr (cval c)
      | None => crashed UseAfterFree
      end
  end.
End Ops.

(** The state of a run that starts at [start], with an allocator that has
    given its first five blocks. *)
Definition fresh_vec : vector_str := VectorStr VECTOR_DEF_CAPACITY [].

Definition fresh_data (start : Z) : cpp_demangle_data := {|
  output := fresh_vec; subst := fresh_vec; tmpl := fresh_vec; class_type := fresh_vec;
  cur_output := VOutput; cmd := VectorReadCmd VECTOR_DEF_CAPACITY [];
  mem_rst := false; mem_vat := false; mem_cst := false; mem_ref := false;
  mem_rref := false; is_tmpl := false; is_functype := false; ref_qualifier := false;
  ref_qualifier_type := None; push_qualifier := PUSH_ALL_QUALIFIER; func_type := 0;
  cur := start; last_sname := None; locals := []; clock := 5 |}.
