(* ===== verification/DemQual.v ===== *)
(** * cpp_demangle_push_type_qualifier

    Writes the qualifiers collected in front of a type after the type, the
    innermost first, and records every qualified type as a substitution
    candidate.  [subst_v] is the local vector the candidates are built in
    ([None] when the caller passed no [type_str]). *)
From S2P Require Import Prelude CString Platform VectorStr VectorAux DemState.

Definition is_cv (t : type_qualifier) : bool :=
  match t with TYPE_RST | TYPE_VAT | TYPE_CST => true | _ => false end.

Section Qualifiers.
Context {P : Platform} {I : Input}.

(** [cpp_demangle_push_subst_v(ddata, &subst_v)] *)
Definition push_candidate (subst_v : option vector_str) : M unit :=
  match subst_v with
  | None => mret tt
  | Some v => cpp_demangle_push_subst_v v
  end.

(** [VEC_PUSH_STR(&subst_v, s)] *)
Definition grow_candidate (subst_v : option vector_str) (s : mem)
    : M (option vector_str) :=
  match subst_v with
  | None => mret None
  | Some v => v ← VEC_PUSH_STR v s; mret (Some v)
  end.

(** [DEM_PUSH_STR], and with a [type_str] the candidate is extended and
    recorded. *)
Definition push_qualifier_str (s : mem) (subst_v : option vector_str)
    : M (option vector_str) :=
  DEM_PUSH_CSTR s;;
  subst_v ← grow_candidate subst_v s;
  push_candidate subst_v;;
  mret subst_v.

(** The cv-qualifiers: the candidate is recorded only when no further
    cv-qualifier follows. *)
Definition push_cv_str (s : mem) (next : option type_qualifier)
    (subst_v : option vector_str) : M (option vector_str) :=
  DEM_PUSH_CSTR s;;
  subst_v ← grow_candidate subst_v s;
  (if match next with Some t => is_cv t | None => false end then mret tt
   else push_candidate subst_v);;
  mret subst_v.

(** The vendor qualifiers and vector sizes take the next string of
    [ext_name], printed into a buffer of [extra] more bytes. *)
Definition ext_str (v : vector_type_qualifier) (e_idx : Z) (extra : Z)
    (before after : string) : M mem :=
  let ext := ext_name v in
  guard_ (negb ((size ext =? 0) || (e_idx >? size_t (size ext - 1))));;
  match container ext !! Z.to_nat e_idx with
  | None => crashed OutOfBounds
  | Some c =>
      e ← read_cstr (cval c);
      let e_len := zlength e in
      guard_ (negb (e_len =? 0));;
      p ← on_clock (malloc (e_len + extra));
      match p with
      | None => failed
      | Some _ => mret (Bytes (ztake (e_len + extra - 1) (lit before ++ e ++ lit after)))
      end
  end.

Definition str (s : string) : mem := Bytes (lit s).

(** [qs]: the qualifiers [v->q_container[idx - 1]], [v->q_container[idx - 2]], ... *)
Fixpoint push_qualifiers (v : vector_type_qualifier) (qs : list type_qualifier)
    (cv : bool) (e_idx : Z) (subst_v : option vector_str) : M (option vector_str) :=
  match qs with
  | [] => mret subst_v
  | t :: qs =>
      pq ← gets push_qualifier;
      let only_cv := bool_decide (pq = PUSH_CV_QUALIFIER) in
      let skip_cv := bool_decide (pq = PUSH_NON_CV_QUALIFIER) && cv
                     || bool_decide (pq = PUSH_CV_QUALIFIER) && negb cv in
      match t with
      | TYPE_PTR =>
          w ← (if only_cv then mret subst_v else push_qualifier_str (str "*") subst_v);
          push_qualifiers v qs false e_idx w
      | TYPE_REF =>
          w ← (if only_cv then mret subst_v else push_qualifier_str (str "&") subst_v);
          push_qualifiers v qs false e_idx w
      | TYPE_RREF =>
          w ← (if only_cv then mret subst_v else push_qualifier_str (str "&&") subst_v);
          push_qualifiers v qs false e_idx w
      | TYPE_CMX =>
          w ← (if only_cv then mret subst_v else push_qualifier_str (str " complex") subst_v);
          push_qualifiers v qs false e_idx w
      | TYPE_IMG =>
          w ← (if only_cv then mret subst_v else push_qualifier_str (str " imaginary") subst_v);
          push_qualifiers v qs false e_idx w
      | TYPE_EXT =>
          if only_cv then push_qualifiers v qs false e_idx subst_v else
          buf ← ext_str v e_idx 2 " " "";
          w ← push_qualifier_str buf subst_v;
          push_qualifiers v qs false (e_idx + 1) w
      | TYPE_VEC =>
          if only_cv then push_qualifiers v qs false e_idx subst_v else
          buf ← ext_str v e_idx 12 " __vector(" ")";
          w ← push_qualifier_str buf subst_v;
          push_qualifiers v qs false (e_idx + 1) w
      | TYPE_RST =>
          w ← (if skip_cv then mret subst_v else push_cv_str (str " restrict") (head qs) subst_v);
          push_qualifiers v qs cv e_idx w
      | TYPE_VAT =>
          w ← (if skip_cv then mret subst_v else push_cv_str (str " volatile") (head qs) subst_v);
          push_qualifiers v qs cv e_idx w
      | TYPE_CST =>
          w ← (if skip_cv then mret subst_v else push_cv_str (str " const") (head qs) subst_v);
          push_qualifiers v qs cv e_idx w
      end
  end.

Definition cpp_demangle_push_type_qualifier (v : vector_type_qualifier)
    (type_str : option mem) : M unit :=
  if q_size v =? 0 then mret tt else
  subst_v ← match type_str with
            | None => mret None
            | Some t => w ← local_vec; w ← VEC_PUSH_STR w t; mret (Some w)
            end;
  push_qualifiers v (rev (q_container v)) true 0 subst_v;;
  mret tt.
End Qualifiers.
