(* ===== verification/DemLex.v ===== *)
(** * The lexical readers: numbers, offsets, source names, literals

    Models [cpp_demangle_read_number], [.._number_as_string],
    [.._offset_number], [.._nv_offset], [.._v_offset], [.._offset],
    [.._sname], [cpp_demangle_local_source_name], [cpp_demangle_push_fp] and
    the [decode_fp_to_*] functions of [libelftc_dem_gnu3.c]. *)
From S2P Require Import Prelude CString Platform VectorStr VectorAux DemState.

(** ** Floating-point literals *)

Definition FLOAT_SPRINTF_TRY_LIMIT : nat := 5.
Definition FLOAT_QUADRUPLE_BYTES : Z := 16.
Definition FLOAT_EXTENED_BYTES : Z := 10.
Definition SIZEOF_DOUBLE : Z := 8.
Definition SIZEOF_FLOAT : Z := 4.

Definition hex_to_dec (c : ascii) : Z :=
  switch c
    [("0", 0); ("1", 1); ("2", 2); ("3", 3); ("4", 4); ("5", 5); ("6", 6);
     ("7", 7); ("8", 8); ("9", 9); ("a", 10); ("b", 11); ("c", 12); ("d", 13);
     ("e", 14); ("f", 15)]%char (-1).

(** The bytes, least significant first: the digits are taken in pairs from
    the end of the literal ([rev] of it). The byte-order macros the code tests
    are defined nowhere, so every build takes the little-endian branch. *)
Fixpoint decode_pairs (r : bytes) : option (list Z) :=
  match r with
  | lo :: hi :: r =>
      let byte := hex_to_dec lo + hex_to_dec hi * 16 in
      if (byte <? 0) || (byte >? 255) then None
      else match decode_pairs r with
           | Some l => Some (byte :: l)
           | None => None
           end
  | _ => Some []
  end.

(** A zeroed object of [bytes_size] bytes with the literal's bytes stored
    from its start; NULL on a bad length or digit. *)
Definition decode_image (bytes_size : Z) (p : bytes) : option (list Z) :=
  let len := zlength p in
  if (len =? 0) || negb (len mod 2 =? 0) || (len / 2 >? bytes_size) then None else
  match decode_pairs (rev p) with
  | Some l => Some (l ++ replicate (Z.to_nat (bytes_size - zlength l)) 0)
  | None => None
  end.

Section Decode.
Context {P : Platform}.

(** [snprintf] into a buffer of [rtn_len] bytes, grown [tries] more times. *)
Fixpoint sprintf_loop (tries : nat) (rtn_len : Z) (text : bytes) : comp nat (option mem) :=
  p ← malloc rtn_len;
  match p with
  | None => mret None
  | Some _ =>
      if rtn_len <=? zlength text then
        match tries with
        | O => mret None
        | S tries => sprintf_loop tries (rtn_len * 1618 / 1000) text
        end
      else mret (Some (Bytes text))
  end.

(** [again:] runs until [limit++ > FLOAT_SPRINTF_TRY_LIMIT]. *)
Definition sprintf_fp (rtn_len : Z) (k : fp_kind) (image : list Z) (suffix : string)
    : comp nat (option mem) :=
  sprintf_loop (S FLOAT_SPRINTF_TRY_LIMIT) rtn_len (fmt_f k image ++ lit suffix).

Definition decode_fp_to_double (p : bytes) : comp nat (option mem) :=
  match decode_image SIZEOF_DOUBLE p with
  | None => mret None
  | Some f => sprintf_fp 64 FpDouble f "ld"
  end.

Definition decode_fp_to_float (p : bytes) : comp nat (option mem) :=
  match decode_image SIZEOF_FLOAT p with
  | None => mret None
  | Some f => sprintf_fp 64 FpFloat f "f"
  end.

Definition decode_fp_to_long_double (p : bytes) : comp nat (option mem) :=
  match decode_image sizeof_long_double p with
  | None => mret None
  | Some f => sprintf_fp 256 FpLongDouble f "d"
  end.

Definition decode_fp_to_float128 (p : bytes) : comp nat (option mem) :=
  switch sizeof_long_double
    [(FLOAT_QUADRUPLE_BYTES, decode_fp_to_long_double p);
     (FLOAT_EXTENED_BYTES,
        match decode_image FLOAT_QUADRUPLE_BYTES p with
        | None => mret None
        | Some buf => sprintf_fp 256 FpLongDouble (ztake FLOAT_EXTENED_BYTES buf) "d"
        end)]
    (mret None).

Definition decode_fp_to_float80 (p : bytes) : comp nat (option mem) :=
  switch sizeof_long_double
    [(FLOAT_QUADRUPLE_BYTES,
        match decode_image FLOAT_EXTENED_BYTES p with
        | None => mret None
        | Some buf => sprintf_fp 256 FpLongDouble (buf ++ replicate 6 0) "d"
        end);
     (FLOAT_EXTENED_BYTES, decode_fp_to_long_double p)]
    (mret None).
End Decode.

Section Lex.
Context {P : Platform} {I : Input}.

Definition cpp_demangle_push_fp (decoder : bytes -> comp nat (option mem)) : M unit :=
  fp ← gets cur;
  skip_while (fun c => negb (bool_decide (c = "E"%char)));;
  e ← gets cur;
  f ← on_clock (decoder (ztake (e - fp) (zdrop fp input)));
  match f with
  | None => failed
  | Some f =>
      s ← read_cstr f;
      let len := zlength s in
      rtn ← (if len >? 0 then status (cpp_demangle_push_str f len) else mret false);
      advance 1;;
      guard_ rtn
  end.

(** ** Numbers *)

(** [strtol(ddata->cur, NULL, base)] with [errno] *)
Definition strtol_at_cur (base : Z) : M (Z * bool) :=
  i ← gets cur;
  t ← text_at i;
  s ← read_cstr t;
  mret (strtol strtol_einval base s).

(** number ::= [n] <decimal> *)
Definition cpp_demangle_read_number : M Z :=
  c ← peek;
  negative_factor ← (if decide (c = "n"%char) then advance 1;; mret (-1) else mret 1);
  c ← peek;
  guard_ (ELFTC_ISDIGIT c);;
  '(len, errno) ← strtol_at_cur 10;
  guard_ (negb ((len =? 0) && (errno : bool)));;
  skip_while ELFTC_ISDIGIT;;
  assert_ (len >=? 0);;
  mret (len * negative_factor).

Definition cpp_demangle_read_number_as_string : M mem :=
  n ← cpp_demangle_read_number;
  p ← on_clock (malloc (zlength (fmt_ld n) + 1));
  match p with
  | None => failed
  | Some _ => mret (Bytes (fmt_ld n))
  end.

(** ** Offsets of thunks *)
Definition cpp_demangle_read_offset_number : M unit :=
  guard_more;;
  c ← peek;
  p ← gets cur;
  let negative := bool_decide (c = "n"%char) in
  let start := if negative then p + 1 else p in
  skip_while (fun c => negb (bool_decide (c = "_"%char)));;
  (if negative then DEM_PUSH_STR "-" else mret tt);;
  e ← gets cur;
  t ← text_at start;
  cpp_demangle_push_str t (e - start);;
  DEM_PUSH_STR " ";;
  advance 1.

Definition cpp_demangle_read_nv_offset : M unit :=
  DEM_PUSH_STR "offset : ";;
  cpp_demangle_read_offset_number.

(** The status of the last call is negated. *)
Definition cpp_demangle_read_v_offset : M unit :=
  DEM_PUSH_STR "offset : ";;
  cpp_demangle_read_offset_number;;
  DEM_PUSH_STR "virtual offset : ";;
  b ← status cpp_demangle_read_offset_number;
  guard_ (negb b).

Definition cpp_demangle_read_offset : M unit :=
  c ← peek;
  if decide (c = "h"%char) then advance 1;; cpp_demangle_read_nv_offset
  else if decide (c = "v"%char) then advance 1;; cpp_demangle_read_v_offset
  else failed.

(** ** Source names *)

(** [memcmp(lit, ddata->cur, n) == 0]; both objects must have [n] bytes. *)
Definition memcmp_at_cur (s : string) : M bool := fun st =>
  let n := zlength (lit s) in
  if (0 <=? cur st) && (cur st + n <=? zlength input + 1) then
    Ok (bool_decide (ztake n (zdrop (cur st) input) = lit s)) st
  else Crash OutOfBounds.

(** source-name ::= <len> <ID> *)
Definition cpp_demangle_read_sname : M unit :=
  len ← cpp_demangle_read_number;
  guard_ (negb (len <=? 0));;
  anon ← (if len =? 12 then memcmp_at_cur "_GLOBAL__N_1" else mret false);
  (if (anon : bool) then DEM_PUSH_STR "(anonymous namespace)"
   else i ← gets cur; t ← text_at i; cpp_demangle_push_str t len);;
  r ← gets cur_output;
  v ← vec_get r;
  assert_ (0 <? size v);;
  c ← gets cmd;
  match vector_read_cmd_find c READ_TMPL with
  | None => modify (set_last_sname (SCell ∘ cid <$> last (container v)))
  | Some _ => mret tt
  end;;
  advance len.

(** [if ( *cur == '_') { ++cur; while (isdigit) ++cur; }] *)
Definition skip_discriminator : M unit :=
  c ← peek;
  if decide (c = "_"%char) then advance 1;; skip_while ELFTC_ISDIGIT else mret tt.

Definition cpp_demangle_local_source_name : M unit :=
  c ← peek;
  guard_ (bool_decide (c = "L"%char));;
  advance 1;;
  cpp_demangle_read_sname;;
  skip_discriminator.
End Lex.
