(* ===== verification/DemReaders.v ===== *)
(** * The recursive readers: operators, literals, template arguments

    The grammar's readers call each other in cycles.  Every cycle goes through
    one of the four entries of [Readers]; a reader is an ordinary definition
    over that interface, and [Demangler.readers] ties the knot.  This file
    models, in [libelftc_dem_gnu3.c], [cpp_demangle_read_expr_primary],
    [.._uqname], [.._tmpl_param], [.._tmpl_arg],
    [.._tmpl_args] and [.._expression] with its operator helpers. *)
From S2P Require Import Prelude CString Platform VectorStr VectorAux DemState DemLex.

(** struct type_delimit; a [NULL] pointer is [None]. A reader that gets one
    returns it as it leaves it. *)
Record type_delimit := TypeDelimit { paren : bool; firstp : bool }.

Class Readers := {
  r_type : option type_delimit -> M (option type_delimit);
  r_encoding : M unit;
  r_expression : M unit;
  r_name : M unit;
}.

Definition CPP_DEMANGLE_TRY_LIMIT : nat := 128.

(** A loop that gives up when [limit++ > CPP_DEMANGLE_TRY_LIMIT] makes this
    many further rounds after its first. *)
Definition MORE_TRIES : nat := S CPP_DEMANGLE_TRY_LIMIT.

(** A switch on the two next characters. *)
Abbreviation H x y := (SIMPLE_HASH x%char y%char).

Section Readers.
Context {P : Platform} {I : Input} {R : Readers}.

Definition hash_at_cur : M Z :=
  x ← peek; y ← peek_at 1; mret (SIMPLE_HASH x y).

(** [cpp_demangle_read_type(ddata, NULL)] *)
Definition read_type_null : M unit := r_type None;; mret tt.

Definition cmd_push (c : read_cmd) (d : option vector_type_qualifier) : M unit :=
  v ← gets cmd;
  '(ok, v) ← on_clock (vector_read_cmd_push v c d);
  modify (set_cmd v);;
  guard_ ok.

Definition cmd_pop : M unit :=
  v ← gets cmd;
  let '(ok, v) := vector_read_cmd_pop v in
  modify (set_cmd v);;
  guard_ ok.

(** ** Literals *)
Definition read_int_literal : M unit :=
  advance 1;;
  c ← peek;
  (if decide (c = "n"%char) then DEM_PUSH_STR "-";; advance 1 else mret tt);;
  num ← gets cur;
  skip_while ELFTC_ISDIGIT;;
  c ← peek;
  guard_ (bool_decide (c = "E"%char));;
  advance 1;;
  e ← gets cur;
  t ← text_at num;
  cpp_demangle_push_str t (e - num - 1).

Definition cpp_demangle_read_expr_primary : M unit :=
  advance 1;;
  guard_more;;
  c ← peek;
  z ← peek_at 1;
  if decide (c = "_"%char /\ z = "Z"%char) then
    advance 2;;
    guard_more;;
    r_encoding;;
    advance 1
  else
  switch c
    [("b"%char,
        e ← peek_at 2;
        guard_ (bool_decide (e = "E"%char));;
        advance 1;;
        v ← peek;
        switch v
          [("0"%char, advance 2;; DEM_PUSH_STR "false");
           ("1"%char, advance 2;; DEM_PUSH_STR "true")]
          failed);
     ("d"%char, advance 1;; cpp_demangle_push_fp decode_fp_to_double);
     ("e"%char,
        advance 1;;
        if sizeof_long_double =? 10
        then cpp_demangle_push_fp decode_fp_to_double
        else cpp_demangle_push_fp decode_fp_to_float80);
     ("f"%char, advance 1;; cpp_demangle_push_fp decode_fp_to_float);
     ("g"%char,
        advance 1;;
        if sizeof_long_double =? 16
        then cpp_demangle_push_fp decode_fp_to_double
        else cpp_demangle_push_fp decode_fp_to_float128);
     ("i"%char, read_int_literal); ("j"%char, read_int_literal);
     ("l"%char, read_int_literal); ("m"%char, read_int_literal);
     ("n"%char, read_int_literal); ("s"%char, read_int_literal);
     ("t"%char, read_int_literal); ("x"%char, read_int_literal);
     ("y"%char, read_int_literal)]
    failed.

(** ** Unqualified names *)

(** [case SIMPLE_HASH(..): if (!DEM_PUSH_STR(..)) return 0; cur += 2; return 1;] *)
Definition op (k : Z) (name : string) : Z * M unit :=
  (k, DEM_PUSH_STR name;; advance 2).

Definition uqname_ops_1 : list (Z * M unit) :=
  [op (H "a" "a") "operator&&"; op (H "a" "d") "operator&";
   op (H "a" "n") "operator&"; op (H "a" "N") "operator&=";
   op (H "a" "S") "operator="; op (H "c" "l") "operator()";
   op (H "c" "m") "operator,"; op (H "c" "o") "operator~";
   (H "c" "v", DEM_PUSH_STR "operator(cast)";; advance 2;; read_type_null);
   op (H "d" "a") "operator delete []"; op (H "d" "e") "operator*";
   op (H "d" "l") "operator delete"; op (H "d" "v") "operator/";
   op (H "d" "V") "operator/="; op (H "e" "o") "operator^";
   op (H "e" "O") "operator^="; op (H "e" "q") "operator=="].

Definition uqname_ops_2 : list (Z * M unit) :=
  [op (H "g" "e") "operator>="; op (H "g" "t") "operator>";
   op (H "i" "x") "operator[]"; op (H "l" "e") "operator<=";
   op (H "l" "s") "operator<<"; op (H "l" "S") "operator<<=";
   op (H "l" "t") "operator<"; op (H "m" "i") "operator-";
   op (H "m" "I") "operator-="; op (H "m" "l") "operator*";
   op (H "m" "L") "operator*="; op (H "m" "m") "operator--";
   op (H "n" "a") "operator new []"; op (H "n" "e") "operator!=";
   op (H "n" "g") "operator-"; op (H "n" "t") "operator!";
   op (H "n" "w") "operator new"].

Definition uqname_ops_3 : list (Z * M unit) :=
  [op (H "o" "o") "operator||"; op (H "o" "r") "operator|";
   op (H "o" "R") "operator|="; op (H "p" "l") "operator+";
   op (H "p" "L") "operator+="; op (H "p" "m") "operator->*";
   op (H "p" "p") "operator++"; op (H "p" "s") "operator+";
   op (H "p" "t") "operator->"; op (H "q" "u") "operator?";
   op (H "r" "m") "operator%"; op (H "r" "M") "operator%=";
   op (H "r" "s") "operator>>"; op (H "r" "S") "operator>>=";
   op (H "r" "z") "operator sizeof ";
   op (H "s" "r") "scope resolution operator ";
   op (H "s" "v") "operator sizeof "].

(** Constructors and destructors are printed with the last source name. *)
Definition read_ctor_dtor (prefix : string) : M unit :=
  l ← gets last_sname;
  match l with
  | None => failed
  | Some p =>
      s ← read_sname_ptr p;
      guard_ (negb (zlength s =? 0));;
      DEM_PUSH_STR prefix;;
      cpp_demangle_push_str (Bytes s) (zlength s);;
      advance 2
  end.

Definition read_uqname_rest : M unit :=
  c ← peek;
  d ← peek_at 1;
  if bool_decide (c = "v"%char) && ELFTC_ISDIGIT d then
    DEM_PUSH_STR "vendor extened operator ";;
    i ← gets cur;
    t ← text_at (i + 1);
    cpp_demangle_push_str t 1;;
    advance 2;;
    cpp_demangle_read_sname
  else
  h ← hash_at_cur;
  switch h
    [(H "C" "1", read_ctor_dtor "::"); (H "C" "2", read_ctor_dtor "::");
     (H "C" "3", read_ctor_dtor "::"); (H "D" "0", read_ctor_dtor "::~");
     (H "D" "1", read_ctor_dtor "::~"); (H "D" "2", read_ctor_dtor "::~")]
    (if ELFTC_ISDIGIT c then cpp_demangle_read_sname
     else if decide (c = "L"%char) then cpp_demangle_local_source_name
     else mret tt).

Definition cpp_demangle_read_uqname : M unit :=
  guard_more;;
  h ← hash_at_cur;
  switch h (uqname_ops_1 ++ uqname_ops_2 ++ uqname_ops_3) read_uqname_rest.

(** ** Template parameters and arguments *)

(** The index [strtol] reads in base 36, plus one, then up to the ['_']. *)
Definition read_seq_id (get : Z -> M unit) : M unit :=
  c ← peek;
  if decide (c = "_"%char) then get 0 else
  '(nth, errno) ← strtol_at_cur 36;
  guard_ (negb ((nth =? 0) && (errno : bool)));;
  nth ← (if nth =? LONG_MAX then crashed SignedOverflow else mret (nth + 1));
  skip_while (fun c => negb (bool_decide (c = "_"%char)));;
  assert_ (nth >? 0);;
  get nth.

Definition cpp_demangle_read_tmpl_param : M unit :=
  c ← peek;
  guard_ (bool_decide (c = "T"%char));;
  advance 1;;
  read_seq_id cpp_demangle_get_tmpl_param.

Definition cpp_demangle_read_tmpl_arg : M unit :=
  guard_more;;
  c ← peek;
  switch c
    [("L"%char, cpp_demangle_read_expr_primary);
     ("X"%char,
        advance 1;;
        r_expression;;
        e ← peek;
        advance 1;;
        guard_ (bool_decide (e = "E"%char)))]
    read_type_null.

(** [if (!vector_str_find(v, s, len) && !vector_str_push(v, s, len)) fail] *)
Definition vec_add_new (r : vref) (s : option mem) (len : Z) : M unit :=
  v ← vec_get r;
  f ← on_clock (vector_str_find v s len);
  match s with
  | Some s => if f =? 0 then vec_push r s len else mret tt
  | None => guard_ (negb (f =? 0))
  end.

Fixpoint tmpl_args_loop (r : vref) (tries : nat) : M unit :=
  idx ← vec_size r;
  cpp_demangle_read_tmpl_arg;;
  '(arg, arg_len) ← vec_substr_or_fail r idx;
  vec_add_new VTmpl (Some arg) arg_len;;
  c ← peek;
  if decide (c = "E"%char) then
    advance 1;;
    DEM_PUSH_STR ">";;
    modify (set_is_tmpl true)
  else
    (if decide (c <> "I"%char) then DEM_PUSH_STR ", " else mret tt);;
    match tries with
    | O => failed
    | S tries => tmpl_args_loop r tries
    end.

Definition cpp_demangle_read_tmpl_args : M unit :=
  guard_more;;
  advance 1;;
  cmd_push READ_TMPL None;;
  DEM_PUSH_STR "<";;
  r ← gets cur_output;
  tmpl_args_loop r MORE_TRIES;;
  cmd_pop.

(** ** Expressions *)
Definition cpp_demangle_read_expression_binary (name : string) (len : Z) : M unit :=
  guard_ (negb (len =? 0));;
  r_expression;;
  cpp_demangle_push_str (Bytes (lit name)) len;;
  r_expression.

Definition cpp_demangle_read_expression_unary (name : string) (len : Z) : M unit :=
  guard_ (negb (len =? 0));;
  r_expression;;
  cpp_demangle_push_str (Bytes (lit name)) len.

Definition cpp_demangle_read_expression_trinary (name1 : string) (len1 : Z)
    (name2 : string) (len2 : Z) : M unit :=
  guard_ (negb (len1 =? 0) && negb (len2 =? 0));;
  r_expression;;
  cpp_demangle_push_str (Bytes (lit name1)) len1;;
  r_expression;;
  cpp_demangle_push_str (Bytes (lit name2)) len2;;
  r_expression.

Definition binary (k : Z) (name : string) (len : Z) : Z * M unit :=
  (k, advance 2;; cpp_demangle_read_expression_binary name len).
Definition unary (k : Z) (name : string) (len : Z) : Z * M unit :=
  (k, advance 2;; cpp_demangle_read_expression_unary name len).

Definition expression_ops_1 : list (Z * M unit) :=
  [(H "s" "t", advance 2;; read_type_null);
   (H "s" "r",
      advance 2;;
      read_type_null;;
      cpp_demangle_read_uqname;;
      c ← peek;
      if decide (c = "I"%char) then cpp_demangle_read_tmpl_args else mret tt);
   binary (H "a" "a") "&&" 2; unary (H "a" "d") "&" 1;
   binary (H "a" "n") "&" 1; binary (H "a" "N") "&=" 2;
   binary (H "a" "S") "=" 1; binary (H "c" "l") "()" 2;
   binary (H "c" "m") "," 1; binary (H "c" "o") "~" 1;
   binary (H "c" "v") "(cast)" 6; unary (H "d" "a") "delete []" 9;
   unary (H "d" "e") "*" 1; unary (H "d" "l") "delete" 6;
   binary (H "d" "v") "/" 1; binary (H "d" "V") "/=" 2;
   binary (H "e" "o") "^" 1; binary (H "e" "O") "^=" 2;
   binary (H "e" "q") "==" 2; binary (H "g" "e") ">=" 2;
   binary (H "g" "t") ">" 1].

Definition expression_ops_2 : list (Z * M unit) :=
  [binary (H "i" "x") "[]" 2; binary (H "l" "e") "<=" 2;
   binary (H "l" "s") "<<" 2; binary (H "l" "S") "<<=" 3;
   binary (H "l" "t") "<" 1; binary (H "m" "i") "-" 1;
   binary (H "m" "I") "-=" 2; binary (H "m" "l") "*" 1;
   binary (H "m" "L") "*=" 2; binary (H "m" "m") "--" 2;
   unary (H "n" "a") "new []" 6; binary (H "n" "e") "!=" 2;
   unary (H "n" "g") "-" 1; binary (H "n" "t") "!" 1;
   unary (H "n" "w") "new" 3; binary (H "o" "o") "||" 2;
   binary (H "o" "r") "|" 1; binary (H "o" "R") "|=" 2].

Definition expression_ops_3 : list (Z * M unit) :=
  [binary (H "p" "l") "+" 1; binary (H "p" "L") "+=" 2;
   binary (H "p" "m") "->*" 3; binary (H "p" "p") "++" 2;
   unary (H "p" "s") "+" 1; binary (H "p" "t") "->" 2;
   (H "q" "u", advance 2;; cpp_demangle_read_expression_trinary "?" 1 ":" 1);
   binary (H "r" "m") "%" 1; binary (H "r" "M") "%=" 2;
   binary (H "r" "s") ">>" 2; binary (H "r" "S") ">>=" 3;
   unary (H "r" "z") "sizeof" 6; unary (H "s" "v") "sizeof" 6].

Definition cpp_demangle_read_expression : M unit :=
  guard_more;;
  h ← hash_at_cur;
  switch h (expression_ops_1 ++ expression_ops_2 ++ expression_ops_3)
    (c ← peek;
     switch c
       [("L"%char, cpp_demangle_read_expr_primary);
        ("T"%char, cpp_demangle_read_tmpl_param)]
       failed).

(** The expression as a string instead of as output. *)
Definition cpp_demangle_read_expression_flat : M mem :=
  p_idx ← vec_size VOutput;
  cpp_demangle_read_expression;;
  '(exp, _) ← vec_substr_or_fail VOutput p_idx;
  vec_pop_to VOutput p_idx;;
  mret exp.
End Readers.
