(* ===== verification/DemNames.v ===== *)
(** * Names and substitutions

    Models [cpp_demangle_read_subst], [.._subst_std], [.._subst_stdtmpl],
    [.._nested_name], [.._local_name], [.._name] and [.._name_flat] of
    [libelftc_dem_gnu3.c]. *)
From S2P Require Import Prelude CString Platform VectorStr VectorAux DemState DemLex DemReaders.

Section Names.
Context {P : Platform} {I : Input} {R : Readers}.

(** The output since [p_idx] is appended to the local vector [v], and [v]
    flattened becomes a substitution candidate. *)
Definition push_component (v : vector_str) (s : mem) (len : Z) : M vector_str :=
  v ← local_push v s len;
  cpp_demangle_push_subst_v v;;
  mret v.

(** [if ( *cur == 'I')]: template arguments extend the candidate. *)
Definition read_args_component (r : vref) (v : vector_str) : M unit :=
  c ← peek;
  if decide (c = "I"%char) then
    p_idx ← vec_size r;
    cpp_demangle_read_tmpl_args;;
    '(subst_str, subst_str_len) ← vec_substr_or_fail r p_idx;
    push_component v subst_str subst_str_len;;
    mret tt
  else mret tt.

(** ** Substitutions *)
Definition cpp_demangle_read_subst_std : M unit :=
  v ← local_vec;
  DEM_PUSH_STR "std::";;
  v ← VEC_PUSH_STR v (Bytes (lit "std::"));
  advance 2;;
  r ← gets cur_output;
  p_idx ← vec_size r;
  cpp_demangle_read_uqname;;
  '(subst_str, subst_str_len) ← vec_substr_or_fail r p_idx;
  v ← push_component v subst_str subst_str_len;
  read_args_component r v.

(** [memcpy(dst, substr, substr_len)]: nothing is read when the length is 0. *)
Definition memcpy_bytes (p : mem) (len : Z) : M bytes :=
  if len =? 0 then mret [] else s ← read_cstr p; mret (ztake len s).

Definition cpp_demangle_read_subst_stdtmpl (str : string) : M unit :=
  let len := zlength (lit str) in
  guard_ (negb (len =? 0));;
  r ← gets cur_output;
  p_idx ← vec_size r;
  cpp_demangle_read_tmpl_args;;
  '(substr, substr_len) ← vec_substr_or_fail r p_idx;
  p ← on_clock (malloc (substr_len + len + 1));
  match p with
  | None => failed
  | Some _ =>
      s ← memcpy_bytes substr substr_len;
      cpp_demangle_push_subst (Bytes (lit str ++ s)) (substr_len + len)
  end.

(** One of the abbreviations [Sa], [Sb], ...: its text, the name a
    constructor would take, and template arguments if they follow. *)
Definition read_std_abbrev (text : string) (sname : option string) : M unit :=
  DEM_PUSH_STR text;;
  match sname with
  | Some n => modify (set_last_sname (Some (SLit (lit n))))
  | None => mret tt
  end;;
  advance 2;;
  c ← peek;
  if decide (c = "I"%char) then cpp_demangle_read_subst_stdtmpl text else mret tt.

Definition cpp_demangle_read_subst : M unit :=
  guard_more;;
  h ← hash_at_cur;
  switch h
    [(H "S" "a", read_std_abbrev "std::allocator" None);
     (H "S" "b", read_std_abbrev "std::basic_string" None);
     (H "S" "d", read_std_abbrev "std::basic_iostream<char, std::char_traits<char>>"
                   (Some "basic_iostream"));
     (H "S" "i", read_std_abbrev "std::basic_istream<char, std::char_traits<char>>"
                   (Some "basic_istream"));
     (H "S" "o", read_std_abbrev "std::basic_ostream<char, std::char_traits<char>>"
                   (Some "basic_ostream"));
     (H "S" "s", read_std_abbrev "std::string" (Some "string"));
     (H "S" "t", cpp_demangle_read_subst_std)]
    (advance 1;;
     guard_more;;
     c ← peek;
     if negb (char_le "0" c && char_le c "9") && negb (char_le "A" c && char_le c "Z")
        && negb (bool_decide (c = "_"%char))
     then advance 1
     else read_seq_id cpp_demangle_get_subst).

(** ** Nested names *)

(** The [do .. while] over the qualifiers of a member function. *)
Fixpoint read_member_qualifiers (rest : bytes) : M unit :=
  match rest with
  | [] => mret tt
  | c :: rest =>
      let next f := modify f;; advance 1;; read_member_qualifiers rest in
      switch c
        [("r"%char, next (set_mem_rst true)); ("V"%char, next (set_mem_vat true));
         ("K"%char, next (set_mem_cst true)); ("R"%char, next (set_mem_ref true));
         ("O"%char, next (set_mem_rref true))]
        (mret tt)
  end.

Definition read_component : M unit :=
  c ← peek;
  switch c
    [("I"%char, cpp_demangle_read_tmpl_args);
     ("S"%char, cpp_demangle_read_subst);
     ("T"%char, cpp_demangle_read_tmpl_param)]
    cpp_demangle_read_uqname.

Fixpoint nested_name_loop (r : vref) (v : vector_str) (tries : nat) : M unit :=
  p_idx ← vec_size r;
  read_component;;
  n ← vec_size r;
  v ← (if p_idx =? n then mret v else
         '(subst_str, subst_str_len) ← vec_substr_or_fail r p_idx;
         push_component v subst_str subst_str_len);
  c ← peek;
  if decide (c = "E"%char) then mret tt else
  v ← (if bool_decide (c <> "I"%char) && bool_decide (c <> "C"%char)
          && bool_decide (c <> "D"%char) && negb (p_idx =? n)
       then DEM_PUSH_STR "::";; VEC_PUSH_STR v (Bytes (lit "::"))
       else mret v);
  match tries with
  | O => failed
  | S tries => nested_name_loop r v tries
  end.

Definition cpp_demangle_read_nested_name : M unit :=
  c ← peek;
  guard_ (bool_decide (c = "N"%char));;
  advance 1;;
  guard_more;;
  i ← gets cur;
  read_member_qualifiers (zdrop i input);;
  r ← gets cur_output;
  v ← local_vec;
  nested_name_loop r v MORE_TRIES;;
  advance 1.

(** ** Local names *)

(** The parameter types of the enclosing function; a type list that is not
    ended by ['E'] may run to the end of the input. *)
Fixpoint local_types_loop (td : type_delimit) (more_type : bool) (tries : nat)
    : M (type_delimit * bool) :=
  c ← peek;
  if decide (c = NUL) then mret (td, more_type) else
  o ← r_type (Some td);
  let td := default td o in
  c ← peek;
  if decide (c = "E"%char) then mret (td, false) else
  match tries with
  | O => failed
  | S tries => local_types_loop td false tries
  end.

(** [vector_str_push_vector(&ddata->output, &local_name)] *)
Definition append_local (l : vref) : M unit :=
  v ← vec_get VOutput;
  o ← vec_get l;
  '(ok, v) ← on_clock (vector_str_push_vector v o);
  vec_set VOutput v;;
  guard_ ok.

Definition cpp_demangle_read_local_name : M unit :=
  advance 1;;
  guard_more;;
  local_name ← local_vec;
  l ← push_local local_name;
  modify (set_cur_output l);;
  on_fail r_encoding drop_local;;
  modify (set_cur_output VOutput);;
  is_t ← gets is_tmpl;
  more_type ← (if (is_t : bool) then
                 modify (set_is_tmpl false);;
                 on_fail read_type_null drop_local;;
                 mret true
               else mret false);
  on_fail (append_local l) drop_local;;
  drop_local;;
  '(td, more_type) ← local_types_loop (TypeDelimit false true) more_type MORE_TRIES;
  guard_ (negb more_type);;
  advance 1;;
  guard_more;;
  (if paren td then DEM_PUSH_STR ")" else mret tt);;
  c ← peek;
  (if decide (c = "s"%char) then advance 1
   else DEM_PUSH_STR "::";; r_name);;
  skip_discriminator.

(** ** Names *)
Definition read_unscoped_name : M unit :=
  r ← gets cur_output;
  v ← local_vec;
  p_idx ← vec_size r;
  cpp_demangle_read_uqname;;
  '(subst_str, subst_str_len) ← vec_substr_or_fail r p_idx;
  is_operator ← (if subst_str_len >? 8
                 then s ← read_cstr subst_str; mret (strstr s (lit "operator"))
                 else mret false);
  if (is_operator : bool) then mret tt else
  v ← push_component v subst_str subst_str_len;
  read_args_component r v.

Definition cpp_demangle_read_name : M unit :=
  guard_more;;
  c ← peek;
  switch c
    [("S"%char, cpp_demangle_read_subst);
     ("N"%char, cpp_demangle_read_nested_name);
     ("Z"%char, cpp_demangle_read_local_name)]
    read_unscoped_name.

Definition cpp_demangle_read_name_flat : M mem :=
  r ← gets cur_output;
  p_idx ← vec_size r;
  cpp_demangle_read_name;;
  '(name, _) ← vec_substr_or_fail r p_idx;
  vec_pop_to r p_idx;;
  mret name.
End Names.
