(* ===== verification/DemTypes.v ===== *)
(** * Types

    Models [cpp_demangle_read_array], [.._function], [.._pointer_to_member],
    [.._type] and [.._type_flat] of [libelftc_dem_gnu3.c]. *)
From S2P Require Import Prelude CString Platform VectorStr VectorAux DemState DemQual DemLex DemReaders DemNames.

Section Types.
Context {P : Platform} {I : Input} {R : Readers}.

(** ** Arrays *)
Definition push_bound (s : mem) (len : Z) : M unit :=
  DEM_PUSH_STR " [";;
  cpp_demangle_push_str s len;;
  DEM_PUSH_STR "]".

Definition cpp_demangle_read_array : M unit :=
  advance 1;;
  guard_more;;
  c ← peek;
  if decide (c = "_"%char) then
    advance 1;;
    guard_more;;
    read_type_null;;
    DEM_PUSH_STR " []"
  else if ELFTC_ISDIGIT c then
    num ← gets cur;
    skip_while ELFTC_ISDIGIT;;
    c ← peek;
    guard_ (bool_decide (c = "_"%char));;
    e ← gets cur;
    assert_ (e - num >? 0);;
    advance 1;;
    guard_more;;
    read_type_null;;
    t ← text_at num;
    push_bound t (e - num)
  else
    p_idx ← vec_size VOutput;
    cpp_demangle_read_expression;;
    '(exp, exp_len) ← vec_substr_or_fail VOutput p_idx;
    vec_pop_to VOutput p_idx;;
    c ← peek;
    guard_ (bool_decide (c = "_"%char));;
    advance 1;;
    guard_more;;
    read_type_null;;
    push_bound exp exp_len.

(** ** Functions *)

(** [vector_type_qualifier_dest(v); if (!vector_type_qualifier_init(v)) return 0;]
    When the second half fails, [v] still points at what the first half
    freed, and the caller that owns [v] destroys it again on its way out. *)
Definition reset_qualifiers (v : vector_type_qualifier) : M vector_type_qualifier :=
  on_clock (vector_type_qualifier_dest v);;
  o ← on_clock vector_type_qualifier_init;
  match o with
  | Some v => mret v
  | None => crashed DoubleFree
  end.

Fixpoint function_types_loop (td : type_delimit) (tries : nat) : M type_delimit :=
  o ← r_type (Some td);
  let td := default td o in
  c ← peek;
  if decide (c = "E"%char) then mret td else
  match tries with
  | O => failed
  | S tries => function_types_loop td tries
  end.

(** The pointer-to-member part of a function's declarator. *)
Definition push_member_pointer (non_cv_qualifier : bool) (rc : read_cmd_item) : M unit :=
  (if non_cv_qualifier then DEM_PUSH_STR " " else mret tt);;
  v ← vec_get VClass;
  guard_ (negb (size v =? 0));;
  match last (container v) with
  | None => failed
  | Some c =>
      s ← read_cstr (cval c);
      guard_ (negb (zlength s =? 0));;
      cpp_demangle_push_str (cval c) (zlength s)
  end;;
  DEM_PUSH_STR "::*";;
  modify (set_push_qualifier PUSH_ALL_QUALIFIER);;
  match item_data rc with
  | None => failed
  | Some d => cpp_demangle_push_type_qualifier d None
  end;;
  modify (fun s => set_func_type (func_type s + 1) s).

Definition push_ref_qualifier : M unit :=
  b ← gets ref_qualifier;
  if (b : bool) then
    t ← gets ref_qualifier_type;
    match t with
    | None => crashed UninitRead
    | Some TYPE_REF => DEM_PUSH_STR " &"
    | Some TYPE_RREF => DEM_PUSH_STR " &&"
    | Some _ => failed
    end;;
    modify (set_ref_qualifier false)
  else mret tt.

(** The qualifiers [v] of the function type are printed here; what is
    returned is the emptied vector. *)
Definition read_function_params (v : vector_type_qualifier) : M vector_type_qualifier :=
  DEM_PUSH_STR " ";;
  let non_cv_qualifier := existsb (fun t => negb (is_cv t)) (q_container v) in
  cs ← gets cmd;
  let rc := vector_read_cmd_find cs READ_PTRMEM in
  let paren_ := non_cv_qualifier || bool_decide (is_Some rc) in
  (if paren_ then DEM_PUSH_STR "(" else mret tt);;
  modify (set_push_qualifier PUSH_NON_CV_QUALIFIER);;
  cpp_demangle_push_type_qualifier v None;;
  match rc with
  | None => mret tt
  | Some rc => push_member_pointer non_cv_qualifier rc
  end;;
  (if paren_ then DEM_PUSH_STR ")" else mret tt);;
  modify (set_is_functype true);;
  td ← function_types_loop (TypeDelimit false true) MORE_TRIES;
  modify (set_is_functype false);;
  (if paren td then DEM_PUSH_STR ")" else mret tt);;
  modify (set_push_qualifier PUSH_CV_QUALIFIER);;
  cpp_demangle_push_type_qualifier v None;;
  modify (set_push_qualifier PUSH_ALL_QUALIFIER);;
  v ← reset_qualifiers v;
  push_ref_qualifier;;
  mret v.

(** Returns [*ext_c] and [v] as they are left. *)
Definition cpp_demangle_read_function (ext_c : bool) (v : vector_type_qualifier)
    : M (bool * vector_type_qualifier) :=
  c ← peek;
  guard_ (bool_decide (c = "F"%char));;
  advance 1;;
  c ← peek;
  ext_c ← (if decide (c = "Y"%char) then advance 1;; mret true else mret ext_c);
  read_type_null;;
  c ← peek;
  v ← (if decide (c = "E"%char) then mret v else read_function_params v);
  advance 1;;
  mret (ext_c, v).

(** ** Pointers to members *)
Definition cpp_demangle_read_pointer_to_member (v : vector_type_qualifier)
    : M vector_type_qualifier :=
  c ← peek;
  guard_ (bool_decide (c = "M"%char));;
  advance 1;;
  guard_more;;
  p_idx ← vec_size VOutput;
  read_type_null;;
  '(class, class_len) ← vec_substr_or_fail VOutput p_idx;
  let clean1 := reset_qualifiers v;; mret tt in
  let clean2 := status cmd_pop;; clean1 in
  let clean3 := status (vec_pop VClass);; clean2 in
  on_fail (vec_pop_to VOutput p_idx) clean1;;
  on_fail (cmd_push READ_PTRMEM (Some v)) clean1;;
  on_fail (vec_push VClass class class_len) clean2;;
  p_func_type ← gets func_type;
  on_fail
    (read_type_null;;
     n ← gets func_type;
     if p_func_type =? n then
       DEM_PUSH_STR " ";;
       cpp_demangle_push_str class class_len;;
       DEM_PUSH_STR "::*"
     else mret tt)
    clean3;;
  a ← status (vec_pop VClass);
  b ← status cmd_pop;
  v ← reset_qualifiers v;
  guard_ (a && b);;
  mret v.

(** ** Types *)

(** What the [switch] of [cpp_demangle_read_type] has computed when control
    reaches the label [rtn]. *)
Record type_result := TypeResult {
  tr_td : option type_delimit;
  tr_v : vector_type_qualifier;
  tr_is_builtin : bool;
  tr_p_idx : Z;
  tr_skip_ref_qualifier : bool;
}.

Definition clear_firstp (td : option type_delimit) : option type_delimit :=
  match td with
  | Some t => Some (TypeDelimit (paren t) false)
  | None => None
  end.

(** [vector_type_qualifier_push(&v, t)] *)
Definition push_q (v : vector_type_qualifier) (t : type_qualifier) : M vector_type_qualifier :=
  '(ok, v) ← on_clock (vector_type_qualifier_push v t);
  guard_ ok;; mret v.

(** [vector_str_push(&v.ext_name, ..)] *)
Definition push_ext (v : vector_type_qualifier) (s : mem) (len : Z) : M vector_type_qualifier :=
  e ← local_push (ext_name v) s len;
  mret (VectorTypeQualifier (q_capacity v) (q_container v) e).

Definition push_ext_str (v : vector_type_qualifier) (s : mem) : M vector_type_qualifier :=
  b ← read_cstr s; push_ext v s (zlength b).

(** [void] is left out where it is the whole parameter list. *)
Fixpoint omit_void (rest : bytes) : bool :=
  match rest with
  | [] => true
  | c :: rest => if decide (c = "E"%char) then true
                 else if decide (c = "R"%char \/ c = "O"%char) then omit_void rest
                 else false
  end.

(** The [PTR], [CV] and [REF] qualifiers, ahead of the [goto again]. *)
Definition type_qualifier_of (c : ascii) : option type_qualifier :=
  switch c
    [("C", Some TYPE_CMX); ("G", Some TYPE_IMG); ("K", Some TYPE_CST);
     ("O", Some TYPE_RREF); ("P", Some TYPE_PTR); ("r", Some TYPE_RST);
     ("R", Some TYPE_REF); ("V", Some TYPE_VAT)]%char None.

(** A reference qualifier is refused when one is already pending. *)
Definition note_ref_qualifier (t : type_qualifier) : M unit :=
  modify (set_ref_qualifier true);;
  modify (set_ref_qualifier_type (Some t)).

Definition named_type (c : ascii) (s : string) : ascii * option string := (c, Some s).

(** The built-in types that are one letter and one string. *)
Definition builtin_type (c : ascii) : option string :=
  switch c
    [named_type "a" "signed char"; named_type "b" "bool"; named_type "c" "char";
     named_type "d" "double"; named_type "e" "long double"; named_type "f" "float";
     named_type "g" "__float128"; named_type "h" "unsigned char"; named_type "i" "int";
     named_type "j" "unsigned int"; named_type "l" "long"; named_type "m" "unsigned long";
     named_type "n" "__int128"; named_type "o" "unsigned __int128"; named_type "s" "short";
     named_type "t" "unsigned short"; named_type "w" "wchar_t"; named_type "x" "long long";
     named_type "y" "unsigned long long"; named_type "z" "..."] None.

(** [case 'D'] after the letter, the vector extension apart. *)
Definition builtin_D_type (c : ascii) : option string :=
  switch c
    [named_type "a" "auto"; named_type "c" "decltype(auto)"; named_type "d" "decimal64";
     named_type "e" "decimal128"; named_type "f" "decimal32"; named_type "h" "half";
     named_type "i" "char32_t"; named_type "n" "decltype(nullptr)";
     named_type "s" "char16_t"] None.

(** [Dv <number> _] and [Dv _ <expression> _]: the size goes to [ext_name]. *)
Definition read_vector_size (v : vector_type_qualifier) : M vector_type_qualifier :=
  advance 1;;
  c ← peek;
  v ← (if decide (c = "_"%char) then
         advance 1;;
         exp_str ← cpp_demangle_read_expression_flat;
         push_ext_str v exp_str
       else
         num_str ← cpp_demangle_read_number_as_string;
         push_ext_str v num_str);
  c ← peek;
  guard_ (bool_decide (c = "_"%char));;
  advance 1;;
  push_q v TYPE_VEC.

(** [case 'U']: <number> and that many characters *)
Definition read_vendor_qualifier (v : vector_type_qualifier) : M vector_type_qualifier :=
  advance 1;;
  len ← cpp_demangle_read_number;
  guard_ (negb (len <=? 0));;
  i ← gets cur;
  t ← text_at i;
  v ← push_ext v t len;
  advance len;;
  push_q v TYPE_EXT.

(** [case 'I']: template arguments after a substitution *)
Definition read_type_args (r : vref) : M Z :=
  p_idx ← vec_size r;
  cpp_demangle_read_tmpl_args;;
  '(subst_str, subst_str_len) ← vec_substr_or_fail r p_idx;
  sv ← local_vec;
  sv ← local_push sv subst_str subst_str_len;
  cpp_demangle_push_subst_v sv;;
  mret p_idx.

(** The cases that end the loop. *)
Definition read_type_core (r : vref) (td : option type_delimit)
    (v : vector_type_qualifier) (p_idx : Z) (c : ascii) : M type_result :=
  let builtin := TypeResult td v true p_idx false in
  let named v := TypeResult td v false p_idx false in
  match builtin_type c with
  | Some name => DEM_PUSH_STR name;; advance 1;; mret builtin
  | None =>
  switch c
    [("A"%char, cpp_demangle_read_array;; mret (named v));
     ("E"%char,
        q ← gets ref_qualifier;
        f ← gets is_functype;
        if (q : bool) && f then
          status cpp_demangle_pop_str;;
          mret (TypeResult td v true p_idx true)
        else failed);
     ("F"%char, '(_, v) ← cpp_demangle_read_function false v; mret (named v));
     ("I"%char, p_idx ← read_type_args r; mret (TypeResult td v true p_idx false));
     ("M"%char, v ← cpp_demangle_read_pointer_to_member v; mret (named v));
     ("S"%char, cpp_demangle_read_subst;; mret (named v));
     ("T"%char, cpp_demangle_read_tmpl_param;; mret (named v));
     ("u"%char, advance 1;; cpp_demangle_read_sname;; mret (named v));
     ("v"%char,
        i ← gets cur;
        (if match td with Some t => firstp t | None => false end
            && omit_void (zdrop (i + 1) input)
         then mret tt else DEM_PUSH_STR "void");;
        advance 1;; mret builtin)]
    (cpp_demangle_read_name;; mret (named v))
  end.

(** The code from the label [again]. Every turn moves the cursor, so more
    turns than the input has positions cannot happen. *)
Fixpoint read_type_loop (fuel : nat) (r : vref) (td : option type_delimit)
    (v : vector_type_qualifier) (p_idx : Z) : M type_result :=
  match fuel with
  | O => no_fuel
  | S fuel =>
      c ← peek;
      (if decide (c = "R"%char \/ c = "O"%char \/ c = "E"%char) then mret tt
       else modify (set_ref_qualifier false));;
      match type_qualifier_of c with
      | Some t =>
          q ← gets ref_qualifier;
          (if decide (t = TYPE_REF \/ t = TYPE_RREF) then guard_ (negb q) else mret tt);;
          v ← push_q v t;
          (if decide (t = TYPE_REF \/ t = TYPE_RREF) then note_ref_qualifier t else mret tt);;
          advance 1;;
          read_type_loop fuel r (clear_firstp td) v p_idx
      | None =>
          if decide (c = "D"%char) then
            advance 1;;
            c ← peek;
            match builtin_D_type c with
            | Some name =>
                DEM_PUSH_STR name;; advance 1;;
                mret (TypeResult td v true p_idx false)
            | None =>
                guard_ (bool_decide (c = "v"%char));;
                v ← read_vector_size v;
                read_type_loop fuel r (clear_firstp td) v p_idx
            end
          else if decide (c = "U"%char) then
            v ← read_vendor_qualifier v;
            read_type_loop fuel r (clear_firstp td) v p_idx
          else read_type_core r td v p_idx c
      end
  end.

(** The opening parenthesis or the separator of a parameter list. *)
Definition push_delimiter (td : option type_delimit) : M (option type_delimit) :=
  match td with
  | None => mret None
  | Some t =>
      (if paren t then mret tt else
         DEM_PUSH_STR "(";;
         n ← vec_size VOutput;
         guard_ (negb (n <? 2)));;
      (if firstp t then mret tt else
         c ← peek;
         if decide (c <> "I"%char) then DEM_PUSH_STR ", " else mret tt);;
      mret (Some (TypeDelimit true (firstp t)))
  end.

(** The code from the label [rtn]. *)
Definition finish_type (r : vref) (t : type_result) : M (option type_delimit) :=
  type_str ← vec_substr r (tr_p_idx t);
  let type_str_len := match type_str with Some (_, l) => l | None => 0 end in
  (if tr_is_builtin t then mret tt else vec_add_new VSubst (fst <$> type_str) type_str_len);;
  (if tr_skip_ref_qualifier t then mret tt
   else cpp_demangle_push_type_qualifier (tr_v t) (fst <$> type_str));;
  on_clock (vector_type_qualifier_dest (tr_v t));;
  mret (clear_firstp (tr_td t)).

Definition cpp_demangle_read_type (td : option type_delimit) : M (option type_delimit) :=
  r ← gets cur_output;
  td ← push_delimiter td;
  o ← on_clock vector_type_qualifier_init;
  match o with
  | None => failed
  | Some v =>
      p_idx ← vec_size r;
      t ← read_type_loop (S (S (length input))) r td v p_idx;
      finish_type r t
  end.

Definition cpp_demangle_read_type_flat : M mem :=
  r ← gets cur_output;
  p_idx ← vec_size r;
  r_type None;;
  '(type, _) ← vec_substr_or_fail r p_idx;
  vec_pop_to r p_idx;;
  mret type.
End Types.
