(* ===== verification/Demangler.v ===== *)
(** * Encodings and the demangler itself

    Models [cpp_demangle_read_encoding], [__cxa_demangle_gnu3] and
    [is_cpp_mangled_gnu3] of [libelftc_dem_gnu3.c], and ties the knot of the
    recursive readers. *)
From S2P Require Import Prelude CString Platform VectorStr VectorAux DemState DemQual DemLex DemReaders DemNames DemTypes.

Section Encoding.
Context {P : Platform} {I : Input} {R : Readers}.

(** A prefix, then something that must be there. *)
Definition special (prefix : string) (k : M unit) : M unit :=
  DEM_PUSH_STR prefix;;
  advance 2;;
  guard_more;;
  k.

(** [GR]: reference temporaries *)
Definition read_reference_temporary : M unit :=
  special "reference temporary #"
    (name ← cpp_demangle_read_name_flat;
     num_str ← cpp_demangle_read_number_as_string;
     DEM_PUSH_CSTR num_str;;
     DEM_PUSH_STR " for ";;
     DEM_PUSH_CSTR name).

(** [GT]: transaction clones *)
Definition read_transaction_clone : M unit :=
  advance 2;;
  guard_more;;
  c ← peek;
  switch c
    [("n"%char, DEM_PUSH_STR "non-transaction clone for ")]
    (DEM_PUSH_STR "transaction clone for ");;
  advance 1;;
  r_encoding.

(** [TC]: construction vtables *)
Definition read_construction_vtable : M unit :=
  special "construction vtable for "
    (type ← cpp_demangle_read_type_flat;
     cpp_demangle_read_number;;
     c ← peek;
     advance 1;;
     guard_ (bool_decide (c = "_"%char));;
     read_type_null;;
     DEM_PUSH_STR "-in-";;
     DEM_PUSH_CSTR type).

Definition cpp_demangle_read_encoding : M unit :=
  guard_more;;
  h ← hash_at_cur;
  switch h
    [(H "G" "A", special "hidden alias for " r_encoding);
     (H "G" "R", read_reference_temporary);
     (H "G" "T", read_transaction_clone);
     (H "G" "V",
        DEM_PUSH_STR "guard variable for ";; advance 2;; cpp_demangle_read_name);
     (H "T" "c",
        special "virtual function covariant override "
          (cpp_demangle_read_offset;; cpp_demangle_read_offset;; r_encoding));
     (H "T" "C", read_construction_vtable);
     (H "T" "D", cpp_demangle_read_name);
     (H "T" "F", special "typeinfo fn for " read_type_null);
     (H "T" "h",
        special "virtual function non-virtual override "
          (cpp_demangle_read_nv_offset;; r_encoding));
     (H "T" "H", special "TLS init function for " cpp_demangle_read_name);
     (H "T" "I", special "typeinfo for " read_type_null);
     (H "T" "J", special "java Class for " read_type_null);
     (H "T" "S", special "typeinfo name for " read_type_null);
     (H "T" "T", special "VTT for " read_type_null);
     (H "T" "v",
        special "virtual function virtual override "
          (cpp_demangle_read_v_offset;; r_encoding));
     (H "T" "V", special "vtable for " read_type_null);
     (H "T" "W", special "TLS wrapper function for " cpp_demangle_read_name)]
    cpp_demangle_read_name.
End Encoding.

(** ** The knot *)
Fixpoint readers {P : Platform} {I : Input} (fuel : nat) : Readers :=
  match fuel with
  | O => {| r_type _ := no_fuel; r_encoding := no_fuel;
            r_expression := no_fuel; r_name := no_fuel |}
  | S fuel => {|
      r_type td := fun s => cpp_demangle_read_type (R := readers fuel) td s;
      r_encoding := fun s => cpp_demangle_read_encoding (R := readers fuel) s;
      r_expression := fun s => cpp_demangle_read_expression (R := readers fuel) s;
      r_name := fun s => cpp_demangle_read_name (R := readers fuel) s |}
  end.

Section Toplevel.
Context {P : Platform} {I : Input} {R : Readers}.

(** The loop over the types that follow the function's name: the return type
    of a template first (read into [ret_type], the stack vector [l]), then
    the parameters. *)
Fixpoint demangle_types_loop (l : vref) (td : type_delimit) (has_ret more_type : bool)
    (tries : nat) : M (type_delimit * bool * bool) :=
  c ← peek;
  if decide (c = NUL) then mret (td, has_ret, more_type) else
  c1 ← peek_at 1;
  if decide (c = "@"%char /\ c1 = "@"%char) then mret (td, has_ret, more_type) else
  '(td, more_type) ←
    (if has_ret then
       on_fail
         (cpp_demangle_read_type None;;
          vec_push l (Bytes (lit " ")) 1;;
          out ← vec_get VOutput;
          ret_type ← vec_get l;
          '(ok, out) ← on_clock (vector_str_push_vector_head out ret_type);
          vec_set VOutput out;;
          guard_ ok)
         drop_local;;
       modify (set_cur_output VOutput);;
       drop_local;;
       mret (td, true)
     else
       o ← cpp_demangle_read_type (Some td);
       mret (default td o, false));
  match tries with
  | O => failed
  | S tries => demangle_types_loop l td false more_type tries
  end.

(** [if (b && !VEC_PUSH_STR(&ddata.output, s)) goto clean;] *)
Definition push_if (b : bool) (s : string) : M unit :=
  if b then vec_push VOutput (Bytes (lit s)) (zlength (lit s)) else mret tt.

(** From the first [cpp_demangle_read_encoding] to the result. *)
Definition demangle_encoding : M (option mem) :=
  cpp_demangle_read_encoding;;
  c ← peek;
  n ← vec_size VSubst;
  (if bool_decide (c <> NUL) && (n >=? 1) then vec_pop VSubst else mret tt);;
  is_t ← gets is_tmpl;
  '(l, has_ret) ←
    (if (is_t : bool) then
       modify (set_is_tmpl false);;
       v ← local_vec;
       l ← push_local v;
       modify (set_cur_output l);;
       mret (l, true)
     else mret (VOutput, false));
  '(td, has_ret, more_type) ←
    demangle_types_loop l (TypeDelimit false true) has_ret false MORE_TRIES;
  let clean := if (has_ret : bool) then drop_local else mret tt in
  rtn ← on_fail
    (guard_ (negb more_type);;
     n ← vec_size VOutput;
     guard_ (negb (n =? 0));;
     s ← gets id;
     push_if (paren td) ")";;
     push_if (mem_vat s) " volatile";;
     push_if (mem_cst s) " const";;
     push_if (mem_rst s) " restrict";;
     push_if (mem_ref s) " &";;
     push_if (mem_rref s) " &&";;
     v ← vec_get VOutput;
     o ← on_clock (vector_str_get_flat v);
     mret (fst <$> o))
    clean;
  clean;;
  mret rtn.

(** A string that is not an encoding is tried as a type. *)
Definition demangle_type : M (option mem) :=
  cpp_demangle_read_type None;;
  v ← vec_get VOutput;
  o ← on_clock (vector_str_get_flat v);
  mret (fst <$> o).
End Toplevel.

Section Main.
Context {P : Platform}.

(** [body], then [clean:], which runs whether or not the work failed. *)
Definition work_and_clean (d : cpp_demangle_data) (body : M (option mem))
    : comp nat (option mem) := fun n =>
  let work s := match body s with Fail s' => Ok None s' | o => o end in
  match (rtn ← (work : M (option mem)); cpp_demangle_data_dest;; mret rtn)
          (set_clock n d) with
  | Ok r s => Ok r (clock s)
  | Fail s => Fail (clock s)
  | Crash c => Crash c
  | NoFuel => NoFuel
  end.

Definition with_data (start : Z) (body : M (option mem)) : comp nat (option mem) :=
  d ← cpp_demangle_data_init start;
  match d with
  | None => mret None
  | Some d => work_and_clean d body
  end.

(** The body for a non-null argument, over [fuel] levels of readers. *)
Definition demangle_at (fuel : nat) (org : bytes) : comp nat (option mem) :=
  let I : Input := org in
  let R := readers fuel in
  let org_len := zlength org in
  if (org_len <? 2) || negb (bool_decide (org !! 0%nat = Some "_"%char))
     || negb (bool_decide (org !! 1%nat = Some "Z"%char))
  then with_data 0 demangle_type
  else if (org_len >? 11) && strncmp_eq org (lit "_GLOBAL__I_") 11 then
    rtn ← malloc (org_len + 19);
    match rtn with
    | None => mret None
    | Some _ => mret (Some (Bytes (ztake (org_len + 18)
                  (lit "global constructors keyed to " ++ zdrop 11 org))))
    end
  else with_data 2 demangle_encoding.

(** Deep enough for every input: each recursive call is made further right. *)
Definition recursion_fuel (org : bytes) : nat := S (S (S (length org))).

Definition __cxa_demangle_gnu3 (org : option bytes) : comp nat (option mem) :=
  match org with
  | None => mret None
  | Some org => demangle_at (recursion_fuel org) org
  end.

Definition is_cpp_mangled_gnu3 (org : bytes) : bool :=
  let len := zlength org in
  (len >? 2) && bool_decide (org !! 0%nat = Some "_"%char)
    && bool_decide (org !! 1%nat = Some "Z"%char)
  || (len >? 11) && strncmp_eq org (lit "_GLOBAL__I_") 11.
End Main.
