(* ===== verification/DemFrame.v ===== *)
(** * What every operation of the demangler keeps

    A judgement for the leaves ([lex]) and one for the recursive readers
    ([reader]), with the rules that let a definition be walked through
    combinator by combinator.  Both give: the cursor only moves right and
    stays inside the input, the substitution and template tables only grow,
    allocation identities only increase; on success the command stack and the
    stack of local vectors are as before.  [reader e] also accounts for the
    recursion fuel: it can only run out from a cursor at most [e]. *)
From S2P Require Import Prelude CString Platform VectorStr VectorAux DemState DemQual DemLex DemReaders DemNames DemTypes Demangler.

(** ** Allocation counters only increase *)
Section Clock.
Context {P : Platform}.

Lemma clock_malloc z : pres le (malloc z).
Proof. intros n. unfold malloc. cbn. lia. Qed.
#[local] Hint Resolve clock_malloc : pres.

Lemma clock_strlen_sum cs : pres le (strlen_sum cs).
Proof. induction cs; cbn [strlen_sum]; pres_auto. Qed.
Lemma clock_concat_cells cs : pres le (concat_cells cs).
Proof. induction cs; cbn [concat_cells]; pres_auto. Qed.
Lemma clock_free_cells cs : pres le (free_cells cs).
Proof. induction cs; cbn [free_cells]; pres_auto. Qed.
Lemma clock_find_cells cs o l : pres le (find_cells cs o l).
Proof. induction cs; cbn [find_cells]; pres_auto. Qed.
Lemma clock_dup_cells cs : pres le (dup_cells cs).
Proof. induction cs; cbn [dup_cells]; pres_auto. Qed.
#[local] Hint Resolve clock_strlen_sum clock_concat_cells clock_free_cells
  clock_find_cells clock_dup_cells : pres.

Lemma clock_dest v : pres le (vector_str_dest v).
Proof. unfold vector_str_dest. pres_auto. Qed.
Lemma clock_find v o l : pres le (vector_str_find v o l).
Proof. unfold vector_str_find. pres_auto. Qed.
Lemma clock_get_flat v : pres le (vector_str_get_flat v).
Proof. unfold vector_str_get_flat, get_strlen_sum. pres_auto. Qed.
Lemma clock_grow v : pres le (vector_str_grow v).
Proof. unfold vector_str_grow. pres_auto. Qed.
Lemma clock_init : pres le vector_str_init.
Proof. unfold vector_str_init. pres_auto. Qed.
Lemma clock_pop v : pres le (vector_str_pop v).
Proof. unfold vector_str_pop. pres_auto. Qed.
#[local] Hint Resolve clock_grow : pres.
Lemma clock_push v s l : pres le (vector_str_push v s l).
Proof. unfold vector_str_push, copy_string. pres_auto. Qed.
Lemma clock_push_vector d o : pres le (vector_str_push_vector d o).
Proof. unfold vector_str_push_vector. pres_auto. Qed.
Lemma clock_push_vector_head d o : pres le (vector_str_push_vector_head d o).
Proof. unfold vector_str_push_vector_head. pres_auto. Qed.
Lemma clock_substr v b e : pres le (vector_str_substr v b e).
Proof. unfold vector_str_substr. pres_auto. Qed.
#[local] Hint Resolve clock_init clock_dest : pres.
Lemma clock_q_init : pres le vector_type_qualifier_init.
Proof. unfold vector_type_qualifier_init. pres_auto. Qed.
Lemma clock_q_dest v : pres le (vector_type_qualifier_dest v).
Proof. unfold vector_type_qualifier_dest. pres_auto. Qed.
Lemma clock_q_push v t : pres le (vector_type_qualifier_push v t).
Proof. unfold vector_type_qualifier_push. pres_auto. Qed.
Lemma clock_r_init : pres le vector_read_cmd_init.
Proof. unfold vector_read_cmd_init. pres_auto. Qed.
Lemma clock_r_push v c d : pres le (vector_read_cmd_push v c d).
Proof. unfold vector_read_cmd_push. pres_auto. Qed.

Lemma clock_sprintf t r x : pres le (sprintf_loop t r x).
Proof. revert r. induction t; intros r; cbn [sprintf_loop]; pres_auto; eauto. Qed.
#[local] Hint Resolve clock_sprintf : pres.
Lemma clock_sprintf_fp r k i s : pres le (sprintf_fp r k i s).
Proof. unfold sprintf_fp. pres_auto. Qed.
#[local] Hint Resolve clock_sprintf_fp : pres.
Lemma clock_double p : pres le (decode_fp_to_double p).
Proof. unfold decode_fp_to_double. pres_auto. Qed.
Lemma clock_float p : pres le (decode_fp_to_float p).
Proof. unfold decode_fp_to_float. pres_auto. Qed.
Lemma clock_long_double p : pres le (decode_fp_to_long_double p).
Proof. unfold decode_fp_to_long_double. pres_auto. Qed.
#[local] Hint Resolve clock_long_double : pres.
Lemma clock_float128 p : pres le (decode_fp_to_float128 p).
Proof. unfold decode_fp_to_float128. pres_auto. Qed.
Lemma clock_float80 p : pres le (decode_fp_to_float80 p).
Proof. unfold decode_fp_to_float80. pres_auto. Qed.
End Clock.
#[export] Hint Resolve clock_malloc clock_strlen_sum clock_concat_cells
  clock_free_cells clock_find_cells clock_dup_cells clock_dest clock_find
  clock_get_flat clock_grow clock_init clock_pop clock_push clock_push_vector
  clock_push_vector_head clock_substr clock_q_init clock_q_dest clock_q_push
  clock_r_init clock_r_push clock_double clock_float clock_long_double
  clock_float128 clock_float80 : pres.

(** ** State invariant, stacks, frame *)

(** [cur_output] points at the output or at a live stack vector. *)
Definition out_ok (r : vref) (n : nat) : Prop :=
  match r with
  | VOutput => True
  | VLocal i => (i < n)%nat
  | _ => False
  end.

Definition cmds (s : cpp_demangle_data) : list read_cmd_item := r_container (cmd s).
Definition depth (s : cpp_demangle_data) : nat := length (locals s).

(** The command stack, the number of live stack vectors and the vector the
    output goes to. *)
Definition stk (s : cpp_demangle_data) : list read_cmd_item * nat * vref :=
  (cmds s, depth s, cur_output s).

(** The new state is further right, and its tables extend the old ones
    entry by entry. *)
Record frame (s s' : cpp_demangle_data) : Prop := Frame {
  frame_cur : cur s <= cur s';
  frame_clock : (clock s <= clock s')%nat;
  frame_subst : container (subst s) `prefix_of` container (subst s');
  frame_tmpl : container (tmpl s) `prefix_of` container (tmpl s');
}.

#[global] Instance frame_preorder : PreOrder frame.
Proof.
  split.
  - intros s. by constructor.
  - intros s1 s2 s3 [] []. constructor; [lia | lia | by etrans | by etrans].
Qed.

Section Frame.
Context {P : Platform} {I : Input}.

Definition INPUT_END : Z := zlength input + 1.

Definition J (s : cpp_demangle_data) : Prop :=
  out_ok (cur_output s) (depth s) /\ 0 <= cur s <= INPUT_END.

(** Leaves: whatever the status, the invariant and both stacks are kept. *)
Definition LR (s s' : cpp_demangle_data) : Prop :=
  J s -> J s' /\ stk s' = stk s /\ frame s s'.

#[global] Instance LR_preorder : PreOrder LR.
Proof.
  split.
  - intros s Hs. split_and!; [done | done | reflexivity].
  - intros s1 s2 s3 H12 H23 H1. destruct (H12 H1) as (H2 & E2 & F2).
    destruct (H23 H2) as (H3 & E3 & F3). split_and!; [done | congruence | by etrans].
Qed.

(** Changes of fields that the invariant does not mention. *)
Lemma LR_same s s' :
  cur s' = cur s -> cur_output s' = cur_output s -> depth s' = depth s ->
  cmds s' = cmds s -> (clock s <= clock s')%nat ->
  container (subst s) `prefix_of` container (subst s') ->
  container (tmpl s) `prefix_of` container (tmpl s') -> LR s s'.
Proof.
  intros H1 H2 H3 H4 H5 H6 H7 [Ho Hc]. unfold J, stk.
  rewrite H1, H2, H3, H4. split_and!; try done; try lia.
  constructor; [rewrite H1; lia | done | done | done].
Qed.

Ltac same := intros; apply LR_same; cbn; (done || lia || auto).
Ltac setter := apply pres_modify; same.

Lemma lex_on_clock {A} (m : comp nat A) : pres le m -> pres LR (on_clock m).
Proof.
  intros Hm s. unfold on_clock. specialize (Hm (clock s)).
  destruct (m (clock s)); try done; same.
Qed.

Lemma lex_set_is_tmpl b : pres LR (modify (set_is_tmpl b)).
Proof. setter. Qed.
Lemma lex_set_is_functype b : pres LR (modify (set_is_functype b)).
Proof. setter. Qed.
Lemma lex_set_ref_qualifier b : pres LR (modify (set_ref_qualifier b)).
Proof. setter. Qed.
Lemma lex_set_ref_qualifier_type b : pres LR (modify (set_ref_qualifier_type b)).
Proof. setter. Qed.
Lemma lex_set_push_qualifier b : pres LR (modify (set_push_qualifier b)).
Proof. setter. Qed.
Lemma lex_set_func_type f : pres LR (modify (fun s => set_func_type (f s) s)).
Proof. setter. Qed.
Lemma lex_set_last_sname b : pres LR (modify (set_last_sname b)).
Proof. setter. Qed.
Lemma lex_set_mem_rst b : pres LR (modify (set_mem_rst b)).
Proof. setter. Qed.
Lemma lex_set_mem_vat b : pres LR (modify (set_mem_vat b)).
Proof. setter. Qed.
Lemma lex_set_mem_cst b : pres LR (modify (set_mem_cst b)).
Proof. setter. Qed.
Lemma lex_set_mem_ref b : pres LR (modify (set_mem_ref b)).
Proof. setter. Qed.
Lemma lex_set_mem_rref b : pres LR (modify (set_mem_rref b)).
Proof. setter. Qed.

(** Storing a vector that extends the one it replaces. *)
Lemma LR_vec_update r v v0 s :
  vec_lookup r s = Some v0 -> container v0 `prefix_of` container v ->
  LR s (vec_update r v s).
Proof.
  intros Hl Hp. destruct r; cbn in *; simplify_eq;
    apply LR_same; cbn; unfold depth; cbn; rewrite ?length_insert; done.
Qed.

(** Any vector other than the two tables may be stored. *)
Lemma LR_vec_update_out r v s :
  r <> VSubst -> r <> VTmpl -> LR s (vec_update r v s).
Proof.
  intros Hs Ht. destruct r; try done;
    apply LR_same; cbn; unfold depth; cbn; rewrite ?length_insert; done.
Qed.

Lemma lex_vec_get r : pres LR (vec_get r).
Proof. intros s. unfold vec_get. destruct (vec_lookup r s); [reflexivity | done]. Qed.

Lemma lex_peek_at k : pres LR (peek_at k).
Proof. intros s. unfold peek_at. destruct (_ && _); [reflexivity | done]. Qed.
Lemma lex_peek : pres LR peek.
Proof. apply lex_peek_at. Qed.
Lemma lex_memcmp_at_cur x : pres LR (memcmp_at_cur x).
Proof. intros s. unfold memcmp_at_cur. destruct (_ && _); [reflexivity | done]. Qed.
Lemma lex_text_at i : pres LR (text_at i).
Proof. unfold text_at. pres_auto. Qed.

Lemma lex_advance k : 0 <= k -> pres LR (advance k).
Proof.
  intros Hk s. unfold advance. destruct (Z.leb_spec (cur s + k) (zlength input + 1)); [|done].
  intros [Ho Hc]. unfold J, stk, INPUT_END in *. cbn. split_and!; try done; try lia.
  constructor; cbn; [lia | done | done | done].
Qed.

Lemma count_while_nonneg p l : 0 <= count_while p l.
Proof. induction l as [|c l IH]; cbn; [lia|]. destruct (p c); lia. Qed.
End Frame.
#[export] Hint Resolve lex_on_clock lex_set_is_tmpl lex_set_is_functype
  lex_set_ref_qualifier lex_set_ref_qualifier_type lex_set_push_qualifier
  lex_set_func_type lex_set_last_sname lex_set_mem_rst lex_set_mem_vat
  lex_set_mem_cst lex_set_mem_ref lex_set_mem_rref lex_vec_get lex_peek_at
  lex_peek lex_memcmp_at_cur lex_text_at count_while_nonneg : pres.
#[export] Hint Extern 2 (pres LR (advance _)) => apply lex_advance; first [lia | apply count_while_nonneg] : pres.

Section Leaves.
Context {P : Platform} {I : Input}.

Lemma lex_skip_while p : pres LR (skip_while p).
Proof. unfold skip_while. pres_auto. Qed.
Lemma lex_guard_more : pres LR guard_more.
Proof. unfold guard_more. pres_auto. Qed.
#[local] Hint Resolve lex_skip_while lex_guard_more : pres.

(** A push only appends, whatever the vector. *)
Lemma vector_str_push_prefix v x len n ok v' n' :
  vector_str_push v x len n = Ok (ok, v') n' -> container v `prefix_of` container v'.
Proof.
  unfold vector_str_push. intros H.
  assert (forall b v1 n1, (if size v =? capacity v then vector_str_grow v else mret (true, v)) n
            = Ok (b, v1) n1 -> container v1 = container v) as Hg.
  { intros b v1 n1. destruct (_ =? _); [|by intros [= <- <- <-]].
    unfold vector_str_grow, assert_. destruct (0 <? _), (_ <? _); try done.
    unfold mbind, comp_bind, mret, comp_ret, malloc, crashed.
    destruct (malloc_ok _ _); by intros [= <- <- <-]. }
  revert H Hg. generalize (if size v =? capacity v then vector_str_grow v else mret (true, v)).
  intros m. unfold mbind, comp_bind, malloc, mret, comp_ret.
  destruct (m n) as [[b v1] n1| | |]; try done. intros H Hg. rewrite <- (Hg _ _ _ eq_refl).
  destruct b; cbn [negb] in H; [|by simplify_eq].
  destruct (malloc_ok _ _); [|by simplify_eq].
  destruct (copy_string x (len + 1) (S n1)); [|done..]. simplify_eq. cbn. by apply prefix_app_r.
Qed.

Lemma lex_vec_push r x len : pres LR (vec_push r x len).
Proof.
  intros s. unfold vec_push, vec_get, mbind, comp_bind, on_clock.
  destruct (vec_lookup r s) as [v|] eqn:Hv; [|done].
  pose proof (clock_push v x len (clock s)) as Hc.
  destruct (vector_str_push v x len (clock s)) as [[ok v'] n'| | |] eqn:Hp; try done.
  unfold vec_set, modify.
  assert (LR s (vec_update r v' (set_clock n' s))) as HL.
  { etrans; [|eapply (LR_vec_update r v' v)].
    - apply LR_same; cbn; done.
    - by destruct r.
    - by eapply vector_str_push_prefix. }
  by destruct ok.
Qed.

Lemma lex_vec_pop r : r <> VSubst -> r <> VTmpl -> pres LR (vec_pop r).
Proof.
  intros Hs Ht. unfold vec_pop.
  apply pres_bind; [typeclasses eauto | pres_auto |]. intros v.
  apply pres_bind; [typeclasses eauto | pres_auto |]. intros [ok v'].
  apply pres_bind; [typeclasses eauto | | intros _; pres_auto].
  unfold vec_set. apply pres_modify. intros s. by apply LR_vec_update_out.
Qed.

Lemma out_ok_not_table r n : out_ok r n -> r <> VSubst /\ r <> VTmpl.
Proof. by destruct r. Qed.

Lemma lex_vec_pops r n : r <> VSubst -> r <> VTmpl -> pres LR (vec_pops r n).
Proof. intros. induction n; cbn [vec_pops]; pres_auto. by apply lex_vec_pop. Qed.

Lemma lex_vec_pop_to r i : r <> VSubst -> r <> VTmpl -> pres LR (vec_pop_to r i).
Proof. intros. unfold vec_pop_to. pres_auto. by apply lex_vec_pops. Qed.

(** [cur_output] is never one of the tables. *)
Lemma lex_pop_str : pres LR cpp_demangle_pop_str.
Proof.
  intros s. unfold cpp_demangle_pop_str. erewrite bind_Ok by reflexivity.
  destruct (decide (cur_output s = VSubst \/ cur_output s = VTmpl)) as [Ht|Ht].
  - assert (pres (fun _ _ => True) (vec_pop (cur_output s))) as H.
    { unfold vec_pop, on_clock. intros s'. unfold mbind, comp_bind, vec_get.
      destruct (vec_lookup _ _) as [v|]; [|done]. pose proof (clock_pop v (clock s')) as Hc.
      destruct (vector_str_pop v (clock s')) as [[ok v'] n| | |]; try done. by destruct ok. }
    specialize (H s). destruct (vec_pop (cur_output s) s); try done;
      intros [Ho _]; destruct Ht as [Ht|Ht]; rewrite Ht in Ho; done.
  - apply lex_vec_pop; naive_solver.
Qed.

Lemma lex_vec_size r : pres LR (vec_size r).
Proof. unfold vec_size. pres_auto. Qed.
Lemma lex_vec_substr r i : pres LR (vec_substr r i).
Proof. unfold vec_substr. pres_auto. Qed.
#[local] Hint Resolve lex_vec_push lex_vec_size lex_vec_substr : pres.
Lemma lex_vec_substr_or_fail r i : pres LR (vec_substr_or_fail r i).
Proof. unfold vec_substr_or_fail. pres_auto. Qed.
Lemma lex_local_vec : pres LR local_vec.
Proof. unfold local_vec. pres_auto. Qed.
Lemma lex_local_push v x l : pres LR (local_push v x l).
Proof. unfold local_push. pres_auto. Qed.
#[local] Hint Resolve lex_local_push : pres.
Lemma lex_VEC_PUSH_STR v x : pres LR (VEC_PUSH_STR v x).
Proof. unfold VEC_PUSH_STR. pres_auto. Qed.
Lemma lex_push_str x l : pres LR (cpp_demangle_push_str x l).
Proof. unfold cpp_demangle_push_str. pres_auto. Qed.
#[local] Hint Resolve lex_push_str : pres.
Lemma lex_DEM_PUSH_STR x : pres LR (DEM_PUSH_STR x).
Proof. unfold DEM_PUSH_STR. pres_auto. Qed.
Lemma lex_DEM_PUSH_CSTR x : pres LR (DEM_PUSH_CSTR x).
Proof. unfold DEM_PUSH_CSTR. pres_auto. Qed.
Lemma lex_push_subst x l : pres LR (cpp_demangle_push_subst x l).
Proof. unfold cpp_demangle_push_subst. pres_auto. Qed.
#[local] Hint Resolve lex_push_subst : pres.
Lemma lex_push_subst_v v : pres LR (cpp_demangle_push_subst_v v).
Proof. unfold cpp_demangle_push_subst_v. pres_auto. Qed.
Lemma lex_push_entry r i : pres LR (push_entry r i).
Proof. unfold push_entry. pres_auto. Qed.
Lemma lex_read_sname_ptr p : pres LR (read_sname_ptr p).
Proof. unfold read_sname_ptr. pres_auto. Qed.
End Leaves.
#[export] Hint Resolve lex_skip_while lex_guard_more lex_vec_push lex_pop_str
  lex_vec_size lex_vec_substr lex_vec_substr_or_fail lex_local_vec lex_local_push
  lex_VEC_PUSH_STR lex_push_str lex_DEM_PUSH_STR lex_DEM_PUSH_CSTR lex_push_subst
  lex_push_subst_v lex_push_entry lex_read_sname_ptr : pres.

(** ** Qualifiers, numbers, offsets, names: still leaves *)
Section LexLeaves.
Context {P : Platform} {I : Input}.

Lemma lex_push_candidate v : pres LR (push_candidate v).
Proof. unfold push_candidate. pres_auto. Qed.
Lemma lex_grow_candidate v x : pres LR (grow_candidate v x).
Proof. unfold grow_candidate. pres_auto. Qed.
#[local] Hint Resolve lex_push_candidate lex_grow_candidate : pres.
Lemma lex_push_qualifier_str x v : pres LR (push_qualifier_str x v).
Proof. unfold push_qualifier_str. pres_auto. Qed.
Lemma lex_push_cv_str x n v : pres LR (push_cv_str x n v).
Proof. unfold push_cv_str. pres_auto. Qed.
Lemma lex_ext_str v i k b a : pres LR (ext_str v i k b a).
Proof. unfold ext_str. pres_auto. Qed.
#[local] Hint Resolve lex_push_qualifier_str lex_push_cv_str lex_ext_str : pres.
Lemma lex_push_qualifiers v qs cv i w : pres LR (push_qualifiers v qs cv i w).
Proof.
  revert cv i w. induction qs as [|q qs IH]; intros cv i w; cbn [push_qualifiers]; pres_auto.
Qed.
#[local] Hint Resolve lex_push_qualifiers : pres.
Lemma lex_push_type_qualifier v t : pres LR (cpp_demangle_push_type_qualifier v t).
Proof. unfold cpp_demangle_push_type_qualifier. pres_auto. Qed.

Lemma lex_push_fp d : (forall p, pres le (d p)) -> pres LR (cpp_demangle_push_fp d).
Proof. intros Hd. unfold cpp_demangle_push_fp. pres_auto. Qed.
Lemma lex_strtol_at_cur b : pres LR (strtol_at_cur b).
Proof. unfold strtol_at_cur. pres_auto. Qed.
#[local] Hint Resolve lex_strtol_at_cur : pres.
Lemma lex_read_number : pres LR cpp_demangle_read_number.
Proof. unfold cpp_demangle_read_number. pres_auto. Qed.
#[local] Hint Resolve lex_read_number : pres.
Lemma lex_read_number_as_string : pres LR cpp_demangle_read_number_as_string.
Proof. unfold cpp_demangle_read_number_as_string. pres_auto. Qed.
Lemma lex_read_offset_number : pres LR cpp_demangle_read_offset_number.
Proof. unfold cpp_demangle_read_offset_number. pres_auto. Qed.
#[local] Hint Resolve lex_read_offset_number : pres.
Lemma lex_read_nv_offset : pres LR cpp_demangle_read_nv_offset.
Proof. unfold cpp_demangle_read_nv_offset. pres_auto. Qed.
Lemma lex_read_v_offset : pres LR cpp_demangle_read_v_offset.
Proof. unfold cpp_demangle_read_v_offset. pres_auto. Qed.
#[local] Hint Resolve lex_read_nv_offset lex_read_v_offset : pres.
Lemma lex_read_offset : pres LR cpp_demangle_read_offset.
Proof. unfold cpp_demangle_read_offset. pres_auto. Qed.

(** A guard in front of a computation is a hypothesis about it. *)
Lemma pres_guard_then (R : cpp_demangle_data -> cpp_demangle_data -> Prop) `{!PreOrder R}
    {A} b (f : unit -> M A) :
  (b = true -> pres R (f tt)) -> pres R (guard_ b ≫= f).
Proof.
  intros H. destruct b; [by apply H|]. intros s. unfold mbind, comp_bind. cbn. reflexivity.
Qed.

Lemma lex_read_sname : pres LR cpp_demangle_read_sname.
Proof.
  unfold cpp_demangle_read_sname. pres_step; [typeclasses eauto | pres_step |].
  apply pres_guard_then; [typeclasses eauto|]. intros Hlen.
  apply negb_true_iff, Z.leb_gt in Hlen. pres_auto.
Qed.
Lemma lex_skip_discriminator : pres LR skip_discriminator.
Proof. unfold skip_discriminator. pres_auto. Qed.
#[local] Hint Resolve lex_read_sname lex_skip_discriminator : pres.
Lemma lex_local_source_name : pres LR cpp_demangle_local_source_name.
Proof. unfold cpp_demangle_local_source_name. pres_auto. Qed.

Lemma lex_hash_at_cur : pres LR hash_at_cur.
Proof. unfold hash_at_cur. pres_auto. Qed.
Lemma lex_read_int_literal : pres LR read_int_literal.
Proof. unfold read_int_literal. pres_auto. Qed.
Lemma lex_read_ctor_dtor x : pres LR (read_ctor_dtor x).
Proof. unfold read_ctor_dtor. pres_auto. Qed.
#[local] Hint Resolve lex_hash_at_cur lex_read_ctor_dtor lex_local_source_name : pres.
Lemma lex_read_uqname_rest : pres LR read_uqname_rest.
Proof. unfold read_uqname_rest. pres_auto. Qed.
Lemma lex_read_seq_id g : (forall i, pres LR (g i)) -> pres LR (read_seq_id g).
Proof. intros Hg. unfold read_seq_id. pres_auto. Qed.
Lemma lex_read_tmpl_param : pres LR cpp_demangle_read_tmpl_param.
Proof.
  unfold cpp_demangle_read_tmpl_param. pres_auto.
  apply lex_read_seq_id. intros i. unfold cpp_demangle_get_tmpl_param. pres_auto.
Qed.
Lemma lex_vec_add_new r x l : pres LR (vec_add_new r x l).
Proof. unfold vec_add_new. pres_auto. Qed.
Lemma lex_push_component v x l : pres LR (push_component v x l).
Proof. unfold push_component. pres_auto. Qed.
Lemma lex_memcpy_bytes p l : pres LR (memcpy_bytes p l).
Proof. unfold memcpy_bytes. pres_auto. Qed.
Lemma lex_read_member_qualifiers l : pres LR (read_member_qualifiers l).
Proof. induction l; cbn [read_member_qualifiers]; pres_auto. Qed.
Lemma lex_push_bound x l : pres LR (push_bound x l).
Proof. unfold push_bound. pres_auto. Qed.
Lemma lex_reset_qualifiers v : pres LR (reset_qualifiers v).
Proof. unfold reset_qualifiers. pres_auto. Qed.
#[local] Hint Resolve lex_push_type_qualifier : pres.
Lemma lex_push_member_pointer b rc : pres LR (push_member_pointer b rc).
Proof. unfold push_member_pointer. pres_auto. Qed.
Lemma lex_push_ref_qualifier : pres LR push_ref_qualifier.
Proof. unfold push_ref_qualifier. pres_auto. Qed.
Lemma lex_push_q v t : pres LR (push_q v t).
Proof. unfold push_q. pres_auto. Qed.
Lemma lex_push_ext v x l : pres LR (push_ext v x l).
Proof. unfold push_ext. pres_auto. Qed.
#[local] Hint Resolve lex_push_q lex_push_ext lex_vec_add_new : pres.
Lemma lex_push_ext_str v x : pres LR (push_ext_str v x).
Proof. unfold push_ext_str. pres_auto. Qed.
Lemma lex_note_ref_qualifier t : pres LR (note_ref_qualifier t).
Proof. unfold note_ref_qualifier. pres_auto. Qed.
Lemma lex_push_delimiter td : pres LR (push_delimiter td).
Proof. unfold push_delimiter. pres_auto. Qed.
Lemma lex_finish_type r t : pres LR (finish_type r t).
Proof. unfold finish_type. pres_auto. Qed.
Lemma lex_read_vendor_qualifier v : pres LR (read_vendor_qualifier v).
Proof.
  unfold read_vendor_qualifier. do 2 (pres_step; [typeclasses eauto | pres_step |]).
  apply pres_guard_then; [typeclasses eauto|]. intros Hlen.
  apply negb_true_iff, Z.leb_gt in Hlen. pres_auto.
Qed.
End LexLeaves.
#[export] Hint Resolve lex_push_type_qualifier lex_push_fp lex_strtol_at_cur
  lex_read_number lex_read_number_as_string lex_read_nv_offset lex_read_v_offset
  lex_read_offset lex_read_sname lex_skip_discriminator lex_local_source_name
  lex_hash_at_cur lex_read_int_literal lex_read_ctor_dtor lex_read_uqname_rest
  lex_read_tmpl_param lex_vec_add_new lex_push_component lex_memcpy_bytes
  lex_read_member_qualifiers lex_push_bound lex_reset_qualifiers
  lex_push_member_pointer lex_push_ref_qualifier lex_push_q lex_push_ext
  lex_push_ext_str lex_note_ref_qualifier lex_push_delimiter lex_finish_type
  lex_read_vendor_qualifier : pres.
