(* ===== verification/DemLogic.v ===== *)
(** * The judgement for the recursive readers, and every reader's proof of it

    [reader e c1 c2 Q m]: started in a state with the invariant and the stacks
    [c1], [m] on success returns a value in [Q], keeps the invariant, leaves
    the stacks [c2] and respects [frame]; on failure it respects [frame]; and
    if the fuel runs out, the cursor was at most [e] at the start.  [readers]
    with [n] levels satisfies it for [e] = the end of the input minus [n], so
    enough levels never run out. *)
From S2P Require Import Prelude CString Platform VectorStr VectorAux DemState DemQual DemLex DemReaders DemNames DemTypes Demangler DemFrame.

(** What is known of the stacks: the commands, how many stack vectors are live,
    and, if [k_out], that output goes to [ddata->output]. *)
Record stacks := K { k_cmds : list read_cmd_item; k_depth : nat; k_out : bool }.

Definition holds (c : stacks) (s : cpp_demangle_data) : Prop :=
  cmds s = k_cmds c /\ depth s = k_depth c /\ (k_out c = true -> cur_output s = VOutput).

Section Judgement.
Context {P : Platform} {I : Input}.

Definition reader (e : Z) (c1 c2 : stacks) {A} (Q : A -> Prop) (m : M A) : Prop :=
  forall s, J s -> holds c1 s ->
  match m s with
  | Ok a s' => Q a /\ J s' /\ holds c2 s' /\ frame s s'
  | Fail s' => frame s s'
  | Crash _ => True
  | NoFuel => cur s <= e
  end.

Abbreviation any := (fun _ => True).

Lemma reader_bind e c1 c2 c3 {A B} (Qa : A -> Prop) (Q : B -> Prop) (m : M A) (f : A -> M B) :
  reader e c1 c2 Qa m -> (forall a, Qa a -> reader e c2 c3 Q (f a)) ->
  reader e c1 c3 Q (m ≫= f).
Proof.
  intros Hm Hf s Hs Hc. unfold mbind, comp_bind. specialize (Hm s Hs Hc).
  destruct (m s) as [a s'| | |]; try done. destruct Hm as (Ha & Hs' & Hc' & Hfr).
  specialize (Hf a Ha s' Hs' Hc'). destruct (f a s') as [b s''| | |]; try done.
  - destruct Hf as (? & ? & ? & ?). split_and!; try done. by etrans.
  - by etrans.
  - destruct Hfr. lia.
Qed.

Lemma reader_weaken e e' c1 c2 {A} (Q Q' : A -> Prop) (m : M A) :
  reader e c1 c2 Q m -> e <= e' -> (forall a, Q a -> Q' a) -> reader e' c1 c2 Q' m.
Proof.
  intros Hm He HQ s Hs Hc. specialize (Hm s Hs Hc). destruct (m s); try done; [|lia].
  destruct Hm as (? & ? & ? & ?). auto.
Qed.

(** Knowing where the output goes may be forgotten. *)
Lemma reader_forget e c1 c n b {A} (Q : A -> Prop) (m : M A) :
  reader e c1 (K c n true) Q m -> reader e c1 (K c n b) Q m.
Proof.
  intros Hm s Hs Hc. specialize (Hm s Hs Hc). destruct (m s); try done.
  destruct Hm as (? & ? & (? & ? & ?) & ?). unfold holds. cbn in *. auto 10.
Qed.

Lemma holds_stk c s s' : stk s' = stk s -> holds c s -> holds c s'.
Proof. unfold stk, holds. intros [= -> -> ->]. done. Qed.

Lemma reader_lex e c {A} (m : M A) : pres LR m -> reader e c c any m.
Proof.
  intros Hm s Hs Hc. specialize (Hm s). destruct (m s); try done;
    destruct (Hm Hs) as (? & ? & ?); [|done]. by eauto using holds_stk.
Qed.

Lemma reader_ret e c {A} (a : A) (Q : A -> Prop) : Q a -> reader e c c Q (mret a).
Proof. intros Ha s Hs Hc. cbn. done. Qed.

Lemma reader_failed e c1 c2 {A} (Q : A -> Prop) : reader e c1 c2 Q failed.
Proof. intros s Hs Hc. cbn. reflexivity. Qed.

Lemma reader_crashed e c1 c2 {A} (Q : A -> Prop) x : reader e c1 c2 Q (crashed x).
Proof. by intros s Hs Hc. Qed.

Lemma reader_bind_assoc e c1 c2 {A B C} (Q : C -> Prop) (m : M A) (g : A -> M B) (f : B -> M C) :
  reader e c1 c2 Q (m ≫= fun a => g a ≫= f) -> reader e c1 c2 Q ((m ≫= g) ≫= f).
Proof. intros H s Hs Hc. specialize (H s Hs Hc). by rewrite bind_assoc. Qed.

(** The cursor is never negative. *)
Lemma reader_nonneg e c1 c2 {A} (Q : A -> Prop) (m : M A) :
  reader (Z.max e (-1)) c1 c2 Q m -> reader e c1 c2 Q m.
Proof.
  intros H s Hs Hc. specialize (H s Hs Hc). destruct (m s); try done.
  destruct Hs. lia.
Qed.

(** Every position gained is a position of fuel. *)
Lemma reader_advance e c1 c2 k {A} (Q : A -> Prop) (f : unit -> M A) :
  0 <= k -> reader (e + k) c1 c2 Q (f tt) -> reader e c1 c2 Q (advance k ≫= f).
Proof.
  intros Hk Hf s Hs Hc. unfold mbind, comp_bind. pose proof (lex_advance k Hk s) as Ha.
  unfold advance in *. destruct (cur s + k <=? zlength input + 1); [|done].
  destruct (Ha Hs) as (Hs' & Hc' & Hfr). specialize (Hf _ Hs' (holds_stk _ _ _ Hc' Hc)).
  destruct (f tt (set_cur (cur s + k) s)) as [b s''| | |]; try done.
  - destruct Hf as (? & ? & ? & ?). split_and!; try done. by etrans.
  - by etrans.
  - cbn in Hf. lia.
Qed.

Lemma reader_guard e c1 c2 b {A} (Q : A -> Prop) (f : unit -> M A) :
  (b = true -> reader e c1 c2 Q (f tt)) -> reader e c1 c2 Q (guard_ b ≫= f).
Proof.
  intros H. destruct b; [by apply H|]. intros s Hs Hc. unfold mbind, comp_bind. cbn. reflexivity.
Qed.

Lemma reader_gets_out e c1 c2 {A} (Q : A -> Prop) (f : vref -> M A) :
  (forall r, out_ok r (k_depth c1) -> reader e c1 c2 Q (f r)) ->
  reader e c1 c2 Q (gets cur_output ≫= f).
Proof.
  intros H s Hs Hc. unfold mbind, comp_bind. cbn. apply H; [|done..].
  destruct Hc as (_ & <- & _). apply Hs.
Qed.

Lemma reader_switch e c1 c2 {K A} `{EqDecision K} (Q : A -> Prop) (k : K)
    (cs : list (K * M A)) d :
  Forall (fun x => reader e c1 c2 Q x.2) cs -> reader e c1 c2 Q d ->
  reader e c1 c2 Q (switch k cs d).
Proof.
  intros Hcs Hd. induction Hcs as [|[k' m] cs Hm _ IH]; [done|]. cbn. by case_decide.
Qed.

(** The cleanup only has to respect [frame]. *)
Lemma reader_on_fail e c1 c2 {A} (Q : A -> Prop) (m : M A) h :
  reader e c1 c2 Q m -> pres frame h -> reader e c1 c2 Q (on_fail m h).
Proof.
  intros Hm Hh s Hs Hc. unfold on_fail. specialize (Hm s Hs Hc).
  destruct (m s) as [|s'| |]; try done. specialize (Hh s').
  destruct (h s'); try done; by etrans.
Qed.

(** ** The two stacks *)
Lemma vector_read_cmd_push_container v k d n :
  exists b v' n', vector_read_cmd_push v k d n = Ok (b, v') n' /\ (n <= n')%nat /\
    (b = true -> r_container v' = r_container v ++ [ReadCmdItem k d]).
Proof.
  unfold vector_read_cmd_push. destruct (_ =? _).
  - run1. destruct (malloc_ok _ _); eexists _, _, _; (split; [done|]); (split; [lia|done]).
  - eexists _, _, _. split; [done|]. split; [lia|done].
Qed.

Lemma reader_cmd_push e c n b k d :
  reader e (K c n b) (K (c ++ [ReadCmdItem k d]) n b) any (cmd_push k d).
Proof.
  intros s Hs (Hc & Hn & Ho). unfold cmd_push, mbind, comp_bind, gets, on_clock.
  destruct (vector_read_cmd_push_container (cmd s) k d (clock s)) as (ok & v & n' & -> & Hn' & Hv).
  cbn in *. assert (frame s (set_cmd v (set_clock n' s))) as Hfr by (constructor; cbn; done).
  destruct ok; cbn; [|done].
  unfold J, holds, cmds, depth in *. cbn. by rewrite Hv, Hc.
Qed.

Lemma reader_cmd_pop e c n b i : reader e (K (c ++ [i]) n b) (K c n b) any cmd_pop.
Proof.
  intros s Hs (Hc & Hn & Ho). unfold cmds, depth in *. cbn in *.
  unfold cmd_pop, vector_read_cmd_pop, mbind, comp_bind, gets, r_size. rewrite Hc.
  rewrite zlength_app. rewrite (proj2 (Z.eqb_neq _ _)).
  2: { pose proof (zlength_nonneg c). unfold zlength at 2. cbn. lia. }
  cbn. unfold J, holds, cmds, depth in *. cbn. rewrite removelast_snoc.
  split; [done|]. split; [done|]. split; [done|]. by constructor.
Qed.

Lemma reader_status_cmd_pop e c n b i :
  reader e (K (c ++ [i]) n b) (K c n b) any (status cmd_pop).
Proof.
  intros s Hs Hc. pose proof (reader_cmd_pop e c n b i s Hs Hc) as H. unfold status.
  destruct (cmd_pop s) eqn:E; try done. exfalso. destruct Hc as (Hc & _ & _).
  unfold cmds in Hc. cbn in Hc.
  revert E. unfold cmd_pop, vector_read_cmd_pop, mbind, comp_bind, gets, r_size.
  rewrite Hc, zlength_app, (proj2 (Z.eqb_neq _ _)); [done|].
  pose proof (zlength_nonneg c). unfold zlength at 2. cbn. lia.
Qed.

Lemma reader_push_local e c n b v {A} c2 (Q : A -> Prop) (f : vref -> M A) :
  reader e (K c (S n) b) c2 Q (f (VLocal n)) -> reader e (K c n b) c2 Q (push_local v ≫= f).
Proof.
  intros Hf s Hs (Hc & Hn & Hout). cbn in *.
  set (s' := set_locals (locals s ++ [v]) s).
  assert ((push_local v ≫= f) s = f (VLocal n) s') as -> by (by rewrite <- Hn).
  assert (J s' /\ holds (K c (S n) b) s' /\ frame s s') as (Hs' & Hc' & Hfr).
  { unfold J, holds, cmds, depth in *. subst s'. cbn. rewrite length_app, Hn in *. cbn.
    destruct Hs as [Ho Hcur]. split; [|split; [|by constructor]].
    - split; [|done]. destruct (cur_output s); cbn in *; try done. lia.
    - split; [done|]. split; [lia | done]. }
  specialize (Hf s' Hs' Hc'). destruct (f (VLocal n) s'); try done.
  - destruct Hf as (? & ? & ? & ?). split_and!; try done. by etrans.
  - by etrans.
Qed.

(** [ddata->cur_output = ..] *)
Lemma reader_set_cur_output e c n b r c2 {A} (Q : A -> Prop) (f : unit -> M A) :
  out_ok r n -> reader e (K c n (bool_decide (r = VOutput))) c2 Q (f tt) ->
  reader e (K c n b) c2 Q (modify (set_cur_output r) ≫= f).
Proof.
  intros Hr Hf s Hs (Hc & Hn & Ho). unfold mbind, comp_bind, modify. cbn in *.
  set (s' := set_cur_output r s).
  assert (J s' /\ holds (K c n (bool_decide (r = VOutput))) s' /\ frame s s') as (Hs' & Hc' & Hfr).
  { unfold J, holds, cmds, depth in *. subst s'. cbn. rewrite Hn in *. destruct Hs.
    split_and!; try done; try lia; try (by constructor). by intros ?%bool_decide_eq_true. }
  specialize (Hf s' Hs' Hc'). destruct (f tt s'); try done.
  - destruct Hf as (? & ? & ? & ?). split_and!; try done. by etrans.
  - by etrans.
Qed.

(** The innermost stack vector is dropped when no output goes to it. *)
Lemma reader_drop_local e c n : reader e (K c (S n) true) (K c n true) any drop_local.
Proof.
  intros s Hs (Hc & Hn & Ho). cbn in *. unfold drop_local, mbind, comp_bind, gets.
  assert (forall m, (clock s <= m)%nat ->
    let s' := set_locals (removelast (locals s)) (set_clock m s) in
    J s' /\ holds (K c n true) s' /\ frame s s') as H.
  { intros m Hm. unfold J, holds, cmds, depth in *. cbn. rewrite Ho by done.
    rewrite removelast_firstn_len, length_firstn, Hn. destruct Hs.
    split_and!; (done || lia || by constructor). }
  destruct (last (locals s)) as [v|] eqn:Hl.
  - unfold on_clock. pose proof (clock_dest v (clock s)) as Hd.
    destruct (vector_str_dest v (clock s)) as [a m| | |]; try done.
    cbn. split; [done | by apply H].
  - cbn. split; [done|]. specialize (H (clock s) ltac:(lia)). by destruct s.
Qed.

Lemma frame_drop_local : pres frame drop_local.
Proof.
  unfold drop_local. pres_step; [typeclasses eauto | pres_step |].
  pres_step; [typeclasses eauto | | apply pres_modify; intros s; by constructor].
  destruct (last a); [|pres_step]. intros s. unfold on_clock.
  pose proof (clock_dest v (clock s)) as Hd.
  destruct (vector_str_dest v (clock s)); try done; constructor; cbn; done || lia.
Qed.

Lemma frame_cmd_pop : pres frame cmd_pop.
Proof.
  unfold cmd_pop. pres_step; [typeclasses eauto | pres_step |].
  destruct (vector_read_cmd_pop a). pres_step; [typeclasses eauto | | pres_step].
  apply pres_modify. intros s. by constructor.
Qed.

Lemma frame_on_clock {A} (m : comp nat A) : pres le m -> pres frame (on_clock m).
Proof.
  intros Hm s. unfold on_clock. specialize (Hm (clock s)).
  destruct (m (clock s)); try done; constructor; cbn; done || lia.
Qed.

Lemma frame_vec_pop_class : pres frame (vec_pop VClass).
Proof.
  unfold vec_pop. pres_step; [typeclasses eauto | by intros s |].
  pres_step; [typeclasses eauto | apply frame_on_clock; pres_auto |].
  destruct a0. pres_step; [typeclasses eauto | | pres_step].
  apply pres_modify. intros s. by constructor.
Qed.

Lemma frame_reset_qualifiers v : pres frame (reset_qualifiers v).
Proof.
  unfold reset_qualifiers. do 2 (pres_step; [typeclasses eauto | apply frame_on_clock; pres_auto |]).
  destruct a0; pres_step.
Qed.

End Judgement.

#[export] Hint Extern 3 (pres LR (vec_pop_to ?r _)) =>
  match goal with
  | H : out_ok r _ |- _ => destruct (out_ok_not_table _ _ H); apply lex_vec_pop_to; assumption
  | _ => apply lex_vec_pop_to; discriminate
  end : pres.
#[export] Hint Extern 2 (pres LR (vec_pop VClass)) => apply lex_vec_pop; discriminate : pres.
#[export] Hint Resolve frame_drop_local frame_cmd_pop frame_vec_pop_class
  frame_reset_qualifiers frame_on_clock : pres.

Create HintDb reader.

(** Non-negative distances: literals, and lengths the code has checked. *)
Ltac nonneg :=
  first [ lia
        | match goal with H : negb (?l <=? 0) = true |- 0 <= ?l =>
            apply negb_true_iff, Z.leb_gt in H; lia end ].

Ltac rd_leaf :=
  first
    [ solve [apply reader_lex; eauto 4 with pres typeclass_instances]
    | solve [eapply reader_weaken; [eauto 3 with reader | lia | done]] ].

Ltac rd_step :=
  match goal with
  | |- reader _ _ _ _ (advance _ ≫= _) => apply reader_advance; [nonneg |]
  | |- reader _ _ _ _ (gets cur_output ≫= _) => apply reader_gets_out; intros ??
  | |- reader _ _ _ _ (guard_ _ ≫= _) => apply reader_guard; intros ?
  | |- reader _ _ _ _ (cmd_push _ _ ≫= _) =>
      eapply reader_bind; [apply reader_cmd_push | intros ? _]
  | |- reader _ _ _ _ (on_fail (cmd_push _ _) _ ≫= _) =>
      eapply reader_bind; [apply reader_on_fail; [apply reader_cmd_push |] | intros ? _]
  | |- reader _ _ _ _ cmd_pop => apply reader_cmd_pop
  | |- reader _ _ _ _ (status cmd_pop ≫= _) =>
      eapply reader_bind; [apply reader_status_cmd_pop | intros ? _]
  | |- reader _ _ _ _ (push_local _ ≫= _) => apply reader_push_local
  | |- reader _ _ _ _ (modify (set_cur_output _) ≫= _) =>
      apply reader_set_cur_output; [cbn; first [done | lia] | cbn [bool_decide]]
  | |- reader _ _ _ _ (drop_local ≫= _) =>
      eapply reader_bind; [apply reader_drop_local | intros ? _]
  | |- reader _ ?c _ _ (mbind _ _) =>
      apply (reader_bind _ c c _ (fun _ => True)); [| intros ? _]
  | |- reader _ _ _ _ (mret _) => apply reader_ret; exact Logic.I
  | |- reader _ _ _ _ failed => apply reader_failed
  | |- reader _ _ _ _ (crashed _) => apply reader_crashed
  | |- reader _ _ _ _ (switch _ _ _) =>
      apply reader_switch;
      [repeat (apply Forall_app; split);
       repeat apply Forall_cons_2; [..| apply Forall_nil_2]; cbn [snd op binary unary] |]
  | |- reader _ _ _ _ (on_fail _ _) => apply reader_on_fail
  | |- reader _ _ _ _ (status _) => apply reader_lex
  | |- reader _ _ _ _ (if ?b then _ else _) => destruct b
  | |- reader _ _ _ _ (match ?x with _ => _ end) => destruct x
  | |- reader _ _ _ _ _ => rd_leaf
  | |- _ => pres_step
  end.
Ltac rd_auto := repeat rd_step.

Section Readers.
Context {P : Platform} {I : Input} {R : Readers} (B : Z).
Abbreviation any := (fun _ => True).

(** The interface: what the recursive entries promise. *)
Class ReadersOk : Prop := {
  ok_type td c : reader B c c any (r_type td);
  ok_encoding c : reader B c c any r_encoding;
  ok_expression c : reader B c c any r_expression;
  ok_name c : reader B c c any r_name;
}.
Context {HR : ReadersOk}.
#[local] Hint Resolve ok_type ok_encoding ok_expression ok_name : reader.

Lemma rd_read_type_null c : reader B c c any read_type_null.
Proof. unfold read_type_null. rd_auto. Qed.
#[local] Hint Resolve rd_read_type_null : reader.

Lemma rd_expr_primary c : reader (B - 1) c c any cpp_demangle_read_expr_primary.
Proof. unfold cpp_demangle_read_expr_primary. rd_auto. Qed.
#[local] Hint Resolve rd_expr_primary : reader.

Lemma rd_uqname c : reader (B - 1) c c any cpp_demangle_read_uqname.
Proof.
  unfold cpp_demangle_read_uqname, uqname_ops_1, uqname_ops_2, uqname_ops_3. rd_auto.
Qed.
#[local] Hint Resolve rd_uqname : reader.

Lemma rd_tmpl_arg c : reader B c c any cpp_demangle_read_tmpl_arg.
Proof. unfold cpp_demangle_read_tmpl_arg. rd_auto. Qed.
#[local] Hint Resolve rd_tmpl_arg : reader.

Lemma rd_tmpl_args_loop r tries c : reader B c c any (tmpl_args_loop r tries).
Proof. induction tries; cbn [tmpl_args_loop]; rd_auto. Qed.
#[local] Hint Resolve rd_tmpl_args_loop : reader.

Lemma rd_tmpl_args c : reader (B - 1) c c any cpp_demangle_read_tmpl_args.
Proof. unfold cpp_demangle_read_tmpl_args. destruct c. rd_auto. Qed.
#[local] Hint Resolve rd_tmpl_args : reader.

Lemma rd_binary n l c : reader B c c any (cpp_demangle_read_expression_binary n l).
Proof. unfold cpp_demangle_read_expression_binary. rd_auto. Qed.
Lemma rd_unary n l c : reader B c c any (cpp_demangle_read_expression_unary n l).
Proof. unfold cpp_demangle_read_expression_unary. rd_auto. Qed.
Lemma rd_trinary n l n' l' c : reader B c c any (cpp_demangle_read_expression_trinary n l n' l').
Proof. unfold cpp_demangle_read_expression_trinary. rd_auto. Qed.
#[local] Hint Resolve rd_binary rd_unary rd_trinary : reader.

Lemma rd_expression c : reader (B - 1) c c any cpp_demangle_read_expression.
Proof.
  unfold cpp_demangle_read_expression, expression_ops_1, expression_ops_2, expression_ops_3.
  rd_auto.
Qed.
#[local] Hint Resolve rd_expression : reader.

Lemma rd_expression_flat c : reader (B - 1) c c any cpp_demangle_read_expression_flat.
Proof. unfold cpp_demangle_read_expression_flat. rd_auto. Qed.
#[local] Hint Resolve rd_expression_flat : reader.

(** *** Names *)
Lemma rd_args_component r v c : reader (B - 1) c c any (read_args_component r v).
Proof. unfold read_args_component. rd_auto. Qed.
#[local] Hint Resolve rd_args_component : reader.

Lemma rd_subst_std c : reader (B - 1) c c any cpp_demangle_read_subst_std.
Proof. unfold cpp_demangle_read_subst_std. rd_auto. Qed.
Lemma rd_subst_stdtmpl x c : reader (B - 1) c c any (cpp_demangle_read_subst_stdtmpl x).
Proof. unfold cpp_demangle_read_subst_stdtmpl. rd_auto. Qed.
#[local] Hint Resolve rd_subst_std rd_subst_stdtmpl : reader.
Lemma rd_std_abbrev x n c : reader (B - 1) c c any (read_std_abbrev x n).
Proof. unfold read_std_abbrev. rd_auto. Qed.
#[local] Hint Resolve rd_std_abbrev : reader.

Lemma rd_get_subst c : reader (B - 1) c c any (read_seq_id cpp_demangle_get_subst).
Proof.
  apply reader_lex, lex_read_seq_id. intros i. unfold cpp_demangle_get_subst. pres_auto.
Qed.
#[local] Hint Resolve rd_get_subst : reader.

Lemma rd_subst c : reader (B - 1) c c any cpp_demangle_read_subst.
Proof. unfold cpp_demangle_read_subst. rd_auto. Qed.
#[local] Hint Resolve rd_subst : reader.

Lemma rd_component c : reader (B - 1) c c any read_component.
Proof. unfold read_component. rd_auto. Qed.
#[local] Hint Resolve rd_component : reader.

Lemma rd_nested_name_loop r v tries c : reader (B - 1) c c any (nested_name_loop r v tries).
Proof. revert v. induction tries; intros v; cbn [nested_name_loop]; rd_auto. Qed.
#[local] Hint Resolve rd_nested_name_loop : reader.

Lemma rd_nested_name c : reader (B - 1) c c any cpp_demangle_read_nested_name.
Proof. unfold cpp_demangle_read_nested_name. rd_auto. Qed.
#[local] Hint Resolve rd_nested_name : reader.

Lemma rd_local_types_loop td m tries c : reader B c c any (local_types_loop td m tries).
Proof. revert td m. induction tries; intros td m; cbn [local_types_loop]; rd_auto. Qed.
#[local] Hint Resolve rd_local_types_loop : reader.

Lemma lex_append_local l : pres LR (append_local l).
Proof.
  unfold append_local. pres_auto. unfold vec_set. apply pres_modify. intros s.
  by apply LR_vec_update_out.
Qed.
#[local] Hint Resolve lex_append_local : pres.

Lemma rd_local_name c : reader (B - 1) c c any cpp_demangle_read_local_name.
Proof.
  destruct c as [cs n b]. apply reader_forget.
  unfold cpp_demangle_read_local_name. rd_auto.
Qed.
#[local] Hint Resolve rd_local_name : reader.

Lemma rd_unscoped_name c : reader (B - 1) c c any read_unscoped_name.
Proof. unfold read_unscoped_name. rd_auto. Qed.
#[local] Hint Resolve rd_unscoped_name : reader.

Lemma rd_name c : reader (B - 1) c c any cpp_demangle_read_name.
Proof. unfold cpp_demangle_read_name. rd_auto. Qed.
#[local] Hint Resolve rd_name : reader.

Lemma rd_name_flat c : reader (B - 1) c c any cpp_demangle_read_name_flat.
Proof. unfold cpp_demangle_read_name_flat. rd_auto. Qed.
#[local] Hint Resolve rd_name_flat : reader.

(** *** Types *)
Lemma rd_array c : reader (B - 1) c c any cpp_demangle_read_array.
Proof. unfold cpp_demangle_read_array. rd_auto. Qed.
Lemma rd_function_types_loop td tries c : reader B c c any (function_types_loop td tries).
Proof. revert td. induction tries; intros td; cbn [function_types_loop]; rd_auto. Qed.
#[local] Hint Resolve rd_array rd_function_types_loop : reader.
Lemma rd_function_params v c : reader B c c any (read_function_params v).
Proof. unfold read_function_params. rd_auto. Qed.
#[local] Hint Resolve rd_function_params : reader.
Lemma rd_function x v c : reader (B - 1) c c any (cpp_demangle_read_function x v).
Proof. unfold cpp_demangle_read_function. rd_auto. Qed.
#[local] Hint Resolve rd_function : reader.

Lemma rd_pointer_to_member v c : reader (B - 1) c c any (cpp_demangle_read_pointer_to_member v).
Proof. unfold cpp_demangle_read_pointer_to_member. destruct c. rd_auto. Qed.
#[local] Hint Resolve rd_pointer_to_member : reader.

Lemma rd_vector_size v c : reader (B - 1) c c any (read_vector_size v).
Proof. unfold read_vector_size. rd_auto. Qed.
Lemma rd_type_args r c : reader (B - 1) c c any (read_type_args r).
Proof. unfold read_type_args. rd_auto. Qed.
#[local] Hint Resolve rd_vector_size rd_type_args : reader.
Lemma rd_type_core r td v i x c : reader (B - 1) c c any (read_type_core r td v i x).
Proof. unfold read_type_core. rd_auto. Qed.
#[local] Hint Resolve rd_type_core : reader.

(** The loop at [again:] has fuel of its own, one unit per turn, and every
    turn moves the cursor. *)
Lemma rd_type_loop k r td v i c :
  reader (Z.max B (INPUT_END + 1 - Z.of_nat k) - 1) c c any (read_type_loop k r td v i).
Proof.
  revert td v. induction k as [|k IH]; intros td v; cbn [read_type_loop].
  { intros s [_ Hs] _. cbn. lia. }
  assert (forall td v, reader (Z.max B (INPUT_END - Z.of_nat k)) c c any
                         (read_type_loop k r td v i)) as IH'.
  { intros. eapply reader_weaken; [apply IH | lia | done]. }
  replace (INPUT_END + 1 - Z.of_nat (S k)) with (INPUT_END - Z.of_nat k) by lia.
  set (e := Z.max B (INPUT_END - Z.of_nat k)) in *.
  assert (B <= e) by lia. clearbody e.
  unfold read_vector_size, read_vendor_qualifier.
  repeat first
    [ solve [eapply reader_weaken; [apply IH' | lia | done]]
    | match goal with
      | |- reader _ _ _ _ ((advance _ ≫= _) ≫= _) => apply reader_bind_assoc
      end
    | rd_step ].
Qed.

Lemma rd_type td c : reader (B - 1) c c any (cpp_demangle_read_type td).
Proof.
  unfold cpp_demangle_read_type. rd_step. do 2 (rd_step; [rd_auto|]).
  destruct a0 as [v|]; [|rd_auto].
  rd_step; [rd_auto|]. rd_step; [|rd_auto].
  apply reader_nonneg. eapply reader_weaken; [apply rd_type_loop | | done].
  unfold INPUT_END, zlength. lia.
Qed.
#[local] Hint Resolve rd_type : reader.

Lemma rd_type_flat c : reader B c c any cpp_demangle_read_type_flat.
Proof. unfold cpp_demangle_read_type_flat. rd_auto. Qed.
#[local] Hint Resolve rd_type_flat : reader.

(** *** Encodings *)
Lemma rd_special x k c :
  reader B c c any k -> reader (B - 1) c c any (special x k).
Proof.
  intros Hk. unfold special. rd_auto.
Qed.

Lemma rd_encoding c : reader (B - 1) c c any cpp_demangle_read_encoding.
Proof.
  unfold cpp_demangle_read_encoding, read_reference_temporary, read_transaction_clone,
    read_construction_vtable.
  rd_auto; apply rd_special; rd_auto.
Qed.
End Readers.

(** ** The knot *)
Section Knot.
Context {P : Platform} {I : Input}.

Lemma readers_ok n : ReadersOk (R := readers n) (INPUT_END - Z.of_nat n).
Proof.
  induction n as [|n IH].
  - split; intros; intros s [_ Hs] _; cbn; lia.
  - replace (INPUT_END - Z.of_nat (S n)) with (INPUT_END - Z.of_nat n - 1) by lia.
    split; intros; intros s; cbn [readers r_type r_encoding r_expression r_name].
    + by apply rd_type.
    + by apply rd_encoding.
    + by apply rd_expression.
    + by apply rd_name.
Qed.
End Knot.
