(* ===== verification/DemTotal.v ===== *)
(** * The whole run: termination, and the result on every path

    [total] is [reader] without [frame] (the top level itself removes an entry
    of the substitution table), and the theorems about complete runs of
    [__cxa_demangle_gnu3]. *)
From S2P Require Import Prelude CString Platform VectorStr VectorAux DemState DemQual DemLex DemReaders DemNames DemTypes Demangler DemFrame DemLogic.

Section Total.
Context {P : Platform} {I : Input}.
Abbreviation any := (fun _ => True).

(** [m] does not run out of fuel; a success keeps the invariant and leaves
    the stacks [c2]. *)
Definition total (c1 c2 : stacks) {A} (m : M A) : Prop := forall s,
  J s -> holds c1 s ->
  match m s with
  | Ok _ s' => J s' /\ holds c2 s'
  | NoFuel => False
  | _ => True
  end.

Lemma total_reader c1 c2 {A} (Q : A -> Prop) (m : M A) :
  reader (-1) c1 c2 Q m -> total c1 c2 m.
Proof.
  intros Hm s Hs Hc. specialize (Hm s Hs Hc). destruct (m s); try done.
  - by destruct Hm as (_ & ? & ? & _).
  - destruct Hs. lia.
Qed.

Lemma total_bind c1 c2 c3 {A B} (m : M A) (f : A -> M B) :
  total c1 c2 m -> (forall a, total c2 c3 (f a)) -> total c1 c3 (m ≫= f).
Proof.
  intros Hm Hf s Hs Hc. unfold mbind, comp_bind. specialize (Hm s Hs Hc).
  destruct (m s) as [a s'| | |]; try done. destruct Hm. by apply Hf.
Qed.

Lemma total_forget c1 c n b {A} (m : M A) :
  total c1 (K c n true) m -> total c1 (K c n b) m.
Proof.
  intros Hm s Hs Hc. specialize (Hm s Hs Hc). destruct (m s); try done.
  destruct Hm as (? & ? & ? & ?). unfold holds. cbn in *. auto.
Qed.

(** Popping the function's name from the candidates. *)
Lemma total_vec_pop_subst c : total c c (vec_pop VSubst).
Proof.
  intros s Hs Hc. unfold vec_pop, mbind, comp_bind, vec_get, on_clock. cbn.
  pose proof (clock_pop (subst s) (clock s)).
  destruct (vector_str_pop (subst s) (clock s)) as [[ok v] n| | |]; try done.
  destruct ok; cbn; [|done]. split; [by apply Hs | by apply Hc].
Qed.

(** A vector stored over [ddata->output]. *)
Lemma total_vec_set_output c v : total c c (vec_set VOutput v).
Proof. intros s Hs Hc. cbn. split; [by apply Hs | by apply Hc]. Qed.
End Total.

Section Toplevel.
Context {P : Platform} {I : Input} {R : Readers} {HR : ReadersOk (-1)}.
Abbreviation any := (fun _ => True).

Ltac leaf := eapply total_reader; first
  [ solve [apply reader_lex; eauto 4 with pres typeclass_instances; pres_auto]
  | solve [rd_auto] ].

Lemma total_read_type td c : total c c (cpp_demangle_read_type td).
Proof. eapply total_reader, reader_weaken; [by apply rd_type | lia | done]. Qed.
Lemma total_read_encoding c : total c c cpp_demangle_read_encoding.
Proof. eapply total_reader, reader_weaken; [by apply rd_encoding | lia | done]. Qed.

Lemma total_on_fail c1 c2 {A} (m : M A) h :
  total c1 c2 m -> pres frame h -> total c1 c2 (on_fail m h).
Proof.
  intros Hm Hh s Hs Hc. unfold on_fail. specialize (Hm s Hs Hc). specialize (Hh).
  destruct (m s) as [|s'| |]; try done. specialize (Hh s'). by destruct (h s').
Qed.

(** The return type of a template goes through the stack vector [l]. *)
Lemma total_return_type c n l :
  total (K c (S n) false) (K c (S n) false)
    (cpp_demangle_read_type None;;
     vec_push l (Bytes (lit " ")) 1;;
     out ← vec_get VOutput;
     ret_type ← vec_get l;
     '(ok, out) ← on_clock (vector_str_push_vector_head out ret_type);
     vec_set VOutput out;;
     guard_ ok).
Proof.
  eapply total_bind; [apply total_read_type | intros _].
  do 3 (eapply total_bind; [leaf | intros ?]).
  eapply total_bind; [leaf | intros [ok v]].
  eapply total_bind; [apply total_vec_set_output | intros _]. leaf.
Qed.

Lemma total_types_loop l td m tries c :
  total (K c 0 true) (K c 0 true) (demangle_types_loop l td false m tries).
Proof.
  revert td m. induction tries as [|tries IH]; intros td m; cbn [demangle_types_loop];
    (eapply total_bind; [leaf | intros x]); (destruct (decide _); [leaf|]);
    (eapply total_bind; [leaf | intros y]); (destruct (decide _); [leaf|]);
    (eapply total_bind;
      [eapply total_bind; [apply total_read_type | intros ?]; leaf | intros [td' m']]);
    [leaf | apply IH].
Qed.

(** ** Never out of fuel *)
Definition never {A} (m : M A) : Prop := forall s, m s <> NoFuel.

Lemma never_pres F {A} (m : M A) : pres F m -> never m.
Proof. intros Hm s. specialize (Hm s). by destruct (m s). Qed.

Lemma never_bind {A B} (m : M A) (f : A -> M B) :
  never m -> (forall a, never (f a)) -> never (m ≫= f).
Proof.
  intros Hm Hf s. unfold mbind, comp_bind. specialize (Hm s).
  destruct (m s); try done. apply Hf.
Qed.

Lemma never_on_fail {A} (m : M A) h : never m -> never h -> never (on_fail m h).
Proof.
  intros Hm Hh s. unfold on_fail. specialize (Hm s). destruct (m s) as [|s'| |]; try done.
  specialize (Hh s'). by destruct (h s').
Qed.

(** [m] does not run out of fuel from a state with these stacks. *)
Definition safe (c : stacks) {A} (m : M A) : Prop := forall s,
  J s -> holds c s -> m s <> NoFuel.

Lemma safe_bind c1 c2 {A B} (m : M A) (f : A -> M B) :
  total c1 c2 m -> (forall a, safe c2 (f a)) -> safe c1 (m ≫= f).
Proof.
  intros Hm Hf s Hs Hc. unfold mbind, comp_bind. specialize (Hm s Hs Hc).
  destruct (m s); try done. destruct Hm. by apply Hf.
Qed.

Lemma safe_assoc c {A B C} (m : M A) (g : A -> M B) (f : B -> M C) :
  safe c (m ≫= fun a => g a ≫= f) -> safe c ((m ≫= g) ≫= f).
Proof. intros H s Hs Hc. rewrite bind_assoc. by apply H. Qed.

Lemma safe_never c {A} (m : M A) : never m -> safe c m.
Proof. intros H s _ _. apply H. Qed.

Ltac never_leaf := eapply never_pres; first
  [ solve [eauto 4 with pres typeclass_instances]
  | solve [apply (pres_modify (fun _ _ => True)); done] ].

Ltac never_auto := repeat
  match goal with
  | |- never (mbind _ _) => apply never_bind; [| intros ?]
  | |- never (on_fail _ _) => apply never_on_fail
  | |- never (mret _) => by intros ?
  | |- never failed => by intros ?
  | |- never (guard_ ?b) => by destruct b
  | |- never (gets _) => by intros ?
  | |- never (if ?b then _ else _) => destruct b
  | |- never (match ?x with _ => _ end) => destruct x
  | |- never _ => never_leaf
  end.

(** What follows the loop over the types. *)
Definition finish_encoding (td : type_delimit) (has_ret more_type : bool) : M (option mem) :=
  let clean := if has_ret then drop_local else mret tt in
  rtn ← on_fail
    (guard_ (negb more_type);;
     n ← vec_size VOutput;
     guard_ (negb (n =? 0));;
     s ← gets id;
     push_if (paren td) ")";;
     push_if (mem_vat s) " volatile";;
     push_if (mem_cst s) " const";;
     push_if (mem_rst s) " restrict";;
     push_if (mem_ref s) " &";;
     push_if (mem_rref s) " &&";;
     v ← vec_get VOutput;
     o ← on_clock (vector_str_get_flat v);
     mret (fst <$> o))
    clean;
  clean;;
  mret rtn.

Lemma never_finish td h m : never (finish_encoding td h m).
Proof. unfold finish_encoding, push_if. never_auto. Qed.

Lemma total_set_out c n b r :
  out_ok r n -> total (K c n b) (K c n (bool_decide (r = VOutput))) (modify (set_cur_output r)).
Proof.
  intros Hr s (Ho & Hcur) (Hc & Hn & Hb). cbn in *. unfold J, holds, cmds, depth in *. cbn.
  rewrite Hn. split_and!; try done; try lia. by intros ?%bool_decide_eq_true.
Qed.

Lemma safe_types_loop c (has_ret : bool) l td m tries {B} (f : type_delimit * bool * bool -> M B) :
  (forall a, never (f a)) ->
  safe (if has_ret then K c 1 false else K c 0 true)
    (demangle_types_loop l td has_ret m tries ≫= f).
Proof.
  intros Hf. destruct has_ret.
  2: { eapply safe_bind; [apply total_types_loop | intros a; by apply safe_never]. }
  assert (forall td h m, never (mret (td, h, m) ≫= f)) as Hret.
  { intros. apply never_bind; [by intros ? | done]. }
  destruct tries as [|tries]; cbn [demangle_types_loop];
    apply safe_assoc; (eapply safe_bind; [leaf | intros x]);
    (destruct (decide _); [apply safe_never, Hret|]);
    apply safe_assoc; (eapply safe_bind; [leaf | intros y]);
    (destruct (decide _); [apply safe_never, Hret|]);
    apply safe_assoc.
  all: eapply safe_bind.
  1,3: eapply total_bind;
    [apply total_on_fail; [apply total_return_type | apply frame_drop_local] | intros _];
    eapply total_bind; [apply (total_set_out c 1 false VOutput); done | intros _];
    eapply total_bind; [eapply total_reader, reader_drop_local | intros _]; leaf.
  - intros [td' m']. apply safe_never. by apply never_bind; [intros ?|].
  - intros [td' m']. eapply safe_bind; [apply total_types_loop | intros a; by apply safe_never].
Qed.

Lemma safe_demangle_encoding : safe (K [] 0 true) demangle_encoding.
Proof.
  unfold demangle_encoding.
  eapply safe_bind; [apply total_read_encoding | intros _].
  do 2 (eapply safe_bind; [leaf | intros ?]).
  eapply safe_bind.
  { destruct (_ && _); [apply total_vec_pop_subst | leaf]. }
  intros _. eapply safe_bind; [leaf | intros is_t].
  assert (forall l (has_ret : bool), safe (if has_ret then K [] 1 false else K [] 0 true)
    ('(td, has_ret, more_type) ←
       demangle_types_loop l (TypeDelimit false true) has_ret false MORE_TRIES;
     finish_encoding td has_ret more_type)) as Hrest.
  { intros. apply safe_types_loop. intros [[? ?] ?]. apply never_finish. }
  destruct is_t.
  - apply safe_assoc. eapply safe_bind; [leaf | intros _]. apply safe_assoc.
    eapply safe_bind; [leaf | intros v]. apply safe_assoc.
    intros s Hs (Hc & Hn & Ho). cbn in *.
    set (s' := set_cur_output (VLocal 0) (set_locals (locals s ++ [v]) s)).
    assert (J s' /\ holds (K [] 1 false) s') as [Hs' Hc'].
    { unfold J, holds, cmds, depth in *. cbn. rewrite length_app, Hn. destruct Hs. cbn.
      split_and!; (done || lia). }
    specialize (Hrest (VLocal 0) true s' Hs' Hc'). unfold push_local.
    unfold depth in Hn. revert Hrest. unfold mbind, comp_bind, gets, modify. cbn. by rewrite Hn.
  - exact (Hrest VOutput false).
Qed.

Lemma safe_demangle_type : safe (K [] 0 true) demangle_type.
Proof.
  unfold demangle_type. eapply safe_bind; [apply total_read_type | intros _].
  apply safe_never. never_auto.
Qed.
End Toplevel.

(** ** The main theorem on termination *)
Section Main.
Context {P : Platform}.

Lemma init_ok {I : Input} start n :
  0 <= start <= INPUT_END ->
  match cpp_demangle_data_init start n with
  | Ok (Some d) n' => J (set_clock n' d) /\ holds (K [] 0 true) (set_clock n' d)
  | NoFuel => False
  | _ => True
  end.
Proof.
  intros Hstart. unfold cpp_demangle_data_init, mbind, comp_bind.
  pose proof clock_init as Hi. pose proof clock_dest as Hd. pose proof clock_r_init as Hr.
  repeat match goal with
  | |- context [vector_str_init ?m] =>
      pose proof (Hi m); destruct (vector_str_init m) as [[?|] ?| | |]; try done
  | |- context [vector_str_dest ?v ?m] =>
      pose proof (Hd v m); destruct (vector_str_dest v m) as [? ?| | |]; try done
  end.
  unfold vector_read_cmd_init, mbind, comp_bind, malloc, gets, mret, comp_ret.
  destruct (malloc_ok _ _); cbn.
  - unfold J, holds. cbn. split_and!; (done || lia).
  - repeat match goal with
    | |- context [vector_str_dest ?v ?m] =>
        pose proof (Hd v m); destruct (vector_str_dest v m) as [? ?| | |]; try done
    end.
Qed.

Lemma with_data_fuel {I : Input} start body n :
  0 <= start <= INPUT_END -> safe (K [] 0 true) body -> with_data start body n <> NoFuel.
Proof.
  intros Hstart Hb. unfold with_data. pose proof (init_ok start n Hstart) as Hi.
  unfold mbind at 1, comp_bind at 1.
  destruct (cpp_demangle_data_init start n) as [[d|] n'| | |]; try done. destruct Hi as [Hj Hh].
  unfold work_and_clean, mbind, comp_bind. specialize (Hb _ Hj Hh).
  assert (never cpp_demangle_data_dest) as Hd.
  { unfold cpp_demangle_data_dest, vector_read_cmd_dest. apply (never_pres LR). pres_auto. apply lex_on_clock. pres_auto. }
  assert (forall (r : option mem) s, match (match cpp_demangle_data_dest s with
      | Ok _ s' => Ok r s' | Fail s' => Fail s' | Crash c => Crash c | NoFuel => NoFuel end)
    with Ok r s => Ok r (clock s) | Fail s => Fail (clock s)
       | Crash c => Crash c | NoFuel => NoFuel end <> NoFuel) as H.
  { intros r s. specialize (Hd s). by destruct (cpp_demangle_data_dest s). }
  destruct (body _) as [r s|s| |]; try done; apply H.
Qed.
End Main.

Lemma readers_ok_weaken {P : Platform} {I : Input} (R : Readers) B B' :
  ReadersOk B -> B <= B' -> ReadersOk B'.
Proof. intros [] H. split; intros; eapply reader_weaken; eauto. Qed.

(** [recursion_fuel] is enough: the knot with that many levels satisfies
    [ReadersOk (-1)]. *)
Lemma demangle_at_fuel {P : Platform} org fuel n :
  (length org + 2 <= fuel)%nat -> demangle_at fuel org n <> NoFuel.
Proof.
  intros Hf. unfold demangle_at. set (I := org : Input).
  assert (ReadersOk (R := readers fuel) (-1)).
  { apply (readers_ok_weaken _ (INPUT_END - Z.of_nat fuel)); [apply readers_ok |].
    unfold INPUT_END, zlength, input, I. lia. }
  assert (0 <= 0 <= INPUT_END).
  { unfold INPUT_END, zlength. lia. }
  destruct (_ || _) eqn:Hshort.
  { apply with_data_fuel; [done|]. apply safe_demangle_type. }
  destruct (_ && _).
  { unfold malloc, mbind, comp_bind. by destruct (malloc_ok _ _). }
  apply with_data_fuel; [|apply safe_demangle_encoding].
  apply orb_false_elim in Hshort as [[Hl _]%orb_false_elim _].
  apply Z.ltb_ge in Hl. unfold INPUT_END, input, I in *. lia.
Qed.
