(* ===== verification/DemFuel.v ===== *)
(** * The recursion fuel does not influence the result

    A reader over a deeper set of entries does what it does over a shallower
    one whenever the shallower one has enough levels, so the number of levels
    in [recursion_fuel] is not part of the demangler's behaviour. *)
From S2P Require Import Prelude CString Platform VectorStr VectorAux DemState DemQual DemLex DemReaders DemNames DemTypes Demangler DemFrame DemLogic.

Definition approx {S A} (m1 m2 : comp S A) : Prop := forall s, m1 s <> NoFuel -> m2 s = m1 s.

Section Rules.
Context {S : Type}.

Lemma approx_refl {A} (m : comp S A) : approx m m.
Proof. done. Qed.

Lemma approx_bind {A B} (m1 m2 : comp S A) (f1 f2 : A -> comp S B) :
  approx m1 m2 -> (forall a, approx (f1 a) (f2 a)) -> approx (m1 ≫= f1) (m2 ≫= f2).
Proof.
  intros Hm Hf s. unfold mbind, comp_bind. specialize (Hm s).
  destruct (m1 s) as [a s'| | |]; try (rewrite Hm by done; done); [|done].
  rewrite Hm by done. apply Hf.
Qed.

Lemma approx_on_fail {A} (m1 m2 : comp S A) h : approx m1 m2 -> approx (on_fail m1 h) (on_fail m2 h).
Proof.
  intros Hm s. unfold on_fail. specialize (Hm s).
  destruct (m1 s); try (rewrite Hm by done; done). done.
Qed.

Lemma approx_switch {K A} `{EqDecision K} (k : K) (cs1 cs2 : list (K * comp S A)) d1 d2 :
  Forall2 (fun x y => x.1 = y.1 /\ approx x.2 y.2) cs1 cs2 -> approx d1 d2 ->
  approx (switch k cs1 d1) (switch k cs2 d2).
Proof.
  intros Hcs Hd. induction Hcs as [|[k1 m1] [k2 m2] cs1 cs2 [Hk Hm] _ IH]; [done|].
  cbn in *. subst. by case_decide.
Qed.
End Rules.

Create HintDb approx discriminated.
#[export] Hint Constants Opaque : approx.
#[export] Hint Variables Opaque : approx.
Ltac ap_step :=
  match goal with
  | |- approx ?m1 ?m2 => constr_eq m1 m2; apply approx_refl
  | |- approx (mbind _ _) (mbind _ _) => apply approx_bind; [| intros ?]
  | |- approx (on_fail _ _) (on_fail _ _) => apply approx_on_fail
  | |- approx (switch _ _ _) (switch _ _ _) =>
      apply approx_switch;
      [repeat match goal with
         | |- Forall2 _ (_ ++ _) (_ ++ _) => apply Forall2_app
         | |- Forall2 _ (_ :: _) (_ :: _) => apply Forall2_cons_2; [split; [cbn [fst]; reflexivity |] |]
         | |- Forall2 _ [] [] => apply Forall2_nil_2
         end; cbn [snd] |]
  | |- approx (if ?b then _ else _) (if ?b then _ else _) => destruct b
  | |- approx (match ?x with _ => _ end) _ => destruct x
  | |- _ => solve [eauto 3 with approx]
  end.
Ltac ap_auto := repeat ap_step.

Section Approx.
Context {P : Platform} {I : Input} (R1 R2 : Readers).

Class ReadersApprox : Prop := {
  ap_type td : approx (r_type (Readers := R1) td) (r_type (Readers := R2) td);
  ap_encoding : approx (r_encoding (Readers := R1)) (r_encoding (Readers := R2));
  ap_expression : approx (r_expression (Readers := R1)) (r_expression (Readers := R2));
  ap_name : approx (r_name (Readers := R1)) (r_name (Readers := R2));
}.
Context {HA : ReadersApprox}.
#[local] Hint Resolve ap_type ap_encoding ap_expression ap_name : approx.

(** [same f]: [f] over [R1] is approximated by [f] over [R2]. *)
#[local] Abbreviation same f := (approx (f R1) (f R2)).

Lemma ap_type_null : same (fun R => read_type_null (R := R)).
Proof. unfold read_type_null. ap_auto. Qed.
#[local] Hint Resolve ap_type_null : approx.
Lemma ap_expr_primary : same (fun R => cpp_demangle_read_expr_primary (R := R)).
Proof. unfold cpp_demangle_read_expr_primary. ap_auto. Qed.
#[local] Hint Resolve ap_expr_primary : approx.
Lemma ap_uqname : same (fun R => cpp_demangle_read_uqname (R := R)).
Proof.
  unfold cpp_demangle_read_uqname, uqname_ops_1, uqname_ops_2, uqname_ops_3, op. ap_auto.
Qed.
#[local] Hint Resolve ap_uqname : approx.
Lemma ap_tmpl_arg : same (fun R => cpp_demangle_read_tmpl_arg (R := R)).
Proof. unfold cpp_demangle_read_tmpl_arg. ap_auto. Qed.
#[local] Hint Resolve ap_tmpl_arg : approx.
Lemma ap_tmpl_args_loop r t : same (fun R => tmpl_args_loop (R := R) r t).
Proof. induction t; cbn [tmpl_args_loop]; ap_auto. Qed.
#[local] Hint Resolve ap_tmpl_args_loop : approx.
Lemma ap_tmpl_args : same (fun R => cpp_demangle_read_tmpl_args (R := R)).
Proof. unfold cpp_demangle_read_tmpl_args. ap_auto. Qed.
#[local] Hint Resolve ap_tmpl_args : approx.
Lemma ap_expression_reader : same (fun R => cpp_demangle_read_expression (R := R)).
Proof.
  unfold cpp_demangle_read_expression, expression_ops_1, expression_ops_2, expression_ops_3,
    binary, unary, cpp_demangle_read_expression_binary, cpp_demangle_read_expression_unary,
    cpp_demangle_read_expression_trinary.
  ap_auto.
Qed.
#[local] Hint Resolve ap_expression_reader : approx.
Lemma ap_expression_flat : same (fun R => cpp_demangle_read_expression_flat (R := R)).
Proof. unfold cpp_demangle_read_expression_flat. ap_auto. Qed.
#[local] Hint Resolve ap_expression_flat : approx.
Lemma ap_args_component r v : same (fun R => read_args_component (R := R) r v).
Proof. unfold read_args_component. ap_auto. Qed.
#[local] Hint Resolve ap_args_component : approx.
Lemma ap_subst_std : same (fun R => cpp_demangle_read_subst_std (R := R)).
Proof. unfold cpp_demangle_read_subst_std. ap_auto. Qed.
Lemma ap_subst_stdtmpl x : same (fun R => cpp_demangle_read_subst_stdtmpl (R := R) x).
Proof. unfold cpp_demangle_read_subst_stdtmpl. ap_auto. Qed.
#[local] Hint Resolve ap_subst_std ap_subst_stdtmpl : approx.
Lemma ap_std_abbrev x n : same (fun R => read_std_abbrev (R := R) x n).
Proof. unfold read_std_abbrev. ap_auto. Qed.
#[local] Hint Resolve ap_std_abbrev : approx.
Lemma ap_subst : same (fun R => cpp_demangle_read_subst (R := R)).
Proof. unfold cpp_demangle_read_subst. ap_auto. Qed.
#[local] Hint Resolve ap_subst : approx.
Lemma ap_component : same (fun R => read_component (R := R)).
Proof. unfold read_component. ap_auto. Qed.
#[local] Hint Resolve ap_component : approx.
Lemma ap_nested_name_loop r v t : same (fun R => nested_name_loop (R := R) r v t).
Proof. revert v. induction t; intros v; cbn [nested_name_loop]; ap_auto. Qed.
#[local] Hint Resolve ap_nested_name_loop : approx.
Lemma ap_nested_name : same (fun R => cpp_demangle_read_nested_name (R := R)).
Proof. unfold cpp_demangle_read_nested_name. ap_auto. Qed.
Lemma ap_local_types_loop td m t : same (fun R => local_types_loop (R := R) td m t).
Proof. revert td m. induction t; intros td m; cbn [local_types_loop]; ap_auto. Qed.
#[local] Hint Resolve ap_nested_name ap_local_types_loop : approx.
Lemma ap_local_name : same (fun R => cpp_demangle_read_local_name (R := R)).
Proof. unfold cpp_demangle_read_local_name. ap_auto. Qed.
Lemma ap_unscoped_name : same (fun R => read_unscoped_name (R := R)).
Proof. unfold read_unscoped_name. ap_auto. Qed.
#[local] Hint Resolve ap_local_name ap_unscoped_name : approx.
Lemma ap_name_reader : same (fun R => cpp_demangle_read_name (R := R)).
Proof. unfold cpp_demangle_read_name. ap_auto. Qed.
#[local] Hint Resolve ap_name_reader : approx.
Lemma ap_name_flat : same (fun R => cpp_demangle_read_name_flat (R := R)).
Proof. unfold cpp_demangle_read_name_flat. ap_auto. Qed.
Lemma ap_array : same (fun R => cpp_demangle_read_array (R := R)).
Proof. unfold cpp_demangle_read_array. ap_auto. Qed.
Lemma ap_function_types_loop td t : same (fun R => function_types_loop (R := R) td t).
Proof. revert td. induction t; intros td; cbn [function_types_loop]; ap_auto. Qed.
#[local] Hint Resolve ap_name_flat ap_array ap_function_types_loop : approx.
Lemma ap_function_params v : same (fun R => read_function_params (R := R) v).
Proof. unfold read_function_params. ap_auto. Qed.
#[local] Hint Resolve ap_function_params : approx.
Lemma ap_function x v : same (fun R => cpp_demangle_read_function (R := R) x v).
Proof. unfold cpp_demangle_read_function. ap_auto. Qed.
Lemma ap_pointer_to_member v : same (fun R => cpp_demangle_read_pointer_to_member (R := R) v).
Proof. unfold cpp_demangle_read_pointer_to_member. ap_auto. Qed.
Lemma ap_vector_size v : same (fun R => read_vector_size (R := R) v).
Proof. unfold read_vector_size. ap_auto. Qed.
Lemma ap_type_args r : same (fun R => read_type_args (R := R) r).
Proof. unfold read_type_args. ap_auto. Qed.
#[local] Hint Resolve ap_function ap_pointer_to_member ap_vector_size ap_type_args : approx.
Lemma ap_type_core r td v i c : same (fun R => read_type_core (R := R) r td v i c).
Proof. unfold read_type_core. ap_auto. Qed.
#[local] Hint Resolve ap_type_core : approx.
Lemma ap_type_loop k r td v i : same (fun R => read_type_loop (R := R) k r td v i).
Proof. revert td v. induction k; intros td v; cbn [read_type_loop]; ap_auto. Qed.
#[local] Hint Resolve ap_type_loop : approx.
Lemma ap_type_reader td : same (fun R => cpp_demangle_read_type (R := R) td).
Proof. unfold cpp_demangle_read_type. ap_auto. Qed.
#[local] Hint Resolve ap_type_reader : approx.
Lemma ap_type_flat : same (fun R => cpp_demangle_read_type_flat (R := R)).
Proof. unfold cpp_demangle_read_type_flat. ap_auto. Qed.
#[local] Hint Resolve ap_type_flat : approx.
Lemma ap_encoding_reader : same (fun R => cpp_demangle_read_encoding (R := R)).
Proof.
  unfold cpp_demangle_read_encoding, read_reference_temporary, read_transaction_clone,
    read_construction_vtable, special.
  ap_auto.
Qed.
Lemma ap_types_loop l td h m t : same (fun R => demangle_types_loop (R := R) l td h m t).
Proof. revert td h m. induction t; intros td h m; cbn [demangle_types_loop]; ap_auto. Qed.
#[local] Hint Resolve ap_encoding_reader ap_types_loop : approx.
Lemma ap_demangle_encoding : same (fun R => demangle_encoding (R := R)).
Proof. unfold demangle_encoding. ap_auto. Qed.
Lemma ap_demangle_type : same (fun R => demangle_type (R := R)).
Proof. unfold demangle_type. ap_auto. Qed.
End Approx.

(** ** The knot *)
Section Knot.
Context {P : Platform} {I : Input}.

Lemma readers_approx k n : ReadersApprox (readers n) (readers (n + k)).
Proof.
  induction n as [|n IH]; [by split; intros; intros s|]. cbn [readers Nat.add].
  split; intros; intros s; cbn [r_type r_encoding r_expression r_name].
  - by apply ap_type_reader.
  - by apply ap_encoding_reader.
  - by apply ap_expression_reader.
  - by apply ap_name_reader.
Qed.
End Knot.

(** A run with enough fuel is the run at every larger fuel. *)
Lemma demangle_at_more {P : Platform} org fuel k n :
  demangle_at fuel org n <> NoFuel -> demangle_at (fuel + k) org n = demangle_at fuel org n.
Proof.
  unfold demangle_at. set (I := org : Input).
  assert (forall start m1 m2, approx m1 m2 -> with_data start m1 n <> NoFuel ->
    with_data start m2 n = with_data start m1 n) as Hd.
  { intros start m1 m2 Hm. unfold with_data, mbind, comp_bind.
    destruct (cpp_demangle_data_init start n) as [[d|] n'| | |]; try done.
    unfold work_and_clean, mbind, comp_bind. specialize (Hm (set_clock n' d)).
    destruct (m1 _); try (by rewrite Hm by done). done. }
  destruct (_ || _).
  { apply Hd. apply ap_demangle_type, readers_approx. }
  destruct (_ && _); [done|].
  apply Hd. apply ap_demangle_encoding, readers_approx.
Qed.
