(* ===== verification/DemCrash.v ===== *)
(** * How the demangler can go wrong

    [tame m]: from a state whose vectors own all their strings, [m] ends in
    such a state, and if it goes wrong, then in one of five ways.  A string
    freed twice is not among them: with memory at hand no reader leaves a
    freed string in a vector.  What the readers hand on is [valid] by its
    type. *)
From S2P Require Import Prelude CString Platform VectorStr VectorAux DemState DemQual DemLex DemReaders DemNames DemTypes Demangler.

(** The ways that are left *)
Definition stray (c : crash) : Prop :=
  match c with
  | OutOfBounds | UseAfterFree | UninitRead | SignedOverflow | AssertFail => True
  | _ => False
  end.

(** ** What is handed on *)
Class Valid (A : Type) := valid : A -> Prop.

Definition owned (c : cell) : Prop := cval c <> Freed.
Definition owner (v : vector_str) : Prop := Forall owned (container v).
Definition q_owner (v : vector_type_qualifier) : Prop := owner (ext_name v).
Definition item_owner (i : read_cmd_item) : Prop :=
  match item_data i with Some v => q_owner v | None => True end.
Definition r_owner (v : vector_read_cmd) : Prop := Forall item_owner (r_container v).

Record state_owner (s : cpp_demangle_data) : Prop := StateOwner {
  so_output : owner (output s);
  so_subst : owner (subst s);
  so_tmpl : owner (tmpl s);
  so_class : owner (class_type s);
  so_locals : Forall owner (locals s);
  so_cmd : r_owner (cmd s);
}.

#[global] Instance valid_any A : Valid A | 100 := fun _ => True.
#[global] Instance valid_vec : Valid vector_str := owner.
#[global] Instance valid_q : Valid vector_type_qualifier := q_owner.
#[global] Instance valid_item : Valid read_cmd_item := item_owner.
#[global] Instance valid_cmds : Valid vector_read_cmd := r_owner.
#[global] Instance valid_locals : Valid (list vector_str) := Forall owner.
#[global] Instance valid_cells : Valid (list cell) := Forall owned.
#[global] Instance valid_state : Valid cpp_demangle_data := state_owner.
#[global] Instance valid_result : Valid type_result := fun t => q_owner (tr_v t).
#[global] Instance valid_option `{Valid A} : Valid (option A) :=
  fun o => match o with Some a => valid a | None => True end.
#[global] Instance valid_prod `{Valid A, Valid B} : Valid (A * B) := fun x => valid x.1 /\ valid x.2.

Section Tame.
Context {S : Type} `{Valid S}.

Definition tame {A} `{Valid A} (m : comp S A) : Prop := forall s, valid s ->
  match m s with
  | Ok a s' => valid a /\ valid s'
  | Fail s' => valid s'
  | Crash c => stray c
  | NoFuel => True
  end.

Lemma tame_bind {A B} `{Valid A, Valid B} (m : comp S A) (f : A -> comp S B) :
  tame m -> (forall a, valid a -> tame (f a)) -> tame (m ≫= f).
Proof.
  intros Hm Hf s Hs. unfold mbind, comp_bind. specialize (Hm s Hs). destruct (m s) as [a s'| | |]; try done.
  destruct Hm as [Ha Hs']. apply (Hf a Ha s' Hs').
Qed.

Lemma tame_ret {A} `{Valid A} (a : A) : valid a -> tame (mret a).
Proof. by intros Ha s Hs. Qed.
Lemma tame_failed {A} `{Valid A} : tame (failed (A := A)).
Proof. by intros s Hs. Qed.
Lemma tame_crashed {A} `{Valid A} c : stray c -> tame (crashed (A := A) c).
Proof. by intros Hc s Hs. Qed.
Lemma tame_no_fuel {A} `{Valid A} : tame (no_fuel (A := A)).
Proof. by intros s Hs. Qed.
Lemma tame_gets {A} `{Valid A} (f : S -> A) : (forall s, valid s -> valid (f s)) -> tame (gets f).
Proof. intros Hf s Hs. split; [by apply Hf | done]. Qed.
Lemma tame_modify (f : S -> S) : (forall s, valid s -> valid (f s)) -> tame (modify f).
Proof. intros Hf s Hs. split; [done | by apply Hf]. Qed.
Lemma tame_guard b : tame (guard_ b).
Proof. intros s Hs. by destruct b. Qed.
Lemma tame_assert b : tame (assert_ b).
Proof. intros s Hs. by destruct b. Qed.
Lemma tame_status {A} `{Valid A} (m : comp S A) : tame m -> tame (status m).
Proof. intros Hm s Hs. unfold status. specialize (Hm s Hs). destruct (m s); try done. by destruct Hm. Qed.
Lemma tame_on_fail {A} `{Valid A} (m : comp S A) h : tame m -> tame h -> tame (on_fail m h).
Proof.
  intros Hm Hh s Hs. unfold on_fail. specialize (Hm s Hs). destruct (m s) as [|s'| |]; try done.
  specialize (Hh s' Hm). by destruct (h s') as [? ?| | |]; [destruct Hh|..].
Qed.
Lemma tame_switch {K A} `{EqDecision K, Valid A} (k : K) (cs : list (K * comp S A)) d :
  Forall (fun c => tame c.2) cs -> tame d -> tame (switch k cs d).
Proof. intros Hcs Hd. induction Hcs as [|[k' m] cs Hm _ IH]; [done|]. cbn. by case_decide. Qed.
End Tame.

Create HintDb tame.

(** The values at hand *)
Ltac tame_value :=
  repeat match goal with
  | H : valid (_, _) |- _ => destruct H as [? ?]; cbn [fst snd] in *
  | H : @valid _ (@valid_option _ ?V) (Some ?x) |- _ => change (@valid _ V x) in H
  end.

Ltac tame_parts :=
  repeat match goal with
  | |- valid (match ?x with _ => _ end) => destruct x
  | |- @valid _ (@valid_option _ ?V) (Some ?x) => change (@valid _ V x)
  | |- @valid _ (@valid_prod _ _ _ _) (_, _) => split; cbn [fst snd]
  end.

Ltac tame_step :=
  match goal with
  | |- Forall _ [] => apply Forall_nil_2
  | |- tame (mbind _ _) => eapply tame_bind; [| intros ? ?; tame_value]
  | |- tame (mret _) => apply tame_ret; tame_solve
  | |- tame failed => apply tame_failed
  | |- tame no_fuel => apply tame_no_fuel
  | |- tame (crashed _) => apply tame_crashed; exact Logic.I
  | |- tame (guard_ _) => apply tame_guard
  | |- tame (assert_ _) => apply tame_assert
  | |- tame (status _) => apply tame_status
  | |- tame (on_fail _ _) => apply tame_on_fail
  | |- tame (switch _ _ _) =>
      apply tame_switch;
      [repeat (apply Forall_app; split);
       repeat apply Forall_cons_2; [..| apply Forall_nil_2]; cbn [snd op binary unary] |]
  | |- tame (if ?b then _ else _) => destruct b
  | |- tame (match ?x with _ => _ end) => destruct x eqn:?; tame_value
  | |- tame _ => solve [eauto 3 with tame]
  end
with tame_solve :=
  tame_parts; first [exact Logic.I | assumption | by repeat split | by apply Forall_nil_2
    | by match goal with |- @valid _ (@valid_option _ (valid_any _)) ?x => destruct x end | eauto 4 with tame].
Ltac tame_auto := repeat tame_step.

(** ** Allocation and vectors *)
Lemma owner_snoc v n i s : owner v -> owner (VectorStr n (container v ++ [Cell i (Bytes s)])).
Proof. intros Hv. apply Forall_app. split; [exact Hv | by apply Forall_singleton]. Qed.

Lemma owner_removelast v n : owner v -> owner (VectorStr n (removelast (container v))).
Proof.
  unfold owner. cbn. intros Hv. destruct (container v) as [|c cs] using rev_ind; [done|].
  rewrite removelast_last. by apply Forall_app in Hv as [? _].
Qed.

Lemma owner_lookup v k c : owner v -> container v !! k = Some c -> owned c.
Proof. intros Hv Hc. exact (proj1 (Forall_lookup _ _) Hv _ _ Hc). Qed.

Section Vectors.
Context {P : Platform}.

Lemma tame_malloc n : tame (malloc n).
Proof. intros s _. cbn. by destruct (malloc_ok s n). Qed.
Lemma tame_read_cstr {S} `{Valid S} m : tame (S := S) (read_cstr m).
Proof. intros s Hs. by destruct m. Qed.
#[local] Hint Resolve tame_malloc tame_read_cstr : tame.

Lemma tame_strlen_sum cs : tame (strlen_sum cs).
Proof. induction cs; cbn [strlen_sum]; tame_auto. Qed.
#[local] Hint Resolve tame_strlen_sum : tame.
Lemma tame_concat_cells cs : tame (concat_cells cs).
Proof. induction cs; cbn [concat_cells]; tame_auto. Qed.
#[local] Hint Resolve tame_concat_cells : tame.
Lemma tame_get_flat v : tame (vector_str_get_flat v).
Proof. unfold vector_str_get_flat, get_strlen_sum. tame_auto. Qed.
Lemma tame_find_cells cs o l : tame (find_cells cs o l).
Proof. induction cs; cbn [find_cells]; tame_auto. Qed.
#[local] Hint Resolve tame_find_cells : tame.
Lemma tame_find v o l : tame (vector_str_find v o l).
Proof. unfold vector_str_find. tame_auto. Qed.
Lemma tame_substr v b e : tame (vector_str_substr v b e).
Proof. unfold vector_str_substr. tame_auto. Qed.

Lemma tame_free_cells cs : Forall owned cs -> tame (free_cells cs).
Proof.
  induction 1 as [|c cs Hc _ IH]; cbn [free_cells]; [tame_auto|].
  unfold owned in Hc. by destruct (cval c).
Qed.
Lemma tame_dest v : valid v -> tame (vector_str_dest v).
Proof. apply tame_free_cells. Qed.

Lemma tame_grow v : valid v -> tame (vector_str_grow v).
Proof. intros Hv. unfold vector_str_grow. tame_auto. Qed.
Lemma tame_init : tame vector_str_init.
Proof. unfold vector_str_init. tame_auto. Qed.
Lemma tame_pop v : valid v -> tame (vector_str_pop v).
Proof.
  intros Hv. unfold vector_str_pop. destruct (_ =? _); [tame_auto|].
  pose proof (owner_removelast v (capacity v) Hv) as Hr.
  destruct (last (container v)) as [[i m]|] eqn:E; [|tame_auto].
  assert (owned (Cell i m)) as Hc.
  { rewrite last_lookup in E. exact (owner_lookup v _ _ Hv E). }
  destruct m; [tame_auto | tame_auto | by destruct Hc].
Qed.
Lemma tame_copy_string m n : tame (copy_string m n).
Proof. unfold copy_string. tame_auto. Qed.
#[local] Hint Resolve tame_grow tame_copy_string : tame.
Lemma tame_push v m l : valid v -> tame (vector_str_push v m l).
Proof.
  intros Hv. unfold vector_str_push. tame_auto. by apply owner_snoc.
Qed.

(** Appending: with memory no copy fails. *)
Lemma dup_cells_tame (Hoom : never_oom) cs n :
  match dup_cells cs n with
  | Ok (Some l) _ => Forall owned l
  | Crash c => stray c
  | Fail _ | NoFuel => True
  | Ok None _ => False
  end.
Proof.
  revert n. induction cs as [|c cs IH]; intros n; cbn [dup_cells]; [constructor|].
  unfold mbind, comp_bind. destruct (cval c) as [b| |]; cbn [read_cstr mret comp_ret crashed]; [|done..].
  unfold malloc. rewrite Hoom. specialize (IH (S n)). destruct (dup_cells cs (S n)) as [[l|] ?| | |]; cbn; [|done..].
  by constructor.
Qed.

Lemma tame_push_vector_head (Hoom : never_oom) v w : valid v -> tame (vector_str_push_vector_head v w).
Proof.
  intros Hv. unfold vector_str_push_vector_head. tame_step; [apply tame_malloc|]. destruct a; [|tame_auto].
  intros n' _. unfold mbind, comp_bind. pose proof (dup_cells_tame Hoom (container w) n') as H1.
  destruct (dup_cells (container w) n') as [[l|] ?| | |]; try done. split; [|done]. split; [done|].
  apply Forall_app. by split.
Qed.

Lemma tame_push_vector (Hoom : never_oom) v w : valid v -> tame (vector_str_push_vector v w).
Proof.
  intros Hv. unfold vector_str_push_vector. tame_step; [apply tame_malloc|]. destruct a; [|tame_auto].
  intros n' _. unfold mbind, comp_bind. pose proof (dup_cells_tame Hoom (container w) n') as H1.
  destruct (dup_cells (container w) n') as [[l|] ?| | |]; try done. split; [|done]. split; [done|].
  apply Forall_app. by split.
Qed.

Lemma tame_q_init : tame vector_type_qualifier_init.
Proof.
  unfold vector_type_qualifier_init. tame_step; [apply tame_malloc|]. destruct a; [|tame_auto].
  tame_step; [apply tame_init|]. destruct a; tame_auto.
Qed.
Lemma tame_q_dest v : valid v -> tame (vector_type_qualifier_dest v).
Proof. apply tame_dest. Qed.
Lemma tame_q_push v t : valid v -> tame (vector_type_qualifier_push v t).
Proof. intros Hv. unfold vector_type_qualifier_push. tame_auto; try apply tame_malloc; done. Qed.

Lemma r_owner_snoc v n k d : valid v -> valid d -> r_owner (VectorReadCmd n (r_container v ++ [ReadCmdItem k d])).
Proof.
  intros Hv Hd. apply Forall_app. split; [exact Hv|]. apply Forall_singleton. unfold item_owner. cbn.
  by destruct d.
Qed.
Lemma tame_cmd_push_vec v k d : valid v -> valid d -> tame (vector_read_cmd_push v k d).
Proof.
  intros Hv Hd. pose proof (fun n => r_owner_snoc v n k d Hv Hd) as H.
  unfold vector_read_cmd_push. tame_auto; try apply tame_malloc; apply H.
Qed.
End Vectors.
#[export] Hint Resolve tame_malloc tame_read_cstr tame_get_flat tame_find tame_substr tame_dest tame_grow
  tame_init tame_pop tame_push tame_push_vector tame_q_init tame_q_dest tame_q_push tame_cmd_push_vec : tame.

(** ** The machine *)
Section Machine.
Context {P : Platform} {I : Input}.

Lemma tame_on_clock {A} `{Valid A} (m : comp nat A) : tame m -> tame (on_clock m).
Proof.
  intros Hm s Hs. unfold on_clock. specialize (Hm (clock s) Logic.I).
  destruct (m (clock s)); try done; [destruct Hm as [Ha _]; split; [exact Ha|]|]; by destruct Hs.
Qed.

Lemma tame_vec_get r : tame (vec_get r).
Proof.
  intros s Hs. unfold vec_get. destruct (vec_lookup r s) as [v|] eqn:E; [|done]. split; [|done].
  destruct Hs as [H1 H2 H3 H4 H5 H6]. destruct r; cbn in E; try by injection E as <-.
  exact (proj1 (Forall_lookup _ _) H5 _ _ E).
Qed.

Lemma tame_vec_set r v : valid v -> tame (vec_set r v).
Proof.
  intros Hv s Hs. split; [done|]. destruct Hs as [H1 H2 H3 H4 H5 H6]. destruct r; try by constructor.
  constructor; try done. cbn. by apply Forall_insert.
Qed.

Lemma tame_peek_at k : tame (peek_at k).
Proof. intros s Hs. unfold peek_at. by destruct (_ && _). Qed.
Lemma tame_advance k : tame (advance k).
Proof. intros s Hs. unfold advance. destruct (_ <=? _); [|done]. split; [done|]. by destruct Hs. Qed.
Lemma tame_memcmp x : tame (memcmp_at_cur x).
Proof. intros s Hs. unfold memcmp_at_cur. by destruct (_ && _). Qed.

Lemma tame_push_local v : valid v -> tame (push_local v).
Proof.
  intros Hv s Hs. split; [done|]. destruct Hs. constructor; try done. cbn.
  apply Forall_app. by split; [|apply Forall_singleton].
Qed.

Lemma tame_drop_local : tame drop_local.
Proof.
  unfold drop_local. apply tame_bind; [apply tame_gets; by intros s []|]. intros l Hl.
  apply tame_bind; [|intros _ _; apply tame_modify; intros s []; constructor; try done; cbn].
  - destruct (last l) as [v|] eqn:E; [|by apply tame_ret]. apply tame_on_clock, tame_dest.
    rewrite last_lookup in E. exact (proj1 (Forall_lookup _ _) Hl _ _ E).
  - destruct (locals s) as [|v vs] using rev_ind; [done|]. rewrite removelast_last.
    by apply Forall_app in so_locals0 as [? _].
Qed.

Lemma tame_cmd_pop : tame cmd_pop.
Proof.
  unfold cmd_pop. apply tame_bind; [apply tame_gets; by intros s []|]. intros v Hv.
  unfold vector_read_cmd_pop. destruct (_ =? _); cbn beta iota; (apply tame_bind; [|intros _ _; apply tame_guard]);
    apply tame_modify; intros s []; constructor; try done.
  destruct v as [c its]. unfold r_owner. cbn in *. unfold valid, valid_cmds, r_owner in Hv. cbn in Hv.
  destruct its as [|i its] using rev_ind; [done|]. rewrite removelast_last.
  by apply Forall_app in Hv as [? _].
Qed.

Lemma find_owner v k i : valid v -> vector_read_cmd_find v k = Some i -> valid i.
Proof.
  intros Hv H. assert (forall k, find (fun i => bool_decide (item_cmd i = k)) (rev (r_container v)) = Some i -> valid i) as Hf.
  { intros k' [Hin _]%find_some. rewrite <- in_rev in Hin. apply list_elem_of_In in Hin.
    exact (proj1 (Forall_forall _ _) Hv _ Hin). }
  by destruct k; [done|apply (Hf _ H)..].
Qed.
End Machine.

#[export] Hint Resolve tame_vec_get tame_vec_set tame_peek_at tame_advance tame_memcmp tame_push_local
  tame_drop_local tame_cmd_pop : tame.
#[export] Hint Extern 2 (tame (on_clock _)) => apply tame_on_clock : tame.
#[export] Hint Extern 2 (tame (modify _)) =>
  apply tame_modify; let H := fresh in intros ? H; destruct H; constructor; assumption : tame.
#[export] Hint Extern 2 (tame (gets _)) =>
  apply tame_gets; let H := fresh in intros ? H; first [exact Logic.I | exact H | destruct H; assumption | by match goal with |- valid ?x => destruct x end] : tame.

(** ** The readers *)
Section Readers.
Context {P : Platform} {I : Input} (Hoom : never_oom).

Lemma tame_peek : tame peek.
Proof. unfold peek. tame_auto. Qed.
#[local] Hint Resolve tame_peek : tame.
Lemma tame_text_at i : tame (text_at i).
Proof. unfold text_at. tame_auto. Qed.
#[local] Hint Resolve tame_text_at : tame.
Lemma tame_skip_while p : tame (skip_while p).
Proof. unfold skip_while. tame_auto. Qed.
#[local] Hint Resolve tame_skip_while : tame.
Lemma tame_guard_more : tame guard_more.
Proof. unfold guard_more. tame_auto. Qed.
#[local] Hint Resolve tame_guard_more : tame.
Lemma tame_vec_push r m l : tame (vec_push r m l).
Proof. unfold vec_push. tame_auto. Qed.
#[local] Hint Resolve tame_vec_push : tame.
Lemma tame_vec_pop r : tame (vec_pop r).
Proof. unfold vec_pop. tame_auto. Qed.
#[local] Hint Resolve tame_vec_pop : tame.
Lemma tame_vec_pops r n : tame (vec_pops r n).
Proof. induction n; cbn [vec_pops]; tame_auto. Qed.
#[local] Hint Resolve tame_vec_pops : tame.
Lemma tame_vec_pop_to r i : tame (vec_pop_to r i).
Proof. unfold vec_pop_to. tame_auto. Qed.
#[local] Hint Resolve tame_vec_pop_to : tame.
Lemma tame_vec_size r : tame (vec_size r).
Proof. unfold vec_size. tame_auto. Qed.
#[local] Hint Resolve tame_vec_size : tame.
Lemma tame_vec_substr r i : tame (vec_substr r i).
Proof. unfold vec_substr. tame_auto. Qed.
#[local] Hint Resolve tame_vec_substr : tame.
Lemma tame_vec_substr_or_fail r i : tame (vec_substr_or_fail r i).
Proof. unfold vec_substr_or_fail. tame_auto. Qed.
#[local] Hint Resolve tame_vec_substr_or_fail : tame.
Lemma tame_local_vec : tame local_vec.
Proof. unfold local_vec. tame_auto. Qed.
#[local] Hint Resolve tame_local_vec : tame.
Lemma tame_local_push v m l : valid v -> tame (local_push v m l).
Proof. intros. unfold local_push. tame_auto. Qed.
#[local] Hint Resolve tame_local_push : tame.
Lemma tame_VEC_PUSH_STR v m : valid v -> tame (VEC_PUSH_STR v m).
Proof. intros. unfold VEC_PUSH_STR. tame_auto. Qed.
#[local] Hint Resolve tame_VEC_PUSH_STR : tame.
Lemma tame_push_str m l : tame (cpp_demangle_push_str m l).
Proof. unfold cpp_demangle_push_str. tame_auto. Qed.
#[local] Hint Resolve tame_push_str : tame.
Lemma tame_pop_str : tame cpp_demangle_pop_str.
Proof. unfold cpp_demangle_pop_str. tame_auto. Qed.
#[local] Hint Resolve tame_pop_str : tame.
Lemma tame_PUSH_STR x : tame (DEM_PUSH_STR x).
Proof. unfold DEM_PUSH_STR. tame_auto. Qed.
#[local] Hint Resolve tame_PUSH_STR : tame.
Lemma tame_PUSH_CSTR m : tame (DEM_PUSH_CSTR m).
Proof. unfold DEM_PUSH_CSTR. tame_auto. Qed.
#[local] Hint Resolve tame_PUSH_CSTR : tame.
Lemma tame_push_subst m l : tame (cpp_demangle_push_subst m l).
Proof. unfold cpp_demangle_push_subst. tame_auto. Qed.
#[local] Hint Resolve tame_push_subst : tame.
Lemma tame_push_subst_v v : tame (cpp_demangle_push_subst_v v).
Proof. unfold cpp_demangle_push_subst_v. tame_auto. Qed.
#[local] Hint Resolve tame_push_subst_v : tame.
Lemma tame_push_entry r i : tame (push_entry r i).
Proof. unfold push_entry. tame_auto. Qed.
#[local] Hint Resolve tame_push_entry : tame.
Lemma tame_read_sname_ptr p : tame (read_sname_ptr p).
Proof. unfold read_sname_ptr. tame_auto. Qed.
#[local] Hint Resolve tame_read_sname_ptr : tame.

(** *** Qualifiers *)
Lemma tame_push_candidate o : tame (push_candidate o).
Proof. unfold push_candidate. tame_auto. Qed.
#[local] Hint Resolve tame_push_candidate : tame.
Lemma tame_grow_candidate o m : valid o -> tame (grow_candidate o m).
Proof. intros. unfold grow_candidate. tame_auto. Qed.
#[local] Hint Resolve tame_grow_candidate : tame.
Lemma tame_push_qualifier_str m o : valid o -> tame (push_qualifier_str m o).
Proof. intros. unfold push_qualifier_str. tame_auto. Qed.
#[local] Hint Resolve tame_push_qualifier_str : tame.
Lemma tame_push_cv_str m n o : valid o -> tame (push_cv_str m n o).
Proof. intros. unfold push_cv_str. tame_auto. Qed.
#[local] Hint Resolve tame_push_cv_str : tame.
Lemma tame_ext_str v i n x y : tame (ext_str v i n x y).
Proof. unfold ext_str. tame_auto. Qed.
#[local] Hint Resolve tame_ext_str : tame.
Lemma tame_push_qualifiers v qs : forall cv i o, valid o -> tame (push_qualifiers v qs cv i o).
Proof. induction qs as [|q qs IH]; intros; cbn [push_qualifiers]; tame_auto. Qed.
#[local] Hint Resolve tame_push_qualifiers : tame.
Lemma tame_push_type_qualifier v o : tame (cpp_demangle_push_type_qualifier v o).
Proof. unfold cpp_demangle_push_type_qualifier. tame_auto. Qed.
#[local] Hint Resolve tame_push_type_qualifier : tame.

(** *** Literals and names *)
Lemma tame_sprintf_loop t n x : tame (sprintf_loop t n x).
Proof. revert n. induction t; intros; cbn [sprintf_loop]; tame_auto. Qed.
#[local] Hint Resolve tame_sprintf_loop : tame.
Lemma tame_fp_to_double x : tame (decode_fp_to_double x).
Proof. unfold decode_fp_to_double, sprintf_fp. tame_auto. Qed.
#[local] Hint Resolve tame_fp_to_double : tame.
Lemma tame_fp_to_float x : tame (decode_fp_to_float x).
Proof. unfold decode_fp_to_float, sprintf_fp. tame_auto. Qed.
#[local] Hint Resolve tame_fp_to_float : tame.
Lemma tame_fp_to_long_double x : tame (decode_fp_to_long_double x).
Proof. unfold decode_fp_to_long_double, sprintf_fp. tame_auto. Qed.
#[local] Hint Resolve tame_fp_to_long_double : tame.
Lemma tame_fp_to_float128 x : tame (decode_fp_to_float128 x).
Proof. unfold decode_fp_to_float128, sprintf_fp. tame_auto. Qed.
#[local] Hint Resolve tame_fp_to_float128 : tame.
Lemma tame_fp_to_float80 x : tame (decode_fp_to_float80 x).
Proof. unfold decode_fp_to_float80, sprintf_fp. tame_auto. Qed.
#[local] Hint Resolve tame_fp_to_float80 : tame.
Lemma tame_push_fp (d : bytes -> comp nat (option mem)) : (forall x, tame (d x)) -> tame (cpp_demangle_push_fp d).
Proof. intros Hd. unfold cpp_demangle_push_fp. tame_auto. Qed.
#[local] Hint Resolve tame_push_fp : tame.
Lemma tame_strtol b : tame (strtol_at_cur b).
Proof. unfold strtol_at_cur. tame_auto. Qed.
#[local] Hint Resolve tame_strtol : tame.
Lemma tame_read_number : tame cpp_demangle_read_number.
Proof. unfold cpp_demangle_read_number. tame_auto. Qed.
#[local] Hint Resolve tame_read_number : tame.
Lemma tame_read_number_as_string : tame cpp_demangle_read_number_as_string.
Proof. unfold cpp_demangle_read_number_as_string. tame_auto. Qed.
#[local] Hint Resolve tame_read_number_as_string : tame.
Lemma tame_read_offset_number : tame cpp_demangle_read_offset_number.
Proof. unfold cpp_demangle_read_offset_number. tame_auto. Qed.
#[local] Hint Resolve tame_read_offset_number : tame.
Lemma tame_read_nv_offset : tame cpp_demangle_read_nv_offset.
Proof. unfold cpp_demangle_read_nv_offset. tame_auto. Qed.
#[local] Hint Resolve tame_read_nv_offset : tame.
Lemma tame_read_v_offset : tame cpp_demangle_read_v_offset.
Proof. unfold cpp_demangle_read_v_offset. tame_auto. Qed.
#[local] Hint Resolve tame_read_v_offset : tame.
Lemma tame_read_offset : tame cpp_demangle_read_offset.
Proof. unfold cpp_demangle_read_offset. tame_auto. Qed.
#[local] Hint Resolve tame_read_offset : tame.
Lemma tame_read_sname : tame cpp_demangle_read_sname.
Proof. unfold cpp_demangle_read_sname. tame_auto. Qed.
#[local] Hint Resolve tame_read_sname : tame.
Lemma tame_skip_discriminator : tame skip_discriminator.
Proof. unfold skip_discriminator. tame_auto. Qed.
#[local] Hint Resolve tame_skip_discriminator : tame.
Lemma tame_local_source_name : tame cpp_demangle_local_source_name.
Proof. unfold cpp_demangle_local_source_name. tame_auto. Qed.
#[local] Hint Resolve tame_local_source_name : tame.
Lemma tame_hash_at_cur : tame hash_at_cur.
Proof. unfold hash_at_cur. tame_auto. Qed.
#[local] Hint Resolve tame_hash_at_cur : tame.
Lemma tame_cmd_push k d : valid d -> tame (cmd_push k d).
Proof. intros. unfold cmd_push. tame_auto. Qed.
#[local] Hint Resolve tame_cmd_push : tame.

(** What the recursive entries promise *)
Context {R : Readers}.
Class ReadersTame : Prop := {
  tame_r_type td : tame (r_type td);
  tame_r_encoding : tame r_encoding;
  tame_r_expression : tame r_expression;
  tame_r_name : tame r_name;
}.
Context {HR : ReadersTame}.
#[local] Hint Resolve tame_r_type tame_r_encoding tame_r_expression tame_r_name : tame.

Lemma tame_read_type_null : tame read_type_null.
Proof. unfold read_type_null. tame_auto. Qed.
#[local] Hint Resolve tame_read_type_null : tame.
Lemma tame_read_int_literal : tame read_int_literal.
Proof. unfold read_int_literal. tame_auto. Qed.
#[local] Hint Resolve tame_read_int_literal : tame.
Lemma tame_read_expr_primary : tame cpp_demangle_read_expr_primary.
Proof. unfold cpp_demangle_read_expr_primary. tame_auto. Qed.
#[local] Hint Resolve tame_read_expr_primary : tame.
Lemma tame_read_ctor_dtor x : tame (read_ctor_dtor x).
Proof. unfold read_ctor_dtor. tame_auto. Qed.
#[local] Hint Resolve tame_read_ctor_dtor : tame.
Lemma tame_read_uqname_rest : tame read_uqname_rest.
Proof. unfold read_uqname_rest. tame_auto. Qed.
#[local] Hint Resolve tame_read_uqname_rest : tame.
Lemma tame_read_uqname : tame cpp_demangle_read_uqname.
Proof. unfold cpp_demangle_read_uqname, uqname_ops_1, uqname_ops_2, uqname_ops_3. tame_auto. Qed.
#[local] Hint Resolve tame_read_uqname : tame.
Lemma tame_read_seq_id get : (forall i, tame (get i)) -> tame (read_seq_id get).
Proof. intros Hg. unfold read_seq_id. tame_auto. Qed.
#[local] Hint Resolve tame_read_seq_id : tame.
Lemma tame_get_subst i : tame (cpp_demangle_get_subst i).
Proof. unfold cpp_demangle_get_subst. tame_auto. Qed.
#[local] Hint Resolve tame_get_subst : tame.
Lemma tame_get_tmpl_param i : tame (cpp_demangle_get_tmpl_param i).
Proof. unfold cpp_demangle_get_tmpl_param. tame_auto. Qed.
#[local] Hint Resolve tame_get_tmpl_param : tame.
Lemma tame_read_tmpl_param : tame cpp_demangle_read_tmpl_param.
Proof. unfold cpp_demangle_read_tmpl_param. tame_auto. Qed.
#[local] Hint Resolve tame_read_tmpl_param : tame.
Lemma tame_read_tmpl_arg : tame cpp_demangle_read_tmpl_arg.
Proof. unfold cpp_demangle_read_tmpl_arg. tame_auto. Qed.
#[local] Hint Resolve tame_read_tmpl_arg : tame.
Lemma tame_vec_add_new r m l : tame (vec_add_new r m l).
Proof. unfold vec_add_new. tame_auto. Qed.
#[local] Hint Resolve tame_vec_add_new : tame.
Lemma tame_tmpl_args_loop r n : tame (tmpl_args_loop r n).
Proof. induction n; cbn [tmpl_args_loop]; tame_auto. Qed.
#[local] Hint Resolve tame_tmpl_args_loop : tame.
Lemma tame_read_tmpl_args : tame cpp_demangle_read_tmpl_args.
Proof. unfold cpp_demangle_read_tmpl_args. tame_auto. Qed.
#[local] Hint Resolve tame_read_tmpl_args : tame.
Lemma tame_binary x n : tame (cpp_demangle_read_expression_binary x n).
Proof. unfold cpp_demangle_read_expression_binary. tame_auto. Qed.
#[local] Hint Resolve tame_binary : tame.
Lemma tame_unary x n : tame (cpp_demangle_read_expression_unary x n).
Proof. unfold cpp_demangle_read_expression_unary. tame_auto. Qed.
#[local] Hint Resolve tame_unary : tame.
Lemma tame_trinary x n y k : tame (cpp_demangle_read_expression_trinary x n y k).
Proof. unfold cpp_demangle_read_expression_trinary. tame_auto. Qed.
#[local] Hint Resolve tame_trinary : tame.
Lemma tame_read_expression : tame cpp_demangle_read_expression.
Proof. unfold cpp_demangle_read_expression, expression_ops_1, expression_ops_2, expression_ops_3. tame_auto. Qed.
#[local] Hint Resolve tame_read_expression : tame.
Lemma tame_read_expression_flat : tame cpp_demangle_read_expression_flat.
Proof. unfold cpp_demangle_read_expression_flat. tame_auto. Qed.
#[local] Hint Resolve tame_read_expression_flat : tame.

(** *** Names *)
Lemma tame_push_component v m l : valid v -> tame (push_component v m l).
Proof. intros. unfold push_component. tame_auto. Qed.
#[local] Hint Resolve tame_push_component : tame.
Lemma tame_read_args_component r v : valid v -> tame (read_args_component r v).
Proof. intros. unfold read_args_component. tame_auto. Qed.
#[local] Hint Resolve tame_read_args_component : tame.
Lemma tame_read_subst_std : tame cpp_demangle_read_subst_std.
Proof. unfold cpp_demangle_read_subst_std. tame_auto. Qed.
#[local] Hint Resolve tame_read_subst_std : tame.
Lemma tame_memcpy_bytes m l : tame (memcpy_bytes m l).
Proof. unfold memcpy_bytes. tame_auto. Qed.
#[local] Hint Resolve tame_memcpy_bytes : tame.
Lemma tame_read_subst_stdtmpl x : tame (cpp_demangle_read_subst_stdtmpl x).
Proof. unfold cpp_demangle_read_subst_stdtmpl. tame_auto. Qed.
#[local] Hint Resolve tame_read_subst_stdtmpl : tame.
Lemma tame_read_std_abbrev x n : tame (read_std_abbrev x n).
Proof. unfold read_std_abbrev. tame_auto. Qed.
#[local] Hint Resolve tame_read_std_abbrev : tame.
Lemma tame_read_subst : tame cpp_demangle_read_subst.
Proof. unfold cpp_demangle_read_subst. tame_auto. Qed.
#[local] Hint Resolve tame_read_subst : tame.
Lemma tame_read_member_qualifiers l : tame (read_member_qualifiers l).
Proof. induction l; cbn [read_member_qualifiers]; tame_auto. Qed.
#[local] Hint Resolve tame_read_member_qualifiers : tame.
Lemma tame_read_component : tame read_component.
Proof. unfold read_component. tame_auto. Qed.
#[local] Hint Resolve tame_read_component : tame.
Lemma tame_nested_name_loop r n : forall v, valid v -> tame (nested_name_loop r v n).
Proof. induction n; intros; cbn [nested_name_loop]; tame_auto. Qed.
#[local] Hint Resolve tame_nested_name_loop : tame.
Lemma tame_read_nested_name : tame cpp_demangle_read_nested_name.
Proof. unfold cpp_demangle_read_nested_name. tame_auto. Qed.
#[local] Hint Resolve tame_read_nested_name : tame.
Lemma tame_local_types_loop n : forall td m, tame (local_types_loop td m n).
Proof. induction n; intros; cbn [local_types_loop]; tame_auto. Qed.
#[local] Hint Resolve tame_local_types_loop : tame.
Lemma tame_append_local l : tame (append_local l).
Proof. unfold append_local. pose proof tame_push_vector Hoom. tame_auto. Qed.
#[local] Hint Resolve tame_append_local : tame.
Lemma tame_read_local_name : tame cpp_demangle_read_local_name.
Proof. unfold cpp_demangle_read_local_name. tame_auto. Qed.
#[local] Hint Resolve tame_read_local_name : tame.
Lemma tame_read_unscoped_name : tame read_unscoped_name.
Proof. unfold read_unscoped_name. tame_auto. Qed.
#[local] Hint Resolve tame_read_unscoped_name : tame.
Lemma tame_read_name : tame cpp_demangle_read_name.
Proof. unfold cpp_demangle_read_name. tame_auto. Qed.
#[local] Hint Resolve tame_read_name : tame.
Lemma tame_read_name_flat : tame cpp_demangle_read_name_flat.
Proof. unfold cpp_demangle_read_name_flat. tame_auto. Qed.
#[local] Hint Resolve tame_read_name_flat : tame.

(** *** Types *)
Lemma tame_push_bound m l : tame (push_bound m l).
Proof. unfold push_bound. tame_auto. Qed.
#[local] Hint Resolve tame_push_bound : tame.
Lemma tame_read_array : tame cpp_demangle_read_array.
Proof. unfold cpp_demangle_read_array. tame_auto. Qed.
#[local] Hint Resolve tame_read_array : tame.
Lemma tame_reset_qualifiers v : valid v -> tame (reset_qualifiers v).
Proof.
  intros Hv. unfold reset_qualifiers. tame_step; [tame_auto|]. intros s Hs. unfold mbind, comp_bind, on_clock.
  destruct (vector_type_qualifier_init_ok (clock s)) as (x & n' & E & _ & Hx & _). rewrite E.
  pose proof (tame_q_init (clock s) Logic.I) as Ht. rewrite E in Ht. destruct (Hx Hoom) as [w ->].
  split; [apply Ht | by destruct Hs].
Qed.
#[local] Hint Resolve tame_reset_qualifiers : tame.
Lemma tame_function_types_loop n : forall td, tame (function_types_loop td n).
Proof. induction n; intros; cbn [function_types_loop]; tame_auto. Qed.
#[local] Hint Resolve tame_function_types_loop : tame.
Lemma tame_push_member_pointer b rc : tame (push_member_pointer b rc).
Proof. unfold push_member_pointer. tame_auto. Qed.
#[local] Hint Resolve tame_push_member_pointer : tame.
Lemma tame_push_ref_qualifier : tame push_ref_qualifier.
Proof. unfold push_ref_qualifier. tame_auto. Qed.
#[local] Hint Resolve tame_push_ref_qualifier : tame.
Lemma tame_read_function_params v : valid v -> tame (read_function_params v).
Proof. intros. unfold read_function_params. tame_auto. Qed.
#[local] Hint Resolve tame_read_function_params : tame.
Lemma tame_read_function b v : valid v -> tame (cpp_demangle_read_function b v).
Proof. intros. unfold cpp_demangle_read_function. tame_auto. Qed.
#[local] Hint Resolve tame_read_function : tame.
Lemma tame_read_pointer_to_member v : valid v -> tame (cpp_demangle_read_pointer_to_member v).
Proof. intros. unfold cpp_demangle_read_pointer_to_member. tame_auto. Qed.
#[local] Hint Resolve tame_read_pointer_to_member : tame.
Lemma tame_push_q v t : valid v -> tame (push_q v t).
Proof. intros. unfold push_q. tame_auto. Qed.
#[local] Hint Resolve tame_push_q : tame.
Lemma tame_push_ext v m l : valid v -> tame (push_ext v m l).
Proof. intros. unfold push_ext. tame_auto. Qed.
#[local] Hint Resolve tame_push_ext : tame.
Lemma tame_push_ext_str v m : valid v -> tame (push_ext_str v m).
Proof. intros. unfold push_ext_str. tame_auto. Qed.
#[local] Hint Resolve tame_push_ext_str : tame.
Lemma tame_note_ref_qualifier t : tame (note_ref_qualifier t).
Proof. unfold note_ref_qualifier. tame_auto. Qed.
#[local] Hint Resolve tame_note_ref_qualifier : tame.
Lemma tame_read_vector_size v : valid v -> tame (read_vector_size v).
Proof. intros. unfold read_vector_size. tame_auto. Qed.
#[local] Hint Resolve tame_read_vector_size : tame.
Lemma tame_read_vendor_qualifier v : valid v -> tame (read_vendor_qualifier v).
Proof. intros. unfold read_vendor_qualifier. tame_auto. Qed.
#[local] Hint Resolve tame_read_vendor_qualifier : tame.
Lemma tame_read_type_args r : tame (read_type_args r).
Proof. unfold read_type_args. tame_auto. Qed.
#[local] Hint Resolve tame_read_type_args : tame.
Lemma tame_read_type_core r td v i c : valid v -> tame (read_type_core r td v i c).
Proof. intros. unfold read_type_core. tame_auto. Qed.
#[local] Hint Resolve tame_read_type_core : tame.
Lemma tame_read_type_loop n r : forall td v i, valid v -> tame (read_type_loop n r td v i).
Proof. induction n; intros; cbn [read_type_loop]; tame_auto. Qed.
#[local] Hint Resolve tame_read_type_loop : tame.
Lemma tame_push_delimiter td : tame (push_delimiter td).
Proof. unfold push_delimiter. tame_auto. Qed.
#[local] Hint Resolve tame_push_delimiter : tame.
Lemma tame_finish_type r t : valid t -> tame (finish_type r t).
Proof. intros. unfold finish_type. tame_auto. Qed.
#[local] Hint Resolve tame_finish_type : tame.
Lemma tame_read_type td : tame (cpp_demangle_read_type td).
Proof. unfold cpp_demangle_read_type. tame_auto. Qed.
#[local] Hint Resolve tame_read_type : tame.
Lemma tame_read_type_flat : tame cpp_demangle_read_type_flat.
Proof. unfold cpp_demangle_read_type_flat. tame_auto. Qed.
#[local] Hint Resolve tame_read_type_flat : tame.

(** *** Encodings *)
Lemma tame_special x k : tame k -> tame (special x k).
Proof. intros. unfold special. tame_auto. Qed.
#[local] Hint Resolve tame_special : tame.
Lemma tame_read_encoding : tame cpp_demangle_read_encoding.
Proof. unfold cpp_demangle_read_encoding, read_reference_temporary, read_transaction_clone, read_construction_vtable. tame_auto. all: apply tame_special; tame_auto. Qed.
#[local] Hint Resolve tame_read_encoding : tame.
Lemma tame_types_loop l n : forall td h m, tame (demangle_types_loop l td h m n).
Proof. pose proof tame_push_vector_head Hoom. induction n; intros; cbn [demangle_types_loop]; tame_auto. Qed.
#[local] Hint Resolve tame_types_loop : tame.
Lemma tame_push_if b x : tame (push_if b x).
Proof. unfold push_if. tame_auto. Qed.
#[local] Hint Resolve tame_push_if : tame.
Lemma tame_encoding_result : tame demangle_encoding.
Proof. unfold demangle_encoding. tame_auto. Qed.
#[local] Hint Resolve tame_encoding_result : tame.
Lemma tame_type_result : tame demangle_type.
Proof. unfold demangle_type. tame_auto. Qed.
#[local] Hint Resolve tame_type_result : tame.
End Readers.

(** ** Complete runs *)
Section Runs.
Context {P : Platform} (Hoom : never_oom).

Lemma readers_tame {I : Input} n : ReadersTame (R := readers n).
Proof.
  induction n as [|n IH]; split; intros; intros s; cbn [readers r_type r_encoding r_expression r_name];
    try apply tame_no_fuel.
  - by apply tame_read_type.
  - by apply tame_read_encoding.
  - by apply tame_read_expression.
  - by apply tame_read_name.
Qed.

Lemma tame_data_dest s : valid s -> match cpp_demangle_data_dest s with Crash c => stray c | _ => True end.
Proof.
  intros Hs. assert (tame cpp_demangle_data_dest) as H.
  2: { specialize (H s Hs). by destruct (cpp_demangle_data_dest s). }
  clear s Hs. unfold cpp_demangle_data_dest, vector_read_cmd_dest. tame_step; [tame_auto|]. destruct H.
  apply tame_on_clock. tame_step; [by apply tame_ret|]. repeat (tame_step; [by apply tame_dest|]). by apply tame_dest.
Qed.

(** A run that goes wrong *)
Lemma with_data_tame {I : Input} start body n c :
  tame body -> with_data start body n = Crash c -> stray c.
Proof.
  intros Hb. unfold with_data, cpp_demangle_data_init, vector_str_init, vector_read_cmd_init.
  unfold mbind, comp_bind, malloc. repeat (cbn; rewrite Hoom). cbn. unfold work_and_clean, mbind, comp_bind.
  match goal with |- context [body ?s] => assert (valid s) as Hs by (constructor; constructor); specialize (Hb s Hs); destruct (body s) as [a s'|s'|c'|] end; try done.
  - destruct Hb as [_ Hs']. pose proof (tame_data_dest s' Hs') as Hd. by destruct (cpp_demangle_data_dest s'); intros [= <-].
  - pose proof (tame_data_dest s' Hb) as Hd. by destruct (cpp_demangle_data_dest s'); intros [= <-].
  - by intros [= <-].
Qed.

Lemma demangle_stray org n c : __cxa_demangle_gnu3 org n = Crash c -> stray c.
Proof.
  destruct org as [org|]; cbn [__cxa_demangle_gnu3]; [|done]. unfold demangle_at.
  destruct (_ || _).
  - apply (with_data_tame (I := org)). apply tame_type_result; [done|apply readers_tame].
  - destruct (_ && _).
    + unfold mbind, comp_bind. cbn. by destruct (malloc_ok _ _).
    + apply (with_data_tame (I := org)). apply tame_encoding_result; [done|apply readers_tame].
Qed.
End Runs.
