(* ===== verification/DemEval.v ===== *)
(** * Evaluating the readers on a known piece of input

    [does w m Q w']: with an allocator that does not fail, from any state that
    looks like the view [w], [m] succeeds with a value in [Q] in a state that
    looks like [w'].  A view is what the caller of a reader can observe: where
    the cursor is and what follows it, the strings in the vector that is
    written to, whether a reference qualifier is pending, and, in [v_ext], the
    tables of candidates and of template arguments, if they are known, how many
    template argument lists are open, whether the last thing written closed
    one, and, where a return type is being read, what the output holds. *)
From S2P Require Import Prelude CString Platform VectorStr VectorAux DemState DemQual DemLex DemReaders DemNames DemTypes Demangler.

(** The candidates, and the template arguments *)
Abbreviation tables := (list bytes * list bytes)%type.

Record ext := Ext {
  e_table : option tables;
  e_depth : nat;
  e_tmpl : bool;
  e_under : option (list bytes);
}.

(** A return type is read into the vector on the stack. *)
Definition out_ref (u : option (list bytes)) : vref := match u with None => VOutput | Some _ => VLocal 0 end.

Record view := View {
  v_pos : Z;
  v_rest : bytes;
  v_out : list bytes;
  v_ref : bool;
  v_ext : ext;
}.

(** Any table, outside template arguments *)
Definition ext0 : ext := Ext None 0 false None.
Abbreviation V i r o q := (View i r o q ext0).

(** A candidate is entered unless it is a prefix of an entry. *)
Definition list_add (x : bytes) (l : list bytes) : list bytes :=
  if existsb (is_prefix x) l then l else l ++ [x].
Definition cand_add (x : bytes) (T : tables) : tables := (list_add x T.1, T.2).
Definition cand_adds (xs : list bytes) (T : tables) : tables :=
  fold_left (fun T x => cand_add x T) xs T.
Definition cand_pop (T : tables) : tables := (removelast T.1, T.2).

(** So is a template argument. *)
Definition arg_add (x : bytes) (T : tables) : tables := (T.1, list_add x T.2).

(** Something is written; candidates are entered; the last is removed. *)
Definition plain (e : ext) : ext := Ext (e_table e) (e_depth e) false (e_under e).
Definition on_tables (f : tables -> tables) (e : ext) : ext := Ext (f <$> e_table e) (e_depth e) (e_tmpl e) (e_under e).
Definition e_adds (xs : list bytes) : ext -> ext := on_tables (cand_adds xs).
Definition e_pop : ext -> ext := on_tables cand_pop.

Definition on_ext (f : ext -> ext) (w : view) : view :=
  View (v_pos w) (v_rest w) (v_out w) (v_ref w) (f (v_ext w)).

Section Eval.
Context {P : Platform} {I : Input}.

Record sees (w : view) (s : cpp_demangle_data) : Prop := Sees {
  sees_cur : cur s = v_pos w;
  sees_pos : 0 <= v_pos w /\ v_pos w + zlength (v_rest w) = zlength input;
  sees_rest : zdrop (v_pos w) input = v_rest w;
  sees_output : cur_output s = out_ref (e_under (v_ext w));
  sees_out : match e_under (v_ext w) with
    | Some o => vec_ok (output s) o /\ exists v, locals s = [v] /\ vec_ok v (v_out w)
    | None => vec_ok (output s) (v_out w) /\ locals s = []
    end;
  sees_table : exists T, vec_ok (subst s) T.1 /\ vec_ok (tmpl s) T.2 /\ forall T', e_table (v_ext w) = Some T' -> T' = T;
  sees_class : exists ss, vec_ok (class_type s) ss;
  sees_cmd : r_ok (cmd s) (replicate (e_depth (v_ext w)) (ReadCmdItem READ_TMPL None));
  sees_mem : (mem_rst s, mem_vat s, mem_cst s, mem_ref s, mem_rref s)
             = (false, false, false, false, false);
  sees_is_tmpl : is_tmpl s = e_tmpl (v_ext w);
  sees_ref : ref_qualifier s = v_ref w;
  sees_pq : push_qualifier s = PUSH_ALL_QUALIFIER;
}.

(** The vector that is written to *)
Lemma sees_vec w s : sees w s ->
  exists v, vec_lookup (out_ref (e_under (v_ext w))) s = Some v /\ vec_ok v (v_out w) /\
    forall v' o', vec_ok v' o' ->
      sees (View (v_pos w) (v_rest w) o' (v_ref w) (v_ext w)) (vec_update (out_ref (e_under (v_ext w))) v' s).
Proof.
  intros Hs. pose proof (sees_out _ _ Hs) as Ho. destruct (e_under (v_ext w)) as [o|] eqn:E; cbn [out_ref vec_lookup vec_update].
  - destruct Ho as (Ho & v & Hl & Hv). rewrite Hl. exists v. split; [done|]. split; [done|]. intros v' o' Hv'.
    destruct Hs. constructor; try done; cbn [v_ext v_out]; rewrite E. split; [done|]. by exists v'.
  - destruct Ho as (Ho & Hl). exists (output s). split; [done|]. split; [done|]. intros v' o' Hv'.
    destruct Hs. constructor; try done; cbn [v_ext v_out]. by rewrite E.
Qed.

Definition does (w : view) {A} (m : M A) (Q : A -> Prop) (w' : view) : Prop :=
  forall s, sees w s -> exists a s', m s = Ok a s' /\ Q a /\ sees w' s'.

Abbreviation any := (fun _ => True).

Lemma does_bind w w1 w2 {A B} (m : M A) (f : A -> M B) Q Q' :
  does w m Q w1 -> (forall a, Q a -> does w1 (f a) Q' w2) -> does w (m ≫= f) Q' w2.
Proof.
  intros Hm Hf s Hs. destruct (Hm s Hs) as (a & s1 & H & Ha & Hs1).
  destruct (Hf a Ha s1 Hs1) as (b & s2 & H2 & Hb & Hs2). exists b, s2.
  split; [|done]. by rewrite (bind_Ok _ _ _ _ _ H).
Qed.

Lemma does_eq w w1 w2 {A B} (a : A) (m : M A) (f : A -> M B) Q' :
  does w m (eq a) w1 -> does w1 (f a) Q' w2 -> does w (m ≫= f) Q' w2.
Proof. intros Hm Hf. eapply does_bind; [done|]. by intros ? <-. Qed.

Lemma does_any w w1 w2 {A B} (m : M A) (f : A -> M B) Q' :
  does w m any w1 -> (forall a, does w1 (f a) Q' w2) -> does w (m ≫= f) Q' w2.
Proof. intros Hm Hf. eapply does_bind; [done|]. auto. Qed.

Lemma does_weaken w w' {A} (m : M A) (Q Q' : A -> Prop) :
  does w m Q w' -> (forall a, Q a -> Q' a) -> does w m Q' w'.
Proof.
  intros Hm H s Hs. destruct (Hm s Hs) as (a & s' & ? & ? & ?). eauto 10.
Qed.

Lemma does_ret w {A} (a : A) (Q : A -> Prop) : Q a -> does w (mret a) Q w.
Proof. intros H s Hs. by exists a, s. Qed.

Lemma does_bind_ret w w' {A B} (a : A) (f : A -> M B) Q :
  does w (f a) Q w' -> does w (mret a ≫= f) Q w'.
Proof. done. Qed.

Lemma does_assoc w w' {A B C} (m : M A) (g : A -> M B) (f : B -> M C) Q :
  does w (m ≫= fun a => g a ≫= f) Q w' -> does w ((m ≫= g) ≫= f) Q w'.
Proof. intros H s Hs. destruct (H s Hs) as (a & s' & ? & ?). exists a, s'. by rewrite bind_assoc. Qed.

Lemma does_guard w w' b {B} (f : unit -> M B) Q :
  b = true -> does w (f tt) Q w' -> does w (guard_ b ≫= f) Q w'.
Proof. by intros ->. Qed.

Lemma does_assert w w' b {B} (f : unit -> M B) Q :
  b = true -> does w (f tt) Q w' -> does w (assert_ b ≫= f) Q w'.
Proof. by intros ->. Qed.

(** A branch, as the first step of a sequence. *)
Lemma does_then w w' C `{Decision C} {A B} (m1 m2 : M A) (f : A -> M B) Q :
  C -> does w (m1 ≫= f) Q w' -> does w ((if decide C then m1 else m2) ≫= f) Q w'.
Proof. intros HC. by rewrite decide_True. Qed.

Lemma does_else w w' C `{Decision C} {A B} (m1 m2 : M A) (f : A -> M B) Q :
  ~ C -> does w (m2 ≫= f) Q w' -> does w ((if decide C then m1 else m2) ≫= f) Q w'.
Proof. intros HC. by rewrite decide_False. Qed.

Lemma does_if_true w w' C `{Decision C} {A} (m1 m2 : M A) Q :
  C -> does w m1 Q w' -> does w (if decide C then m1 else m2) Q w'.
Proof. intros HC. by rewrite decide_True. Qed.

Lemma does_if_false w w' C `{Decision C} {A} (m1 m2 : M A) Q :
  ~ C -> does w m2 Q w' -> does w (if decide C then m1 else m2) Q w'.
Proof. intros HC. by rewrite decide_False. Qed.

Lemma does_guard_end w b : b = true -> does w (guard_ b) any w.
Proof. intros ->. by apply does_ret. Qed.

(** The view itself bounds the text. *)
Lemma does_pos {e} i r o q w' {A} (m : M A) Q :
  (0 <= i -> i + zlength r = zlength input -> does (View i r o q e) m Q w') -> does (View i r o q e) m Q w'.
Proof. intros H s Hs. destruct (sees_pos _ _ Hs) as [H1 H2]. cbn in *. by apply H. Qed.

Lemma does_known {e} i r o q w' {A} (m : M A) Q :
  (0 <= i -> i + zlength r = zlength input -> zdrop i input = r -> does (View i r o q e) m Q w') ->
  does (View i r o q e) m Q w'.
Proof. intros H s Hs. destruct (sees_pos _ _ Hs) as [H1 H2]. apply H; [done|done|apply Hs|done]. Qed.

(** ** The cursor *)
Lemma does_cur {e} i r o q : does (View i r o q e) (gets cur) (eq i) (View i r o q e).
Proof. intros s Hs. exists (cur s), s. split; [done|]. split; [|done]. symmetry. apply Hs. Qed.

Lemma does_gets_out w : does w (gets cur_output) (eq (out_ref (e_under (v_ext w)))) w.
Proof. intros s Hs. exists (cur_output s), s. split; [done|]. split; [|done]. symmetry. apply Hs. Qed.

Lemma zdrop_lookup {A} (l : list A) i k :
  0 <= i <= zlength l -> l !! Z.to_nat (i + Z.of_nat k) = zdrop i l !! k.
Proof.
  intros. unfold zdrop. rewrite Z.min_l by lia. rewrite lookup_drop. f_equal. lia.
Qed.

Lemma does_peek_at {e} i r o q k :
  (k <= length r)%nat ->
  does (View i r o q e) (peek_at (Z.of_nat k)) (eq (default NUL (r !! k))) (View i r o q e).
Proof.
  intros Hk s Hs. destruct Hs as [Hc [Hp1 Hp2] Hr]. cbn in *. unfold peek_at. rewrite Hc.
  assert (Z.of_nat k <= zlength r) by (unfold zlength; lia).
  rewrite (proj2 (Z.leb_le _ _)), (proj2 (Z.leb_le _ _)) by lia. cbn.
  eexists _, _. split; [done|]. split; [|by constructor].
  rewrite zdrop_lookup by (pose proof (zlength_nonneg r); lia). by rewrite Hr.
Qed.

Lemma does_peek {e} i r o q : does (View i r o q e) peek (eq (default NUL (head r))) (View i r o q e).
Proof. replace (head r) with (r !! 0%nat) by (by destruct r). apply (does_peek_at i r o q 0). lia. Qed.

Lemma does_peek_cons {e} i c r o q : does (View i (c :: r) o q e) peek (eq c) (View i (c :: r) o q e).
Proof. apply does_peek. Qed.

Lemma does_peek1 {e} i c r o q :
  does (View i (c :: r) o q e) (peek_at 1) (eq (default NUL (head r))) (View i (c :: r) o q e).
Proof.
  replace (head r) with ((c :: r) !! 1%nat) by (by destruct r).
  apply (does_peek_at i (c :: r) o q 1). cbn. lia.
Qed.

Lemma does_guard_more {e} i c r o q : c <> NUL -> does (View i (c :: r) o q e) guard_more any (View i (c :: r) o q e).
Proof.
  intros Hc. unfold guard_more. eapply does_eq; [apply does_peek|]. cbn.
  rewrite bool_decide_true by done. by apply does_ret.
Qed.

Lemma zdrop_plus {A} (l : list A) i a r :
  0 <= i -> zdrop i l = a ++ r -> i + zlength (a ++ r) = zlength l -> zdrop (i + zlength a) l = r.
Proof.
  intros Hi Hd Hl. rewrite zlength_app in Hl. pose proof (zlength_nonneg a). pose proof (zlength_nonneg r).
  unfold zdrop in *. rewrite Z.min_l in Hd |- * by lia.
  rewrite Z2Nat.inj_add by lia. rewrite <- drop_drop, Hd.
  unfold zlength. rewrite Nat2Z.id. apply drop_app_length.
Qed.

Lemma does_advance {e} i a r o q :
  does (View i (a ++ r) o q e) (advance (zlength a)) any (View (i + zlength a) r o q e).
Proof.
  intros s Hs. pose proof Hs as [Hc [Hp1 Hp2] Hr]. cbn in *. unfold advance. rewrite Hc.
  pose proof (zlength_nonneg a). pose proof (zlength_nonneg r). rewrite zlength_app in Hp2.
  rewrite (proj2 (Z.leb_le _ _)) by lia. eexists _, _. split; [done|]. split; [done|].
  destruct Hs. constructor; try done; cbn in *; [lia|].
  apply zdrop_plus; [done..|]. rewrite zlength_app. lia.
Qed.

Lemma does_advance1 {e} i c r o q : does (View i (c :: r) o q e) (advance 1) any (View (i + 1) r o q e).
Proof. apply (does_advance i [c] r o q). Qed.

Lemma does_text {e} i r o q : does (View i r o q e) (text_at i) (eq (Bytes r)) (View i r o q e).
Proof.
  intros s Hs. pose proof Hs as [Hc [Hp1 Hp2] Hr]. cbn in *. unfold text_at.
  pose proof (zlength_nonneg r).
  rewrite (proj2 (Z.leb_le _ _)), (proj2 (Z.leb_le _ _)) by lia. rewrite Hr. cbn.
  by eexists _, _.
Qed.

Lemma count_while_app p a r :
  Forall (fun c => p c = true) a -> match head r with Some c => p c = false | None => True end ->
  count_while p (a ++ r) = zlength a.
Proof.
  intros Ha Hr. induction Ha as [|c a Hc _ IH]; cbn [app count_while].
  - destruct r as [|c r]; cbn in *; [done|]. by rewrite Hr.
  - rewrite Hc, IH, zlength_cons. lia.
Qed.

Lemma does_skip_while {e} p i a r o q :
  Forall (fun c => p c = true) a -> match head r with Some c => p c = false | None => True end ->
  p NUL = false ->
  does (View i (a ++ r) o q e) (skip_while p) any (View (i + zlength a) r o q e).
Proof.
  intros Ha Hr Hn. unfold skip_while. eapply does_eq; [apply does_peek|].
  eapply does_eq; [apply does_cur|]. intros s Hs. pose proof (sees_rest _ _ Hs) as Hrest. cbn in Hrest.
  rewrite Hrest, count_while_app, Hn, andb_false_r by done. by apply does_advance.
Qed.

(** The same for a stop that is there, however the terminator is judged. *)
Lemma does_skip_to {e} p i a c r o q :
  Forall (fun c => p c = true) a -> p c = false ->
  does (View i (a ++ c :: r) o q e) (skip_while p) any (View (i + zlength a) (c :: r) o q e).
Proof.
  intros Ha Hc. unfold skip_while. eapply does_eq; [apply does_peek|].
  eapply does_eq; [apply does_cur|]. intros s Hs. pose proof (sees_rest _ _ Hs) as Hrest. cbn in Hrest.
  rewrite Hrest, count_while_app by done. rewrite zlength_app, zlength_cons.
  pose proof (zlength_nonneg r). rewrite (proj2 (Z.eqb_neq _ _)) by lia. by apply does_advance.
Qed.
End Eval.

(** ** Output and vectors *)
Section Output.
Context {P : Platform} {I : Input} (Hoom : never_oom).
Abbreviation any := (fun _ => True).

Lemma sees_step w s n : sees w s -> sees w (set_clock n s).
Proof. intros []. by constructor. Qed.

Lemma does_on_clock w {A} (m : comp nat A) (Q : A -> Prop) :
  (forall n, exists a n', m n = Ok a n' /\ Q a) -> does w (on_clock m) Q w.
Proof.
  intros H s Hs. destruct (H (clock s)) as (a & n' & E & Ha). unfold on_clock. rewrite E.
  exists a, (set_clock n' s). split; [done|]. split; [done|]. by apply sees_step.
Qed.

Lemma ztake_zlength {A} (l : list A) : ztake (zlength l) l = l.
Proof. by apply ztake_all. Qed.

Lemma zlength_pos {A} (l : list A) : l <> [] -> 0 < zlength l.
Proof. destruct l; [done|]. rewrite zlength_cons. pose proof (zlength_nonneg l). lia. Qed.

Lemma does_vec_get w : does w (vec_get (out_ref (e_under (v_ext w)))) (fun v => vec_ok v (v_out w)) w.
Proof. intros s Hs. destruct (sees_vec w s Hs) as (v & E & Hv & _). unfold vec_get. rewrite E. eauto. Qed.

Lemma does_vec_set w v o : vec_ok v o ->
  does w (vec_set (out_ref (e_under (v_ext w))) v) any (View (v_pos w) (v_rest w) o (v_ref w) (v_ext w)).
Proof. intros Hv s Hs. destruct (sees_vec w s Hs) as (v0 & _ & _ & H). eexists tt, _. split; [done|]. split; [done|]. by apply H. Qed.

Lemma does_clock_push w v ss src len :
  0 <= len -> vec_ok v ss ->
  does w (on_clock (vector_str_push v (Bytes src) len)) (fun r => r.1 = true /\ vec_ok r.2 (ss ++ [ztake len src])) w.
Proof.
  intros Hlen Hv. apply does_on_clock. intros n.
  destruct (vector_str_push_ok v ss (Bytes src) len (ztake len src) n Hv) as (b & v' & n' & E & _ & Hv' & Hb).
  { destruct (decide (len = 0)) as [->|].
    - left. split; [done|]. unfold ztake. pose proof (zlength_nonneg src).
      rewrite Z.min_l by lia. apply take_0.
    - right. split; [lia|eauto]. }
  rewrite (Hb Hoom) in *. eexists _, _. by split.
Qed.

Lemma does_vec_push {e r0} i r o q src len :
  0 <= len -> r0 = out_ref (e_under e) ->
  does (View i r o q e) (vec_push r0 (Bytes src) len) any (View i r (o ++ [ztake len src]) q e).
Proof.
  intros Hlen ->. unfold vec_push. eapply does_bind; [apply (does_vec_get (View i r o q e))|]. intros v Hv.
  eapply does_bind; [exact (does_clock_push _ _ _ _ _ Hlen Hv)|]. intros [b v'] [Hb Hv']. cbn [fst snd v_out] in *. subst b.
  eapply does_any; [by apply (does_vec_set (View i r o q e)) | intros _]. by apply does_ret.
Qed.

Lemma does_push_str {e} i r o q src len :
  0 < len ->
  does (View i r o q e) (cpp_demangle_push_str (Bytes src) len) any (View i r (o ++ [ztake len src]) q (plain e)).
Proof.
  intros Hlen. unfold cpp_demangle_push_str.
  apply does_guard; [by rewrite (proj2 (Z.eqb_neq _ _)) by lia|].
  eapply (does_any _ (View i r o q (plain e))).
  { intros s Hs. exists tt, (set_is_tmpl false s). split; [done|]. split; [done|].
    destruct Hs. by constructor. }
  intros _. eapply does_eq; [apply does_gets_out|]. apply does_vec_push; [lia|done].
Qed.

Lemma does_push_lit {e} i r o q x :
  lit x <> [] -> does (View i r o q e) (DEM_PUSH_STR x) any (View i r (o ++ [lit x]) q (plain e)).
Proof.
  intros Hx. unfold DEM_PUSH_STR. rewrite <- (ztake_zlength (lit x)) at 3.
  by apply does_push_str, zlength_pos.
Qed.

Lemma does_push_cstr {e} i r o q b :
  b <> [] -> does (View i r o q e) (DEM_PUSH_CSTR (Bytes b)) any (View i r (o ++ [b]) q (plain e)).
Proof.
  intros Hb. unfold DEM_PUSH_CSTR. apply does_bind_ret. rewrite <- (ztake_zlength b) at 3.
  by apply does_push_str, zlength_pos.
Qed.

Lemma does_out_size {e r0} i r o q : r0 = out_ref (e_under e) ->
  does (View i r o q e) (vec_size r0) (eq (zlength o)) (View i r o q e).
Proof.
  intros ->. unfold vec_size. eapply does_bind; [apply (does_vec_get (View i r o q e))|]. intros v Hv. apply does_ret.
  symmetry. by apply (vec_ok_size _ _ Hv).
Qed.

Lemma does_subst_size w : does w (vec_size VSubst) (fun n => 0 <= n) w.
Proof. intros s Hs. eexists _, s. split; [done|]. split; [|done]. apply zlength_nonneg. Qed.

(** The output since the index where [o] ended. *)
Lemma does_substr {e r0} i r o o' q :
  o' <> [] -> zlength (o ++ o') < SIZE_MOD -> r0 = out_ref (e_under e) ->
  does (View i r (o ++ o') q e) (vec_substr r0 (zlength o))
    (eq (Some (Bytes (concat o'), zlength (concat o')))) (View i r (o ++ o') q e).
Proof.
  intros Hne Hmod ->. unfold vec_substr. eapply does_bind; [apply (does_vec_get (View i r (o ++ o') q e))|].
  intros v Hv. cbn [v_out] in Hv. pose proof (vec_ok_size _ _ Hv) as Hsz. apply does_on_clock. intros n.
  destruct (vector_str_substr_ok v o o' [] n) as (x & E & Hx & Hsome); [by rewrite app_nil_r | done | lia |].
  pose proof (zlength_pos _ Hne). pose proof (zlength_nonneg o).
  rewrite zlength_app in *. rewrite size_t_small by lia.
  replace (size v - 1) with (zlength o + zlength o' - 1) by lia.
  rewrite E. eexists _, _. split; [done|]. destruct Hx as [->| ->]; [by destruct (Hsome Hoom)|done].
Qed.

Lemma does_substr_nil {e r0} i r o q :
  zlength o < SIZE_MOD -> o <> [] -> r0 = out_ref (e_under e) ->
  does (View i r o q e) (vec_substr r0 (zlength o)) (eq None) (View i r o q e).
Proof.
  intros Hmod Hne ->. unfold vec_substr. eapply does_bind; [apply (does_vec_get (View i r o q e))|].
  intros v Hv. apply does_on_clock. intros n. rewrite (vec_ok_size _ _ Hv). cbn [v_out].
  pose proof (zlength_pos _ Hne). rewrite size_t_small by lia.
  unfold vector_str_substr. rewrite (proj2 (Z.ltb_lt _ _)) by lia. by eexists _, _.
Qed.

Lemma does_substr_or_fail {e r0} i r o o' q :
  o' <> [] -> zlength (o ++ o') < SIZE_MOD -> r0 = out_ref (e_under e) ->
  does (View i r (o ++ o') q e) (vec_substr_or_fail r0 (zlength o))
    (eq (Bytes (concat o'), zlength (concat o'))) (View i r (o ++ o') q e).
Proof.
  intros. unfold vec_substr_or_fail. eapply does_eq; [by apply does_substr|]. by apply does_ret.
Qed.

(** ** Vectors of the readers *)
Lemma does_local_vec w : does w local_vec (fun v => vec_ok v []) w.
Proof.
  unfold local_vec. eapply does_bind.
  - apply (does_on_clock _ _ (fun o => exists v, o = Some v /\ vec_ok v [])). intros n.
    destruct (vector_str_init_ok n) as (x & E & Hs & Hv).
    destruct (Hs Hoom) as [v ->]. eexists _, _. split; [done|]. eauto.
  - intros ? (v & -> & Hv). by apply does_ret.
Qed.

Lemma does_local_push w v ss b :
  vec_ok v ss -> does w (local_push v (Bytes b) (zlength b)) (fun v' => vec_ok v' (ss ++ [b])) w.
Proof.
  intros Hv. unfold local_push.
  eapply does_bind; [by apply (does_clock_push _ _ _ _ _ (zlength_nonneg b) Hv)|]. rewrite ztake_zlength.
  intros [ok v'] [Hok Hv']. cbn in Hok, Hv'. subst. by apply does_ret.
Qed.

Lemma does_VEC_PUSH_STR w v ss b :
  vec_ok v ss -> does w (VEC_PUSH_STR v (Bytes b)) (fun v' => vec_ok v' (ss ++ [b])) w.
Proof. intros Hv. unfold VEC_PUSH_STR. apply does_bind_ret. by apply does_local_push. Qed.

(** *** The tables

    [r] is the vector of one of them, and [f] what happens to it. *)
Definition on_table (r : vref) (f : list bytes -> list bytes) (T : tables) : tables :=
  match r with VSubst => (f T.1, T.2) | VTmpl => (T.1, f T.2) | _ => T end.

Definition table (r : vref) (T : tables) : list bytes := match r with VSubst => T.1 | _ => T.2 end.

(** What is known of a table of [w] in [s]. *)
Lemma sees_tables r w s : r = VSubst \/ r = VTmpl -> sees w s ->
  exists v T, vec_lookup r s = Some v /\ vec_ok v (table r T) /\
    (forall T', e_table (v_ext w) = Some T' -> T' = T) /\
    forall v' f n, vec_ok v' (f (table r T)) -> sees (on_ext (on_tables (on_table r f)) w) (vec_update r v' (set_clock n s)).
Proof.
  intros Hr Hs. destruct (sees_table _ _ Hs) as (T & H1 & H2 & HT).
  destruct Hr as [-> | ->]; cbn [vec_lookup table vec_update]; eexists _, T; (split; [done|]); (split; [done|]); (split; [done|]);
    intros v' f n Hv'; destruct Hs; constructor; try done; cbn [on_ext v_ext on_tables e_table on_table].
  - exists (f T.1, T.2). split; [done|]. split; [done|].
    intros T' E. destruct (e_table (v_ext w)) as [T0|]; [|done]. injection E as <-. by rewrite (HT T0 eq_refl).
  - exists (T.1, f T.2). split; [done|]. split; [done|].
    intros T' E. destruct (e_table (v_ext w)) as [T0|]; [|done]. injection E as <-. by rewrite (HT T0 eq_refl).
Qed.

Lemma does_push_table r w b : r = VSubst \/ r = VTmpl ->
  does w (vec_push r (Bytes b) (zlength b)) any (on_ext (on_tables (on_table r (fun T => T ++ [b]))) w).
Proof.
  intros Hr s Hs. destruct (sees_tables r w s Hr Hs) as (v & T & E & Hv & _ & Hset). unfold vec_push, vec_get.
  unfold mbind at 1, comp_bind at 1. rewrite E.
  destruct (vector_str_push_ok v (table r T) (Bytes b) (zlength b) b (clock s) Hv) as (ok & v' & n' & E' & _ & Hv' & Hb).
  { destruct (decide (b = [])) as [->|Hne]; [by left|].
    right. split; [by apply zlength_pos|]. exists b. by rewrite ztake_zlength. }
  rewrite (Hb Hoom) in *. erewrite bind_Ok by (unfold on_clock; by rewrite E').
  eexists tt, _. split; [done|]. split; [done|]. by apply (Hset v' (fun T => T ++ [b])).
Qed.

Lemma does_pop_table w : does w (vec_pop VSubst) any (on_ext e_pop w).
Proof.
  intros s Hs. destruct (sees_tables VSubst w s (or_introl eq_refl) Hs) as (v & T & [= <-] & Hv & _ & Hset).
  unfold vec_pop. run1. destruct (vector_str_pop_ok (subst s) (table VSubst T) (clock s) Hv) as (v' & E & Hv').
  erewrite bind_Ok by (unfold on_clock; by rewrite E).
  eexists tt, _. split; [done|]. split; [done|]. by apply (Hset v' (fun T => removelast T)).
Qed.

(** Adding to a table unless the string is found there *)
Lemma does_add_table r w b : r = VSubst \/ r = VTmpl ->
  does w (vec_add_new r (Some (Bytes b)) (zlength b)) any (on_ext (on_tables (on_table r (list_add b))) w).
Proof.
  intros Hr s Hs. destruct (sees_tables r w s Hr Hs) as (v & T & E & Hv & HT & Hset). unfold vec_add_new, vec_get.
  unfold mbind at 1, comp_bind at 1. rewrite E.
  erewrite bind_Ok.
  2: { unfold on_clock. by rewrite (vector_str_find_ok v (table r T) b (clock s) Hv). }
  destruct (existsb (is_prefix b) (table r T)) eqn:Hex.
  - eexists tt, _. split; [done|]. split; [done|]. specialize (Hset v (list_add b) (clock s)).
    unfold list_add in Hset at 1. rewrite Hex in Hset. specialize (Hset Hv).
    replace (vec_update r v (set_clock (clock s) s)) with (set_clock (clock s) s) in Hset; [exact Hset|].
    destruct Hr as [-> | ->]; injection E as <-; by destruct s.
  - apply (sees_step _ _ (clock s)) in Hs. destruct (does_push_table r w b Hr _ Hs) as (a & s' & E' & _ & Hs').
    exists a, s'. split; [exact E'|]. split; [done|].
    replace (on_ext (on_tables (on_table r (list_add b))) w) with (on_ext (on_tables (on_table r (fun T => T ++ [b]))) w); [done|].
    unfold on_ext, on_tables. f_equal. f_equal. destruct (e_table (v_ext w)) as [T0|]; [|done]. cbn. f_equal.
    rewrite (HT T0 eq_refl). unfold list_add. destruct Hr as [-> | ->]; cbn [on_table table] in *; by rewrite Hex.
Qed.

Lemma does_push_subst w b : b <> [] ->
  does w (cpp_demangle_push_subst (Bytes b) (zlength b)) any (on_ext (e_adds [b]) w).
Proof.
  intros Hb. unfold cpp_demangle_push_subst.
  pose proof (zlength_pos _ Hb). apply does_guard; [by rewrite (proj2 (Z.eqb_neq _ _)) by lia|].
  apply (does_add_table VSubst). by left.
Qed.

Lemma does_add_new w b : does w (vec_add_new VSubst (Some (Bytes b)) (zlength b)) any (on_ext (e_adds [b]) w).
Proof. apply (does_add_table VSubst). by left. Qed.

Lemma does_add_arg w b :
  does w (vec_add_new VTmpl (Some (Bytes b)) (zlength b)) any (on_ext (on_tables (arg_add b)) w).
Proof. apply (does_add_table VTmpl). by right. Qed.

Lemma does_push_subst_v w v ss :
  vec_ok v ss -> concat ss <> [] -> does w (cpp_demangle_push_subst_v v) any (on_ext (e_adds [concat ss]) w).
Proof.
  intros Hv Hne. unfold cpp_demangle_push_subst_v. eapply does_eq.
  - apply (does_on_clock _ _ (eq (Some (Bytes (concat ss), zlength (concat ss))))). intros n.
    destruct (vector_str_get_flat_ok v ss n Hv) as (x & n' & E & _ & Hx & _ & Hs).
    eexists _, _. split; [done|]. destruct Hx as [->| ->]; [by destruct (Hs Hoom Hne)|done].
  - by apply does_push_subst.
Qed.

Lemma does_push_component w v ss b :
  vec_ok v ss -> b <> [] ->
  does w (push_component v (Bytes b) (zlength b)) (fun v' => vec_ok v' (ss ++ [b]))
    (on_ext (e_adds [concat (ss ++ [b])]) w).
Proof.
  intros Hv Hb. unfold push_component. eapply does_bind; [by apply does_local_push|].
  intros v' Hv'. eapply does_any.
  - eapply does_push_subst_v; [exact Hv'|]. rewrite concat_app. cbn. rewrite app_nil_r.
    by intros [_ ?]%app_nil.
  - intros _. by apply does_ret.
Qed.
End Output.

(** ** Runs that fail or fault *)
Section Bad.
Context {P : Platform} {I : Input}.

(** [m] returns 0 from every state that looks like [w]. *)
Definition fails (w : view) {A} (m : M A) : Prop :=
  forall s, sees w s -> exists s' w', m s = Fail s' /\ sees w' s'.

(** [m] goes wrong from every state that looks like [w]. *)
Definition faults (w : view) {A} (m : M A) (c : crash) : Prop :=
  forall s, sees w s -> m s = Crash c.

Lemma fails_bind w w1 {A B} (m : M A) (f : A -> M B) Q :
  does w m Q w1 -> (forall a, Q a -> fails w1 (f a)) -> fails w (m ≫= f).
Proof.
  intros Hm Hf s Hs. destruct (Hm s Hs) as (a & s1 & E & Ha & Hs1).
  rewrite (bind_Ok _ _ _ _ _ E). by apply (Hf a).
Qed.

Lemma fails_here w {A B} (m : M A) (f : A -> M B) : fails w m -> fails w (m ≫= f).
Proof.
  intros Hm s Hs. destruct (Hm s Hs) as (s' & w' & E & Hw). exists s', w'.
  by rewrite (bind_Fail _ _ _ _ E).
Qed.

Lemma fails_failed w {A} : fails w (failed (A := A)).
Proof. intros s Hs. by exists s, w. Qed.

Lemma fails_guard w b {A} (f : unit -> M A) : b = false -> fails w (guard_ b ≫= f).
Proof. intros ->. apply fails_here, fails_failed. Qed.

Lemma faults_bind w w1 {A B} (m : M A) (f : A -> M B) Q c :
  does w m Q w1 -> (forall a, Q a -> faults w1 (f a) c) -> faults w (m ≫= f) c.
Proof.
  intros Hm Hf s Hs. destruct (Hm s Hs) as (a & s1 & E & Ha & Hs1).
  rewrite (bind_Ok _ _ _ _ _ E). by apply (Hf a).
Qed.

Lemma faults_here w {A B} (m : M A) (f : A -> M B) c : faults w m c -> faults w (m ≫= f) c.
Proof. intros Hm s Hs. by rewrite (bind_Crash _ _ _ _ (Hm s Hs)). Qed.

Lemma faults_eq w w1 {A B} (a : A) (m : M A) (f : A -> M B) c :
  does w m (eq a) w1 -> faults w1 (f a) c -> faults w (m ≫= f) c.
Proof. intros Hm Hf. eapply faults_bind; [exact Hm|]. by intros ? <-. Qed.

Lemma fails_eq w w1 {A B} (a : A) (m : M A) (f : A -> M B) :
  does w m (eq a) w1 -> fails w1 (f a) -> fails w (m ≫= f).
Proof. intros Hm Hf. eapply fails_bind; [exact Hm|]. by intros ? <-. Qed.

Lemma does_status w w' {A} (m : M A) Q : does w m Q w' -> does w (status m) (eq true) w'.
Proof.
  intros Hm s Hs. destruct (Hm s Hs) as (a & s' & E & _ & Hs'). exists true, s'.
  unfold status. by rewrite E.
Qed.
End Bad.

(** ** Complete runs *)
Section Run.
Context {P : Platform} {I : Input} (Hoom : never_oom).

(** No candidates yet *)
Definition start_ext : ext := Ext (Some ([], [])) 0 false None.

Lemma sees_forget i r o q T d b u s : sees (View i r o q (Ext (Some T) d b u)) s -> sees (View i r o q (Ext None d b u)) s.
Proof. intros []. constructor; try done. cbn in *. destruct sees_table0 as (T' & ? & ? & _). by exists T'. Qed.

Lemma fresh_sees start :
  0 <= start <= zlength input -> sees (View start (zdrop start input) [] false start_ext) (fresh_data start).
Proof.
  intros Hs. assert (vec_ok fresh_vec []) as Hv by by split_and!.
  constructor; cbn; try done; try (by exists []); [|by exists ([], []); split_and!; [..|intros ? [= <-]]].
  split; [lia|]. unfold zdrop. rewrite Z.min_l by lia. unfold zlength in *. rewrite length_drop. lia.
Qed.

Lemma init_sees start n :
  0 <= start <= zlength input ->
  exists d n', cpp_demangle_data_init start n = Ok (Some d) n' /\
    sees (View start (zdrop start input) [] false start_ext) (set_clock n' d).
Proof.
  intros Hs. unfold cpp_demangle_data_init, vector_str_init, vector_read_cmd_init, mbind, comp_bind, malloc.
  repeat (cbn; rewrite Hoom). cbn. eexists _, _. split; [done|].
  destruct (fresh_sees start Hs). by constructor.
Qed.

Lemma dest_sees w s : sees w s -> exists s', cpp_demangle_data_dest s = Ok tt s'.
Proof.
  intros Hsee. unfold cpp_demangle_data_dest, mbind, comp_bind, gets. change (id s) with s.
  destruct (sees_table _ _ Hsee) as (T & H1 & H2 & _), (sees_class _ _ Hsee) as [s3 H3].
  assert (exists ss, vec_ok (output s) ss) as [ss Ho].
  { pose proof (sees_out _ _ Hsee) as Ho. destruct (e_under (v_ext w)); destruct Ho as [Ho _]; eauto. }
  unfold on_clock, vector_read_cmd_dest. cbn [mret comp_ret].
  rewrite (vector_str_dest_ok _ _ _ H3), (vector_str_dest_ok _ _ _ H2), (vector_str_dest_ok _ _ _ H1).
  rewrite (vector_str_dest_ok _ _ _ Ho). eauto.
Qed.

Context (start : Z) (body : M (option mem)) (n : nat) (Hs : 0 <= start <= zlength input).

Lemma run_from_start r w :
  does (View start (zdrop start input) [] false start_ext) body (eq r) w ->
  exists n', with_data start body n = Ok r n'.
Proof.
  intros Hb. destruct (init_sees start n Hs) as (d & n1 & E & Hd). unfold with_data. run E.
  destruct (Hb _ Hd) as (a & s & Hr & <- & Hsee). destruct (dest_sees _ _ Hsee) as [s' Hd'].
  unfold work_and_clean, mbind, comp_bind. rewrite Hr, Hd'. by eexists.
Qed.

Lemma run_with_data r w :
  does (V start (zdrop start input) [] false) body (eq r) w ->
  exists n', with_data start body n = Ok r n'.
Proof. intros Hb. apply run_from_start with (w := w). intros s H. by eapply Hb, sees_forget. Qed.

Lemma run_fails :
  fails (V start (zdrop start input) [] false) body ->
  exists n', with_data start body n = Ok None n'.
Proof.
  intros Hb. destruct (init_sees start n Hs) as (d & n1 & E & Hd). unfold with_data. run E.
  destruct (Hb _ (sees_forget _ _ _ _ _ _ _ _ _ Hd)) as (s & w & Hr & Hsee). destruct (dest_sees _ _ Hsee) as [s' Hd'].
  unfold work_and_clean, mbind, comp_bind. rewrite Hr, Hd'. by eexists.
Qed.

Lemma run_faults c :
  faults (V start (zdrop start input) [] false) body c -> with_data start body n = Crash c.
Proof.
  intros Hb. destruct (init_sees start n Hs) as (d & n1 & E & Hd). unfold with_data. run E.
  unfold work_and_clean, mbind, comp_bind. by rewrite (Hb _ (sees_forget _ _ _ _ _ _ _ _ _ Hd)).
Qed.
End Run.
