(* ===== verification/DemLexEval.v ===== *)
(** * Evaluating the lexical readers

    Numbers in decimal, with their sign and their saturation, and source
    names, from any state that shows them at the cursor. *)
From S2P Require Import Prelude CString Platform VectorStr VectorAux DemState DemQual DemLex DemReaders DemNames DemTypes Demangler DemEval.

(** ** Digits *)
Lemma isdigit_uchar c : ELFTC_ISDIGIT c = (48 <=? uchar c) && (uchar c <=? 57).
Proof. destruct c as [[] [] [] [] [] [] [] []]; reflexivity. Qed.

Lemma isdigit_range c : ELFTC_ISDIGIT c = true -> 48 <= uchar c <= 57.
Proof. rewrite isdigit_uchar. intros [?%Z.leb_le ?%Z.leb_le]%andb_true_iff. lia. Qed.

Lemma isdigit_ne c d : ELFTC_ISDIGIT c = true -> ELFTC_ISDIGIT d = false -> c <> d.
Proof. by intros H1 H2 ->; congruence. Qed.

Lemma isdigit_not_space c : ELFTC_ISDIGIT c = true -> isspace c = false.
Proof.
  intros H%isdigit_range. unfold isspace.
  rewrite (proj2 (Z.eqb_neq _ _)) by lia. cbn.
  destruct (Z.leb_spec 9 (uchar c)), (Z.leb_spec (uchar c) 13); cbn; (done || lia).
Qed.

Lemma isdigit_schar c : ELFTC_ISDIGIT c = true -> schar c = uchar c.
Proof. intros H%isdigit_range. unfold schar. by rewrite (proj2 (Z.ltb_lt _ _)) by lia. Qed.

Definition no_digit (s : bytes) : Prop :=
  match head s with Some c => ELFTC_ISDIGIT c = false | None => True end.

Lemma digit_value_nodigit c : ELFTC_ISDIGIT c = false ->
  match digit_value c with Some d => 10 <= d | None => True end.
Proof.
  rewrite isdigit_uchar. unfold digit_value. intros ->.
  destruct (Z.leb_spec 65 (uchar c)), (Z.leb_spec (uchar c) 90); cbn; try lia;
    destruct (Z.leb_spec 97 (uchar c)), (Z.leb_spec (uchar c) 122); cbn; (done || lia).
Qed.

Lemma digits_from_stop acc b s : no_digit s -> digits_from 10 acc b s = (acc, b).
Proof.
  destruct s as [|c s]; cbn; [done|]. intros H%digit_value_nodigit.
  destruct (digit_value c); [|done]. by rewrite (proj2 (Z.ltb_ge _ _)).
Qed.

Lemma dec_of_nat_Z_cons n : 0 <= n -> exists c l, dec_of_nat_Z n = c :: l /\ ELFTC_ISDIGIT c = true.
Proof.
  intros Hn. pose proof (dec_digits_isdigit (S (Z.to_nat (Z.log2 n))) n Hn) as HF.
  fold (dec_of_nat_Z n) in HF.
  destruct (dec_of_nat_Z n) as [|c l] eqn:E.
  - unfold dec_of_nat_Z in E. cbn in E. destruct (_ <? _); [done|]. by destruct (dec_digits _ _).
  - apply Forall_cons_1 in HF as [Hc _]. eauto.
Qed.

Lemma dec_of_nat_Z_digits n : 0 <= n -> Forall (fun c => ELFTC_ISDIGIT c = true) (dec_of_nat_Z n).
Proof. apply dec_digits_isdigit. Qed.

(** [strtol] on a decimal: the value, or the largest [long] with [ERANGE]. *)
Lemma strtol_decimal e v r :
  0 <= v -> no_digit r ->
  strtol e 10 (dec_of_nat_Z v ++ r) = (Z.min v LONG_MAX, v >? LONG_MAX).
Proof.
  intros Hv Hr. destruct (dec_of_nat_Z_cons v Hv) as (c & l & E & Hc).
  assert (digits_from 10 0 false (dec_of_nat_Z v ++ r) = (v, true)) as Hd.
  { rewrite digits_from_app by (apply dec_digits_decimal; done).
    rewrite dec_of_nat_Z_value by done. by apply digits_from_stop. }
  revert Hd. rewrite E. cbn [app]. intros Hd. unfold strtol. cbn [skip_spaces].
  rewrite (isdigit_not_space c Hc).
  rewrite decide_False by (by apply isdigit_ne).
  rewrite decide_False by (by apply isdigit_ne). rewrite Hd.
  replace (1 * v) with v by lia. cbn [negb].
  destruct (Z.gtb_spec v LONG_MAX); [by rewrite Z.min_r by lia|].
  rewrite (proj2 (Z.ltb_ge _ _)) by (unfold LONG_MIN; lia). by rewrite Z.min_l by lia.
Qed.

Section LexEval.
Context {P : Platform} {I : Input}.
Abbreviation any := (fun _ => True).

Lemma does_strtol {e} i v r o q :
  0 <= v -> no_digit r ->
  does (View i (dec_of_nat_Z v ++ r) o q e) (strtol_at_cur 10)
    (eq (Z.min v LONG_MAX, v >? LONG_MAX)) (View i (dec_of_nat_Z v ++ r) o q e).
Proof.
  intros Hv Hr. unfold strtol_at_cur.
  eapply does_eq; [apply does_cur|]. eapply does_eq; [apply does_text|].
  apply does_bind_ret. apply does_ret. by rewrite strtol_decimal.
Qed.

Definition sign_of (neg : bool) : bytes := if neg then ["n"%char] else [].

(** The digits, with the sign already read. *)
Lemma does_number_digits {e} i v r o q k :
  0 <= v -> no_digit r ->
  does (View i (dec_of_nat_Z v ++ r) o q e)
    (c ← peek;
     guard_ (ELFTC_ISDIGIT c);;
     '(len, errno) ← strtol_at_cur 10;
     guard_ (negb ((len =? 0) && (errno : bool)));;
     skip_while ELFTC_ISDIGIT;;
     assert_ (len >=? 0);;
     mret (len * k))
    (eq (Z.min v LONG_MAX * k)) (View (i + zlength (dec_of_nat_Z v)) r o q e).
Proof.
  intros Hv Hr. destruct (dec_of_nat_Z_cons v Hv) as (c & l & E & Hc).
  eapply does_eq; [apply does_peek|]. apply does_guard; [by rewrite E|].
  eapply does_eq; [by apply does_strtol|].
  apply does_guard.
  { destruct (Z.gtb_spec v LONG_MAX); [|by rewrite andb_false_r].
    by rewrite Z.min_r by lia. }
  eapply does_any.
  { apply does_skip_while; [by apply dec_of_nat_Z_digits | exact Hr | done]. }
  intros _. apply does_assert; [apply Z.geb_le; unfold LONG_MAX; lia|]. by apply does_ret.
Qed.

(** A number: [n] for a minus sign, then the decimal. *)
Lemma does_read_number {e} i neg v r o q :
  0 <= v -> no_digit r ->
  does (View i (sign_of neg ++ dec_of_nat_Z v ++ r) o q e) cpp_demangle_read_number
    (eq (Z.min v LONG_MAX * (if neg then -1 else 1)))
    (View (i + zlength (sign_of neg) + zlength (dec_of_nat_Z v)) r o q e).
Proof.
  intros Hv Hr. destruct (dec_of_nat_Z_cons v Hv) as (c & l & E & Hc).
  unfold cpp_demangle_read_number. eapply does_eq; [apply does_peek|].
  destruct neg; cbn [sign_of].
  - cbn [head default app from_option]. rewrite decide_True by done.
    apply does_assoc. eapply does_any; [apply does_advance1|]. intros _. apply does_bind_ret.
    by apply does_number_digits.
  - replace (head _) with (Some c) by (by rewrite E). cbn [default from_option].
    rewrite decide_False by (by apply isdigit_ne). apply does_bind_ret.
    change (zlength []) with 0. rewrite Z.add_0_r. by apply does_number_digits.
Qed.

(** ** Source names *)
Definition ANON : bytes := lit "_GLOBAL__N_1".

Lemma does_memcmp {e} i a r o q x :
  zlength a = zlength (lit x) ->
  does (View i (a ++ r) o q e) (memcmp_at_cur x) (eq (bool_decide (a = lit x))) (View i (a ++ r) o q e).
Proof.
  intros Hl s Hs. pose proof Hs as [Hc [Hp1 Hp2] Hr]. cbn in *. unfold memcmp_at_cur.
  rewrite Hc, <- Hl. rewrite zlength_app in Hp2. pose proof (zlength_nonneg r).
  rewrite (proj2 (Z.leb_le _ _)), (proj2 (Z.leb_le _ _)) by lia. cbn.
  eexists _, _. split; [done|]. split; [|done]. by rewrite Hr, ztake_app.
Qed.

(** An identifier that can stand after its length. *)
Definition ident (x : bytes) : Prop :=
  x <> [] /\ no_digit x /\ x <> ANON /\ zlength x <= LONG_MAX.

(** source-name: the length in decimal, then that many bytes *)
Definition sname (x : bytes) : bytes := dec_of_nat_Z (zlength x) ++ x.

Lemma does_sname {e} (Hoom : never_oom) i x r o q :
  ident x ->
  does (View i (sname x ++ r) o q e) cpp_demangle_read_sname any
    (View (i + zlength (sname x)) r (o ++ [x]) q (plain e)).
Proof.
  intros (Hne & Hd & Ha & Hmax). pose proof (zlength_pos _ Hne) as Hpos.
  unfold cpp_demangle_read_sname, sname.
  rewrite <- app_assoc. eapply does_eq.
  { apply (does_read_number i false); [lia|]. unfold no_digit in *. by destruct x. }
  cbn [sign_of app]. rewrite Z.min_l, Z.mul_1_r, Z.add_0_r by done.
  apply does_guard; [by rewrite (proj2 (Z.leb_gt _ _)) by lia|].
  eapply does_eq.
  { instantiate (2 := false). destruct (Z.eqb_spec (zlength x) 12) as [E|E].
    - eapply does_weaken; [by apply does_memcmp|]. intros b <-. by rewrite bool_decide_false.
    - by apply does_ret. }
  cbv iota beta. eapply does_any.
  { eapply does_eq; [apply does_cur|]. eapply does_eq; [apply does_text|].
    apply (does_push_str Hoom). exact Hpos. }
  intros _. rewrite ztake_app. eapply does_eq; [apply does_gets_out|].
  eapply does_bind; [apply (does_vec_get (View _ _ (o ++ [x]) _ (plain e)))|]. intros v Hv.
  apply does_assert.
  { rewrite (vec_ok_size _ _ Hv). cbn. rewrite zlength_app.
    pose proof (zlength_nonneg o). apply Z.ltb_lt. change (zlength [x]) with 1. lia. }
  intros s Hs. run1.
  eapply (does_any _ (View _ _ _ _ (plain e))); [|intros _|exact Hs].
  - intros s' Hs'. destruct (vector_read_cmd_find (cmd s) READ_TMPL); eexists tt, _; (split; [reflexivity|]);
      (split; [done|]); [exact Hs' | by destruct Hs'].
  - rewrite zlength_app, Z.add_assoc. apply does_advance.
Qed.
End LexEval.
