(* ===== verification/DemSeq.v ===== *)
(** * Evaluating back-references

    The sequence ids of [S<id>_] and [T<id>_], up to the entry of the table
    they stand for.  [switch] on two characters is here too. *)
From S2P Require Import Prelude CString Platform VectorStr VectorAux DemState DemQual DemLex DemReaders DemNames DemTypes Demangler DemEval DemLexEval.

(** ** Two characters at once *)
Section Hash.
Context {P : Platform} {I : Input}.

Lemma switch_miss {A} (k : Z) (cs : list (Z * A)) d :
  forallb (fun x => negb (x.1 =? k)) cs = true -> switch k cs d = d.
Proof.
  induction cs as [|[k' a] cs IH]; cbn; [done|].
  intros [H%negb_true_iff%Z.eqb_neq Hcs]%andb_true_iff.
  rewrite decide_False by congruence. auto.
Qed.

Lemma switch_below {A} (k lo : Z) (cs : list (Z * A)) d :
  forallb (fun x => lo <=? x.1) cs = true -> k < lo -> switch k cs d = d.
Proof.
  intros H Hk. apply switch_miss. revert H. induction cs as [|x cs IH]; cbn; [done|].
  intros [H%Z.leb_le Hcs]%andb_true_iff. rewrite IH, andb_true_r by done.
  apply negb_true_iff, Z.eqb_neq. lia.
Qed.

Lemma does_hash {e} i c r o q :
  does (View i (c :: r) o q e) hash_at_cur (eq (SIMPLE_HASH c (default NUL (head r)))) (View i (c :: r) o q e).
Proof.
  unfold hash_at_cur. eapply does_eq; [apply does_peek|]. eapply does_eq; [apply does_peek1|].
  by apply does_ret.
Qed.

Lemma schar_range c : -128 <= schar c <= 127.
Proof.
  unfold schar, uchar. pose proof (N_ascii_bounded c).
  destruct (Z.ltb_spec (Z.of_N (N_of_ascii c)) 128); lia.
Qed.

End Hash.

(** ** Sequence ids *)
Section SeqId.
Context {P : Platform} {I : Input}.
Abbreviation any := (fun _ => True).

(** The digits of a sequence id, [0] to [9] then [A] to [Z]. *)
Definition seq_digit (d : Z) : ascii :=
  ascii_of_N (Z.to_N (if d <? 10 then 48 + d else 55 + d)).

Definition seq_value (ds : list Z) : Z := fold_left (fun a d => a * 36 + d) ds 0.

(** [None] is the empty id of [S_]. *)
Definition seq_text (id : option (list Z)) : bytes :=
  match id with None => [] | Some ds => seq_digit <$> ds end.

Definition seq_index (id : option (list Z)) : Z :=
  match id with None => 0 | Some ds => seq_value ds + 1 end.

Definition seq_wf (id : option (list Z)) : Prop :=
  match id with
  | None => True
  | Some ds => ds <> [] /\ Forall (fun d => 0 <= d < 36) ds /\ seq_value ds < LONG_MAX
  end.

Lemma seq_digit_ok d : 0 <= d < 36 ->
  digit_value (seq_digit d) = Some d /\ isspace (seq_digit d) = false /\
  seq_digit d <> "-"%char /\ seq_digit d <> "+"%char /\ seq_digit d <> "_"%char /\
  seq_digit d <> NUL /\ 48 <= schar (seq_digit d) <= 90 /\
  negb (char_le "0" (seq_digit d) && char_le (seq_digit d) "9")
    && negb (char_le "A" (seq_digit d) && char_le (seq_digit d) "Z") = false.
Proof.
  intros Hd. assert (d ∈ seqZ 0 36) as Hin by (apply elem_of_seqZ; lia).
  clear Hd. revert d Hin. apply Forall_forall.
  let l := eval vm_compute in (seqZ 0 36) in change (seqZ 0 36) with l.
  repeat (apply Forall_cons_2; [vm_compute; split_and!; (done || discriminate)|]). apply Forall_nil_2.
Qed.

Lemma digits_from_seq ds acc b r :
  Forall (fun d => 0 <= d < 36) ds ->
  digits_from 36 acc b ((seq_digit <$> ds) ++ "_"%char :: r)
  = (fold_left (fun a d => a * 36 + d) ds acc, match ds with [] => b | _ => true end).
Proof.
  intros Hds. revert acc b. induction Hds as [|d ds Hd _ IH]; intros acc b; [done|].
  cbn [fmap list_fmap app digits_from fold_left].
  destruct (seq_digit_ok d Hd) as [-> _]. rewrite (proj2 (Z.ltb_lt _ _)) by lia.
  rewrite IH. by destruct ds.
Qed.

Lemma seq_value_nonneg ds : Forall (fun d => 0 <= d < 36) ds -> 0 <= seq_value ds.
Proof.
  intros Hds. unfold seq_value.
  assert (forall acc, 0 <= acc -> 0 <= fold_left (fun a d => a * 36 + d) ds acc) as H; [|by apply H].
  induction Hds as [|d ds Hd _ IH]; intros acc Hacc; cbn [fold_left]; [done|]. apply IH. lia.
Qed.

Lemma strtol_seq e ds r :
  ds <> [] -> Forall (fun d => 0 <= d < 36) ds -> seq_value ds < LONG_MAX ->
  strtol e 36 ((seq_digit <$> ds) ++ "_"%char :: r) = (seq_value ds, false).
Proof.
  intros Hne Hds Hmax. pose proof (digits_from_seq ds 0 false r Hds) as Hd.
  pose proof (seq_value_nonneg ds Hds). fold (seq_value ds) in Hd.
  destruct Hds as [|d ds Hd0 Hds]; [done|]. clear Hds.
  destruct (seq_digit_ok d Hd0) as (_ & Hsp & Hm & Hp & _).
  cbn [fmap list_fmap app] in *. unfold strtol. cbn [skip_spaces]. rewrite Hsp.
  rewrite decide_False by done. rewrite decide_False by done. rewrite Hd.
  replace (1 * seq_value (d :: ds)) with (seq_value (d :: ds)) by lia. cbn [negb].
  destruct (Z.gtb_spec (seq_value (d :: ds)) LONG_MAX); [lia|].
  by rewrite (proj2 (Z.ltb_ge _ _)) by (unfold LONG_MIN; lia).
Qed.

(** *** The tables while the cursor moves

    [reaches w m w1 m']: from a state that looks like [w], [m] goes on as
    [m'] from a state that looks like [w1], both tables unchanged. *)
Definition same_tables (s s' : cpp_demangle_data) : Prop :=
  subst s' = subst s /\ tmpl s' = tmpl s.

#[local] Instance same_tables_preorder : PreOrder same_tables.
Proof. split; [by intros s|]. intros s1 s2 s3 [] []. split; congruence. Qed.

Definition reaches (w : view) {A} (m : M A) (w1 : view) (m' : M A) : Prop :=
  forall s, sees w s -> exists s1, sees w1 s1 /\ same_tables s s1 /\ m s = m' s1.

Lemma reaches_eq w w1 w2 {A B} (a : A) (m : M A) (f : A -> M B) m' :
  does w m (eq a) w1 -> pres same_tables m -> reaches w1 (f a) w2 m' -> reaches w (m ≫= f) w2 m'.
Proof.
  intros Hm Hp Hf s Hs. destruct (Hm s Hs) as (? & s1 & E & <- & Hs1).
  specialize (Hp s). rewrite E in Hp. destruct (Hf s1 Hs1) as (s2 & Hs2 & Ht & E2).
  exists s2. split; [done|]. split; [by etrans|]. by rewrite (bind_Ok _ _ _ _ _ E).
Qed.

Lemma reaches_here w {A} (m : M A) : reaches w m w m.
Proof. intros s Hs. by exists s. Qed.

Lemma tables_peek_at k : pres same_tables (peek_at k).
Proof. intros s. unfold peek_at. by destruct (_ && _). Qed.
Lemma tables_peek : pres same_tables peek.
Proof. apply tables_peek_at. Qed.
Lemma tables_advance k : pres same_tables (advance k).
Proof. intros s. unfold advance. by destruct (_ <=? _). Qed.
#[local] Hint Resolve tables_peek_at tables_peek tables_advance : pres.

Lemma tables_skip_while p : pres same_tables (skip_while p).
Proof. unfold skip_while. pres_auto. Qed.
Lemma tables_guard_more : pres same_tables guard_more.
Proof. unfold guard_more. pres_auto. Qed.
Lemma tables_strtol b : pres same_tables (strtol_at_cur b).
Proof. unfold strtol_at_cur, text_at. pres_auto. Qed.
Lemma tables_hash : pres same_tables hash_at_cur.
Proof. unfold hash_at_cur. pres_auto. Qed.

Lemma does_unit w w' (m : M unit) : does w m any w' -> does w m (eq tt) w'.
Proof. intros H. eapply does_weaken; [exact H|]. by intros []. Qed.

(** Up to the ['_'] that ends the id. *)
Lemma reaches_seq_id {e} id i r o q get :
  seq_wf id ->
  reaches (View i (seq_text id ++ "_"%char :: r) o q e) (read_seq_id get)
    (View (i + zlength (seq_text id)) ("_"%char :: r) o q e) (get (seq_index id)).
Proof.
  intros Hid. unfold read_seq_id. destruct id as [ds|]; cbn [seq_text seq_index] in *.
  2: { change (zlength []) with 0. rewrite Z.add_0_r.
       eapply reaches_eq; [apply does_peek_cons | apply tables_peek |].
       rewrite decide_True by done. apply reaches_here. }
  destruct Hid as (Hne & Hds & Hmax). pose proof (seq_value_nonneg ds Hds) as Hpos.
  eapply reaches_eq; [apply does_peek | apply tables_peek |]. rewrite decide_False.
  2: { destruct ds as [|d ds]; [done|]. apply Forall_cons_1 in Hds as [Hd _].
       apply (seq_digit_ok d Hd). }
  eapply (reaches_eq _ _ _ (seq_value ds, false)); [|apply tables_strtol|].
  { unfold strtol_at_cur. eapply does_eq; [apply does_cur|]. eapply does_eq; [apply does_text|].
    apply does_bind_ret. apply does_ret. by rewrite strtol_seq. }
  cbv beta iota. rewrite andb_false_r. cbn [negb].
  eapply (reaches_eq _ _ _ tt); [by apply does_ret | by apply pres_ret, _ |].
  rewrite (proj2 (Z.eqb_neq _ _)) by lia.
  eapply (reaches_eq _ _ _ (seq_value ds + 1)); [by apply does_ret | by apply pres_ret, _ |].
  eapply (reaches_eq _ _ _ tt); [|apply tables_skip_while|].
  { apply does_unit, (does_skip_to _ i (seq_digit <$> ds) "_"%char r); [|done].
    apply Forall_fmap. eapply Forall_impl; [exact Hds|]. intros d Hd. cbn.
    apply negb_true_iff, bool_decide_eq_false. apply (seq_digit_ok d Hd). }
  rewrite (proj2 (Z.gtb_lt _ _)) by lia.
  eapply (reaches_eq _ _ _ tt); [by apply does_ret | by apply pres_ret, _ |]. apply reaches_here.
Qed.

(** An entry of a table, behind its id. *)
Lemma entry_pushed {e} (Hoom : never_oom) r0 i r o q s idx v c b :
  r0 = VSubst \/ r0 = VTmpl ->
  sees (View i ("_"%char :: r) o q e) s -> vec_lookup r0 s = Some v ->
  0 <= idx -> container v !! Z.to_nat idx = Some c -> cval c = Bytes b -> b <> [] ->
  exists s', push_entry r0 idx s = Ok tt s' /\ sees (View (i + 1) r (o ++ [b]) q (plain e)) s'.
Proof.
  intros Hr Hs Hv Hidx Hc Hb Hne. unfold push_entry, vec_get. unfold mbind at 1, comp_bind at 1.
  rewrite Hv. assert (idx < size v).
  { apply lookup_lt_Some in Hc. unfold size, zlength. lia. }
  rewrite bind_guard by (apply negb_true_iff, Z.leb_gt; lia). rewrite Hc, Hb. cbn [read_cstr].
  rewrite bind_ret. pose proof (zlength_pos b Hne).
  rewrite bind_guard by (apply negb_true_iff, Z.eqb_neq; lia).
  assert (does (View i ("_"%char :: r) o q e) (cpp_demangle_push_str (Bytes b) (zlength b);; advance 1)
    any (View (i + 1) r (o ++ [b]) q (plain e))) as Hd.
  { eapply does_any; [by apply (does_push_str Hoom) | intros _].
    rewrite ztake_zlength. apply does_advance1. }
  destruct (Hd s Hs) as ([] & s' & E & _ & Hs'). eauto.
Qed.

(** The readers, up to the entry *)
Lemma reaches_subst {R : Readers} {e} id i r o q :
  seq_wf id ->
  reaches (View i ("S"%char :: seq_text id ++ "_"%char :: r) o q e) cpp_demangle_read_subst
    (View (i + 1 + zlength (seq_text id)) ("_"%char :: r) o q e) (cpp_demangle_get_subst (seq_index id)).
Proof.
  intros Hid.
  assert (exists c l, seq_text id ++ "_"%char :: r = c :: l /\ c <> NUL /\ 48 <= schar c <= 95 /\
    negb (char_le "0" c && char_le c "9") && negb (char_le "A" c && char_le c "Z")
      && negb (bool_decide (c = "_"%char)) = false) as (x & l & E & Hx & Hrange & Hcase).
  { destruct id as [ds|]; cbn [seq_text].
    - destruct Hid as (Hds & HF & _). destruct HF as [|d ds Hd HF]; [done|].
      destruct (seq_digit_ok d Hd) as (_ & _ & _ & _ & _ & ? & ? & Hcase).
      eexists _, _. split; [done|]. rewrite Hcase. split_and!; (done || lia).
    - eexists _, _. split; [done|]. by vm_compute. }
  unfold cpp_demangle_read_subst.
  eapply (reaches_eq _ _ _ tt); [by apply does_unit, does_guard_more | apply tables_guard_more |].
  eapply reaches_eq; [apply does_hash | apply tables_hash |].
  rewrite E. rewrite (switch_below _ 5409); [|done|].
  2: { change (64 * 83 + schar x < 5409). lia. }
  eapply (reaches_eq _ _ _ tt); [apply does_unit, does_advance1 | apply tables_advance |].
  eapply (reaches_eq _ _ _ tt); [by apply does_unit, does_guard_more | apply tables_guard_more |].
  eapply reaches_eq; [apply does_peek_cons | apply tables_peek |].
  rewrite Hcase, <- E. by apply reaches_seq_id.
Qed.

Lemma reaches_tmpl_param {e} id i r o q :
  seq_wf id ->
  reaches (View i ("T"%char :: seq_text id ++ "_"%char :: r) o q e) cpp_demangle_read_tmpl_param
    (View (i + 1 + zlength (seq_text id)) ("_"%char :: r) o q e) (cpp_demangle_get_tmpl_param (seq_index id)).
Proof.
  intros Hid. unfold cpp_demangle_read_tmpl_param.
  eapply reaches_eq; [apply does_peek_cons | apply tables_peek |].
  eapply (reaches_eq _ _ _ tt); [by apply does_ret | by apply pres_ret, _ |].
  eapply (reaches_eq _ _ _ tt); [apply does_unit, does_advance1 | apply tables_advance |].
  by apply reaches_seq_id.
Qed.

Lemma seq_index_nonneg id : seq_wf id -> 0 <= seq_index id.
Proof.
  destruct id as [ds|]; cbn; [|done]. intros (_ & HF & _). pose proof (seq_value_nonneg ds HF). lia.
Qed.

(** With the tables in the view: [m] is the reader up to the entry. *)
Lemma does_entry (Hoom : never_oom) r0 (m : M unit) id i j r o q T d b u x :
  r0 = VSubst \/ r0 = VTmpl ->
  seq_wf id -> table r0 T !! Z.to_nat (seq_index id) = Some x -> x <> [] ->
  reaches (View i (j ++ seq_text id ++ "_"%char :: r) o q (Ext (Some T) d b u)) m
    (View (i + 1 + zlength (seq_text id)) ("_"%char :: r) o q (Ext (Some T) d b u)) (push_entry r0 (seq_index id)) ->
  does (View i (j ++ seq_text id ++ "_"%char :: r) o q (Ext (Some T) d b u)) m any
    (View (i + 2 + zlength (seq_text id)) r (o ++ [x]) q (Ext (Some T) d false u)).
Proof.
  intros Hr Hid Hx Hne Hreach s Hs. destruct (Hreach s Hs) as (s1 & Hs1 & _ & ->).
  replace (i + 2 + zlength (seq_text id)) with (i + 1 + zlength (seq_text id) + 1) by lia.
  destruct (sees_tables r0 _ s1 Hr Hs1) as (v & T' & Hv & (_ & _ & Hcells) & HT & _).
  rewrite <- (HT T eq_refl) in *.
  assert (exists c, container v !! Z.to_nat (seq_index id) = Some c /\ cval c = Bytes x) as (c & Hc & Hb).
  { assert ((cval <$> container v) !! Z.to_nat (seq_index id) = Some (Bytes x)) as Hl.
    { rewrite Hcells. by rewrite list_lookup_fmap, Hx. }
    rewrite list_lookup_fmap in Hl. apply fmap_Some in Hl as (c & ? & ?). eauto. }
  destruct (entry_pushed Hoom r0 _ _ _ _ _ _ _ _ x Hr Hs1 Hv (seq_index_nonneg id Hid) Hc Hb Hne) as (s' & E & Hs').
  exists tt, s'. split; [exact E|]. by split.
Qed.

Lemma does_subst (Hoom : never_oom) {R : Readers} id i r o q T d b u x :
  seq_wf id -> T.1 !! Z.to_nat (seq_index id) = Some x -> x <> [] ->
  does (View i ("S"%char :: seq_text id ++ "_"%char :: r) o q (Ext (Some T) d b u)) cpp_demangle_read_subst any
    (View (i + 2 + zlength (seq_text id)) r (o ++ [x]) q (Ext (Some T) d false u)).
Proof. intros Hid Hx Hne. apply (does_entry Hoom VSubst _ id i ["S"%char]); [by left | done..|]. by apply reaches_subst. Qed.

Lemma does_tmpl_param (Hoom : never_oom) id i r o q T d b u x :
  seq_wf id -> T.2 !! Z.to_nat (seq_index id) = Some x -> x <> [] ->
  does (View i ("T"%char :: seq_text id ++ "_"%char :: r) o q (Ext (Some T) d b u)) cpp_demangle_read_tmpl_param any
    (View (i + 2 + zlength (seq_text id)) r (o ++ [x]) q (Ext (Some T) d false u)).
Proof. intros Hid Hx Hne. apply (does_entry Hoom VTmpl _ id i ["T"%char]); [by right | done..|]. by apply reaches_tmpl_param. Qed.
End SeqId.
