(* ===== verification/Mangling.v ===== *)
(** * Declarations, their mangling and their text

    A fragment of the Itanium mangling as data: names, nested and with
    template arguments, built-in and class types, the qualifiers in front of
    them, template parameters, and back-references to what was mangled before.  [mangle_*] writes
    the mangled text; [*_run] the C++ text, as the pieces the demangler writes,
    together with the dictionaries behind it, of substitution candidates and of
    template arguments.  The
    theorems of [RoundtripTheorems] say that the demangler takes one to the
    other. *)
From S2P Require Import Prelude CString Platform VectorStr VectorAux DemState DemQual DemLex DemReaders DemNames DemTypes Demangler DemEval DemLexEval DemSeq.

(** ** Data *)
Inductive qual := QPtr | QRef | QRRef | QConst | QVolatile | QRestrict | QComplex | QImaginary.

Definition q_char (q : qual) : ascii :=
  match q with
  | QPtr => "P" | QRef => "R" | QRRef => "O" | QConst => "K" | QVolatile => "V"
  | QRestrict => "r" | QComplex => "C" | QImaginary => "G"
  end%char.

Definition q_tag (q : qual) : type_qualifier :=
  match q with
  | QPtr => TYPE_PTR | QRef => TYPE_REF | QRRef => TYPE_RREF | QConst => TYPE_CST
  | QVolatile => TYPE_VAT | QRestrict => TYPE_RST | QComplex => TYPE_CMX | QImaginary => TYPE_IMG
  end.

Definition q_text (q : qual) : string :=
  match q with
  | QPtr => "*" | QRef => "&" | QRRef => "&&" | QConst => " const" | QVolatile => " volatile"
  | QRestrict => " restrict" | QComplex => " complex" | QImaginary => " imaginary"
  end.

Definition is_ref (q : qual) : bool := match q with QRef | QRRef => true | _ => false end.

(** No reference directly to a reference. *)
Fixpoint refs_ok (pending : bool) (qs : list qual) : bool :=
  match qs with
  | [] => true
  | q :: qs => negb (is_ref q && pending) && refs_ok (is_ref q) qs
  end.

(** The id of a back-reference, as in [DemSeq] *)
Abbreviation seqid := (option (list Z)).

(** No template arguments are the empty list. *)
Inductive ty := Ty (qs : list qual) (b : base)
with base :=
  | Builtin (c : ascii)            (** one letter *)
  | BuiltinD (c : ascii)           (** [D] and a letter *)
  | Void
  | Class (c : component) (cs : list component)   (** [c], or [c::..] *)
  | Back (id : seqid)                   (** a candidate *)
  | Param (id : seqid)                  (** a template parameter *)
  | BackInst (id : seqid) (args : list ty)   (** a candidate that is not nested, and arguments *)
  | Under (id : seqid) (args : list ty) (cs : list component)  (** a nested name: a candidate, arguments, [::..] *)
with component := Comp (x : bytes) (args : list ty).

Definition quals (t : ty) : list qual := match t with Ty qs _ => qs end.
Definition base_of (t : ty) : base := match t with Ty _ b => b end.
Definition c_name (c : component) : bytes := match c with Comp x _ => x end.
Definition c_args (c : component) : list ty := match c with Comp _ args => args end.
Definition plain_comp (x : bytes) : component := Comp x [].

Section Induction.
Context (Pt : ty -> Prop) (Pb : base -> Prop) (Pc : component -> Prop).
Context (HTy : forall qs b, Pb b -> Pt (Ty qs b)).
Context (HBuiltin : forall c, Pb (Builtin c)) (HBuiltinD : forall c, Pb (BuiltinD c)) (HVoid : Pb Void).
Context (HClass : forall c cs, Pc c -> Forall Pc cs -> Pb (Class c cs)) (HBack : forall id, Pb (Back id)).
Context (HParam : forall id, Pb (Param id)).
Context (HBackInst : forall id args, Forall Pt args -> Pb (BackInst id args)).
Context (HUnder : forall id args cs, Forall Pt args -> Forall Pc cs -> Pb (Under id args cs)).
Context (HComp : forall x args, Forall Pt args -> Pc (Comp x args)).

Definition all {A} (Q : A -> Prop) (f : forall a, Q a) : forall l, Forall Q l :=
  fix go l := match l with [] => Forall_nil_2 Q | a :: l => Forall_cons_2 Q a l (f a) (go l) end.

Fixpoint ty_ind' (t : ty) : Pt t :=
  match t with Ty qs b => HTy qs b (base_ind' b) end
with base_ind' (b : base) : Pb b :=
  match b with
  | Builtin c => HBuiltin c
  | BuiltinD c => HBuiltinD c
  | Void => HVoid
  | Class c cs => HClass c cs (comp_ind' c) (all Pc comp_ind' cs)
  | Back id => HBack id
  | Param id => HParam id
  | BackInst id args => HBackInst id args (all Pt ty_ind' args)
  | Under id args cs => HUnder id args cs (all Pt ty_ind' args) (all Pc comp_ind' cs)
  end
with comp_ind' (c : component) : Pc c :=
  match c with Comp x args => HComp x args (all Pt ty_ind' args) end.

Lemma syntax_ind : (forall t, Pt t) /\ (forall b, Pb b) /\ (forall c, Pc c).
Proof. exact (conj ty_ind' (conj base_ind' comp_ind')). Qed.
End Induction.

(** ** Mangled text *)
Definition wrap_args (ms : list bytes) : bytes :=
  match ms with [] => [] | _ => "I"%char :: concat ms ++ ["E"%char] end.

Definition mangle_back (id : seqid) : bytes := "S"%char :: seq_text id ++ ["_"%char].
Definition mangle_param (id : seqid) : bytes := "T"%char :: seq_text id ++ ["_"%char].

Fixpoint mangle_ty (t : ty) : bytes :=
  match t with Ty qs b => (q_char <$> qs) ++ mangle_base b end
with mangle_base (b : base) : bytes :=
  match b with
  | Builtin c => [c]
  | BuiltinD c => ["D"%char; c]
  | Void => ["v"%char]
  | Class c [] => mangle_comp c
  | Class c cs => "N"%char :: mangle_comp c ++ concat (map mangle_comp cs) ++ ["E"%char]
  | Back id => mangle_back id
  | Param id => mangle_param id
  | BackInst id args => mangle_back id ++ wrap_args (map mangle_ty args)
  | Under id args cs =>
      "N"%char :: mangle_back id ++ wrap_args (map mangle_ty args) ++ concat (map mangle_comp cs) ++ ["E"%char]
  end
with mangle_comp (c : component) : bytes :=
  match c with Comp x args => sname x ++ wrap_args (map mangle_ty args) end.

Definition mangle_args (args : list ty) : bytes := wrap_args (map mangle_ty args).
Definition mangle_comps (cs : list component) : bytes := concat (map mangle_comp cs).
Definition mangle_name (c : component) (cs : list component) : bytes := mangle_base (Class c cs).

(** ** C++ text and candidates

    [add] enters a candidate in a dictionary and [get] looks one up, [arg] and
    [par] do so for template arguments: the demangler has its two tables, the
    ABI a dictionary of its own. *)
Definition nth_text (l : list bytes) (id : seqid) : bytes := default [] (l !! Z.to_nat (seq_index id)).
Definition entry (T : tables) (id : seqid) : bytes := nth_text T.1 id.
Definition param (T : tables) (id : seqid) : bytes := nth_text T.2 id.

Definition qual_chunks (qs : list qual) : list bytes := rev ((fun q => lit (q_text q)) <$> qs).

(** A name that is not nested and contains [operator] is not entered. *)
Definition op_like (x : bytes) : bool := (zlength x >? 8) && strstr x (lit "operator").

Definition is_builtin (b : base) : bool := match b with Builtin _ | BuiltinD _ | Void => true | _ => false end.

(** The qualified types, from the inside, [acc] the text so far; a run of
    [const], [volatile] and [restrict] counts once. *)
Definition q_is_cv (q : qual) : bool := match q with QConst | QVolatile | QRestrict => true | _ => false end.

Fixpoint q_cands (acc : bytes) (qs : list qual) : list bytes :=
  match qs with
  | [] => []
  | q :: qs =>
      let acc := acc ++ lit (q_text q) in
      if q_is_cv q && match qs with q' :: _ => q_is_cv q' | [] => false end
      then q_cands acc qs else acc :: q_cands acc qs
  end.

Section Run.
Context {D : Type} (add : bytes -> D -> D) (get : D -> seqid -> bytes).
Context (arg : bytes -> D -> D) (par : D -> seqid -> bytes).

Definition adds (xs : list bytes) (d : D) : D := fold_left (fun d x => add x d) xs d.

(** The pieces, and the dictionary behind them *)
Abbreviation out := (list bytes * D)%type.

Section Lists.
Context (run : D -> ty -> out).

(** [, ..] for each type, with the dictionary that those before it leave *)
Fixpoint tail_run (d : D) (ts : list ty) : out :=
  match ts with
  | [] => ([], d)
  | t :: ts => let a := run d t in let b := tail_run a.2 ts in (lit ", " :: a.1 ++ b.1, b.2)
  end.

(** A type as a template argument *)
Definition arg_run (d : D) (t : ty) : out := let a := run d t in (a.1, arg (concat a.1) a.2).
End Lists.

Section Args.
Context (run : D -> ty -> out) (crun : bytes -> D -> component -> out).

(** Template arguments, and as those of the name [pre], which they complete *)
Definition args_run (d : D) (args : list ty) : out :=
  match args with
  | [] => ([], d)
  | t :: ts =>
      let a := arg_run run d t in let b := tail_run (arg_run run) a.2 ts in
      (lit "<" :: a.1 ++ b.1 ++ [lit ">"], b.2)
  end.

Definition inst_run (pre : bytes) (d : D) (args : list ty) : out :=
  match args with
  | [] => ([], d)
  | _ => let a := args_run d args in (a.1, add (pre ++ concat a.1) a.2)
  end.

(** [::..], behind [pre] *)
Fixpoint scope_run (pre : bytes) (d : D) (cs : list component) : out :=
  match cs with
  | [] => ([], d)
  | c :: cs =>
      let pre := pre ++ lit "::" in
      let a := crun pre d c in let b := scope_run (pre ++ concat a.1) a.2 cs in (lit "::" :: a.1 ++ b.1, b.2)
  end.
End Args.

Fixpoint ty_run (d : D) (t : ty) {struct t} : out :=
  match t with
  | Ty qs b =>
      let a := base_run d b in
      (a.1 ++ qual_chunks qs,
       adds ((if is_builtin b then [] else [concat a.1]) ++ q_cands (concat a.1) (rev qs)) a.2)
  end
with base_run (d : D) (b : base) {struct b} : out :=
  match b with
  | Builtin c => ([lit (default "" (builtin_type c))], d)
  | BuiltinD c => ([lit (default "" (builtin_D_type c))], d)
  | Void => ([lit "void"], d)
  | Class c cs =>
      if match cs with [] => op_like (c_name c) | _ => false end then ([c_name c], d) else
      let a := comp_run [] d c in
      let b := scope_run comp_run (concat a.1) a.2 cs in (a.1 ++ b.1, b.2)
  | Back id => ([get d id], d)
  | Param id => ([par d id], d)
  | BackInst id args =>
      let pre := get d id in
      let a := inst_run ty_run pre (add pre d) args in (pre :: a.1, a.2)
  | Under id args cs =>
      let pre := get d id in
      let a := inst_run ty_run pre (add pre d) args in
      let b := scope_run comp_run (pre ++ concat a.1) a.2 cs in (pre :: a.1 ++ b.1, b.2)
  end
with comp_run (pre : bytes) (d : D) (c : component) {struct c} : out :=
  match c with
  | Comp x args =>
      let a := inst_run ty_run (pre ++ x) (add (pre ++ x) d) args in (x :: a.1, a.2)
  end.

(** The equations *)
Lemma ty_run_eq d qs b :
  ty_run d (Ty qs b) =
    let a := base_run d b in
    (a.1 ++ qual_chunks qs, adds ((if is_builtin b then [] else [concat a.1]) ++ q_cands (concat a.1) (rev qs)) a.2).
Proof. done. Qed.

Lemma base_run_Class d c cs :
  base_run d (Class c cs) =
    if match cs with [] => op_like (c_name c) | _ => false end then ([c_name c], d) else
    let a := comp_run [] d c in
    let b := scope_run comp_run (concat a.1) a.2 cs in (a.1 ++ b.1, b.2).
Proof. done. Qed.

Lemma base_run_BackInst d id args :
  base_run d (BackInst id args) =
    let pre := get d id in
    let a := inst_run ty_run pre (add pre d) args in (pre :: a.1, a.2).
Proof. done. Qed.

Lemma base_run_Under d id args cs :
  base_run d (Under id args cs) =
    let pre := get d id in
    let a := inst_run ty_run pre (add pre d) args in
    let b := scope_run comp_run (pre ++ concat a.1) a.2 cs in (pre :: a.1 ++ b.1, b.2).
Proof. done. Qed.

Lemma comp_run_eq pre d x args :
  comp_run pre d (Comp x args) =
    let a := inst_run ty_run (pre ++ x) (add (pre ++ x) d) args in (x :: a.1, a.2).
Proof. done. Qed.
End Run.

(** The demangler's own dictionary: its tables *)
Abbreviation d_ty := (ty_run cand_add entry arg_add param).
Abbreviation d_base := (base_run cand_add entry arg_add param).
Abbreviation d_comp := (comp_run cand_add entry arg_add param).
Abbreviation d_arg := (arg_run arg_add d_ty).
Abbreviation d_args := (args_run arg_add d_ty).
Abbreviation d_inst := (inst_run cand_add arg_add d_ty).
Abbreviation d_scope := (scope_run d_comp).

Definition ty_chunks (T : tables) (t : ty) : list bytes := (d_ty T t).1.
Definition ty_table (T : tables) (t : ty) : tables := (d_ty T t).2.
Definition print_ty (T : tables) (t : ty) : bytes := concat (ty_chunks T t).
Definition arg_table (T : tables) (t : ty) : tables := arg_add (print_ty T t) (ty_table T t).
Definition tail_chunks (T : tables) (ts : list ty) : list bytes := (tail_run d_ty T ts).1.

Lemma cand_adds_app l1 l2 T : cand_adds (l1 ++ l2) T = cand_adds l2 (cand_adds l1 T).
Proof. apply fold_left_app. Qed.

(** ** Well-formedness *)

(** The turns the loop over the components of a name takes, and how many it
    makes at most *)
Definition has_args (args : list ty) : bool := match args with [] => false | _ => true end.
Definition turns (cs : list component) : nat := sum_list_with (fun c => if has_args (c_args c) then 2 else 1)%nat cs.
Definition MAX_COMPONENTS : nat := S MORE_TRIES.

#[export] Instance no_digit_dec x : Decision (no_digit x).
Proof. unfold no_digit. destruct (head x); apply _. Defined.
#[export] Instance ident_dec x : Decision (ident x).
Proof. unfold ident. apply _. Defined.
#[export] Instance seq_wf_dec id : Decision (seq_wf id).
Proof. destruct id; unfold seq_wf; apply _. Defined.

Definition in_table (l : list bytes) (id : seqid) : bool := bool_decide (seq_wf id /\ nth_text l id <> []).

Section Ok.
Context (next : tables -> ty -> tables) (tok : tables -> ty -> bool) (cok : bytes -> tables -> component -> bool).

Fixpoint types_ok (T : tables) (ts : list ty) : bool :=
  match ts with
  | [] => true
  | t :: ts => tok T t && types_ok (next T t) ts
  end.

Fixpoint scope_ok (pre : bytes) (T : tables) (cs : list component) : bool :=
  match cs with
  | [] => true
  | c :: cs =>
      let pre := pre ++ lit "::" in
      let a := d_comp pre T c in cok pre T c && scope_ok (pre ++ concat a.1) a.2 cs
  end.
End Ok.

Definition args_ok (tok : tables -> ty -> bool) (T : tables) (args : list ty) : bool :=
  types_ok arg_table tok T args && (length args <=? MAX_COMPONENTS)%nat.

Fixpoint ty_ok (T : tables) (t : ty) {struct t} : bool :=
  match t with Ty qs b => base_ok T b && refs_ok false qs end
with base_ok (T : tables) (b : base) {struct b} : bool :=
  match b with
  | Builtin c => bool_decide (is_Some (builtin_type c))
  | BuiltinD c => bool_decide (is_Some (builtin_D_type c))
  | Void => true
  | Class c cs =>
      let a := d_comp [] T c in
      negb (has_args (c_args c) && op_like (c_name c)) && comp_ok [] T c
      && scope_ok comp_ok (concat a.1) a.2 cs && (turns (c :: cs) <=? MAX_COMPONENTS)%nat
  | Back id => in_table T.1 id
  | Param id => in_table T.2 id
  | BackInst _ _ => false   (** read wrong: [TestCases] *)
  | Under id args cs =>
      let pre := entry T id in
      let a := d_inst pre (cand_add pre T) args in
      in_table T.1 id && args_ok ty_ok (cand_add pre T) args && scope_ok comp_ok (pre ++ concat a.1) a.2 cs
      && (has_args args || negb (bool_decide (cs = []))) && (turns (plain_comp pre :: cs) + (if has_args args then 1 else 0) <=? MAX_COMPONENTS)%nat
  end
with comp_ok (pre : bytes) (T : tables) (c : component) {struct c} : bool :=
  match c with
  | Comp x args => bool_decide (ident x) && args_ok ty_ok (cand_add (pre ++ x) T) args
  end.

(** How deep template arguments are nested *)
Fixpoint ty_depth (t : ty) : nat :=
  match t with Ty _ b => base_depth b end
with base_depth (b : base) : nat :=
  match b with
  | Class c cs => comp_depth c `max` list_max (map comp_depth cs)
  | BackInst _ args => list_max (map (fun t => S (ty_depth t)) args)
  | Under _ args cs => list_max (map (fun t => S (ty_depth t)) args) `max` list_max (map comp_depth cs)
  | _ => 0
  end
with comp_depth (c : component) : nat :=
  match c with Comp _ args => list_max (map (fun t => S (ty_depth t)) args) end.

(** Whether the last thing written closes a template argument list *)
Fixpoint scope_tmpl (b : bool) (cs : list component) : bool :=
  match cs with [] => b | c :: cs => scope_tmpl (has_args (c_args c)) cs end.

Definition base_tmpl (b : base) : bool :=
  match b with
  | Class c cs => scope_tmpl (has_args (c_args c)) cs
  | Under _ args cs => scope_tmpl (has_args args) cs
  | _ => false
  end.

Definition ty_tmpl (t : ty) : bool := match quals t with [] => base_tmpl (base_of t) | _ => false end.

(** ** First characters *)

(** What may follow a name: not the template arguments. *)
Definition no_args (r : bytes) : Prop := head r <> Some "I"%char.

Lemma no_args_peek r : no_args r -> default NUL (head r) <> "I"%char.
Proof. intros Hr. destruct r as [|c r]; cbn; [done|]. intros ->. by apply Hr. Qed.

Lemma sname_head x : exists c l, sname x = c :: l /\ ELFTC_ISDIGIT c = true.
Proof.
  unfold sname. destruct (dec_of_nat_Z_cons (zlength x)) as (c & l & E & Hc); [done|].
  rewrite E. cbn. eauto.
Qed.

Lemma digit_not_NUL c : ELFTC_ISDIGIT c = true -> c <> NUL.
Proof. intros H. by apply isdigit_ne. Qed.

Lemma mangle_comp_head c : exists a l, mangle_comp c = a :: l /\ ELFTC_ISDIGIT a = true.
Proof.
  destruct c as [x args]. destruct (sname_head x) as (a & l & E & Ha). cbn [mangle_comp]. rewrite E. cbn. eauto.
Qed.

Lemma mangle_name_head c cs :
  exists a l, mangle_name c cs = a :: l /\ (ELFTC_ISDIGIT a = true \/ a = "N"%char).
Proof.
  destruct cs as [|c' cs]; unfold mangle_name; cbn [mangle_base]; [|eauto 10].
  destruct (mangle_comp_head c) as (a & l & E & Ha). eauto.
Qed.

(** The characters that no type starts with *)
Definition starts_type (c : ascii) : Prop :=
  c <> "I"%char /\ c <> "E"%char /\ c <> "L"%char /\ c <> "X"%char /\ c <> NUL /\ c <> "_"%char /\ c <> "@"%char.

Lemma mangle_ty_head T t : ty_ok T t = true -> exists c l, mangle_ty t = c :: l /\ starts_type c.
Proof.
  destruct t as [qs b]. cbn [ty_ok mangle_ty]. intros [Hb _]%andb_true_iff.
  destruct qs as [|x qs]; [|eexists _, _; split; [done|]; by destruct x].
  cbn [fmap list_fmap app]. destruct b as [c|c| |c cs|id|id|id args|id args cs].
  - exists c, []. split; [done|]. apply bool_decide_eq_true in Hb. unfold starts_type.
    destruct Hb as [s Hs]. split_and!; by intros ->.
  - by eexists _, _.
  - by eexists _, _.
  - destruct (mangle_name_head c cs) as (a & l & E & Ha). exists a, l. split; [exact E|]. unfold starts_type.
    destruct Ha as [Ha| ->]; [|done]. split_and!; by apply isdigit_ne.
  - by eexists _, _.
  - by eexists _, _.
  - done.
  - by eexists _, _.
Qed.

Lemma mangle_ty_no_args T t r : ty_ok T t = true -> no_args (mangle_ty t ++ r).
Proof. intros (c & l & -> & Hc & _)%mangle_ty_head. unfold no_args. cbn. congruence. Qed.

(** ** Sizes *)
Lemma mangle_ty_pos t : 1 <= zlength (mangle_ty t).
Proof.
  destruct t as [qs b]. cbn [mangle_ty]. rewrite zlength_app. pose proof (zlength_nonneg (q_char <$> qs)).
  assert (mangle_base b <> []) as Hne; [|pose proof (zlength_pos _ Hne); lia].
  destruct b as [| | |c cs| | | |]; try done.
  destruct (mangle_name_head c cs) as (a & l & E & _). unfold mangle_name in E. by rewrite E.
Qed.

Lemma mangle_args_length args :
  zlength (mangle_args args) = (if has_args args then 2 else 0) + zlength (concat (map mangle_ty args)).
Proof.
  destruct args as [|t ts]; [done|]. unfold mangle_args, wrap_args. cbn [map has_args].
  rewrite zlength_cons, zlength_app. change (zlength ["E"%char]) with 1. lia.
Qed.

(** The pieces of a text against the characters of the mangling *)
Section Pieces.
Abbreviation small_ty := (fun t => forall T, zlength (d_ty T t).1 + 1 <= 2 * zlength (mangle_ty t)).
Abbreviation small_comp := (fun c => forall pre T, zlength (d_comp pre T c).1 + 1 <= 2 * zlength (mangle_comp c)).

Lemma small_tail run ts : Forall (fun t => forall T : tables, zlength (run T t).1 + 1 <= 2 * zlength (mangle_ty t)) ts ->
  forall T, zlength (tail_run run T ts).1 <= 2 * zlength (concat (map mangle_ty ts)).
Proof.
  induction 1 as [|t ts Ht _ IH]; intros T; [done|]. cbn [tail_run map concat fst].
  rewrite zlength_cons, !zlength_app. specialize (Ht T). specialize (IH (run T t).2). lia.
Qed.

Lemma small_inst args pre T : Forall small_ty args -> zlength (d_inst pre T args).1 <= 2 * zlength (mangle_args args).
Proof.
  intros Hall. rewrite mangle_args_length. destruct args as [|t ts]; [done|].
  apply Forall_cons_1 in Hall as [Ht Hts]. cbn [inst_run args_run has_args map concat fst].
  rewrite zlength_cons, !zlength_app. change (zlength [lit ">"]) with 1.
  specialize (Ht T). pose proof (small_tail d_arg ts Hts (d_arg T t).2). cbn [arg_run fst] in *. lia.
Qed.

Lemma small_scope cs : Forall small_comp cs -> forall pre T, zlength (d_scope pre T cs).1 <= 2 * zlength (mangle_comps cs).
Proof.
  unfold mangle_comps. induction 1 as [|c cs Hc _ IH]; intros pre T; [done|]. cbn [scope_run map concat fst].
  rewrite zlength_cons, !zlength_app. specialize (Hc (pre ++ lit "::") T).
  specialize (IH ((pre ++ lit "::") ++ concat (d_comp (pre ++ lit "::") T c).1) (d_comp (pre ++ lit "::") T c).2). lia.
Qed.

Lemma pieces_bound :
  (forall t, small_ty t) /\
  (forall b T, zlength (d_base T b).1 + 1 <= 2 * zlength (mangle_base b)) /\
  (forall c, small_comp c).
Proof.
  apply (syntax_ind small_ty (fun b => forall T, zlength (d_base T b).1 + 1 <= 2 * zlength (mangle_base b)) small_comp);
    [|by intros..| |intros id T |intros id T | | |].
  - intros qs b Hb T. rewrite ty_run_eq. cbn [mangle_ty fst]. rewrite !zlength_app. specialize (Hb T).
    assert (zlength (qual_chunks qs) = zlength (q_char <$> qs)) as ->.
    { unfold qual_chunks, zlength. by rewrite length_rev, !length_fmap. }
    pose proof (zlength_nonneg (q_char <$> qs)). lia.
  - intros c cs Hc Hcs T. rewrite base_run_Class. destruct (mangle_comp_head c) as (a & l & E & _).
    assert (1 <= zlength (mangle_comp c)) as Hpos by (rewrite E, zlength_cons; pose proof (zlength_nonneg l); lia).
    destruct (match cs with [] => _ | _ => _ end) eqn:Hop.
    + destruct cs; [|done]. change (zlength ([c_name c], T).1) with 1. cbn [mangle_base]. lia.
    + cbn [fst]. rewrite zlength_app. specialize (Hc [] T).
      pose proof (small_scope cs Hcs (concat (d_comp [] T c).1) (d_comp [] T c).2) as Hs.
      unfold mangle_comps in Hs. destruct cs as [|c' cs]; cbn [mangle_base map] in *.
      * change (zlength (concat [])) with 0 in Hs. lia.
      * rewrite zlength_cons, !zlength_app. change (zlength ["E"%char]) with 1. lia.
  - change (zlength (d_base T (Back id)).1) with 1. cbn [mangle_base]. unfold mangle_back.
    rewrite zlength_cons. pose proof (zlength_nonneg (seq_text id ++ ["_"%char])). lia.
  - change (zlength (d_base T (Param id)).1) with 1. cbn [mangle_base]. unfold mangle_param.
    rewrite zlength_cons. pose proof (zlength_nonneg (seq_text id ++ ["_"%char])). lia.
  - intros id args Hargs T. rewrite base_run_BackInst. cbn [mangle_base fst]. set (pre := entry T id).
    rewrite zlength_cons, zlength_app. pose proof (small_inst args pre (cand_add pre T) Hargs) as Hi.
    unfold mangle_args, mangle_back in *. rewrite zlength_cons. pose proof (zlength_nonneg (seq_text id ++ ["_"%char])). lia.
  - intros id args cs Hargs Hcs T. rewrite base_run_Under. cbn [mangle_base fst]. set (pre := entry T id).
    rewrite !zlength_cons, !zlength_app. pose proof (small_inst args pre (cand_add pre T) Hargs) as Hi.
    pose proof (small_scope cs Hcs (pre ++ concat (d_inst pre (cand_add pre T) args).1) (d_inst pre (cand_add pre T) args).2) as Hs.
    unfold mangle_args, mangle_comps in *. pose proof (zlength_nonneg (mangle_back id)). change (zlength ["E"%char]) with 1. lia.
  - intros x args Hargs pre T. rewrite comp_run_eq. cbn [mangle_comp fst]. rewrite zlength_cons, zlength_app.
    pose proof (small_inst args (pre ++ x) (cand_add (pre ++ x) T) Hargs) as Hi. unfold mangle_args in Hi.
    destruct (sname_head x) as (a & l & -> & _). rewrite zlength_cons. pose proof (zlength_nonneg l). lia.
Qed.
End Pieces.

(** The nesting against the characters *)
Lemma list_max_map_le {A} (f : A -> nat) (g : A -> bytes) l n :
  Forall (fun a => f a <= length (g a))%nat l -> (length (concat (map g l)) <= n)%nat -> (list_max (map f l) <= n)%nat.
Proof.
  intros Hl Hn. apply list_max_le. revert n Hn. induction Hl as [|a l Ha _ IH]; intros n Hn; [constructor|].
  cbn [map concat] in *. rewrite length_app in Hn. constructor; [lia|]. apply IH. lia.
Qed.

Lemma depth_bound :
  (forall t, ty_depth t <= length (mangle_ty t))%nat /\
  (forall b, base_depth b <= length (mangle_base b))%nat /\
  (forall c, comp_depth c <= length (mangle_comp c))%nat.
Proof.
  assert (forall args, Forall (fun t => ty_depth t <= length (mangle_ty t))%nat args ->
    (list_max (map (fun t => S (ty_depth t)) args) <= length (mangle_args args))%nat) as Hargs.
  { intros args H. pose proof (mangle_args_length args) as Hlen. destruct args as [|t ts]; [done|].
    pose proof (list_max_map_le ty_depth mangle_ty _ _ H (le_n _)) as Hm.
    apply list_max_le, Forall_map. apply list_max_le, Forall_map in Hm. eapply Forall_impl; [exact Hm|].
    unfold zlength in Hlen. cbn [has_args] in Hlen. cbn beta. intros. lia. }
  apply (syntax_ind (fun t => ty_depth t <= length (mangle_ty t))%nat (fun b => base_depth b <= length (mangle_base b))%nat
    (fun c => comp_depth c <= length (mangle_comp c))%nat); try (intros; cbn; lia).
  - intros qs b Hb. cbn [ty_depth mangle_ty]. rewrite length_app. lia.
  - intros c cs Hc Hcs. cbn [base_depth].
    pose proof (list_max_map_le comp_depth mangle_comp cs _ Hcs (le_n _)) as Hs.
    destruct cs as [|c' cs]; cbn [mangle_base]; [change (list_max (map comp_depth [])) with 0%nat; lia|]. cbn [length]. rewrite !length_app. lia.
  - intros id args Ha. cbn [base_depth mangle_base]. rewrite length_app. specialize (Hargs args Ha).
    unfold mangle_args in Hargs. lia.
  - intros id args cs Ha Hcs. cbn [base_depth mangle_base length]. rewrite !length_app.
    pose proof (list_max_map_le comp_depth mangle_comp cs _ Hcs (le_n _)). specialize (Hargs args Ha).
    unfold mangle_args in Hargs. lia.
  - intros x args Ha. cbn [comp_depth mangle_comp]. rewrite length_app. specialize (Hargs args Ha).
    unfold mangle_args in Hargs. lia.
Qed.

(** ** A text is never empty *)
Lemma builtin_text_ne c s : builtin_type c = Some s -> lit s <> [].
Proof. destruct c as [[] [] [] [] [] [] [] []]; try done; by intros [= <-]. Qed.

Lemma builtin_D_text_ne c s : builtin_D_type c = Some s -> lit s <> [].
Proof. destruct c as [[] [] [] [] [] [] [] []]; try done; by intros [= <-]. Qed.

Lemma concat_ne (k : list bytes) x l : x <> [] -> k = x :: l -> concat k <> [].
Proof. intros Hx ->. cbn. by intros [? _]%app_nil. Qed.

Lemma pieces_ne k : concat k <> [] -> k <> ([] : list bytes).
Proof. by intros H ->. Qed.

Lemma base_text_ne T b : base_ok T b = true -> concat (d_base T b).1 <> [].
Proof.
  destruct b as [c|c| |[x args] cs|id|id|id args|id args cs].
  - intros [s Hs]%bool_decide_eq_true. cbn [base_run fst concat]. rewrite Hs. cbn [default]. rewrite app_nil_r.
    by eapply builtin_text_ne.
  - intros [s Hs]%bool_decide_eq_true. cbn [base_run fst concat]. rewrite Hs. cbn [default]. rewrite app_nil_r.
    by eapply builtin_D_text_ne.
  - done.
  - cbn [base_ok comp_ok c_name c_args]. intros [[[_ [[Hx _]%bool_decide_eq_true _]%andb_true_iff]%andb_true_iff _]%andb_true_iff _]%andb_true_iff.
    rewrite base_run_Class. destruct (match cs with [] => _ | _ => _ end); by eapply concat_ne.
  - intros [_ He]%bool_decide_eq_true. by eapply concat_ne.
  - intros [_ He]%bool_decide_eq_true. by eapply concat_ne.
  - done.
  - cbn [base_ok]. intros [[[[[_ He]%bool_decide_eq_true _]%andb_true_iff _]%andb_true_iff _]%andb_true_iff _]%andb_true_iff.
    by eapply concat_ne.
Qed.

Lemma ty_text_ne T t : ty_ok T t = true -> concat (ty_chunks T t) <> [].
Proof.
  destruct t as [qs b]. cbn [ty_ok]. intros [Hb _]%andb_true_iff. unfold ty_chunks. rewrite ty_run_eq. cbn [fst].
  rewrite concat_app. intros [H _]%app_nil. by eapply base_text_ne.
Qed.
