(* ===== verification/Roundtrip.v ===== *)
(** * Evaluating names and types

    What the readers of names and types do on [Mangling]'s fragment: they read
    exactly the mangled text, write the pieces of the C++ text and leave the
    dictionary of the candidates.  Template arguments are read by the readers
    one level down, which [reads_types] describes. *)
From S2P Require Import Prelude CString Platform VectorStr VectorAux DemState DemQual DemLex DemReaders DemNames DemTypes Demangler DemEval DemLexEval DemSeq Mangling.

(** [u] is what the output holds while a return type is read. *)
Abbreviation W u d i r o q T b := (View i r o q (Ext (Some T) d b u)).

(** The readers read the types of less than [n] levels. *)
Definition reads_types {P : Platform} {I : Input} (R : Readers) (n : nat) : Prop :=
  forall t u d i r o T b,
    (ty_depth t < n)%nat -> ty_ok T t = true -> no_args r -> zlength (o ++ ty_chunks T t) < SIZE_MOD ->
    does (W u d i (mangle_ty t ++ r) o false T b) (r_type None) (eq None)
      (W u d (i + zlength (mangle_ty t)) r (o ++ ty_chunks T t) false (ty_table T t) (ty_tmpl t)).

Section Names.
Context {P : Platform} {I : Input} {R : Readers} (Hoom : never_oom).
Context {n : nat} (Hreads : reads_types R n) {u : option (list bytes)}.
Abbreviation any := (fun _ => True).

Lemma digit_hash c d : ELFTC_ISDIGIT c = true -> 2944 <= SIMPLE_HASH c d < 4000.
Proof.
  intros H. unfold SIMPLE_HASH. rewrite (isdigit_schar c H).
  pose proof (isdigit_range c H). pose proof (schar_range d). lia.
Qed.

Lemma does_uqname {e} i x r o q :
  ident x ->
  does (View i (sname x ++ r) o q e) cpp_demangle_read_uqname any
    (View (i + zlength (sname x)) r (o ++ [x]) q (plain e)).
Proof.
  intros Hx. pose proof (does_sname (e := e) Hoom i x r o q Hx) as Hs.
  destruct (sname_head x) as (c & l & E & Hc). rewrite E in *. cbn [app] in *.
  unfold cpp_demangle_read_uqname.
  eapply does_any; [by apply does_guard_more, digit_not_NUL | intros _].
  eapply does_eq; [apply does_hash|].
  pose proof (digit_hash c (default NUL (head (l ++ r))) Hc).
  rewrite (switch_below _ 4000) by (done || lia).
  unfold read_uqname_rest. eapply does_eq; [apply does_peek_cons|]. eapply does_eq; [apply does_peek1|].
  rewrite bool_decide_false by (by apply isdigit_ne). cbn [andb].
  eapply does_eq; [apply does_hash|].
  rewrite (switch_below _ 4000) by (done || lia). by rewrite Hc.
Qed.

(** ** Template arguments *)
Lemma does_cmd_push d i r o q T b :
  does (W u d i r o q T b) (cmd_push READ_TMPL None) any (W u (S d) i r o q T b).
Proof.
  intros s Hs. unfold cmd_push. run1.
  destruct (vector_read_cmd_push_ok (cmd s) READ_TMPL None _ (clock s) (sees_cmd _ _ Hs)) as (ok & v' & n' & E & _ & Hv & Hb).
  rewrite (Hb Hoom) in *. erewrite bind_Ok by (unfold on_clock; by rewrite E).
  eexists tt, _. split; [done|]. split; [done|]. destruct Hs. constructor; try done.
  cbn in *. by rewrite replicate_cons_app.
Qed.

Lemma does_cmd_pop d i r o q T b :
  does (W u (S d) i r o q T b) cmd_pop any (W u d i r o q T b).
Proof.
  intros s Hs. unfold cmd_pop. run1. pose proof (sees_cmd _ _ Hs) as Hc. cbn in Hc.
  change (ReadCmdItem READ_TMPL None :: replicate d (ReadCmdItem READ_TMPL None))
    with (replicate (S d) (ReadCmdItem READ_TMPL None)) in Hc. rewrite replicate_S_end in Hc.
  destruct (vector_read_cmd_pop_ok _ _ _ Hc) as (v' & -> & Hv).
  eexists tt, _. split; [done|]. split; [done|]. destruct Hs. by constructor.
Qed.

Lemma does_close d i r o q T b :
  does (W u d i r o q T b) (DEM_PUSH_STR ">";; modify (set_is_tmpl true)) any (W u d i r (o ++ [lit ">"]) q T true).
Proof.
  eapply does_any; [by apply (does_push_lit Hoom) | intros _]. intros s Hs.
  exists tt, (set_is_tmpl true s). split; [done|]. split; [done|]. destruct Hs. by constructor.
Qed.

Lemma tmpl_args_loop_eq r k :
  tmpl_args_loop r k =
    (idx ← vec_size r;
     cpp_demangle_read_tmpl_arg;;
     '(arg, arg_len) ← vec_substr_or_fail r idx;
     vec_add_new VTmpl (Some arg) arg_len;;
     c ← peek;
     if decide (c = "E"%char) then advance 1;; DEM_PUSH_STR ">";; modify (set_is_tmpl true)
     else (if decide (c <> "I"%char) then DEM_PUSH_STR ", " else mret tt);;
          match k with O => failed | S k => tmpl_args_loop r k end).
Proof. by destruct k. Qed.

Lemma does_tmpl_arg t d i r o T b :
  (ty_depth t < n)%nat -> ty_ok T t = true -> no_args r -> zlength (o ++ ty_chunks T t) < SIZE_MOD ->
  does (W u d i (mangle_ty t ++ r) o false T b) cpp_demangle_read_tmpl_arg any
    (W u d (i + zlength (mangle_ty t)) r (o ++ ty_chunks T t) false (ty_table T t) (ty_tmpl t)).
Proof.
  intros Hd Ht Hr Hmod. pose proof (Hreads t u d i r o T b Hd Ht Hr Hmod) as Hread.
  destruct (mangle_ty_head T t Ht) as (c & l & E & _ & _ & HL & HX & Hc & _). rewrite E in *. cbn [app] in *.
  unfold cpp_demangle_read_tmpl_arg. eapply does_any; [by apply does_guard_more | intros _].
  eapply does_eq; [apply does_peek_cons|]. cbn [switch]. rewrite !decide_False by congruence.
  eapply does_eq; [exact Hread|]. by apply does_ret.
Qed.

Abbreviation d_tail := (tail_run d_arg).

Lemma does_args_loop ts : forall t d i r o T b k,
  types_ok arg_table ty_ok T (t :: ts) = true -> Forall (fun t => ty_depth t < n)%nat (t :: ts) -> (length ts <= k)%nat ->
  let a := d_tail (arg_table T t) ts in
  zlength (o ++ ty_chunks T t ++ a.1 ++ [lit ">"]) < SIZE_MOD ->
  does (W u d i (concat (map mangle_ty (t :: ts)) ++ "E"%char :: r) o false T b) (tmpl_args_loop (out_ref u) k) any
    (W u d (i + zlength (concat (map mangle_ty (t :: ts))) + 1) r (o ++ ty_chunks T t ++ a.1 ++ [lit ">"]) false a.2 true).
Proof.
  induction ts as [|t' ts IH]; intros t d i r o T b k Hok Hd Hk a Hmod; subst a;
    cbn [types_ok] in Hok; apply andb_true_iff in Hok as [Ht Hts]; apply Forall_cons_1 in Hd as [Hdt Hds];
    rewrite tmpl_args_loop_eq; (eapply does_eq; [by apply does_out_size|]);
    pose proof (ty_text_ne T t Ht) as Hne;
    assert (zlength (o ++ ty_chunks T t) < SIZE_MOD) as Hm1
      by (revert Hmod; rewrite app_assoc, (zlength_app (o ++ ty_chunks T t));
          match goal with |- _ + zlength ?l < _ -> _ => pose proof (zlength_nonneg l) end; lia).
  - cbn [map concat tail_run fst snd app] in *. rewrite app_nil_r. rewrite app_assoc.
    eapply does_any; [by apply does_tmpl_arg | intros _].
    eapply does_eq; [apply (does_substr_or_fail Hoom); [by apply pieces_ne | done | done]|].
    eapply does_any; [apply (does_add_arg Hoom) | intros _]. eapply does_eq; [apply does_peek_cons|].
    apply does_if_true; [done|]. eapply does_any; [apply does_advance1 | intros _]. apply does_close.
  - change (concat (map mangle_ty (t :: t' :: ts))) with (mangle_ty t ++ concat (map mangle_ty (t' :: ts))).
    rewrite <- app_assoc. pose proof Hts as Hts'. cbn [types_ok] in Hts'. apply andb_true_iff in Hts' as [Ht' _].
    assert (exists c l, concat (map mangle_ty (t' :: ts)) ++ "E"%char :: r = c :: l /\ starts_type c) as (c & l & E & HI & HE & _).
    { destruct (mangle_ty_head _ t' Ht') as (c & l & E & Hc). cbn [map concat]. rewrite E. cbn. eauto. }
    eapply does_any; [apply does_tmpl_arg; [done | done | | done] | intros _].
    { rewrite E. unfold no_args. cbn. congruence. }
    eapply does_eq; [apply (does_substr_or_fail Hoom); [by apply pieces_ne | done | done]|].
    eapply does_any; [apply (does_add_arg Hoom) | intros _].
    destruct k as [|k]; [cbn in Hk; lia|].
    pose proof (IH t' d (i + zlength (mangle_ty t)) r ((o ++ ty_chunks T t) ++ [lit ", "]) (arg_table T t) false k Hts Hds
      ltac:(cbn in Hk; lia)) as Hk'.
    cbn [tail_run arg_run fst snd app] in Hmod |- *. fold (ty_chunks (arg_table T t) t') in *.
    change (arg_add (concat (ty_chunks (arg_table T t) t')) (d_ty (arg_table T t) t').2) with (arg_table (arg_table T t) t') in *.
    rewrite E in *. eapply does_eq; [apply does_peek_cons|].
    apply does_if_false; [done|]. apply does_then; [done|].
    eapply does_any; [by apply (does_push_lit Hoom) | intros _].
    rewrite zlength_app, Z.add_assoc.
    assert (forall a b : list bytes, o ++ ty_chunks T t ++ (lit ", " :: a ++ b) ++ [lit ">"]
      = ((o ++ ty_chunks T t) ++ [lit ", "]) ++ a ++ b ++ [lit ">"]) as Heq by (intros; by rewrite <- !app_assoc; cbn; rewrite <- !app_assoc).
    cbn [app] in Heq. rewrite Heq in *.
    by apply Hk'.
Qed.

Lemma does_tmpl_args args d i r o T b :
  has_args args = true -> args_ok ty_ok T args = true -> Forall (fun t => ty_depth t < n)%nat args ->
  zlength (o ++ (d_args T args).1) < SIZE_MOD ->
  does (W u d i (mangle_args args ++ r) o false T b) cpp_demangle_read_tmpl_args any
    (W u d (i + zlength (mangle_args args)) r (o ++ (d_args T args).1) false (d_args T args).2 true).
Proof.
  intros Hne [Hok Hlen%Nat.leb_le]%andb_true_iff Hd Hmod. rewrite mangle_args_length, Hne.
  destruct args as [|t ts]; [done|]. unfold mangle_args, wrap_args. cbn [map args_run arg_run fst snd] in *.
  change (mangle_ty t :: map mangle_ty ts) with (map mangle_ty (t :: ts)).
  cbn [app]. rewrite <- app_assoc. cbn [app].
  fold (ty_chunks T t) in *. change (arg_add (concat (ty_chunks T t)) (d_ty T t).2) with (arg_table T t) in *.
  unfold cpp_demangle_read_tmpl_args.
  eapply does_any; [by apply does_guard_more | intros _].
  eapply does_any; [apply does_advance1 | intros _].
  eapply does_any; [apply does_cmd_push | intros _].
  eapply does_any; [by apply (does_push_lit Hoom) | intros _].
  eapply does_eq; [apply does_gets_out|].
  pose proof (does_args_loop ts t (S d) (i + 1) r (o ++ [lit "<"]) T false MORE_TRIES Hok Hd) as Hloop.
  cbv zeta in Hloop. rewrite <- app_assoc in Hloop. cbn [app] in Hloop.
  eapply does_any; [apply Hloop; [cbn [length] in Hlen; unfold MAX_COMPONENTS in Hlen; lia | exact Hmod] | intros _].
  replace (i + (2 + _)) with (i + 1 + zlength (concat (map mangle_ty (t :: ts))) + 1) by lia. apply does_cmd_pop.
Qed.

Lemma args_text_ne T args : has_args args = true -> concat (d_args T args).1 <> [].
Proof. by destruct args. Qed.

(** ** The text of a component becomes a candidate, behind what [v] holds *)
Lemma does_component_cand {e} i r o q v ss k :
  concat k <> [] -> vec_ok v ss -> zlength (o ++ k) < SIZE_MOD ->
  does (View i r (o ++ k) q e)
    ('(subst_str, subst_str_len) ← vec_substr_or_fail (out_ref (e_under e)) (zlength o);
     push_component v subst_str subst_str_len) (fun v' => vec_ok v' (ss ++ [concat k]))
    (View i r (o ++ k) q (e_adds [concat ss ++ concat k] e)).
Proof.
  intros Hk Hv Hmod. eapply does_eq; [by apply (does_substr_or_fail Hoom); [apply pieces_ne|..]|].
  replace (concat ss ++ concat k) with (concat (ss ++ [concat k])) by (rewrite concat_app; cbn; by rewrite app_nil_r).
  by apply (does_push_component Hoom).
Qed.

(** Template arguments after a name, if they are there *)
Lemma does_args_component args d i r o T b v ss :
  args_ok ty_ok T args = true -> Forall (fun t => ty_depth t < n)%nat args -> no_args r -> vec_ok v ss ->
  zlength (o ++ (d_inst (concat ss) T args).1) < SIZE_MOD ->
  does (W u d i (mangle_args args ++ r) o false T b) (read_args_component (out_ref u) v) any
    (W u d (i + zlength (mangle_args args)) r (o ++ (d_inst (concat ss) T args).1) false
      (d_inst (concat ss) T args).2 (if has_args args then true else b)).
Proof.
  intros Hok Hd Hr Hv Hmod. unfold read_args_component. destruct args as [|t ts].
  - cbn [inst_run fst snd has_args]. rewrite app_nil_r, Z.add_0_r.
    eapply does_eq; [apply does_peek|]. apply does_if_false; [by apply no_args_peek|]. by apply does_ret.
  - assert (has_args (t :: ts) = true) as Ha by done. set (args := t :: ts) in *.
    change (d_inst (concat ss) T args)
      with ((d_args T args).1, cand_add (concat ss ++ concat (d_args T args).1) (d_args T args).2) in *.
    cbn [fst snd] in *. rewrite Ha. pose proof (does_tmpl_args args d i r o T b Ha Hok Hd Hmod) as Hargs.
    assert (exists l, mangle_args args ++ r = "I"%char :: l) as [l E] by by eexists. rewrite E in *.
    eapply does_eq; [apply does_peek_cons|]. apply does_if_true; [done|].
    eapply does_eq; [by apply does_out_size|]. eapply does_any; [exact Hargs | intros _].
    pose proof (args_text_ne T args Ha) as Hk.
    eapply does_eq; [by apply (does_substr_or_fail Hoom); [apply pieces_ne|..]|].
    replace (concat ss ++ concat (d_args T args).1) with (concat (ss ++ [concat (d_args T args).1]))
      by (rewrite concat_app; cbn; by rewrite app_nil_r).
    pose proof (does_push_component Hoom (W u d (i + zlength (mangle_args args)) r (o ++ (d_args T args).1) false (d_args T args).2 true)
      v ss (concat (d_args T args).1) Hv Hk) as Hp.
    eapply does_any; [eapply does_weaken; [exact Hp | done] | intros; by apply does_ret].
Qed.

(** ** Names that are not nested *)
Lemma does_unscoped x args d i r o T b :
  ident x -> negb (has_args args && op_like x) = true -> args_ok ty_ok (cand_add x T) args = true ->
  Forall (fun t => ty_depth t < n)%nat args -> no_args r ->
  zlength (o ++ (d_base T (Class (Comp x args) [])).1) < SIZE_MOD ->
  does (W u d i (mangle_comp (Comp x args) ++ r) o false T b) read_unscoped_name any
    (W u d (i + zlength (mangle_comp (Comp x args))) r (o ++ (d_base T (Class (Comp x args) [])).1) false
      (d_base T (Class (Comp x args) [])).2 (has_args args)).
Proof.
  intros Hx Hop Hok Hd Hr Hmod. cbn [mangle_comp]. fold (mangle_args args). rewrite <- app_assoc.
  rewrite base_run_Class, comp_run_eq in *. cbn [c_name] in *. cbn [app] in *. unfold read_unscoped_name.
  eapply does_eq; [apply does_gets_out|]. eapply does_bind; [by apply does_local_vec|]. intros v Hv.
  eapply does_eq; [by apply does_out_size|].
  eapply does_any; [by apply does_uqname | intros _].
  assert (zlength (o ++ [x]) < SIZE_MOD) as Hm1.
  { revert Hmod. destruct (op_like x); cbn [fst]; [done|]. cbn [scope_run fst]. rewrite !zlength_app, !zlength_cons.
    match goal with |- context [zlength (d_inst ?a ?b ?c).1] => pose proof (zlength_nonneg (d_inst a b c).1) end.
    change (zlength ([] : list bytes)) with 0. lia. }
  eapply does_eq; [by apply (does_substr_or_fail Hoom)|]. cbn [concat]. rewrite app_nil_r.
  eapply (does_eq _ _ _ (op_like x)).
  { unfold op_like. destruct (_ >? 8); [apply does_bind_ret|]; by apply does_ret. }
  destruct (op_like x); cbn [fst snd] in *.
  - rewrite andb_true_r in Hop. destruct args as [|? ?]; [|done]. cbn [has_args]. rewrite app_nil_r. by apply does_ret.
  - eapply does_bind; [apply (does_push_component Hoom); [exact Hv | apply Hx]|].
    intros v' Hv'. cbn [app concat scope_run fst snd] in *. rewrite app_nil_r in *. rewrite zlength_app, Z.add_assoc.
    assert (concat [x] = x) as Ex by (cbn; by rewrite app_nil_r).
    pose proof (does_args_component args d (i + zlength (sname x)) r (o ++ [x]) (cand_add x T) false v' [x] Hok Hd Hr Hv') as Ha.
    rewrite Ex, <- app_assoc in Ha. cbn [app] in Ha. specialize (Ha Hmod).
    rewrite app_nil_r. replace (has_args args) with (if has_args args then true else false) by by destruct (has_args args).
    exact Ha.
Qed.

(** ** Nested names *)
Lemma does_component {e} i x r o q :
  ident x ->
  does (View i (sname x ++ r) o q e) read_component any (View (i + zlength (sname x)) r (o ++ [x]) q (plain e)).
Proof.
  intros Hx. pose proof (does_uqname (e := e) i x r o q Hx) as H.
  destruct (sname_head x) as (c & l & E & Hc). rewrite E in *. cbn [app] in *.
  unfold read_component. eapply does_eq; [apply does_peek_cons|]. cbn [switch].
  by rewrite !decide_False by (by apply isdigit_ne).
Qed.

(** What the loop does after a component. *)
Definition nested_next (v : vector_str) (tries : nat) : M unit :=
  c ← peek;
  if decide (c = "E"%char) then mret tt else
  v ← (if bool_decide (c <> "I"%char) && bool_decide (c <> "C"%char) && bool_decide (c <> "D"%char) && negb false
       then DEM_PUSH_STR "::";; VEC_PUSH_STR v (Bytes (lit "::"))
       else mret v);
  match tries with O => failed | S tries => nested_name_loop (out_ref u) v tries end.

Lemma does_item (m r : bytes) d i o v ss k tries T T' b b' Q w' :
  does (W u d i (m ++ r) o false T b) read_component any (W u d (i + zlength m) r (o ++ k) false T' b') ->
  concat k <> [] -> vec_ok v ss -> zlength (o ++ k) < SIZE_MOD ->
  (forall v', vec_ok v' (ss ++ [concat k]) ->
    does (W u d (i + zlength m) r (o ++ k) false (cand_add (concat ss ++ concat k) T') b') (nested_next v' tries) Q w') ->
  does (W u d i (m ++ r) o false T b) (nested_name_loop (out_ref u) v tries) Q w'.
Proof.
  intros Hcomp Hk Hv Hmod Hnext. pose proof (zlength_pos k (pieces_ne _ Hk)) as Hpos.
  destruct tries; cbn [nested_name_loop];
    (eapply does_eq; [by apply does_out_size|]); (eapply does_any; [exact Hcomp | intros _]);
    (eapply does_eq; [by apply does_out_size|]);
    rewrite (proj2 (Z.eqb_neq _ _)) by (rewrite zlength_app; lia);
    (eapply does_bind; [by apply (does_component_cand (e := Ext (Some T') d b' u))|]); exact Hnext.
Qed.

(** What follows a component: the end of the name, template arguments, or [::]. *)
Lemma next_end d i r o T b v tries :
  does (W u d i ("E"%char :: r) o false T b) (nested_next v tries) any (W u d i ("E"%char :: r) o false T b).
Proof.
  unfold nested_next. eapply does_eq; [apply does_peek_cons|]. apply does_if_true; [done|]. by apply does_ret.
Qed.

Lemma next_args d i l o T b v k Q w' :
  does (W u d i ("I"%char :: l) o false T b) (nested_name_loop (out_ref u) v k) Q w' ->
  does (W u d i ("I"%char :: l) o false T b) (nested_next v (S k)) Q w'.
Proof.
  intros H. unfold nested_next. eapply does_eq; [apply does_peek_cons|]. apply does_if_false; [done|].
  rewrite bool_decide_false by (by intros []). by apply does_bind_ret.
Qed.

Lemma next_scope d i c l o T b v ss k Q w' :
  ELFTC_ISDIGIT c = true -> vec_ok v ss ->
  (forall v', vec_ok v' (ss ++ [lit "::"]) ->
    does (W u d i (c :: l) (o ++ [lit "::"]) false T false) (nested_name_loop (out_ref u) v' k) Q w') ->
  does (W u d i (c :: l) o false T b) (nested_next v (S k)) Q w'.
Proof.
  intros Hc Hv Hk. unfold nested_next. eapply does_eq; [apply does_peek_cons|].
  apply does_if_false; [by apply isdigit_ne|]. rewrite !bool_decide_true by (by apply isdigit_ne). cbn [andb negb].
  eapply does_bind; [|exact Hk].
  eapply does_any; [by apply (does_push_lit Hoom) | intros _]. by apply (does_VEC_PUSH_STR Hoom).
Qed.

(** Template arguments are a component of their own. *)
Lemma does_args_item args d i r o T b v ss k Q w' :
  has_args args = true -> args_ok ty_ok T args = true -> Forall (fun t => ty_depth t < n)%nat args -> vec_ok v ss ->
  zlength (o ++ (d_args T args).1) < SIZE_MOD ->
  (forall v', vec_ok v' (ss ++ [concat (d_args T args).1]) ->
    does (W u d (i + zlength (mangle_args args)) r (o ++ (d_args T args).1) false
      (cand_add (concat ss ++ concat (d_args T args).1) (d_args T args).2) true) (nested_next v' k) Q w') ->
  does (W u d i (mangle_args args ++ r) o false T b) (nested_next v (S k)) Q w'.
Proof.
  intros Hne Hok Hd Hv Hmod Hk. pose proof (does_tmpl_args args d i r o T b Hne Hok Hd Hmod) as Hargs.
  assert (exists l, mangle_args args ++ r = "I"%char :: l) as [l E] by (destruct args; [done|by eexists]).
  rewrite E. apply next_args. rewrite <- E in *.
  eapply does_item; [|by apply args_text_ne | exact Hv | exact Hmod | exact Hk].
  rewrite E in *. unfold read_component. eapply does_eq; [apply does_peek_cons|]. exact Hargs.
Qed.

Abbreviation shallow := (Forall (fun c => comp_depth c <= n)%nat).

Lemma comp_args_depth x args : (comp_depth (Comp x args) <= n)%nat -> Forall (fun t => ty_depth t < n)%nat args.
Proof. cbn [comp_depth]. intros H%list_max_le. by apply Forall_map in H. Qed.

(** The arguments of the component just read, if any, and the components
    behind it *)
Lemma does_inst_scope args cs
  (Hscope : forall d i r o T b v ss k,
    scope_ok comp_ok (concat ss) T cs = true -> shallow cs -> (turns cs <= k)%nat -> vec_ok v ss ->
    zlength (o ++ (d_scope (concat ss) T cs).1) < SIZE_MOD ->
    does (W u d i (mangle_comps cs ++ "E"%char :: r) o false T b) (nested_next v k) any
      (W u d (i + zlength (mangle_comps cs)) ("E"%char :: r) (o ++ (d_scope (concat ss) T cs).1) false
        (d_scope (concat ss) T cs).2 (scope_tmpl b cs)))
  d i r o T v ss k pre a b
  (Hpre : pre = concat ss) (Ha : a = d_inst pre T args) (Hb : b = d_scope (pre ++ concat a.1) a.2 cs) :
  args_ok ty_ok T args = true -> Forall (fun t => ty_depth t < n)%nat args ->
  scope_ok comp_ok (pre ++ concat a.1) a.2 cs = true -> shallow cs ->
  ((if has_args args then 1 else 0) + turns cs <= k)%nat -> vec_ok v ss ->
  zlength (o ++ a.1 ++ b.1) < SIZE_MOD ->
  does (W u d i (mangle_args args ++ mangle_comps cs ++ "E"%char :: r) o false T false) (nested_next v k) any
    (W u d (i + zlength (mangle_args args) + zlength (mangle_comps cs)) ("E"%char :: r) (o ++ a.1 ++ b.1) false
      b.2 (scope_tmpl (has_args args) cs)).
Proof.
  intros Hok Hd Hsok Hsh Hk Hv Hmod. subst pre. destruct (has_args args) eqn:Hne.
  - assert (d_inst (concat ss) T args
      = ((d_args T args).1, cand_add (concat ss ++ concat (d_args T args).1) (d_args T args).2)) as E by by destruct args.
    rewrite E in Ha. subst a. cbn [fst snd] in *. destruct k as [|k]; [lia|].
    assert (zlength (o ++ (d_args T args).1) < SIZE_MOD) as Hm1.
    { revert Hmod. rewrite app_assoc, zlength_app. pose proof (zlength_nonneg b.1). lia. }
    eapply does_args_item; [done | done | done | exact Hv | exact Hm1|]. intros v' Hv'.
    assert (concat (ss ++ [concat (d_args T args).1]) = concat ss ++ concat (d_args T args).1) as Ec.
    { rewrite concat_app. cbn. by rewrite app_nil_r. }
    rewrite <- Ec in *. rewrite app_assoc, Hb. apply Hscope; [done | done | lia | exact Hv'|].
    by rewrite <- app_assoc, <- Hb.
  - assert (args = []) as -> by by destruct args. cbn [inst_run] in Ha. subst a. cbn [fst snd concat app] in *.
    rewrite app_nil_r in *. rewrite Z.add_0_r, Hb. apply Hscope; [done | done | lia | exact Hv | by rewrite <- Hb].
Qed.

Lemma does_scope cs : forall d i r o T b v ss k,
  scope_ok comp_ok (concat ss) T cs = true -> shallow cs -> (turns cs <= k)%nat -> vec_ok v ss ->
  zlength (o ++ (d_scope (concat ss) T cs).1) < SIZE_MOD ->
  does (W u d i (mangle_comps cs ++ "E"%char :: r) o false T b) (nested_next v k) any
    (W u d (i + zlength (mangle_comps cs)) ("E"%char :: r) (o ++ (d_scope (concat ss) T cs).1) false
      (d_scope (concat ss) T cs).2 (scope_tmpl b cs)).
Proof.
  induction cs as [|[x args] cs IH]; intros d i r o T b v ss k Hok Hsh Hk Hv Hmod.
  { cbn [scope_run fst snd scope_tmpl]. unfold mangle_comps. cbn [map concat app]. rewrite app_nil_r, Z.add_0_r. apply next_end. }
  cbn [scope_ok comp_ok] in Hok. apply andb_true_iff in Hok as [[Hx%bool_decide_eq_true Hargs]%andb_true_iff Hok].
  apply Forall_cons_1 in Hsh as [Hdc Hsh]. pose proof (comp_args_depth _ _ Hdc) as Hda.
  unfold mangle_comps. cbn [map concat mangle_comp]. fold (mangle_comps cs). fold (mangle_args args).
  cbn [scope_run fst snd scope_tmpl c_args] in *. rewrite !comp_run_eq in *. cbn [fst snd] in *.
  set (pre := concat ss ++ lit "::") in *. set (a := d_inst (pre ++ x) (cand_add (pre ++ x) T) args) in *.
  cbn [concat] in *. rewrite (app_assoc pre x (concat a.1)) in *.
  set (b2 := d_scope ((pre ++ x) ++ concat a.1) a.2 cs) in *.
  destruct (sname_head x) as (c & l & E & Hc).
  assert (zlength ((o ++ [lit "::"]) ++ [x]) < SIZE_MOD) as Hm1.
  { revert Hmod. cbn [app]. rewrite !zlength_app, !zlength_cons, !zlength_app.
    pose proof (zlength_nonneg a.1). pose proof (zlength_nonneg b2.1). change (zlength ([] : list bytes)) with 0. lia. }
  unfold turns in Hk. cbn [sum_list_with c_args] in Hk. fold (turns cs) in Hk.
  destruct k as [|k]; [destruct (has_args args); lia|].
  assert (forall b : list bytes, o ++ lit "::" :: (x :: a.1) ++ b = ((o ++ [lit "::"]) ++ [x]) ++ a.1 ++ b) as Eo
    by (intros; by rewrite <- !app_assoc).
  cbn [app] in Eo, Hmod |- *. rewrite Eo in *.
  replace (i + zlength ((sname x ++ mangle_args args) ++ mangle_comps cs))
    with (i + zlength (sname x) + zlength (mangle_args args) + zlength (mangle_comps cs)) by (rewrite !zlength_app; lia).
  replace (((sname x ++ mangle_args args) ++ mangle_comps cs) ++ "E"%char :: r)
    with (sname x ++ mangle_args args ++ mangle_comps cs ++ "E"%char :: r) by (by rewrite <- !app_assoc).
  rewrite !E. cbn [app]. eapply next_scope; [exact Hc | exact Hv|]. intros v' Hv'.
  change (c :: l ++ mangle_args args ++ mangle_comps cs ++ "E"%char :: r)
    with ((c :: l) ++ mangle_args args ++ mangle_comps cs ++ "E"%char :: r). rewrite <- E.
  assert (concat (ss ++ [lit "::"]) = pre) as Epre by (by rewrite concat_app).
  assert (concat [x] = x) as Ex by (cbn; by rewrite app_nil_r).
  eapply (does_item (sname x) _ d i (o ++ [lit "::"]) v' (ss ++ [lit "::"]) [x]);
    [apply (does_component (e := Ext (Some T) d false u) i x _ _ _ Hx) | rewrite Ex; apply Hx | exact Hv' | exact Hm1|].
  intros v'' Hv''. rewrite Epre, Ex in *.
  pose proof (does_inst_scope args cs IH d (i + zlength (sname x)) r ((o ++ [lit "::"]) ++ [x]) (cand_add (pre ++ x) T)
    v'' ((ss ++ [lit "::"]) ++ [x]) k (pre ++ x) a b2) as H.
  apply H; try done.
  - by rewrite concat_app, Epre, Ex.
  - destruct (has_args args); lia.
Qed.

Lemma does_member_qualifiers {e} i c r o q rest :
  ELFTC_ISDIGIT c = true \/ c = "S"%char ->
  does (View i (c :: r) o q e) (read_member_qualifiers (c :: rest)) any (View i (c :: r) o q e).
Proof.
  intros Hc. cbn [read_member_qualifiers switch].
  destruct Hc as [Hc| ->]; [|by apply does_ret].
  rewrite !decide_False by (by apply isdigit_ne). by apply does_ret.
Qed.

Lemma does_gets_rest {e} i r o q {B} (f : Z -> M B) Q w' (g : bytes -> M B) :
  (forall j, f j = g (zdrop j input)) ->
  does (View i r o q e) (g r) Q w' -> does (View i r o q e) (j ← gets cur; f j) Q w'.
Proof.
  intros Hf Hg s Hs. run1. rewrite Hf.
  rewrite (sees_cur _ _ Hs). cbn [v_pos]. pose proof (sees_rest _ _ Hs) as Hr. cbn in Hr.
  rewrite Hr. by apply Hg.
Qed.

(** Up to the loop over the components *)
Lemma does_enter_nested {e} i m c l o Q w' w1 :
  m = c :: l -> ELFTC_ISDIGIT c = true \/ c = "S"%char ->
  (forall v, vec_ok v [] -> does (View (i + 1) m o false e) (nested_name_loop (out_ref (e_under e)) v MORE_TRIES) any w1) ->
  does w1 (advance 1) Q w' ->
  does (View i ("N"%char :: m) o false e) cpp_demangle_read_nested_name Q w'.
Proof.
  intros -> Hc Hloop Hend. unfold cpp_demangle_read_nested_name. eapply does_eq; [apply does_peek_cons|].
  apply does_guard; [done|]. eapply does_any; [apply does_advance1 | intros _].
  eapply does_any; [apply does_guard_more; destruct Hc as [Hc| ->]; [by apply digit_not_NUL|done] | intros _].
  eapply (does_gets_rest _ _ _ _ _ _ _ (fun rest => read_member_qualifiers rest;; _)); [done|].
  eapply does_any; [by apply does_member_qualifiers | intros _].
  eapply does_eq; [apply does_gets_out|]. eapply does_bind; [by apply does_local_vec|]. intros v Hv.
  eapply does_any; [by apply Hloop | intros _; exact Hend].
Qed.

Lemma base_ok_Class T x args cs :
  base_ok T (Class (Comp x args) cs) = true ->
  let a := d_comp [] T (Comp x args) in
  negb (has_args args && op_like x) = true /\ ident x /\ args_ok ty_ok (cand_add x T) args = true /\
  scope_ok comp_ok (concat a.1) a.2 cs = true /\ (turns (Comp x args :: cs) <= MAX_COMPONENTS)%nat.
Proof.
  cbn [base_ok comp_ok c_args c_name app].
  intros [[[H1 [H2%bool_decide_eq_true H3]%andb_true_iff]%andb_true_iff H4]%andb_true_iff H5%Nat.leb_le]%andb_true_iff. done.
Qed.

Lemma base_ok_Under T id args cs :
  base_ok T (Under id args cs) = true ->
  let pre := entry T id in let a := d_inst pre (cand_add pre T) args in
  (seq_wf id /\ pre <> []) /\ args_ok ty_ok (cand_add pre T) args = true /\
  scope_ok comp_ok (pre ++ concat a.1) a.2 cs = true /\ (has_args args = true \/ cs <> []) /\
  (turns (plain_comp pre :: cs) + (if has_args args then 1 else 0) <= MAX_COMPONENTS)%nat.
Proof.
  cbn [base_ok]. intros [[[[H1%bool_decide_eq_true H2]%andb_true_iff H3]%andb_true_iff H4%orb_true_iff]%andb_true_iff H5%Nat.leb_le]%andb_true_iff.
  split_and!; try done; [by destruct H1.. |]. destruct H4 as [H4|H4%negb_true_iff%bool_decide_eq_false]; auto.
Qed.

Lemma does_nested x args cs d i r o T b :
  base_ok T (Class (Comp x args) cs) = true -> cs <> [] -> (base_depth (Class (Comp x args) cs) <= n)%nat ->
  zlength (o ++ (d_base T (Class (Comp x args) cs)).1) < SIZE_MOD ->
  does (W u d i (mangle_name (Comp x args) cs ++ r) o false T b) cpp_demangle_read_nested_name any
    (W u d (i + zlength (mangle_name (Comp x args) cs)) r (o ++ (d_base T (Class (Comp x args) cs)).1) false
      (d_base T (Class (Comp x args) cs)).2 (scope_tmpl (has_args args) cs)).
Proof.
  intros (_ & Hx & Hargs & Hok & Ht)%base_ok_Class Hne Hd Hmod.
  cbn [base_depth] in Hd. apply Nat.max_lub_iff in Hd as [Hdc%comp_args_depth Hds]. apply list_max_le, Forall_map in Hds.
  rewrite base_run_Class in *. destruct cs as [|c' cs]; [done|]. set (l := c' :: cs) in *.
  change (mangle_name (Comp x args) l) with ("N"%char :: (sname x ++ mangle_args args) ++ mangle_comps l ++ ["E"%char]).
  rewrite comp_run_eq in *. cbn [app concat fst snd] in *. set (a := d_inst x (cand_add x T) args) in *.
  set (b2 := d_scope (x ++ concat a.1) a.2 l) in *. destruct (sname_head x) as (c & s & E & Hc).
  replace (((sname x ++ mangle_args args) ++ mangle_comps l ++ ["E"%char]) ++ r)
    with (sname x ++ mangle_args args ++ mangle_comps l ++ "E"%char :: r) by (by rewrite <- !app_assoc).
  replace (i + zlength _)
    with (i + 1 + zlength (sname x) + zlength (mangle_args args) + zlength (mangle_comps l) + 1)
    by (rewrite zlength_cons, !zlength_app; change (zlength ["E"%char]) with 1; lia).
  eapply does_enter_nested; [by rewrite E | by left | | apply does_advance1]. intros v Hv.
  assert (concat [x] = x) as Ex by (cbn; by rewrite app_nil_r).
  assert (zlength (o ++ [x]) < SIZE_MOD) as Hm1.
  { revert Hmod. rewrite !zlength_app, !zlength_cons, !zlength_app. pose proof (zlength_nonneg a.1).
    pose proof (zlength_nonneg b2.1). change (zlength ([] : list bytes)) with 0. lia. }
  eapply (does_item (sname x) _ d (i + 1) o v [] [x]);
    [apply (does_component (e := Ext (Some T) d b u) _ x _ _ _ Hx) | rewrite Ex; apply Hx | exact Hv | exact Hm1|].
  intros v' Hv'. rewrite Ex in Hv' |- *. cbn [concat app] in Hv' |- *.
  pose proof (does_inst_scope args l (does_scope l) d (i + 1 + zlength (sname x)) r (o ++ [x]) (cand_add x T)
    v' [x] MORE_TRIES x a b2 (eq_sym Ex) eq_refl eq_refl Hargs Hdc Hok Hds) as H.
  rewrite <- app_assoc in H. cbn [app] in H.
  apply H; [|exact Hv' | exact Hmod].
  revert Ht. unfold turns, MAX_COMPONENTS. cbn [sum_list_with c_args]. destruct (has_args args); lia.
Qed.

Lemma nth_text_lookup l id : nth_text l id <> [] -> l !! Z.to_nat (seq_index id) = Some (nth_text l id).
Proof. unfold nth_text. by destruct (l !! _). Qed.

(** A back-reference as the first component *)
Lemma does_back_component d i id r o q T b :
  seq_wf id -> entry T id <> [] ->
  does (W u d i (mangle_back id ++ r) o q T b) read_component any
    (W u d (i + zlength (mangle_back id)) r (o ++ [entry T id]) q T false).
Proof.
  intros Hid He. unfold read_component, mangle_back. cbn [app]. eapply does_eq; [apply does_peek_cons|].
  cbn [switch]. rewrite decide_False, decide_True by done. rewrite <- app_assoc. cbn [app].
  replace (i + zlength _) with (i + 2 + zlength (seq_text id)).
  2: { rewrite zlength_cons, zlength_app. change (zlength ["_"%char]) with 1. lia. }
  by apply (does_subst Hoom); [| apply nth_text_lookup |].
Qed.

Lemma does_under id args cs d i r o T b :
  base_ok T (Under id args cs) = true -> (base_depth (Under id args cs) <= n)%nat ->
  zlength (o ++ (d_base T (Under id args cs)).1) < SIZE_MOD ->
  does (W u d i (mangle_base (Under id args cs) ++ r) o false T b) cpp_demangle_read_nested_name any
    (W u d (i + zlength (mangle_base (Under id args cs))) r (o ++ (d_base T (Under id args cs)).1) false
      (d_base T (Under id args cs)).2 (scope_tmpl (has_args args) cs)).
Proof.
  intros ([Hid He] & Hargs & Hok & _ & Ht)%base_ok_Under Hd Hmod.
  cbn [base_depth] in Hd. apply Nat.max_lub_iff in Hd as [Hda Hds].
  apply list_max_le, Forall_map in Hds. pose proof (comp_args_depth [] args Hda) as Hdc.
  rewrite base_run_Under in *. cbn [fst snd] in *. set (pre := entry T id) in *.
  set (a := d_inst pre (cand_add pre T) args) in *. set (b2 := d_scope (pre ++ concat a.1) a.2 cs) in *.
  change (mangle_base (Under id args cs))
    with ("N"%char :: mangle_back id ++ mangle_args args ++ mangle_comps cs ++ ["E"%char]).
  replace (("N"%char :: mangle_back id ++ mangle_args args ++ mangle_comps cs ++ ["E"%char]) ++ r)
    with ("N"%char :: mangle_back id ++ mangle_args args ++ mangle_comps cs ++ "E"%char :: r)
    by (cbn [app]; by rewrite <- !app_assoc).
  replace (i + zlength _)
    with (i + 1 + zlength (mangle_back id) + zlength (mangle_args args) + zlength (mangle_comps cs) + 1)
    by (rewrite zlength_cons, !zlength_app; change (zlength ["E"%char]) with 1; lia).
  eapply does_enter_nested; [done | by right | | apply does_advance1]. intros v Hv.
  assert (concat [pre] = pre) as Ep by (cbn; by rewrite app_nil_r).
  assert (zlength (o ++ [pre]) < SIZE_MOD) as Hm1.
  { revert Hmod. rewrite !zlength_app, !zlength_cons, !zlength_app. pose proof (zlength_nonneg a.1).
    pose proof (zlength_nonneg b2.1). change (zlength ([] : list bytes)) with 0. lia. }
  eapply (does_item (mangle_back id) _ d (i + 1) o v [] [pre]);
    [by apply does_back_component | by rewrite Ep | exact Hv | exact Hm1|].
  intros v' Hv'. rewrite Ep in Hv' |- *. cbn [concat app] in Hv' |- *.
  pose proof (does_inst_scope args cs (does_scope cs) d (i + 1 + zlength (mangle_back id)) r (o ++ [pre]) (cand_add pre T)
    v' [pre] MORE_TRIES pre a b2 (eq_sym Ep) eq_refl eq_refl Hargs Hdc Hok Hds) as H.
  rewrite <- app_assoc in H. cbn [app] in H. apply H; [|exact Hv' | exact Hmod].
  revert Ht. unfold turns, MAX_COMPONENTS. cbn [sum_list_with c_args plain_comp has_args]. destruct (has_args args); lia.
Qed.

(** ** Names *)
Lemma does_name c cs d i r o T b :
  base_ok T (Class c cs) = true -> (base_depth (Class c cs) <= n)%nat -> no_args r ->
  zlength (o ++ (d_base T (Class c cs)).1) < SIZE_MOD ->
  does (W u d i (mangle_name c cs ++ r) o false T b) cpp_demangle_read_name any
    (W u d (i + zlength (mangle_name c cs)) r (o ++ (d_base T (Class c cs)).1) false
      (d_base T (Class c cs)).2 (base_tmpl (Class c cs))).
Proof.
  intros Hok Hd Hr Hmod. unfold cpp_demangle_read_name. destruct c as [x args]. destruct cs as [|c' cs].
  - pose proof (base_ok_Class _ _ _ _ Hok) as (Hop & Hx & Hargs & _).
    cbn [base_depth] in Hd. apply Nat.max_lub_iff in Hd as [Hdc%comp_args_depth _].
    pose proof (does_unscoped x args d i r o T b Hx Hop Hargs Hdc Hr Hmod) as H.
    change (mangle_name (Comp x args) []) with (mangle_comp (Comp x args)).
    destruct (mangle_comp_head (Comp x args)) as (a & l & E & Ha). rewrite E in *. cbn [app] in *.
    eapply does_any; [by apply does_guard_more, digit_not_NUL | intros _].
    eapply does_eq; [apply does_peek_cons|]. cbn [switch].
    rewrite !decide_False by (by apply isdigit_ne). exact H.
  - pose proof (does_nested x args (c' :: cs) d i r o T b Hok ltac:(done) Hd Hmod) as H.
    eapply does_any; [by apply does_guard_more | intros _].
    eapply does_eq; [apply does_peek_cons|]. exact H.
Qed.

Lemma does_name_under id args cs d i r o T b :
  base_ok T (Under id args cs) = true -> (base_depth (Under id args cs) <= n)%nat ->
  zlength (o ++ (d_base T (Under id args cs)).1) < SIZE_MOD ->
  does (W u d i (mangle_base (Under id args cs) ++ r) o false T b) cpp_demangle_read_name any
    (W u d (i + zlength (mangle_base (Under id args cs))) r (o ++ (d_base T (Under id args cs)).1) false
      (d_base T (Under id args cs)).2 (base_tmpl (Under id args cs))).
Proof.
  intros Hok Hd Hmod. pose proof (does_under id args cs d i r o T b Hok Hd Hmod) as H.
  unfold cpp_demangle_read_name.
  eapply does_any; [by apply does_guard_more | intros _].
  eapply does_eq; [apply does_peek_cons|]. exact H.
Qed.
End Names.

(** ** Qualifiers and types *)
Section Types.
Context {P : Platform} {I : Input} {R : Readers} (Hoom : never_oom).
Context {n : nat} (Hreads : reads_types R n) {u : option (list bytes)}.
Abbreviation any := (fun _ => True).

Context {d : nat}.

(** The local vector a candidate is built in *)
Definition holds (ss : list bytes) (c : option vector_str) : Prop := exists v, c = Some v /\ vec_ok v ss.

Lemma does_push_candidate w ss c : holds ss c -> concat ss <> [] ->
  does w (push_candidate c) any (on_ext (e_adds [concat ss]) w).
Proof. intros (v & -> & Hv) Hne. by eapply (does_push_subst_v Hoom). Qed.

Lemma does_grow_candidate w ss c x : holds ss c -> does w (grow_candidate c (Bytes x)) (holds (ss ++ [x])) w.
Proof.
  intros (v & -> & Hv). cbn [grow_candidate].
  eapply does_bind; [by apply (does_VEC_PUSH_STR Hoom)|]. intros v' Hv'. apply does_ret. by exists v'.
Qed.

Lemma concat_snoc (ss : list bytes) x : concat (ss ++ [x]) = concat ss ++ x.
Proof. rewrite concat_app. cbn. by rewrite app_nil_r. Qed.

Lemma snoc_ne (ss : list bytes) x : x <> [] -> concat (ss ++ [x]) <> [].
Proof. rewrite concat_snoc. intros Hx. by intros [_ ?]%app_nil. Qed.

Lemma does_push_qualifier_str {e} i r o q x c ss :
  x <> [] -> holds ss c ->
  does (View i r o q e) (push_qualifier_str (Bytes x) c) (holds (ss ++ [x]))
    (View i r (o ++ [x]) q (e_adds [concat ss ++ x] (plain e))).
Proof.
  intros Hx Hc. unfold push_qualifier_str.
  eapply does_any; [by apply (does_push_cstr Hoom) | intros _].
  eapply does_bind; [by apply does_grow_candidate|]. intros c' Hc'.
  eapply does_any; [by apply (does_push_candidate _ _ _ Hc'), snoc_ne | intros _].
  rewrite concat_snoc. by apply does_ret.
Qed.

Lemma does_push_cv_str {e} i r o q x next c ss :
  x <> [] -> holds ss c ->
  does (View i r o q e) (push_cv_str (Bytes x) next c) (holds (ss ++ [x]))
    (View i r (o ++ [x]) q (if match next with Some t => is_cv t | None => false end then plain e
                            else e_adds [concat ss ++ x] (plain e))).
Proof.
  intros Hx Hc. unfold push_cv_str.
  eapply does_any; [by apply (does_push_cstr Hoom) | intros _].
  eapply does_bind; [by apply does_grow_candidate|]. intros c' Hc'.
  rewrite <- concat_snoc. destruct (match next with Some t => _ | None => _ end).
  - apply does_bind_ret. by apply does_ret.
  - eapply does_any; [by apply (does_push_candidate _ _ _ Hc'), snoc_ne | intros _]. by apply does_ret.
Qed.

Lemma does_gets_pq w : does w (gets push_qualifier) (eq PUSH_ALL_QUALIFIER) w.
Proof. intros s Hs. exists (push_qualifier s), s. split; [done|]. split; [|done]. symmetry. apply Hs. Qed.

Lemma fmap_rev_list {A B} (f : A -> B) (l : list A) : f <$> rev l = rev (f <$> l).
Proof.
  induction l as [|x l IH]; [done|].
  change (f <$> (rev l ++ [x]) = rev (f <$> l) ++ [f x]). by rewrite fmap_app, IH.
Qed.

Lemma q_tag_cv q : is_cv (q_tag q) = q_is_cv q.
Proof. by destruct q. Qed.

Lemma q_text_ne q : lit (q_text q) <> [].
Proof. by destruct q. Qed.

(** The qualifiers are written innermost first. *)
Lemma does_push_qualifiers v qs : forall i r o q T b cv k c ss,
  holds ss c ->
  does (W u d i r o q T b) (push_qualifiers v (q_tag <$> qs) cv k c) any
    (W u d i r (o ++ ((fun x => lit (q_text x)) <$> qs)) q (cand_adds (q_cands (concat ss) qs) T)
      (match qs with [] => b | _ => false end)).
Proof.
  induction qs as [|x qs IH]; intros i r o q T b cv k c ss Hc; cbn [fmap list_fmap push_qualifiers q_cands].
  { rewrite app_nil_r. by apply does_ret. }
  eapply does_eq; [apply does_gets_pq|].
  rewrite !bool_decide_false by done. cbn [andb orb].
  replace (o ++ lit (q_text x) :: ((fun x => lit (q_text x)) <$> qs))
    with ((o ++ [lit (q_text x)]) ++ ((fun x => lit (q_text x)) <$> qs)) by (by rewrite <- app_assoc).
  assert (head (q_tag <$> qs) = q_tag <$> head qs) as Hhead by (by destruct qs).
  rewrite <- (concat_snoc ss).
  assert (forall T cv k c', holds (ss ++ [lit (q_text x)]) c' ->
    does (W u d i r (o ++ [lit (q_text x)]) q T false) (push_qualifiers v (q_tag <$> qs) cv k c') any
      (W u d i r ((o ++ [lit (q_text x)]) ++ ((fun x => lit (q_text x)) <$> qs)) q
        (cand_adds (q_cands (concat (ss ++ [lit (q_text x)])) qs) T) false)) as Hk.
  { intros T0 cv0 k0 c' Hc'. pose proof (IH i r (o ++ [lit (q_text x)]) q T0 false cv0 k0 c' _ Hc') as H. by destruct qs. }
  pose proof (q_text_ne x) as Hx.
  assert (match head qs with Some q' => q_is_cv q' | None => false end
    = match qs with q' :: _ => q_is_cv q' | [] => false end) as Hnext by (by destruct qs).
  destruct x; cbn [q_tag q_is_cv andb];
    first
    [ eapply does_bind; [by apply does_push_qualifier_str|]; intros c' Hc';
      rewrite <- concat_snoc; by apply (Hk (cand_add _ T))
    | rewrite Hhead, <- Hnext; eapply does_bind; [by apply (does_push_cv_str (e := Ext (Some T) d b u))|];
      intros c' Hc'; destruct (head qs) as [q'|]; cbn [fmap option_fmap option_map]; [rewrite q_tag_cv; destruct (q_is_cv q')|];
      rewrite <- ?concat_snoc; first [by apply Hk | by apply (Hk (cand_add _ T))] ].
Qed.

Lemma does_push_type_qualifier v qs i r o q T x b :
  q_ok v (q_tag <$> qs) [] -> b <> [] ->
  does (W u d i r o q T x) (cpp_demangle_push_type_qualifier v (Some (Bytes b))) any
    (W u d i r (o ++ qual_chunks qs) q (cand_adds (q_cands b (rev qs)) T) (match qs with [] => x | _ => false end)).
Proof.
  intros (_ & _ & Hq & _) Hb. unfold cpp_demangle_push_type_qualifier, q_size. rewrite Hq.
  destruct (Z.eqb_spec (zlength (q_tag <$> qs)) 0) as [E|_].
  - destruct qs; [|done]. unfold qual_chunks. cbn. rewrite app_nil_r. by apply does_ret.
  - eapply (does_bind _ _ _ _ _ (holds [b])).
    { eapply does_bind; [by apply (does_local_vec Hoom)|]. intros w Hw.
      eapply does_bind; [apply (does_VEC_PUSH_STR Hoom); exact Hw|]. intros w' Hw'. apply does_ret. by exists w'. }
    intros c Hc. eapply does_any; [|intros _; by apply does_ret].
    unfold qual_chunks. rewrite <- !fmap_rev_list.
    replace b with (concat [b]) at 1 by (cbn; by rewrite app_nil_r).
    replace (match qs with [] => x | _ => false end) with (match rev qs with [] => x | _ => false end)
      by (destruct qs as [|y ys]; [done|]; cbn [rev]; by destruct (rev ys)).
    by apply does_push_qualifiers.
Qed.

(** ** The loop over the qualifiers *)
Lemma does_push_q w v qs es t :
  q_ok v qs es -> does w (push_q v t) (fun v' => q_ok v' (qs ++ [t]) es) w.
Proof.
  intros Hv. unfold push_q. eapply does_bind.
  - apply (does_on_clock _ _ (fun r => r.1 = true /\ q_ok r.2 (qs ++ [t]) es)). intros k.
    destruct (vector_type_qualifier_push_ok v t qs es k Hv) as (b & v' & n' & E & _ & Hok & Hb).
    rewrite (Hb Hoom) in *. by eexists _, _.
  - intros [b v'] [Hb Hv']. cbn in Hb, Hv'. subst. by apply does_ret.
Qed.

Lemma does_set_ref {e} i r o q b : does (View i r o q e) (modify (set_ref_qualifier b)) any (View i r o b e).
Proof.
  intros s Hs. exists tt, (set_ref_qualifier b s). split; [done|]. split; [done|].
  destruct Hs. by constructor.
Qed.

Lemma does_note_ref {e} i r o q t : does (View i r o q e) (note_ref_qualifier t) any (View i r o true e).
Proof.
  eapply does_any; [apply does_set_ref | intros _]. intros s Hs.
  exists tt, (set_ref_qualifier_type (Some t) s). split; [done|]. split; [done|].
  destruct Hs. by constructor.
Qed.

Lemma does_gets_ref {e} i r o q : does (View i r o q e) (gets ref_qualifier) (eq q) (View i r o q e).
Proof. intros s Hs. exists (ref_qualifier s), s. split; [done|]. split; [|done]. symmetry. apply Hs. Qed.

Definition starts_base (c : ascii) : Prop :=
  c <> "R"%char /\ c <> "O"%char /\ c <> "E"%char /\ type_qualifier_of c = None.

(** The position, the vector and the rest that the base type leaves. *)
Definition base_result (td : option type_delimit) (tags : list type_qualifier) (p : Z)
    (builtin : bool) (t : type_result) : Prop :=
  tr_td t = td /\ q_ok (tr_v t) tags [] /\ tr_is_builtin t = builtin /\ tr_p_idx t = p /\
  tr_skip_ref_qualifier t = false.

Definition first_clear (td : option type_delimit) : Prop :=
  match td with Some t => firstp t = false | None => True end.

Lemma named_type_qualifier c s : builtin_type c = Some s -> starts_base c /\ c <> "D"%char /\ c <> "U"%char.
Proof. by destruct c as [[] [] [] [] [] [] [] []]. Qed.

Lemma digit_no_builtin c : ELFTC_ISDIGIT c = true ->
  starts_base c /\ builtin_type c = None /\ c <> "D"%char /\ c <> "U"%char.
Proof. by destruct c as [[] [] [] [] [] [] [] []]. Qed.

Lemma name_head_ok c : (ELFTC_ISDIGIT c = true \/ c = "N"%char) ->
  starts_base c /\ builtin_type c = None /\ c <> "D"%char /\ c <> "U"%char.
Proof. intros [H| ->]; [by apply digit_no_builtin | done]. Qed.

Lemma name_head_switch c : (ELFTC_ISDIGIT c = true \/ c = "N"%char) ->
  forall A (x1 x2 x3 x4 x5 x6 x7 x8 x9 d : A),
  switch c [("A", x1); ("E", x2); ("F", x3); ("I", x4); ("M", x5); ("S", x6); ("T", x7);
            ("u", x8); ("v", x9)]%char d = d.
Proof.
  intros H A x1 x2 x3 x4 x5 x6 x7 x8 x9 d0. cbn [switch].
  assert (forall d, ELFTC_ISDIGIT d = false -> d <> "N"%char -> c <> d) as Hne.
  { intros y Hd Hn ->. destruct H as [H|H]; congruence. }
  by rewrite !decide_False by (by apply Hne).
Qed.

(** The first character of the base type ends the loop. *)
Lemma does_loop_core {e r0} i c l o q td v p fuel Q w' :
  starts_base c -> c <> "D"%char -> c <> "U"%char ->
  does (View i (c :: l) o false e) (read_type_core r0 td v p c) Q w' ->
  does (View i (c :: l) o q e) (read_type_loop (S fuel) r0 td v p) Q w'.
Proof.
  intros (H1 & H2 & H3 & Hq) Hd Hu Hm. cbn [read_type_loop].
  eapply does_eq; [apply does_peek_cons|].
  apply does_else; [by intros [?|[?|?]]|].
  eapply does_any; [apply does_set_ref | intros _].
  rewrite Hq. rewrite !decide_False by done. exact Hm.
Qed.

(** A base type that starts like a name is read as one. *)
Lemma does_base_name {e r0} i c l o q td tags v p fuel w' :
  (ELFTC_ISDIGIT c = true \/ c = "N"%char) -> q_ok v tags [] ->
  does (View i (c :: l) o false e) cpp_demangle_read_name any w' ->
  does (View i (c :: l) o q e) (read_type_loop (S fuel) r0 td v p) (base_result td tags p false) w'.
Proof.
  intros Hc Hv Hn. destruct (name_head_ok c Hc) as (H1 & H2 & H3 & H4).
  apply does_loop_core; [done..|]. unfold read_type_core. rewrite H2, name_head_switch by done.
  eapply does_any; [exact Hn | intros _]. by apply does_ret.
Qed.

(** The base type itself. *)
Lemma does_base b i r o q td tags v p fuel T x :
  base_ok T b = true -> (base_depth b <= n)%nat -> q_ok v tags [] -> no_args r -> (b = Void -> first_clear td) ->
  zlength (o ++ (d_base T b).1) < SIZE_MOD ->
  does (W u d i (mangle_base b ++ r) o q T x) (read_type_loop (S fuel) (out_ref u) td v p)
    (base_result td tags p (is_builtin b))
    (W u d (i + zlength (mangle_base b)) r (o ++ (d_base T b).1) false (d_base T b).2 (base_tmpl b)).
Proof using Hoom Hreads.
  intros Hb Hd Hv Hr Htd Hmod. destruct b as [c|c| |c cs|id|id|id args|id args cs].
  - cbn [mangle_base app base_run fst snd is_builtin base_tmpl base_ok] in *.
    apply bool_decide_eq_true in Hb as [s Hs]. rewrite Hs. destruct (named_type_qualifier c s Hs) as (H1 & H2 & H3).
    apply does_loop_core; [done..|]. unfold read_type_core. rewrite Hs.
    eapply does_any; [apply (does_push_lit Hoom); by eapply builtin_text_ne | intros _].
    eapply does_any; [apply does_advance1 | intros _]. by apply does_ret.
  - cbn [mangle_base app base_run fst snd is_builtin base_tmpl base_ok] in *.
    apply bool_decide_eq_true in Hb as [s Hs]. rewrite Hs. cbn [read_type_loop].
    eapply does_eq; [apply does_peek_cons|]. apply does_else; [by intros [?|[?|?]]|].
    eapply does_any; [apply does_set_ref | intros _].
    change (type_qualifier_of "D") with (@None type_qualifier). rewrite decide_True by done.
    eapply does_any; [apply does_advance1 | intros _].
    eapply does_eq; [apply does_peek_cons|]. rewrite Hs.
    eapply does_any; [apply (does_push_lit Hoom); by eapply builtin_D_text_ne | intros _].
    change (zlength ["D"%char; c]) with (1 + 1). rewrite Z.add_assoc.
    eapply does_any; [apply does_advance1 | intros _]. by apply does_ret.
  - cbn [mangle_base app base_run fst snd is_builtin base_tmpl] in *.
    apply does_loop_core; [done..|]. unfold read_type_core.
    change (builtin_type "v") with (@None string). cbn [switch]. rewrite !decide_False by done.
    rewrite decide_True by done. eapply does_eq; [apply does_cur|].
    eapply does_any.
    { specialize (Htd eq_refl). unfold first_clear in Htd.
      destruct td as [t|]; [rewrite Htd|]; by apply (does_push_lit Hoom). }
    intros _. eapply does_any; [apply does_advance1 | intros _]. by apply does_ret.
  - destruct (mangle_name_head c cs) as (a & l & E & Ha).
    pose proof (does_name Hoom Hreads (u := u) c cs d i r o T x Hb Hd Hr Hmod) as Hn. change (mangle_base (Class c cs)) with (mangle_name c cs).
    rewrite E in *. by apply does_base_name.
  - cbn [base_run fst snd is_builtin base_tmpl base_ok] in *. apply bool_decide_eq_true in Hb as [Hid He].
    cbn [mangle_base]. unfold mangle_back. cbn [app]. apply does_loop_core; [done..|]. unfold read_type_core.
    change (builtin_type "S") with (@None string). cbn [switch]. rewrite !decide_False by done.
    rewrite decide_True by done. rewrite <- app_assoc. cbn [app].
    eapply does_any; [|intros _; by apply does_ret].
    replace (i + zlength _) with (i + 2 + zlength (seq_text id)).
    2: { rewrite zlength_cons, zlength_app. change (zlength ["_"%char]) with 1. lia. }
    by apply (does_subst Hoom); [| apply nth_text_lookup |].
  - cbn [base_run fst snd is_builtin base_tmpl base_ok] in *. apply bool_decide_eq_true in Hb as [Hid He].
    cbn [mangle_base]. unfold mangle_param. cbn [app]. apply does_loop_core; [done..|]. unfold read_type_core.
    change (builtin_type "T") with (@None string). cbn [switch]. rewrite !decide_False by done.
    rewrite decide_True by done. rewrite <- app_assoc. cbn [app].
    eapply does_any; [|intros _; by apply does_ret].
    replace (i + zlength _) with (i + 2 + zlength (seq_text id)).
    2: { rewrite zlength_cons, zlength_app. change (zlength ["_"%char]) with 1. lia. }
    by apply (does_tmpl_param Hoom); [| apply nth_text_lookup |].
  - done.
  - pose proof (does_name_under Hoom Hreads (u := u) id args cs d i r o T x Hb Hd Hmod) as Hn.
    cbn [is_builtin mangle_base app] in *. apply does_base_name; [by right | exact Hv | exact Hn].
Qed.

Definition clear_after (qs : list qual) (td : option type_delimit) : option type_delimit :=
  match qs with [] => td | _ => clear_firstp td end.

Lemma clear_clear td : clear_firstp (clear_firstp td) = clear_firstp td.
Proof. by destruct td as [[]|]. Qed.

Lemma qual_char_qualifier x : type_qualifier_of (q_char x) = Some (q_tag x).
Proof. by destruct x. Qed.

(** One qualifier moves to the vector. *)
Lemma does_one_qual {e r0} x i l o q td tags v p fuel Q w' :
  (is_ref x = true -> q = false) -> q_ok v tags [] ->
  (forall v', q_ok v' (tags ++ [q_tag x]) [] ->
    does (View (i + 1) l o (is_ref x) e) (read_type_loop fuel r0 (clear_firstp td) v' p) Q w') ->
  does (View i (q_char x :: l) o q e) (read_type_loop (S fuel) r0 td v p) Q w'.
Proof.
  intros Hx Hv Hk. cbn [read_type_loop]. eapply does_eq; [apply does_peek_cons|].
  rewrite qual_char_qualifier.
  destruct (is_ref x) eqn:Hr.
  - specialize (Hx eq_refl). subst q.
    assert (q_tag x = TYPE_REF \/ q_tag x = TYPE_RREF) as Ht by (destruct x; try done; auto).
    apply does_then; [destruct x; try done; auto|].
    apply does_bind_ret.
    eapply does_eq; [apply does_gets_ref|]. rewrite !(decide_True _ _ Ht).
    apply does_guard; [done|]. eapply does_bind; [by apply does_push_q|]. intros v' Hv'.
    eapply does_any; [apply does_note_ref | intros _].
    eapply does_any; [apply does_advance1 | intros _]. by apply Hk.
  - assert (~ (q_tag x = TYPE_REF \/ q_tag x = TYPE_RREF)) as Ht by (destruct x; try done; by intros [?|?]).
    apply does_else; [destruct x; try done; by intros [?|[?|?]]|].
    eapply does_any; [apply does_set_ref | intros _].
    eapply does_eq; [apply does_gets_ref|]. rewrite !(decide_False _ _ Ht).
    apply does_bind_ret. eapply does_bind; [by apply does_push_q|]. intros v' Hv'.
    apply does_bind_ret.
    eapply does_any; [apply does_advance1 | intros _]. by apply Hk.
Qed.

Lemma does_quals b qs : forall i r o q td tags v p fuel T y,
  (length qs < fuel)%nat ->
  base_ok T b = true -> (base_depth b <= n)%nat -> refs_ok q qs = true -> q_ok v tags [] -> no_args r ->
  (b = Void -> first_clear (clear_after qs td)) ->
  zlength (o ++ (d_base T b).1) < SIZE_MOD ->
  does (W u d i (mangle_ty (Ty qs b) ++ r) o q T y) (read_type_loop fuel (out_ref u) td v p)
    (base_result (clear_after qs td) (tags ++ (q_tag <$> qs)) p (is_builtin b))
    (W u d (i + zlength (mangle_ty (Ty qs b))) r (o ++ (d_base T b).1) false (d_base T b).2 (base_tmpl b)).
Proof using Hoom Hreads.
  cbn [mangle_ty].
  induction qs as [|x qs IH]; intros i r o q td tags v p fuel T y Hf Hb Hd Hrefs Hv Hr Htd Hmod;
    (destruct fuel as [|fuel]; [cbn in Hf; lia|]); cbn [fmap list_fmap app clear_after].
  - rewrite app_nil_r. by apply does_base.
  - cbn [refs_ok] in Hrefs. apply andb_true_iff in Hrefs as [Hx Hrefs].
    assert (is_ref x = true -> q = false) as Hx' by (intros E; rewrite E in Hx; by destruct q).
    eapply does_one_qual; [exact Hx' | exact Hv|]. intros v' Hv'.
    rewrite zlength_cons, Z.add_assoc.
    replace (clear_firstp td) with (clear_after qs (clear_firstp td)) at 2.
    2: { destruct qs; [done|]. apply clear_clear. }
    replace (tags ++ q_tag x :: (q_tag <$> qs)) with ((tags ++ [q_tag x]) ++ (q_tag <$> qs))
      by (by rewrite <- app_assoc).
    apply IH; try done; [cbn in Hf; lia|].
    intros ->. specialize (Htd eq_refl). cbn [clear_after] in Htd.
    destruct qs; [done|]. cbn [clear_after]. by rewrite clear_clear.
Qed.
End Types.
