(* ===== verification/RoundtripTypes.v ===== *)
(** * Evaluating a whole type

    [cpp_demangle_read_type] on [Mangling]'s fragment: the delimiter of a
    parameter list, the base, the qualifiers, and what is entered in the table
    at the end.  By induction over the levels, the readers of any level read
    the types that are less deep ([readers_read]). *)
From S2P Require Import Prelude CString Platform VectorStr VectorAux DemState DemQual DemLex DemReaders DemNames DemTypes Demangler DemEval DemLexEval DemSeq Mangling Roundtrip.

(** ** One type *)
Section Type_.
Context {P : Platform} {I : Input} {R : Readers} (Hoom : never_oom).
Context {n : nat} (Hreads : reads_types R n).
Abbreviation any := (fun _ => True).

Context {d : nat} {u : option (list bytes)}.

Lemma does_lit i r o q T b x :
  lit x <> [] -> does (W u d i r o q T b) (DEM_PUSH_STR x) any (W u d i r (o ++ [lit x]) q T false).
Proof. apply (does_push_lit (e := Ext (Some T) d b u) Hoom). Qed.

Definition delim_chunks (td : option type_delimit) : list bytes :=
  match td with
  | None => []
  | Some t => (if paren t then [] else [lit "("]) ++ (if firstp t then [] else [lit ", "])
  end.

Definition delim_after (td : option type_delimit) : option type_delimit :=
  match td with None => None | Some t => Some (TypeDelimit true (firstp t)) end.

(** Without a delimiter, nothing has been written. *)
Definition delim_flag (td : option type_delimit) (b : bool) : bool :=
  match delim_chunks td with [] => b | _ => false end.

Lemma does_delimiter i r o q T b td :
  no_args r -> (td <> None -> o <> [] /\ u = None) ->
  does (W u d i r o q T b) (push_delimiter td) (eq (delim_after td)) (W u d i r (o ++ delim_chunks td) q T (delim_flag td b)).
Proof using Hoom.
  intros Hr Ho. destruct td as [[pa fi]|]; cbn [push_delimiter delim_chunks delim_after paren firstp].
  2: { rewrite app_nil_r. by apply does_ret. }
  destruct (Ho ltac:(done)) as [Ho' Hu].
  eapply (does_any _ (W u d i r (o ++ if pa then [] else [lit "("]) q T (if pa then b else false))).
  { destruct pa; [rewrite app_nil_r; by apply does_ret|].
    eapply does_any; [by apply does_lit | intros _].
    eapply does_eq; [apply does_out_size; cbn; by rewrite Hu|]. apply does_guard_end.
    rewrite zlength_app. pose proof (zlength_pos o Ho').
    apply negb_true_iff, Z.ltb_ge. change (zlength [lit "("]) with 1. lia. }
  intros _. rewrite app_assoc.
  eapply (does_any _ (W u d i r ((o ++ if pa then [] else [lit "("]) ++ if fi then [] else [lit ", "]) q T
    (delim_flag (Some (TypeDelimit pa fi)) b))).
  { destruct fi; [rewrite app_nil_r; destruct pa; by apply does_ret|].
    eapply does_eq; [apply does_peek|]. apply does_if_true; [by apply no_args_peek|].
    destruct pa; by apply does_lit. }
  intros _. by apply does_ret.
Qed.

(** The local vector is destroyed, and the delimiter is no longer the first. *)
Lemma does_finish_end w w' v qs td (m : M unit) :
  q_ok v qs [] -> does w m any w' ->
  does w (m;; on_clock (vector_type_qualifier_dest v);; mret (clear_firstp td))
    (eq (clear_firstp td)) w'.
Proof.
  intros (_ & _ & _ & Hv) Hm. eapply does_any; [exact Hm | intros _]. eapply does_any.
  - apply does_on_clock. intros k. eexists tt, k. split; [|done].
    by apply (vector_str_dest_ok _ []).
  - intros _. by apply does_ret.
Qed.

Lemma does_vector_init w :
  does w (on_clock vector_type_qualifier_init) (fun x => exists v, x = Some v /\ q_ok v [] []) w.
Proof.
  apply does_on_clock. intros k.
  destruct (vector_type_qualifier_init_ok k) as (x & n' & E & _ & Hs & Hx).
  destruct (Hs Hoom) as [v ->]. eexists _, _. split; [done|]. eauto.
Qed.

(** What finishing a type adds to the table: the base unless it is built in,
    and the qualified types. *)
Lemma does_finish i r o q k qs td builtin t T b :
  concat k <> [] -> zlength (o ++ k) < SIZE_MOD ->
  base_result td (q_tag <$> qs) (zlength o) builtin t ->
  does (W u d i r (o ++ k) q T b) (finish_type (out_ref u) t) (eq (clear_firstp td))
    (W u d i r ((o ++ k) ++ qual_chunks qs) q
      (cand_adds ((if builtin then [] else [concat k]) ++ q_cands (concat k) (rev qs)) T)
      (match qs with [] => b | _ => false end)).
Proof using Hoom.
  intros Hc Hmod (<- & Hv & <- & Hp & Hsk). unfold finish_type. rewrite Hp, Hsk.
  eapply does_eq; [apply (does_substr Hoom); [by apply pieces_ne | done | done]|]. cbn [fmap option_fmap option_map fst].
  rewrite cand_adds_app. eapply (does_any _ (W u d i r (o ++ k) q (cand_adds (if tr_is_builtin t then [] else [concat k]) T) b)).
  { destruct (tr_is_builtin t); [by apply does_ret|]. apply (does_add_new Hoom (W u d i r (o ++ k) q T b)). }
  intros _. eapply does_finish_end; [exact Hv|]. by apply (does_push_type_qualifier Hoom).
Qed.

(** A whole type: the delimiter, the base, the qualifiers. *)
Lemma does_read_type t i r o td T b :
  ty_ok T t = true -> (ty_depth t <= n)%nat -> no_args r -> (td <> None -> o <> [] /\ u = None) ->
  (base_of t = Void -> quals t <> [] \/ first_clear td) ->
  zlength (o ++ delim_chunks td ++ ty_chunks T t) < SIZE_MOD ->
  does (W u d i (mangle_ty t ++ r) o false T b) (cpp_demangle_read_type td)
    (eq (clear_firstp (delim_after td)))
    (W u d (i + zlength (mangle_ty t)) r (o ++ delim_chunks td ++ ty_chunks T t) false (ty_table T t) (ty_tmpl t)).
Proof using Hoom Hreads.
  intros Ht Hd Hr Ho Hvoid Hmod. apply does_pos. intros Hi Hlen.
  pose proof (mangle_ty_no_args T t r Ht) as Hna.
  destruct t as [qs b0]. cbn [ty_ok] in Ht. apply andb_true_iff in Ht as [Hb Hrefs].
  unfold ty_chunks, ty_table, ty_tmpl in *. rewrite ty_run_eq in *. cbn [fst snd quals base_of ty_depth] in *.
  rewrite !app_assoc. rewrite !app_assoc, zlength_app in Hmod.
  pose proof (zlength_nonneg (qual_chunks qs)). unfold cpp_demangle_read_type.
  assert (zlength qs <= zlength input) as Hq.
  { cbn [mangle_ty] in Hlen. rewrite !zlength_app in Hlen.
    pose proof (zlength_nonneg (mangle_base b0)). pose proof (zlength_nonneg r).
    assert (zlength (q_char <$> qs) = zlength qs) by (unfold zlength; by rewrite length_fmap). lia. }
  eapply does_eq; [apply does_gets_out|].
  eapply does_eq; [by apply does_delimiter|].
  eapply does_bind; [apply does_vector_init|].
  intros ? (v & -> & Hv). eapply does_eq; [by apply does_out_size|].
  eapply does_bind.
  { apply (does_quals Hoom Hreads); [unfold zlength in Hq; lia | exact Hb | exact Hd | exact Hrefs | exact Hv | exact Hr | |].
    - intros ->. destruct (Hvoid eq_refl) as [Hne|Hc]; [by destruct qs, td as [[]|]|].
      destruct qs, td as [[]|]; cbn in *; done.
    - lia. }
  intros tr Htr. cbn [app] in Htr.
  eapply does_weaken; [eapply does_finish; [by apply base_text_ne | lia | exact Htr]|].
  intros ? <-. destruct qs; [done|]. by rewrite clear_clear.
Qed.

End Type_.

(** The readers over [m] levels read the types of less than [m] levels. *)
Lemma readers_read {P : Platform} {I : Input} (Hoom : never_oom) m : reads_types (readers m) m.
Proof.
  induction m as [|m IH]; intros t u d i r o T b Hd Ht Hr Hmod; [lia|]. cbn [readers r_type].
  pose proof (does_read_type Hoom IH (d := d) (u := u) t i r o None T b Ht ltac:(lia) Hr ltac:(done) ltac:(by right) Hmod) as H.
  exact H.
Qed.

