(* ===== verification/CxaAtexit.v ===== *)
(** * cxa_atexit.c: handlers to run at exit

    Models [__cxa_atexit] and [__cxa_finalize] of [cxa_atexit.c] (built for
    Solaris, where the C library has none) and the destructor of
    [cxa_finalize.c] that calls the latter with the library's handle.  The
    list of handlers lives in a heap of nodes that knows which blocks have
    been freed; the pointer [last] into the list is the address of [head] or
    of a node's [next]. *)
From stdpp Require Import gmap.
From S2P Require Import Prelude CString Platform.

(** struct atexit_handler; functions, arguments and library handles are
    addresses, 0 is NULL. *)
Record atexit_handler := AtexitHandler { h_f : Z; h_p : Z; h_d : Z; h_next : option nat }.

Inductive block := Live (h : atexit_handler) | FreedBlock (h : atexit_handler).

Record atexit_state := AtexitState {
  head_ptr : option nat;
  heap : gmap nat block;
  calls : list (Z * Z);     (** the handlers called so far, with their argument *)
  locked : bool;
  at_clock : nat;
}.

(** [struct atexit_handler **last] *)
Inductive link := LHead | LNext (l : nat).

Definition set_head x s := AtexitState x (heap s) (calls s) (locked s) (at_clock s).
Definition set_heap x s := AtexitState (head_ptr s) x (calls s) (locked s) (at_clock s).
Definition set_calls x s := AtexitState (head_ptr s) (heap s) x (locked s) (at_clock s).
Definition set_locked x s := AtexitState (head_ptr s) (heap s) (calls s) x (at_clock s).
Definition set_at_clock x s := AtexitState (head_ptr s) (heap s) (calls s) (locked s) x.

Abbreviation A := (comp atexit_state).

Section Atexit.
Context {P : Platform}.

(** The handlers' code is not part of the library: what is recorded is that
    and with which argument each is called. [stale] says whether a block
    that was freed still reads as it did, as it does with allocators that
    leave freed memory alone. *)
Context (stale : bool).

(** [pthread_mutex_lock], not recursive: locking twice never returns, so the
    caller must not hold the lock. *)
Definition lock : A unit :=
  l ← gets locked;
  if (l : bool) then crashed Deadlock else modify (set_locked true).
Definition unlock : A unit := modify (set_locked false).

Definition read_node (l : nat) : A atexit_handler := fun s =>
  match heap s !! l with
  | Some (Live h) => Ok h s
  | Some (FreedBlock h) => if stale then Ok h s else Crash UseAfterFree
  | None => Crash OutOfBounds
  end.

Definition free_node (l : nat) : A unit := fun s =>
  match heap s !! l with
  | Some (Live h) => Ok tt (set_heap (<[l := FreedBlock h]> (heap s)) s)
  | Some (FreedBlock _) => Crash DoubleFree
  | None => Crash OutOfBounds
  end.

(** [*last = next] *)
Definition write_link (k : link) (next : option nat) : A unit :=
  match k with
  | LHead => modify (set_head next)
  | LNext l =>
      h ← read_node l;
      modify (fun s => set_heap (<[l := Live (AtexitHandler (h_f h) (h_p h) (h_d h) next)]> (heap s)) s)
  end.

Definition SIZEOF_HANDLER : Z := 32.

Definition __cxa_atexit (f p d : Z) : A Z :=
  lock;;
  n ← gets at_clock;
  modify (set_at_clock (S n));;
  if malloc_ok n SIZEOF_HANDLER then
    hd ← gets head_ptr;
    modify (fun s => set_heap (<[n := Live (AtexitHandler f p d hd)]> (heap s)) s);;
    modify (set_head (Some n));;
    unlock;; mret 0
  else unlock;; mret 1.

Definition call_handler (f p : Z) : A unit :=
  modify (fun s => set_calls (calls s ++ [(f, p)]) s).

(** The node is unlinked, its handler called, the node freed. *)
Definition run_handler (last : link) (l : nat) (h : atexit_handler) : A unit :=
  write_link last (h_next h);;
  call_handler (h_f h) (h_p h);;
  free_node l.

(** The [for] loop, one turn per node; the step [h = h->next] comes after
    the body, which may have freed [h]. *)
Fixpoint finalize_loop (fuel : nat) (d : Z) (last : link) (cur : option nat) : A unit :=
  match cur with
  | None => mret tt
  | Some l =>
      match fuel with
      | O => no_fuel
      | S fuel =>
          h ← read_node l;
          last ← (if (h_d h =? d) || (d =? 0) then
                    run_handler last l h;; mret last
                  else mret (LNext l));
          h ← read_node l;
          finalize_loop fuel d last (h_next h)
      end
  end.

(** As many turns as the heap has blocks are enough for a list in it. *)
Definition __cxa_finalize (d : Z) : A unit :=
  lock;;
  hd ← gets head_ptr;
  n ← gets (fun s => size (heap s));
  finalize_loop n d LHead hd;;
  unlock.

(** [cxa_finalize.c]: run when the library is unloaded, with the address of
    its own handle. *)
Definition cleanup (dso_handle : Z) : A unit := __cxa_finalize dso_handle.
End Atexit.
