(* ===== verification/DwarfEh.v ===== *)
(** * dwarf_eh.h: reading DWARF exception tables

    Models [dwarf_eh.h]: encoded values, the header of a language-specific
    data area (LSDA) and the search of the call-site table.  A function that
    takes [dw_eh_ptr_t *data] is a computation whose state is [*data].
    Addresses and [uint64_t] values are [Z], 64 bits wide; [int] has 32 bits,
    and a left shift of an [int] wraps, as the compilers document, but the
    count must be less than 32. *)
From S2P Require Import Prelude.

(** The memory the tables are in, and the order of the bytes of an integer. *)
Class Memory := {
  load : Z -> option Z;
  little_endian : bool;
}.

(** What the unwinder, which is not part of the library, says of the frame:
    [_Unwind_GetIP], [.._GetRegionStart], [.._GetTextRelBase],
    [.._GetDataRelBase]. *)
Record unwind_context := UnwindContext {
  uc_ip : Z; uc_region_start : Z; uc_text_base : Z; uc_data_base : Z }.

Definition u64 (v : Z) : Z := v mod 2 ^ 64.

(** The value of the [w] low bits of [v] as a signed integer. *)
Definition signed (w v : Z) : Z :=
  let r := v mod 2 ^ w in if r <? 2 ^ (w - 1) then r else r - 2 ^ w.

(** ** Encodings *)
Definition DW_EH_PE_absptr : Z := 0.
Definition DW_EH_PE_uleb128 : Z := 1.
Definition DW_EH_PE_udata2 : Z := 2.
Definition DW_EH_PE_udata4 : Z := 3.
Definition DW_EH_PE_udata8 : Z := 4.
Definition DW_EH_PE_signed : Z := 8.
Definition DW_EH_PE_sleb128 : Z := Z.lor DW_EH_PE_uleb128 DW_EH_PE_signed.
Definition DW_EH_PE_sdata2 : Z := Z.lor DW_EH_PE_udata2 DW_EH_PE_signed.
Definition DW_EH_PE_sdata4 : Z := Z.lor DW_EH_PE_udata4 DW_EH_PE_signed.
Definition DW_EH_PE_sdata8 : Z := Z.lor DW_EH_PE_udata8 DW_EH_PE_signed.
Definition DW_EH_PE_omit : Z := 255.
Definition DW_EH_PE_pcrel : Z := 16.
Definition DW_EH_PE_textrel : Z := 32.
Definition DW_EH_PE_datarel : Z := 48.
Definition DW_EH_PE_funcrel : Z := 64.
Definition DW_EH_PE_indirect : Z := 128.

Definition get_encoding (x : Z) : Z := Z.land x 15.
Definition get_base (x : Z) : Z := Z.land x 112.
Definition is_indirect (x : Z) : bool := Z.land x DW_EH_PE_indirect =? DW_EH_PE_indirect.

Definition SIZEOF_PTR : Z := 8.

(** [None] is [abort()]. *)
Definition dwarf_size_of_fixed_size_field (type : Z) : option Z :=
  switch (get_encoding type)
    [(DW_EH_PE_sdata2, Some 2); (DW_EH_PE_udata2, Some 2);
     (DW_EH_PE_sdata4, Some 4); (DW_EH_PE_udata4, Some 4);
     (DW_EH_PE_sdata8, Some 8); (DW_EH_PE_udata8, Some 8);
     (DW_EH_PE_absptr, Some SIZEOF_PTR)] None.

(** The integer a sequence of bytes is, the least significant first. *)
Definition le_value (bs : list Z) : Z := fold_right (fun b acc => b + 256 * acc) 0 bs.

Abbreviation D := (comp Z).

Section Reading.
Context {Mem : Memory}.

Definition mem_value (bs : list Z) : Z := le_value (if little_endian then bs else rev bs).

Definition byte_at (p : Z) : D Z := fun s =>
  match load p with
  | Some b => Ok b s
  | None => Crash OutOfBounds
  end.

(** [*(( *data)++)] *)
Definition read_byte : D Z :=
  p ← gets id;
  b ← byte_at p;
  modify (fun p => p + 1);;
  mret b.

Fixpoint read_bytes (n : nat) : D (list Z) :=
  match n with
  | O => mret []
  | S n => b ← read_byte; bs ← read_bytes n; mret (b :: bs)
  end.

(** [digit << bit], where [digit] is an [int] *)
Definition shift_digit (digit bit : Z) : D Z :=
  if bit <? 32 then mret (signed 32 (Z.shiftl digit bit)) else crashed BadShift.

(** The [do] loop; the assertion allows ten turns. *)
Fixpoint leb128_loop (turns : nat) (uleb bit : Z) : D (Z * Z) :=
  match turns with
  | O => no_fuel
  | S turns =>
      assert_ (bit <? 64);;
      byte ← read_byte;
      let digit := Z.land byte 127 in
      d ← shift_digit digit bit;
      let uleb := u64 (uleb + d) in
      if byte =? digit then mret (uleb, bit + 7) else leb128_loop turns uleb (bit + 7)
  end.

(** The value and the number of bits read *)
Definition read_leb128 : D (Z * Z) := leb128_loop 11 0 0.

Definition read_uleb128 : D Z := '(uleb, _) ← read_leb128; mret (signed 64 uleb).

Definition read_sleb128 : D Z :=
  '(uleb, bits) ← read_leb128;
  let uleb := if Z.shiftr uleb (bits - 1) =? 1
              then Z.lor uleb (u64 (Z.shiftl (-1) bits)) else uleb in
  mret (signed 64 uleb).

(** [READ(dwarf, type)], for a type of [n] bytes *)
Definition READ (n : nat) (sg : bool) : D Z :=
  bs ← read_bytes n;
  let t := mem_value bs in
  mret (u64 (if sg then signed (8 * Z.of_nat n) t else t)).

Definition read_value (encoding : Z) : D Z :=
  switch (get_encoding encoding)
    [(DW_EH_PE_udata2, READ 2 false); (DW_EH_PE_udata4, READ 4 false);
     (DW_EH_PE_udata8, READ 8 false); (DW_EH_PE_sdata2, READ 2 true);
     (DW_EH_PE_sdata4, READ 4 true); (DW_EH_PE_sdata8, READ 8 true);
     (DW_EH_PE_absptr, READ 8 true);
     (DW_EH_PE_sleb128, v ← read_sleb128; mret (u64 v));
     (DW_EH_PE_uleb128, v ← read_uleb128; mret (u64 v))]
    (crashed AssertFail).

(** The pointer at an address. *)
Definition load_pointer (p : Z) : D Z := fun s =>
  match READ 8 false p with
  | Ok v _ => Ok v s
  | Fail _ => Fail s
  | Crash c => Crash c
  | NoFuel => NoFuel
  end.

Definition resolve_indirect_value (c : unwind_context) (encoding v start : Z) : D Z :=
  let base := switch (get_base encoding)
    [(DW_EH_PE_pcrel, start); (DW_EH_PE_textrel, uc_text_base c);
     (DW_EH_PE_datarel, uc_data_base c); (DW_EH_PE_funcrel, uc_region_start c)] 0 in
  let v := u64 (v + base) in
  if is_indirect encoding then load_pointer v else mret v.

(** [out] is what [*out] holds before. *)
Definition read_value_with_encoding (c : unwind_context) (out : Z) : D Z :=
  start ← gets id;
  encoding ← read_byte;
  if encoding =? DW_EH_PE_omit then mret out else
  v ← read_value encoding;
  resolve_indirect_value c encoding v start.
End Reading.

(** ** The language-specific data area *)
Record dwarf_eh_lsda := DwarfEhLsda {
  region_start : Z;
  landing_pads : Z;
  type_table : Z;
  type_table_encoding : Z;
  call_site_table : Z;
  action_table : Z;
  callsite_encoding : Z;
}.

Record dwarf_eh_action := DwarfEhAction { landing_pad : Z; action_record : Z }.

Section Lsda.
Context {Mem : Memory}.

(** For targets other than 32-bit ARM without DWARF tables. *)
Definition parse_lsda (c : unwind_context) : D dwarf_eh_lsda :=
  let rs := uc_region_start c in
  lp ← read_value_with_encoding c rs;
  tte ← read_byte;
  tt_ ← (if tte =? DW_EH_PE_omit then mret 0 else
           v ← read_uleb128;
           data ← gets id;
           mret (u64 (data + v)));
  cse ← read_byte;
  callsite_size ← read_uleb128;
  data ← gets id;
  mret (DwarfEhLsda rs lp tt_ tte data (u64 (data + callsite_size)) cse).

(** The fields of a record of the call-site table. *)
Record call_site := CallSite { cs_start : Z; cs_size : Z; cs_pad : Z; cs_action : Z }.

(** What a record that covers the instruction makes of the result. *)
Definition action_of (lsda : dwarf_eh_lsda) (e : call_site) : dwarf_eh_action :=
  DwarfEhAction
    (if cs_pad e =? 0 then 0 else u64 (landing_pads lsda + cs_pad e))
    (if cs_action e =? 0 then 0 else u64 (action_table lsda + cs_action e - 1)).

Definition covers (ip : Z) (e : call_site) : bool :=
  (cs_start e <? ip) && (ip <=? u64 (cs_start e + cs_size e)).

Definition no_action : dwarf_eh_action := DwarfEhAction 0 0.

(** The [while] loop; the state is [callsite_table]. *)
Fixpoint callsite_loop (fuel : nat) (lsda : dwarf_eh_lsda) (ip : Z) : D (bool * dwarf_eh_action) :=
  callsite_table ← gets id;
  if negb (callsite_table <=? action_table lsda) then mret (false, no_action) else
  match fuel with
  | O => no_fuel
  | S fuel =>
      call_site_start ← read_value (callsite_encoding lsda);
      call_site_size ← read_value (callsite_encoding lsda);
      if call_site_start >? ip then mret (false, no_action) else
      landing_pad ← read_value (callsite_encoding lsda);
      action ← read_uleb128;
      let e := CallSite call_site_start call_site_size landing_pad (u64 action) in
      if covers ip e then mret (true, action_of lsda e) else callsite_loop fuel lsda ip
  end.

(** A record has at least four bytes, so this is more turns than the loop
    takes. *)
Definition callsite_fuel (lsda : dwarf_eh_lsda) : nat :=
  Z.to_nat (action_table lsda - call_site_table lsda + 1).

(** Whether there is a record for the instruction, and the result. *)
Definition dwarf_eh_find_callsite (c : unwind_context) (lsda : dwarf_eh_lsda)
    : outcome Z (bool * dwarf_eh_action) :=
  callsite_loop (callsite_fuel lsda) lsda (u64 (uc_ip c - uc_region_start c))
    (call_site_table lsda).
End Lsda.
