(* ===== verification/Guard.v ===== *)
(** * guard.cc: guards of static initialisation

    Models [guard.cc] over the atomic words of [atomic.h]: the two layouts of
    a guard, [SingleWordGuard] and [DoubleWordGuard], and
    [__cxa_guard_acquire], [__cxa_guard_release] and [__cxa_guard_abort],
    called by any number of threads.  A thread's program counter says which
    access to the guard it makes next; one step of the machine is one atomic
    access, in any order of the threads.  Accesses are sequentially
    consistent; [compare_exchange] may fail spuriously, as the weak form the
    GNU builtin is called with may.  The constructor between an acquire and a
    release or abort is not part of the library: it may end or throw. *)
From S2P Require Import Prelude.

(** ** atomic.h *)

(** [compare_exchange(expected, desired)] on a word that holds [val]: the
    result, what [expected] holds after, what the word holds after. *)
Definition compare_exchange (val expected desired : Z) (spurious : bool) : bool * Z * Z :=
  if (val =? expected) && negb spurious then (true, expected, desired) else (false, val, val).

(** ** guard.cc *)
Inductive GuardState := InitDone | InitLockSucceeded | InitLockFailed.

(** The byte at the lowest address of a word of [bits] bits. *)
Definition first_byte (little : bool) (bits v : Z) : Z :=
  if little then v mod 256 else Z.shiftr v (bits - 8).

(** Bits of a guard: the width of the word the flag is in, the locked bit, the
    initialised bit, and the byte order they are for. *)
Record layout := Layout { l_bits : Z; LockedBit : Z; InitBit : Z; l_little : bool }.

#[global] Instance layout_eq_dec : EqDecision layout.
Proof. solve_decision. Defined.

Definition locked (l : layout) : Z := Z.shiftl 1 (LockedBit l).
Definition initialised (l : layout) : Z := Z.shiftl 1 (InitBit l).

(** The instances of [Guard]: ARM, 64-bit little- and big-endian; 32-bit
    little- and big-endian. *)
Definition single_layouts : list layout :=
  [Layout 32 31 0 true; Layout 64 63 0 true; Layout 64 0 56 false].
Definition double_layouts : list layout := [Layout 32 31 0 true; Layout 32 0 24 false].

Definition is_initialised (l : layout) (v : Z) : bool := Z.land v (initialised l) =? initialised l.

(** What a thread chooses, where it has a choice: to go on, to have its
    [compare_exchange] fail spuriously, to leave the constructor by an
    exception. *)
Inductive choice := Go | Spurious | Throw.

Definition is_spurious (c : choice) : bool := match c with Spurious => true | _ => false end.

Definition upd {A} (t : nat) (a : A) (f : nat -> A) : nat -> A :=
  fun x => if decide (x = t) then a else f x.

Module Single.
(** Where a thread is. *)
Inductive pc :=
  | Idle
  | Acquire       (** in [__cxa_guard_acquire], before [is_initialised] *)
  | TryLock       (** before [compare_exchange] *)
  | Yield         (** [sched_yield] *)
  | Ctor          (** acquire returned 1: in the constructor *)
  | Unlock (b : bool)   (** in release ([true]) or abort, before the store *)
  | Assert        (** before the assertion of [unlock] *)
  | Use           (** acquire returned 0 *)
  | Failed.       (** the assertion failed *)

#[global] Instance pc_eq_dec : EqDecision pc.
Proof. solve_decision. Defined.

(** The guard, the threads, and how many constructors have ended. *)
Record state := State { val : Z; pcs : nat -> pc; inits : nat }.

Definition init : state := State 0 (fun _ => Idle) 0.

Section Steps.
Context (l : layout).

Definition unlock (isInitialised : bool) : Z := if isInitialised then initialised l else 0.

Definition try_lock (v : Z) (spurious : bool) : GuardState * Z :=
  let '(ok, old, v) := compare_exchange v 0 (locked l) spurious in
  (if (ok : bool) then InitLockSucceeded
   else if old =? initialised l then InitDone else InitLockFailed, v).

Definition unlock_assertion : bool := negb (first_byte (l_little l) (l_bits l) (initialised l) =? 0).

(** What [__cxa_guard_acquire] does with the result of [try_lock]. *)
Definition after_try (g : GuardState) : pc :=
  match g with InitDone => Use | InitLockSucceeded => Ctor | InitLockFailed => Yield end.

(** One step of thread [t]. *)
Definition step (t : nat) (c : choice) (s : state) : state :=
  let goto p := State (val s) (upd t p (pcs s)) (inits s) in
  match pcs s t with
  | Idle => goto Acquire
  | Acquire => goto (if is_initialised l (val s) then Use else TryLock)
  | TryLock => let '(g, v) := try_lock (val s) (is_spurious c) in
               State v (upd t (after_try g) (pcs s)) (inits s)
  | Yield => goto TryLock
  | Ctor => match c with
            | Throw => goto (Unlock false)
            | _ => State (val s) (upd t (Unlock true) (pcs s)) (S (inits s))
            end
  | Unlock b => State (unlock b) (upd t Assert (pcs s)) (inits s)
  | Assert => goto (if unlock_assertion then Idle else Failed)
  | Use => goto Idle
  | Failed => s
  end.

Inductive reachable : state -> Prop :=
  | reachable_init : reachable init
  | reachable_step t c s : reachable s -> reachable (step t c s).

Definition run (sched : list (nat * choice)) (s : state) : state :=
  fold_left (fun s tc => step tc.1 tc.2 s) sched s.
End Steps.

(** The thread holds the lock. *)
Definition holds (p : pc) : bool := match p with Ctor | Unlock _ => true | _ => false end.
End Single.

Module Double.
Inductive pc :=
  | Idle
  | Acquire       (** in [__cxa_guard_acquire], before [is_initialised] *)
  | TryLock       (** before [compare_exchange] on the lock word *)
  | Recheck       (** lock taken, before [is_initialised] in [try_lock] *)
  | GiveBack      (** initialised by another thread: before the lock is released *)
  | Yield
  | Ctor
  | StoreInit (b : bool)   (** in [unlock(b)], before the store to the init word *)
  | StoreLock (b : bool)   (** before the store to the lock word *)
  | Assert (b : bool)      (** before the assertion on the first byte *)
  | Use
  | Failed (b : bool).     (** the assertion of [unlock(b)] failed *)

#[global] Instance pc_eq_dec : EqDecision pc.
Proof. solve_decision. Defined.

Record state := State { init_word : Z; lock_word : Z; pcs : nat -> pc; inits : nat }.

Definition init : state := State 0 0 (fun _ => Idle) 0.

Section Steps.
Context (l : layout).

(** The assertion at the end of [unlock]; the init word comes first. *)
Definition unlock_assertion (isInitialised : bool) (init_word : Z) : bool :=
  Bool.eqb (negb (first_byte (l_little l) (l_bits l) init_word =? 0)) isInitialised.

Definition step (t : nat) (c : choice) (s : state) : state :=
  let goto p := State (init_word s) (lock_word s) (upd t p (pcs s)) (inits s) in
  match pcs s t with
  | Idle => goto Acquire
  | Acquire => goto (if is_initialised l (init_word s) then Use else TryLock)
  | TryLock =>
      let '(ok, _, w) := compare_exchange (lock_word s) 0 (locked l) (is_spurious c) in
      State (init_word s) w (upd t (if (ok : bool) then Recheck else Yield) (pcs s)) (inits s)
  | Recheck => goto (if is_initialised l (init_word s) then GiveBack else Ctor)
  | GiveBack => State (init_word s) 0 (upd t Use (pcs s)) (inits s)
  | Yield => goto TryLock
  | Ctor => match c with
            | Throw => goto (StoreInit false)
            | _ => State (init_word s) (lock_word s) (upd t (StoreInit true) (pcs s)) (S (inits s))
            end
  | StoreInit b => State (if b then initialised l else 0) (lock_word s) (upd t (StoreLock b) (pcs s)) (inits s)
  | StoreLock b => State (init_word s) 0 (upd t (Assert b) (pcs s)) (inits s)
  | Assert b => goto (if unlock_assertion b (init_word s) then Idle else Failed b)
  | Use => goto Idle
  | Failed _ => s
  end.

Inductive reachable : state -> Prop :=
  | reachable_init : reachable init
  | reachable_step t c s : reachable s -> reachable (step t c s).

Definition run (sched : list (nat * choice)) (s : state) : state :=
  fold_left (fun s tc => step tc.1 tc.2 s) sched s.
End Steps.

Definition holds (p : pc) : bool :=
  match p with
  | Recheck | GiveBack | Ctor | StoreInit _ | StoreLock _ => true
  | _ => false
  end.
End Double.
