(* ===== verification/TypeInfo.v ===== *)
(** * Run-time type information: typeinfo.h, typeinfo.cc, dynamic_cast.cc

    A [std::type_info] object is its address, the address of its name and its
    dynamic type with what it points at; the objects are emitted by the
    compiler, never change, and do not refer back to themselves, so an object
    is modelled with everything below it, as a tree.  Objects are compared by
    address ([==] of pointers) or by the address of their name ([==] of
    [type_info]).  A method that adjusts [*thrown_object] is a computation
    whose state is that pointer. *)
From S2P Require Import Prelude.

(** The words of the program's memory: objects and vtables. *)
Class Words := {
  word_at : Z -> option Z;
}.

(** ** typeinfo.h *)

(** The subclasses of [type_info] in [ABI_NAMESPACE]; a base class comes with
    its [__offset_flags]. *)
Inductive ti_kind (T : Type) :=
  | Fundamental
  | Array
  | Function
  | Enum
  | Class_
  | SiClass (__base_type : T)
  | VmiClass (__flags : Z) (__base_info : list (T * Z))
  | Pointer (__flags : Z) (__pointee : T)
  | PointerToMember (__flags : Z) (__pointee : T) (__context : T).
Arguments Fundamental {T}.
Arguments Array {T}.
Arguments Function {T}.
Arguments Enum {T}.
Arguments Class_ {T}.
Arguments SiClass {T} _.
Arguments VmiClass {T} _ _.
Arguments Pointer {T} _ _.
Arguments PointerToMember {T} _ _ _.

#[warnings="-register-all"] Inductive type_info := TypeInfo (ti_addr ti_name : Z) (ti_dyn : ti_kind type_info).

Definition ti_addr (t : type_info) : Z := let '(TypeInfo a _ _) := t in a.
Definition name (t : type_info) : Z := let '(TypeInfo _ n _) := t in n.
Definition ti_dyn (t : type_info) : ti_kind type_info := let '(TypeInfo _ _ k) := t in k.

(** [operator==], [operator!=], [before] *)
Definition ti_eq (t u : type_info) : bool := name t =? name u.
Definition ti_ne (t u : type_info) : bool := negb (name t =? name u).
Definition before (t u : type_info) : bool := name t <? name u.

Definition __is_pointer_p (t : type_info) : bool :=
  match ti_dyn t with Pointer _ _ => true | _ => false end.

Definition __is_function_p (t : type_info) : bool :=
  match ti_dyn t with Function => true | _ => false end.

(** [dynamic_cast<const __class_type_info *>] succeeds. *)
Definition is_class (t : type_info) : bool :=
  match ti_dyn t with Class_ | SiClass _ | VmiClass _ _ => true | _ => false end.

(** [__base_class_type_info] *)
Definition __virtual_mask : Z := 1.
Definition __public_mask : Z := 2.
Definition __offset_shift : Z := 8.
Definition offset (__offset_flags : Z) : Z := Z.shiftr __offset_flags __offset_shift.
Definition flags (__offset_flags : Z) : Z :=
  Z.land __offset_flags (Z.shiftl 1 __offset_shift - 1).
Definition isPublic (ofl : Z) : bool := negb (Z.land (flags ofl) __public_mask =? 0).
Definition isVirtual (ofl : Z) : bool := negb (Z.land (flags ofl) __virtual_mask =? 0).

(** [__pbase_type_info] *)
Definition __const_mask : Z := 1.
Definition __volatile_mask : Z := 2.
Definition __restrict_mask : Z := 4.

Section Casts.
Context {W : Words}.

(** [*p] *)
Definition deref {S} (p : Z) : comp S Z :=
  match word_at p with
  | Some v => mret v
  | None => if p =? 0 then crashed NullDeref else crashed OutOfBounds
  end.

(** ** dynamic_cast.cc *)

(** Where a base of the object at [obj] is; the offset of a virtual base is in
    the vtable of the object. *)
Definition base_address {S} (ofl obj : Z) : comp S Z :=
  if isVirtual ofl then
    vtable ← deref obj;
    o ← deref (vtable + offset ofl);
    mret (obj + o)
  else mret (obj + offset ofl).

(** A call with the address of a local variable that holds [v], and what the
    local holds after. *)
Definition with_local {S T A} (v : T) (m : comp T A) : comp S (A * T) := fun s =>
  match m v with
  | Ok a v' => Ok (a, v') s
  | Fail _ => Fail s
  | Crash c => Crash c
  | NoFuel => NoFuel
  end.

(** [this->__do_upcast(target, &p)] for every class of [this]. *)
Fixpoint __do_upcast (this : type_info) (target : Z) : comp Z bool :=
  match this with
  | TypeInfo a _ k =>
      match k with
      | Class_ => mret (a =? target)
      | SiClass __base_type =>
          if a =? target then mret true else __do_upcast __base_type target
      | VmiClass _ __base_info =>
          if a =? target then mret true else
          (fix loop (bases : list (type_info * Z)) : comp Z bool :=
             match bases with
             | [] => mret false
             | (b, ofl) :: bases =>
                 obj ← gets id;
                 cast ← base_address ofl obj;
                 '(found, cast) ← with_local cast
                   (if ti_addr b =? target then mret true else __do_upcast b target);
                 if (found : bool) then modify (fun _ => cast);; mret true else loop bases
             end) __base_info
      | _ => mret false
      end
  end.

(** [this->cast_to(obj, other)]; 0 is NULL. *)
Fixpoint cast_to (this : type_info) (obj other : Z) : comp unit Z :=
  match this with
  | TypeInfo a n k =>
      match k with
      | SiClass __base_type =>
          if a =? other then mret obj else cast_to __base_type obj other
      | VmiClass _ _ =>
          '(found, obj) ← with_local obj (__do_upcast this other);
          mret (if (found : bool) then obj else 0)
      | _ => mret (if a =? other then obj else 0)
      end
  end.

(** The [type_info] of [void], which the compiler provides. *)
Context (typeid_void : type_info).

(** [this->__do_catch(ex_type, &p, outer)] *)
Fixpoint __do_catch (this ex_type : type_info) (outer : Z) : comp Z bool :=
  match this with
  | TypeInfo a _ k =>
      match k with
      | Pointer __flags __pointee | PointerToMember __flags __pointee _ =>
          if ti_addr ex_type =? a then mret true else
          match ti_dyn ex_type with
          | Pointer ptr_flags ptr_pointee =>
              if Z.land outer 1 =? 0 then mret false else
              let outer := if Z.land __flags __const_mask =? 0 then Z.ldiff outer 1 else outer in
              if negb (Z.ldiff ptr_flags __flags =? 0) then mret false else
              if ti_eq __pointee typeid_void then mret true else
              __do_catch __pointee ptr_pointee outer
          | _ => mret false
          end
      | _ =>
          if a =? ti_addr ex_type then mret true else
          if is_class this then __do_upcast ex_type a else mret false
      end
  end.

(** [struct vtable_header], in front of a vtable: the offset of the complete
    object and its type. [type_at] is the [type_info] at an address. *)
Context (type_at : Z -> option type_info).
Definition SIZEOF_VTABLE_HEADER : Z := 16.

Definition __dynamic_cast (sub src dst src2dst_offset : Z) : comp unit Z :=
  vtable_location ← deref sub;
  leaf_offset ← deref (vtable_location - SIZEOF_VTABLE_HEADER);
  header_type ← deref (vtable_location - SIZEOF_VTABLE_HEADER + 8);
  match type_at header_type with
  | None => crashed OutOfBounds
  | Some type => cast_to type (sub + leaf_offset) dst
  end.
End Casts.
