(* ===== verification/CxaDemangle.v ===== *)
(** * __cxa_demangle

    The ABI's entry point, in [typeinfo.cc]: runs [__cxa_demangle_gnu3] and
    puts its result in the caller's buffer, or in a larger one.  Of the
    caller's buffer the model knows how many bytes were allocated for it. *)
From S2P Require Import Prelude CString Platform Demangler.

(** What the call leaves: the string in the returned buffer and the size of
    that buffer (None is NULL), what [*n] and [*status] hold when the caller
    passed them. *)
Record demangled := Demangled {
  d_buf : option (bytes * Z);
  d_n : option Z;
  d_status : option Z;
}.

Section CxaDemangle.
Context {P : Platform}.

(** [realloc(buf, size)] *)
Definition realloc (size : Z) : comp nat (option Z) :=
  p ← malloc size;
  mret (match p with Some _ => Some size | None => None end).

(** [memcpy(buf, demangled, len); buf[len] = 0;] *)
Definition store_string (s : bytes) (size : Z) : comp nat (bytes * Z) :=
  if size <? zlength s + 1 then crashed OutOfBounds else mret (s, size).

(** [buf] is the size of the caller's buffer; [n] and [status] what the
    pointers point at, None being NULL. *)
Definition __cxa_demangle (mangled_name : option bytes) (buf n status : option Z) : comp nat demangled :=
  let set (v : Z) : option Z := match status with Some _ => Some v | None => None end in
  r ← __cxa_demangle_gnu3 mangled_name;
  match r with
  | None => mret (Demangled None n (set (-2)))
  | Some m =>
      s ← read_cstr m;
      let len := zlength s in
      buf ← (match buf with
             | None => realloc (len + 1)
             | Some size =>
                 match n with
                 | None => crashed NullDeref
                 | Some claimed => if claimed <? len + 1 then realloc (len + 1) else mret (Some size)
                 end
             end);
      match buf with
      | None => mret (Demangled None n (set (-1)))
      | Some size =>
          b ← store_string s size;
          mret (Demangled (Some b) (match n with Some _ => Some len | None => None end) (set 0))
      end
  end.
End CxaDemangle.
