(* ===== verification/OperatorNew.v ===== *)
(** * operator new and operator delete

    Models [memory.cc] over an allocator and new-handlers that are any code:
    a handler may free memory, install another handler, allocate, or leave by
    an exception.  [exceptions] is false when the library is built with
    [_CXXRT_NO_EXCEPTIONS]. *)
From S2P Require Import Prelude.

(** What [memory.cc] runs on: [W] is everything [malloc], [free] and the
    handlers depend on, but for the handler that is installed. *)
Class Allocator := {
  W : Type;
  ptr : Type;
  handler : Type;
  exn : Type;
  malloc : Z -> W -> option ptr * W;
  free : option ptr -> W -> W;
  (** A handler sees and may change the installed handler.  It returns, or
      throws; handlers that never return are outside the model. *)
  call : handler -> option handler * W -> (unit + exn) * (option handler * W);
  exceptions : bool;
}.

Section New.
Context {A : Allocator}.

(** The static [new_handl], and the rest of the process. *)
Definition heap : Type := option handler * W.

Inductive thrown := bad_alloc | by_handler (x : exn).

(** A function that may leave by an exception. *)
Abbreviation cxx B := (comp heap (B + thrown)).

Definition throw {B} (x : thrown) : cxx B := mret (inr x).

Definition and_then {B C} (m : cxx B) (f : B -> cxx C) : cxx C :=
  r ← m; match r with inl b => f b | inr x => throw x end.

(** [try { return m; } catch (...) { return h; }] *)
Definition catch_all {B} (m : cxx B) (h : B) : cxx B :=
  r ← m; mret (inl (match r with inl b => b | inr _ => h end)).

Definition set_new_handler (h : option handler) : comp heap (option handler) := fun s =>
  Ok (fst s) (h, snd s).

Definition get_new_handler : comp heap (option handler) := gets fst.

Definition try_malloc (size : Z) : comp heap (option ptr) := fun s =>
  let (p, w) := malloc size (snd s) in Ok p (fst s, w).

Definition run_handler (h : handler) : cxx unit := fun s =>
  let (r, s') := call h s in
  Ok (match r with inl u => inl u | inr x => inr (by_handler x) end) s'.

(** [while (0 == mem) { ... mem = malloc(size); }] *)
Fixpoint new_loop (fuel : nat) (size : Z) (mem : option ptr) : cxx (option ptr) :=
  match mem with
  | Some p => mret (inl (Some p))
  | None =>
      match fuel with
      | O => no_fuel
      | S fuel =>
          h ← get_new_handler;
          match h with
          | Some h =>
              and_then (run_handler h) (fun _ =>
                mem ← try_malloc size;
                new_loop fuel size mem)
          | None => if exceptions then throw bad_alloc else mret (inl None)
          end
      end
  end.

Definition operator_new (fuel : nat) (size : Z) : cxx (option ptr) :=
  let size := if size =? 0 then 1 else size in
  mem ← try_malloc size;
  new_loop fuel size mem.

Definition noexcept_new (New : Z -> cxx (option ptr)) (size : Z) : cxx (option ptr) :=
  if exceptions then catch_all (New size) None else New size.

Definition operator_new_nothrow (fuel : nat) (size : Z) : cxx (option ptr) :=
  noexcept_new (operator_new fuel) size.

Definition operator_new_array (fuel : nat) (size : Z) : cxx (option ptr) := operator_new fuel size.

Definition operator_new_array_nothrow (fuel : nat) (size : Z) : cxx (option ptr) :=
  noexcept_new (operator_new_array fuel) size.

Definition operator_delete (p : option ptr) : comp heap unit := modify (fun s => (fst s, free p (snd s))).

Definition operator_delete_array (p : option ptr) : comp heap unit := operator_delete p.

Definition operator_delete_sized (p : option ptr) (size : Z) : comp heap unit := operator_delete p.

Definition operator_delete_array_sized (p : option ptr) (size : Z) : comp heap unit := operator_delete p.

(** ** What the C++ standard asks of the allocation functions

    Attempts are made until one succeeds, no handler is installed, or a
    handler throws; the handler is looked up anew before each call. *)
Inductive allocates (size : Z) : heap -> option ptr + thrown -> heap -> Prop :=
  | first_fit h w p w' :
      malloc size w = (Some p, w') -> allocates size (h, w) (inl (Some p)) (h, w')
  | no_handler w w' :
      malloc size w = (None, w') ->
      allocates size (None, w) (if exceptions then inr bad_alloc else inl None) (None, w')
  | handler_throws h w w' x s :
      malloc size w = (None, w') -> call h (Some h, w') = (inr x, s) ->
      allocates size (Some h, w) (inr (by_handler x)) s
  | handler_returns h w w' s r s' :
      malloc size w = (None, w') -> call h (Some h, w') = (inl tt, s) ->
      allocates size s r s' ->
      allocates size (Some h, w) r s'.

(** The standard's answer to a request for no bytes: a block of its own. *)
Definition requested (size : Z) : Z := Z.max 1 size.

(** One turn of the loop: an attempt, and what follows its failure. *)
Lemma attempt fuel size (s : heap) :
  (mem ← try_malloc size; new_loop fuel size mem) s
  = let (p, w) := malloc size (snd s) in new_loop fuel size p (fst s, w).
Proof. unfold mbind, comp_bind, try_malloc. by destruct (malloc size (snd s)). Qed.

Lemma new_loop_some fuel size p : new_loop fuel size (Some p) = mret (inl (Some p)).
Proof. by destruct fuel. Qed.

Lemma new_loop_none fuel size (s : heap) :
  new_loop (S fuel) size None s = match fst s with
    | None => Ok (if exceptions then inr bad_alloc else inl None) s
    | Some h => match call h s with
                | (inl _, s') => let (p, w) := malloc size (snd s') in new_loop fuel size p (fst s', w)
                | (inr x, s') => Ok (inr (by_handler x)) s'
                end
    end.
Proof.
  destruct s as [[h|] w]; cbn.
  - unfold mbind, comp_bind, get_new_handler, gets. cbn.
    unfold and_then, mbind, comp_bind, run_handler.
    destruct (call h (Some h, w)) as [[u|x] s']; [|done]. cbn. apply attempt.
  - by destruct exceptions.
Qed.

Lemma operator_new_eq fuel size (s : heap) :
  0 <= size ->
  operator_new fuel size s
  = let (p, w) := malloc (requested size) (snd s) in new_loop fuel (requested size) p (fst s, w).
Proof.
  intros H. unfold operator_new. cbv zeta. rewrite attempt.
  replace (if size =? 0 then 1 else size) with (requested size); [done|].
  unfold requested. destruct (Z.eqb_spec size 0); lia.
Qed.

Lemma loop_sound fuel size s r s' :
  (let (p, w) := malloc size (snd s) in new_loop fuel size p (fst s, w)) = Ok r s' ->
  allocates size s r s'.
Proof.
  revert s. induction fuel as [|fuel IH]; intros [h w]; cbn [fst snd];
    destruct (malloc size w) as [[p|] w'] eqn:Hm; [| done |  | ].
  1, 2: rewrite new_loop_some; intros [= <- <-]; by constructor.
  rewrite new_loop_none. cbn [fst snd]. destruct h as [h|].
  - destruct (call h (Some h, w')) as [[[]|x] s1] eqn:Hc.
    + intros E. by eapply handler_returns; [..|apply IH].
    + intros [= <- <-]. by eapply handler_throws.
  - intros [= <- <-]. by constructor.
Qed.

Lemma loop_complete size s r s' :
  allocates size s r s' ->
  exists fuel0, forall fuel, (fuel0 <= fuel)%nat ->
  (let (p, w) := malloc size (snd s) in new_loop fuel size p (fst s, w)) = Ok r s'.
Proof.
  induction 1 as [h w p w' Hm | w w' Hm | h w w' x s Hm Hc | h w w' s r s' Hm Hc _ [n IH]];
    [exists 1%nat | exists 1%nat | exists 1%nat | exists (S n)]; intros fuel Hf; cbn [fst snd]; rewrite Hm;
    (destruct fuel as [|fuel]; [lia|]).
  - by rewrite new_loop_some.
  - by rewrite new_loop_none.
  - rewrite new_loop_none. cbn [fst snd]. by rewrite Hc.
  - rewrite new_loop_none. cbn [fst snd]. rewrite Hc. apply IH. lia.
Qed.

(** C16. The loop of [operator new] is the one of the C++ standard: it
    returns [r], after some number of turns, exactly when attempts at a block
    of [size] bytes, one byte at least, end in [r] with the process in that
    state.  Each failure calls the handler installed by then. *)
Theorem operator_new_refines size s r s' :
  0 <= size ->
  (exists fuel, operator_new fuel size s = Ok r s') <-> allocates (requested size) s r s'.
Proof.
  intros Hs. split.
  - intros [fuel E]. rewrite operator_new_eq in E by done. by apply loop_sound in E.
  - intros H. destruct (loop_complete _ _ _ _ H) as [n Hn]. exists n.
    rewrite operator_new_eq by done. by apply Hn.
Qed.

(** [operator new] never returns NULL when exceptions are on; the
    forms with [nothrow] never throw: they return NULL exactly when [operator
    new] would throw, [bad_alloc] or an exception of the handler, and in the
    same state; otherwise they return its block. *)
Theorem operator_new_nothrow_spec fuel size s :
  exceptions = true ->
  match operator_new fuel size s with
  | Ok (inl None) _ => False
  | Ok (inl (Some p)) s' =>
      operator_new_nothrow fuel size s = Ok (inl (Some p)) s' /\
      operator_new_array_nothrow fuel size s = Ok (inl (Some p)) s'
  | Ok (inr _) s' =>
      operator_new_nothrow fuel size s = Ok (inl None) s' /\
      operator_new_array_nothrow fuel size s = Ok (inl None) s'
  | Fail _ | Crash _ => False
  | NoFuel => operator_new_nothrow fuel size s = NoFuel
  end.
Proof.
  intros He. unfold operator_new_array_nothrow, operator_new_nothrow, operator_new_array, noexcept_new.
  rewrite He. unfold catch_all, mbind, comp_bind.
  assert (forall fuel size p s, match new_loop fuel size p s with
    Ok (inl None) _ | Fail _ | Crash _ => False | _ => True end) as Hl.
  { clear - He. intros fuel size. induction fuel as [|fuel IH]; intros [p|] s; try done.
    rewrite new_loop_none, He. destruct (fst s) as [h|]; [|done].
    destruct (call h s) as [[?|?] s']; [|done]. destruct (malloc size (snd s')). apply IH. }
  assert (exists size' p w, operator_new fuel size s = new_loop fuel size' p (fst s, w)) as (size' & p & w & E).
  { unfold operator_new. cbv zeta. rewrite attempt. destruct (malloc _ (snd s)) as [p w]. eauto. }
  specialize (Hl fuel size' p (fst s, w)). rewrite <- E in Hl.
  by destruct (operator_new fuel size s) as [[[p'|]|x] s'| | |].
Qed.

(** A measure of the handler's progress: [shortage] counts how often it must
    still be called; at 0 the allocator has a block. *)
Definition frees_memory (size : Z) (h : handler) (shortage : W -> nat) : Prop := forall w,
  match malloc size w with
  | (Some _, _) => True
  | (None, w') =>
      exists w'', call h (Some h, w') = (inl tt, (Some h, w'')) /\ (shortage w'' < shortage w)%nat
  end.

(** C29. Liveness: with a handler that makes room (every call of it
    brings the shortage down), the loop ends after at most [shortage] calls,
    and with a block. *)
Theorem operator_new_live size h shortage w :
  0 <= size -> frees_memory (requested size) h shortage ->
  exists p w', operator_new (shortage w) size (Some h, w) = Ok (inl (Some p)) (Some h, w').
Proof.
  intros Hs Hh. rewrite operator_new_eq by done. cbn [fst snd].
  assert (forall fuel w, (shortage w <= fuel)%nat -> exists p w',
    (let (p, w0) := malloc (requested size) w in new_loop fuel (requested size) p (Some h, w0))
    = Ok (inl (Some p)) (Some h, w')) as H; [|by apply H].
  induction fuel as [|fuel IH]; intros v Hv; specialize (Hh v);
    destruct (malloc _ v) as [[p|] v'].
  1, 3: rewrite new_loop_some; by eexists _, _.
  - destruct Hh as (? & _ & ?). lia.
  - destruct Hh as (v'' & Hc & Hlt). rewrite new_loop_none. cbn [fst snd]. rewrite Hc. cbn [fst snd].
    apply IH. lia.
Qed.

(** A handler that returns without making room keeps [operator new]
    in its loop for ever, as the standard has it. *)
Theorem operator_new_diverges size h w fuel :
  0 <= size ->
  (forall w, (malloc (requested size) w).1 = None) -> (forall w, exists w', call h (Some h, w) = (inl tt, (Some h, w'))) ->
  operator_new fuel size (Some h, w) = NoFuel.
Proof.
  intros Hs Hm Hh. rewrite operator_new_eq by done. cbn [fst snd].
  revert w. induction fuel as [|fuel IH]; intros w; pose proof (Hm w) as Hw;
    destruct (malloc _ w) as [[p|] w']; [done..|done|].
  rewrite new_loop_none. cbn [fst snd]. destruct (Hh w') as [w'' ->]. apply IH.
Qed.
End New.

(** ** The theorems at concrete inputs *)

(** An allocator with a counter of free blocks, and of blocks a handler can
    release; block [n] is the [n]-th from the end.  Handler [false] releases
    one, [true] throws. *)
Definition tiny (ex : bool) : Allocator := {|
  W := nat * nat;
  ptr := nat;
  handler := bool;
  exn := unit;
  malloc size w := match w with (S n, k) => (Some n, (n, k)) | (O, k) => (None, (O, k)) end;
  free p w := match p with Some _ => (S (fst w), snd w) | None => w end;
  call h s := match h, s with
    | true, _ => (inr tt, s)
    | false, (i, (n, S k)) => (inl tt, (i, ((if (k <? 2)%nat then S n else n), k)))
    | false, (_, (n, O)) => (inl tt, (Some true, (n, O)))
    end;
  exceptions := ex;
|}.

Lemma operator_new_refines_witness :
  @allocates (tiny true) 1 (Some false, (0, 0)%nat) (inr (@by_handler (tiny true) tt)) (Some true, (0, 0)%nat).
Proof.
  apply (@operator_new_refines (tiny true) 0 (Some false, (0, 0)%nat) (inr (@by_handler (tiny true) tt)) (Some true, (0, 0)%nat));
    [done|]. exists 2%nat. reflexivity.
Defined.

Lemma operator_new_nothrow_spec_witness :
  @operator_new_nothrow (tiny true) 5 8 (Some true, (0, 0)%nat) = Ok (inl None) (Some true, (0, 0)%nat) /\
  @operator_new_array_nothrow (tiny true) 5 8 (Some true, (0, 0)%nat) = Ok (inl None) (Some true, (0, 0)%nat).
Proof. exact (@operator_new_nothrow_spec (tiny true) 5 8 (Some true, (0, 0)%nat) eq_refl). Defined.

(** The handler of [tiny], always able to release a block. *)
Definition generous : Allocator := {|
  W := nat; ptr := nat; handler := unit; exn := unit;
  malloc size w := match w with O => (Some O, O) | S _ => (None, w) end;
  free p w := w;
  call h s := (inl tt, (fst s, pred (snd s)));
  exceptions := true;
|}.

Lemma operator_new_live_witness :
  exists p w', @operator_new generous 3 8 (Some tt, 3%nat) = Ok (inl (Some p)) (Some tt, w').
Proof.
  apply (@operator_new_live generous 8 tt (fun w => w) 3%nat); [done|].
  intros [|w]; cbn; [done|]. exists w. split; [done|lia].
Defined.

Definition exhausted : Allocator := {|
  W := unit; ptr := nat; handler := unit; exn := unit;
  malloc size w := (None, w); free p w := w; call h s := (inl tt, s); exceptions := true;
|}.

Lemma operator_new_diverges_witness :
  @operator_new exhausted 1000 8 (Some tt, tt) = NoFuel.
Proof.
  apply (@operator_new_diverges exhausted 8 tt tt 1000); [done | done | by intros []; exists tt].
Defined.
