(* ===== verification/ExnState.v ===== *)
(** * Exceptions in memory

    The layout of [struct __cxa_exception] and [__cxa_dependent_exception]
    ([cxxabi.h], [exception.cc]) with the [_Unwind_Exception] inside
    ([unwind-itanium.h]), and the state of the runtime: blocks of memory, what
    each thread keeps, the global handlers.  LP64, not ARM. *)
From stdpp Require Export gmap.
From S2P Require Import Prelude.

#[global] Open Scope Z_scope.

(** ** Words and pointers *)

(** Functions the runtime stores pointers to: its own, and the program's. *)
Inductive fn :=
  | Exception_cleanup
  | Dependent_exception_cleanup
  | Terminate_with_diagnostics
  | Std_terminate
  | User (n : nat).

#[global] Instance fn_eq_dec : EqDecision fn.
Proof. solve_decision. Defined.

(** Memory comes in blocks: from [calloc], one of the emergency buffers, or
    allocated by the runtime of another language. *)
Inductive block := Heap (n : nat) | Emergency (i : nat) | Alien (n : nat).

#[global] Instance block_eq_dec : EqDecision block.
Proof. solve_decision. Defined.

#[global] Instance block_countable : Countable block.
Proof.
  apply (inj_countable'
    (fun b => match b with Heap n => inl (inl n) | Emergency i => inl (inr i) | Alien n => inr n end)
    (fun x => match x with inl (inl n) => Heap n | inl (inr i) => Emergency i | inr n => Alien n end)).
  by intros [].
Defined.

(** A word of memory: a number (an address of static data, such as a
    [type_info], is one), a pointer into a block, a function. *)
Inductive word := Int (z : Z) | Ptr (b : block) (off : Z) | Fn (f : fn).

#[global] Instance word_eq_dec : EqDecision word.
Proof. solve_decision. Defined.

Definition NULL : word := Int 0.

(** Pointer arithmetic, in bytes *)
Definition shift (p : word) (d : Z) : word :=
  match p with
  | Int z => Int (z + d)
  | Ptr b o => Ptr b (o + d)
  | Fn f => Fn f
  end.

(** ** struct __cxa_exception

    The offsets of its fields; those of [__cxa_dependent_exception] are the
    same, [primaryException] in the place of [referenceCount]. *)
Inductive field :=
  | reserve | referenceCount | exceptionType | exceptionDestructor
  | unexpectedHandler_ | terminateHandler_ | nextException
  | handlerCount | handlerSwitchValue | actionRecord | languageSpecificData
  | catchTemp | adjustedPtr | unwindHeader.

Definition offsetof (f : field) : Z :=
  match f with
  | reserve => 0
  | referenceCount => 8
  | exceptionType => 16
  | exceptionDestructor => 24
  | unexpectedHandler_ => 32
  | terminateHandler_ => 40
  | nextException => 48
  | handlerCount => 56
  | handlerSwitchValue => 60
  | actionRecord => 64
  | languageSpecificData => 72
  | catchTemp => 80
  | adjustedPtr => 88
  | unwindHeader => 96
  end.

Definition primaryException : field := referenceCount.

(** [struct _Unwind_Exception]: the class, the cleanup function and two words
    of the unwinder's *)
Definition exception_class_ : Z := 0.
Definition exception_cleanup_ : Z := 8.
Definition sizeof_Unwind_Exception : Z := 32.

Definition sizeof_cxa_exception : Z := offsetof unwindHeader + sizeof_Unwind_Exception.

(** [EXCEPTION_CLASS(a,b,c,d,e,f,g,h)]: the first character is the highest
    byte *)
Definition EXCEPTION_CLASS (cs : list ascii) : Z :=
  fold_left (fun acc c => acc * 256 + Z.of_N (N_of_ascii c)) cs 0.

Definition exception_class : Z :=
  EXCEPTION_CLASS (String.list_ascii_of_string "GNUCC++" ++ [ascii_of_N 0]).
Definition dependent_exception_class : Z :=
  EXCEPTION_CLASS (String.list_ascii_of_string "GNUCC++" ++ [ascii_of_N 1]).

Definition isDependentException (cls : Z) : bool := cls =? dependent_exception_class.
Definition isCXXException (cls : Z) : bool := (cls =? exception_class) || (cls =? dependent_exception_class).

(** From the [_Unwind_Exception] to the [__cxa_exception] around it *)
Definition exceptionFromPointer (ex : word) : word := shift ex (- offsetof unwindHeader).

(** ** The state of the runtime *)
Inductive foreign_state := none | caught | rethrown.

(** [struct __cxa_thread_info], its [globals] included *)
Record thread := Thread {
  terminateHandler : word;
  unexpectedHandler : word;
  emergencyBuffersHeld : Z;
  foreign_exception_state : foreign_state;
  caughtExceptions : word;
  uncaughtExceptions : Z;
}.

(** As [calloc] makes it *)
Definition new_thread : thread := Thread NULL NULL 0 none NULL 0.

Definition set_terminateHandler (h : word) (t : thread) : thread :=
  Thread h (unexpectedHandler t) (emergencyBuffersHeld t) (foreign_exception_state t) (caughtExceptions t) (uncaughtExceptions t).
Definition set_unexpectedHandler (h : word) (t : thread) : thread :=
  Thread (terminateHandler t) h (emergencyBuffersHeld t) (foreign_exception_state t) (caughtExceptions t) (uncaughtExceptions t).
Definition set_buffersHeld (n : Z) (t : thread) : thread :=
  Thread (terminateHandler t) (unexpectedHandler t) n (foreign_exception_state t) (caughtExceptions t) (uncaughtExceptions t).
Definition set_foreign (f : foreign_state) (t : thread) : thread :=
  Thread (terminateHandler t) (unexpectedHandler t) (emergencyBuffersHeld t) f (caughtExceptions t) (uncaughtExceptions t).
Definition set_caught (p : word) (t : thread) : thread :=
  Thread (terminateHandler t) (unexpectedHandler t) (emergencyBuffersHeld t) (foreign_exception_state t) p (uncaughtExceptions t).
Definition set_uncaught (n : Z) (t : thread) : thread :=
  Thread (terminateHandler t) (unexpectedHandler t) (emergencyBuffersHeld t) (foreign_exception_state t) (caughtExceptions t) n.

(** The bytes of a block, as the words at their offsets *)
Record contents := Contents { block_size : Z; words : Z -> word }.

Definition zeroed (n : Z) : contents := Contents n (fun _ => NULL).
Definition write (o : Z) (w : word) (c : contents) : contents :=
  Contents (block_size c) (fun o' => if o' =? o then w else words c o').

(** The function-local statics that keep a thread's information *)
Inductive static := In_set_unexpected | In_set_terminate | In_terminate | In_unexpected.

#[global] Instance static_eq_dec : EqDecision static.
Proof. solve_decision. Defined.

(** What user code and libc see: a destructor called on an object, memory
    given back, a foreign runtime asked to clean up. *)
Inductive event :=
  | Destroyed (f : fn) (object : word)
  | Released (b : block)
  | Foreign_cleanup (f : fn) (exn : word).

(** Threads are numbered; the key of what is kept for them is None when there
    is no thread-local storage and they share [singleThreadInfo]. *)
Abbreviation tid := nat.

Record runtime := Runtime {
  mem : gmap block contents;
  buffer_allocated : list bool;
  clock : nat;             (* allocations so far *)
  infos : gmap (option tid) thread;
  g_terminate : word;      (* the global handlers *)
  g_unexpected : word;
  thread_local_handlers : bool;
  statics : static -> option (option (option tid));
  trace : list event;      (* latest first *)
}.

Definition set_mem (m : gmap block contents) (s : runtime) : runtime :=
  Runtime m (buffer_allocated s) (clock s) (infos s) (g_terminate s) (g_unexpected s) (thread_local_handlers s) (statics s) (trace s).
Definition set_buffers (b : list bool) (s : runtime) : runtime :=
  Runtime (mem s) b (clock s) (infos s) (g_terminate s) (g_unexpected s) (thread_local_handlers s) (statics s) (trace s).
Definition set_clock (n : nat) (s : runtime) : runtime :=
  Runtime (mem s) (buffer_allocated s) n (infos s) (g_terminate s) (g_unexpected s) (thread_local_handlers s) (statics s) (trace s).
Definition set_infos (i : gmap (option tid) thread) (s : runtime) : runtime :=
  Runtime (mem s) (buffer_allocated s) (clock s) i (g_terminate s) (g_unexpected s) (thread_local_handlers s) (statics s) (trace s).
Definition set_g_terminate (h : word) (s : runtime) : runtime :=
  Runtime (mem s) (buffer_allocated s) (clock s) (infos s) h (g_unexpected s) (thread_local_handlers s) (statics s) (trace s).
Definition set_g_unexpected (h : word) (s : runtime) : runtime :=
  Runtime (mem s) (buffer_allocated s) (clock s) (infos s) (g_terminate s) h (thread_local_handlers s) (statics s) (trace s).
Definition set_thread_local_handlers (b : bool) (s : runtime) : runtime :=
  Runtime (mem s) (buffer_allocated s) (clock s) (infos s) (g_terminate s) (g_unexpected s) b (statics s) (trace s).
Definition set_statics (f : static -> option (option (option tid))) (s : runtime) : runtime :=
  Runtime (mem s) (buffer_allocated s) (clock s) (infos s) (g_terminate s) (g_unexpected s) (thread_local_handlers s) f (trace s).
Definition add_event (e : event) (s : runtime) : runtime :=
  Runtime (mem s) (buffer_allocated s) (clock s) (infos s) (g_terminate s) (g_unexpected s) (thread_local_handlers s) (statics s) (e :: trace s).

(** When the process starts: 16 static buffers of zeros, all free *)
Definition EMERGENCY_BUFFERS : nat := 16.
Definition EMERGENCY_SIZE : Z := 1024.

Definition initial : runtime :=
  Runtime (list_to_map ((fun i => (Emergency i, zeroed EMERGENCY_SIZE)) <$> seq 0 EMERGENCY_BUFFERS))
    (replicate EMERGENCY_BUFFERS false) 0 ∅ (Fn Terminate_with_diagnostics) (Fn Std_terminate)
    false (fun _ => None) [].

(** ** Access *)

(** The block, unless it was given back.  An emergency buffer is always
    there; using it while it is not allocated counts as a use after free. *)
Definition live_block (b : block) (s : runtime) : option contents :=
  match b with
  | Emergency i => if default false (buffer_allocated s !! i) then mem s !! b else None
  | _ => mem s !! b
  end.

(** The access [m] makes at a word, through a pointer *)
Definition at_word {A} (p : word) (m : block -> Z -> contents -> comp runtime A) : comp runtime A := fun s =>
  match p with
  | Ptr b o =>
      match live_block b s with
      | None => Crash UseAfterFree
      | Some c => if (0 <=? o) && (o <? block_size c) then m b o c s else Crash OutOfBounds
      end
  | _ => if decide (p = NULL) then Crash NullDeref else Crash OutOfBounds
  end.

Definition load (p : word) : comp runtime word := at_word p (fun b o c => mret (words c o)).

Definition store (p : word) (w : word) : comp runtime unit :=
  at_word p (fun b o c => modify (fun s => set_mem (<[b := write o w c]> (mem s)) s)).

(** [p->f] and [p->f = w] *)
Definition get (p : word) (f : field) : comp runtime word :=
  if decide (p = NULL) then crashed NullDeref else load (shift p (offsetof f)).
Definition set_ (p : word) (f : field) (w : word) : comp runtime unit :=
  if decide (p = NULL) then crashed NullDeref else store (shift p (offsetof f)) w.

Definition as_int (w : word) : comp runtime Z :=
  match w with Int z => mret z | _ => crashed BadWord end.

Definition get_int (p : word) (f : field) : comp runtime Z := w ← get p f; as_int w.

(** [int] arithmetic *)
Definition INT_MAX : Z := 2 ^ 31 - 1.
Definition int_ (z : Z) : comp runtime Z :=
  if (- 2 ^ 31 <=? z) && (z <=? INT_MAX) then mret z else crashed SignedOverflow.

Definition uint_ (z : Z) : Z := z mod 2 ^ 32.

(** [ex->unwindHeader.exception_class], and the same through the pointer the
    unwinder has *)
Definition class_of_header (ex : word) : comp runtime Z :=
  w ← get ex unwindHeader; as_int w.
Definition class_of (exceptionObject : word) : comp runtime Z :=
  w ← load (shift exceptionObject exception_class_); as_int w.

Definition realExceptionFromException (ex : word) : comp runtime word :=
  cls ← class_of_header ex;
  if negb (isDependentException cls) then mret ex
  else p ← get ex primaryException;
       mret (shift p (- sizeof_cxa_exception)).
