(* ===== verification/ExnHandlers.v ===== *)
(** * Threads and handlers

    Models the per-thread information of [exception.cc], the terminate and
    unexpected handlers, global and thread-local, and [terminate.cc]. *)
From S2P Require Import Prelude ExnState.

(** What the runtime is linked with. *)
Class Linked := {
  (** Does the [n]-th [calloc], for [size] bytes, give memory? *)
  calloc_ok : nat -> Z -> bool;
  (** There is no thread-local storage: [init_key] found no pthreads. *)
  fakeTLS : bool;
  (** Does this destructor leave by an exception? *)
  destructor_throws : fn -> bool;
  (** What [_Unwind_RaiseException] ([false]) and
      [_Unwind_Resume_or_Rethrow] ([true]) return for this exception; None
      when they do not, control being with a handler or a cleanup. *)
  unwind : bool -> word -> runtime -> option Z;
  (** The program's unexpected handlers: they throw (a run of the runtime,
      [true]) or return ([false]). *)
  user_unexpected : nat -> tid -> comp runtime bool;
}.

Section Handlers.
Context {L : Linked}.

(** [calloc(1, n)] for anything but the thread information: a new block *)
Definition calloc (n : Z) : comp runtime (option block) := fun s =>
  let k := clock s in
  let s := set_clock (S k) s in
  if calloc_ok k n then Ok (Some (Heap k)) (set_mem (<[Heap k := zeroed n]> (mem s)) s)
  else Ok None s.

(** [sizeof(__cxa_thread_info)] *)
Definition sizeof_thread_info : Z := 56.

(** A pointer to the information of a thread: None is NULL, [Some k] the
    information with key [k]. *)
Definition thread_info (t : tid) : comp runtime (option (option tid)) := fun s =>
  if fakeTLS then
    Ok (Some None) (match infos s !! None with
      | Some _ => s
      | None => set_infos (<[None := new_thread]> (infos s)) s
      end)
  else match infos s !! Some t with
  | Some _ => Ok (Some (Some t)) s
  | None =>
      let k := clock s in
      let s := set_clock (S k) s in
      if calloc_ok k sizeof_thread_info
      then Ok (Some (Some t)) (set_infos (<[Some t := new_thread]> (infos s)) s)
      else Ok None s
  end.

(** Nothing is created here; without [thread_info] before, it is NULL. *)
Definition thread_info_fast (t : tid) : comp runtime (option (option tid)) := fun s =>
  if fakeTLS then thread_info t s
  else Ok (match infos s !! Some t with Some _ => Some (Some t) | None => None end) s.

(** Access through such a pointer *)
Definition read_info (p : option (option tid)) : comp runtime thread := fun s =>
  match p with
  | None => Crash NullDeref
  | Some k => match infos s !! k with Some th => Ok th s | None => Crash UseAfterFree end
  end.

Definition update_info (p : option (option tid)) (f : thread -> thread) : comp runtime unit :=
  th ← read_info p;
  modify (fun s => match p with Some k => set_infos (<[k := f th]> (infos s)) s | None => s end).

(** [static __cxa_thread_info *info = thread_info();]: run once in the life of
    the process, by whichever thread comes first. *)
Definition static_info (f : static) (t : tid) : comp runtime (option (option tid)) := fun s =>
  match statics s f with
  | Some p => Ok p s
  | None =>
      match thread_info t s with
      | Ok p s => Ok p (set_statics (fun f' => if decide (f' = f) then Some p else statics s f') s)
      | o => o
      end
  end.

(** ** pathscale *)
Definition set_use_thread_local_handlers (flag : bool) : comp runtime unit :=
  modify (set_thread_local_handlers flag).

Definition pathscale_set_unexpected (t : tid) (f : word) : comp runtime word :=
  info ← static_info In_set_unexpected t;
  old ← read_info info;
  update_info info (set_unexpectedHandler f);;
  mret (unexpectedHandler old).

Definition pathscale_set_terminate (t : tid) (f : word) : comp runtime word :=
  info ← static_info In_set_terminate t;
  old ← read_info info;
  update_info info (set_terminateHandler f);;
  mret (terminateHandler old).

(** ** std *)
Definition std_set_unexpected (t : tid) (f : word) : comp runtime word :=
  b ← gets thread_local_handlers;
  if (b : bool) then pathscale_set_unexpected t f
  else old ← gets g_unexpected;
       modify (set_g_unexpected f);;
       mret old.

Definition std_set_terminate (t : tid) (f : word) : comp runtime word :=
  b ← gets thread_local_handlers;
  if (b : bool) then pathscale_set_terminate t f
  else old ← gets g_terminate;
       modify (set_g_terminate f);;
       mret old.

Definition get_unexpected (t : tid) : comp runtime word :=
  info ← thread_info t;
  th ← read_info info;
  if decide (unexpectedHandler th = NULL) then gets g_unexpected else mret (unexpectedHandler th).

Definition get_terminate (t : tid) : comp runtime word :=
  info ← thread_info t;
  th ← read_info info;
  if decide (terminateHandler th = NULL) then gets g_terminate else mret (terminateHandler th).

(** The handler [terminate] calls *)
Definition terminate_calls (t : tid) : comp runtime word :=
  info ← static_info In_terminate t;
  match info with
  | None => gets g_terminate
  | Some _ =>
      th ← read_info info;
      if decide (terminateHandler th = NULL) then gets g_terminate else mret (terminateHandler th)
  end.

(** Calling a handler through a null pointer is as bad as reading one.  No
    terminate handler returns: if it did, [abort] would follow. *)
Definition terminate {A} (t : tid) : comp runtime A :=
  h ← terminate_calls t;
  if decide (h = NULL) then crashed NullDeref else crashed Terminate.

(** Calls an unexpected handler; [Ok] is the exception it leaves by, and if
    it returns, [abort] is called. *)
Definition call_unexpected_handler (t : tid) (h : word) : comp runtime unit :=
  match h with
  | Fn (User n) => threw ← user_unexpected n t; assert_ threw
  | Fn _ => terminate t
  | _ => crashed NullDeref
  end.

Definition unexpected_calls (t : tid) : comp runtime word :=
  info ← static_info In_unexpected t;
  match info with
  | None => gets g_unexpected
  | Some _ =>
      th ← read_info info;
      if decide (unexpectedHandler th = NULL) then gets g_unexpected else mret (unexpectedHandler th)
  end.

Definition unexpected (t : tid) : comp runtime unit :=
  h ← unexpected_calls t;
  call_unexpected_handler t h.

(** ** uncaught_exception(s) *)
Definition uncaught_exceptions (t : tid) : comp runtime Z :=
  info ← thread_info t;
  th ← read_info info;
  (* an [unsigned int] returned as an [int] *)
  mret (if uncaughtExceptions th <? 2 ^ 31 then uncaughtExceptions th else uncaughtExceptions th - 2 ^ 32).

Definition uncaught_exception (t : tid) : comp runtime bool :=
  info ← thread_info t;
  th ← read_info info;
  mret (negb (uncaughtExceptions th =? 0)).
End Handlers.

(** [terminate.cc]: the weak [std::terminate] of a program without an STL *)
Definition stub_terminate : comp runtime unit := crashed AssertFail.
