(* ===== verification/ExnAlloc.v ===== *)
(** * Memory for exceptions

    Models the emergency buffers of [exception.cc], and the allocation and
    release of exceptions over them.  A call runs without interruption here;
    what concurrent callers of the emergency buffers do to each other is in
    EmergencyPool. *)
From S2P Require Import Prelude ExnState ExnHandlers.

Section Alloc.
Context {L : Linked}.

(** The first buffer that is not allocated *)
Fixpoint first_free (i : nat) (bs : list bool) : option nat :=
  match bs with
  | [] => None
  | true :: bs => first_free (S i) bs
  | false :: _ => Some i
  end.

(** Fails when it has to wait for another thread to release a buffer. *)
Definition emergency_malloc (t : tid) (n : Z) : comp runtime (option block) :=
  if n >? EMERGENCY_SIZE then mret None
  else
    info ← thread_info t;
    th ← read_info info;
    if emergencyBuffersHeld th >? 3 then mret None
    else
      m ← calloc n;
      match m with
      | Some _ => mret m
      | None =>
          bs ← gets buffer_allocated;
          match first_free 0 bs with
          | None => failed
          | Some i =>
              modify (set_buffers (<[i := true]> bs));;
              update_info info (fun th => set_buffersHeld (emergencyBuffersHeld th + 1) th);;
              mret (Some (Emergency i))
          end
      end.

Definition emergency_malloc_free (b : block) (off : Z) : comp runtime unit :=
  match b with
  | Emergency i =>
      if off =? 0 then
        modify (fun s => set_mem (<[b := zeroed EMERGENCY_SIZE]> (mem s)) s);;
        modify (fun s => set_buffers (<[i := false]> (buffer_allocated s)) s)
      else crashed AssertFail
  | _ => crashed AssertFail
  end.

Definition alloc_or_die (t : tid) (n : Z) : comp runtime block :=
  m ← calloc n;
  match m with
  | Some b => mret b
  | None =>
      b ← emergency_malloc t n;
      match b with
      | Some b => mret b
      | None => terminate t
      end
  end.

(** [free(p)]; the runtime of another language frees its own blocks *)
Definition free (b : block) : comp runtime unit := fun s =>
  match b, mem s !! b with
  | Heap _, Some _ => Ok tt (set_mem (delete b (mem s)) s)
  | Heap _, None => Crash DoubleFree
  | _, _ => Crash OutOfBounds
  end.

Definition free_exception (e : word) : comp runtime unit :=
  match e with
  | Ptr (Emergency i) o => emergency_malloc_free (Emergency i) o;; modify (add_event (Released (Emergency i)))
  | Ptr b o => if o =? 0 then free b;; modify (add_event (Released b)) else crashed OutOfBounds
  | _ => crashed OutOfBounds
  end.

Definition __cxa_allocate_exception (t : tid) (thrown_size : Z) : comp runtime word :=
  b ← alloc_or_die t (size_t (thrown_size + sizeof_cxa_exception));
  mret (Ptr b sizeof_cxa_exception).

Definition __cxa_allocate_dependent_exception (t : tid) : comp runtime word :=
  b ← alloc_or_die t sizeof_cxa_exception;
  mret (Ptr b sizeof_cxa_exception).

(** [ex->exceptionDestructor(thrown_exception)], a [terminate] if it throws *)
Definition destroy (t : tid) (d object : word) : comp runtime unit :=
  match d with
  | Fn f => modify (add_event (Destroyed f object));;
            if destructor_throws f then terminate t else mret tt
  | _ => crashed OutOfBounds
  end.

Definition __cxa_free_exception (t : tid) (thrown_exception : word) : comp runtime unit :=
  let ex := shift thrown_exception (- sizeof_cxa_exception) in
  d ← get ex exceptionDestructor;
  (if decide (d = NULL) then mret tt else destroy t d thrown_exception);;
  free_exception ex.

(** [__sync_fetch_and_add(&ex->referenceCount, d)], and the new value *)
Definition add_reference (ex : word) (d : Z) : comp runtime Z :=
  n ← get_int ex referenceCount;
  set_ ex referenceCount (Int (size_t (n + d)));;
  mret (size_t (n + d)).

(** [__cxa_free_dependent_exception], over the [releaseException] it calls *)
Definition free_dependent (releaseException : word -> comp runtime unit) (thrown_exception : word) : comp runtime unit :=
  let ex := shift thrown_exception (- sizeof_cxa_exception) in
  cls ← class_of_header ex;
  assert_ (isDependentException cls);;
  p ← get ex primaryException;
  (if decide (p = NULL) then mret tt
   else real ← realExceptionFromException ex;
        releaseException real);;
  free_exception ex.

(** The two call each other. *)
Fixpoint release (fuel : nat) (t : tid) (exception : word) : comp runtime unit :=
  match fuel with
  | O => no_fuel
  | S fuel =>
      cls ← class_of_header exception;
      if isDependentException cls then
        free_dependent (release fuel t) (shift exception sizeof_cxa_exception)
      else
        n ← add_reference exception (-1);
        if n =? 0 then __cxa_free_exception t (shift exception sizeof_cxa_exception) else mret tt
  end.

(** A chain of dependent exceptions is no longer than the memory is large. *)
Definition releaseException (t : tid) (exception : word) : comp runtime unit := fun s =>
  release (S (S (size (mem s)))) t exception s.

Definition __cxa_free_dependent_exception (t : tid) (thrown_exception : word) : comp runtime unit :=
  free_dependent (releaseException t) thrown_exception.

(** The cleanup functions in the headers, for foreign handlers *)
Definition exception_cleanup (t : tid) (ex : word) : comp runtime unit :=
  __cxa_free_exception t (shift ex sizeof_Unwind_Exception).
Definition dependent_exception_cleanup (t : tid) (ex : word) : comp runtime unit :=
  __cxa_free_dependent_exception t (shift ex sizeof_Unwind_Exception).
End Alloc.

(** The buffer found is not allocated. *)
Lemma first_free_spec i bs j : first_free i bs = Some j -> exists k, j = (i + k)%nat /\ bs !! k = Some false.
Proof.
  revert i. induction bs as [|[] bs IH]; intros i; cbn; [done|..].
  - intros (k & -> & ?)%IH. exists (S k). split; [lia|done].
  - intros [= <-]. exists 0%nat. split; [lia|done].
Qed.
