(* ===== verification/Exception.v ===== *)
(** * Throwing and catching

    Models the ABI functions of [exception.cc] that compiled code and the
    standard library call: throw, rethrow, entering and leaving a handler,
    [exception_ptr], and the cleanup of a thread.  The personality function is
    in Personality. *)
From S2P Require Import Prelude ExnState ExnHandlers ExnAlloc.

(** How a call that throws ends: in the unwinder, or by returning. *)
Inductive ending := Unwinding (exceptionObject : word) | Returned.

(** [_Unwind_Reason_Code] *)
Definition _URC_NO_REASON : Z := 0.
Definition _URC_FOREIGN_EXCEPTION_CAUGHT : Z := 1.
Definition _URC_FATAL_PHASE2_ERROR : Z := 2.
Definition _URC_FATAL_PHASE1_ERROR : Z := 3.
Definition _URC_NORMAL_STOP : Z := 4.
Definition _URC_END_OF_STACK : Z := 5.
Definition _URC_HANDLER_FOUND : Z := 6.
Definition _URC_INSTALL_CONTEXT : Z := 7.
Definition _URC_CONTINUE_UNWIND : Z := 8.

Section Exception.
Context {L : Linked}.

(** [e->exception_cleanup(_URC_FOREIGN_EXCEPTION_CAUGHT, e)], if there is one *)
Definition call_cleanup (t : tid) (e : word) : comp runtime unit :=
  f ← load (shift e exception_cleanup_);
  if decide (f = NULL) then mret tt
  else match f with
       | Fn Exception_cleanup => exception_cleanup t e
       | Fn Dependent_exception_cleanup => dependent_exception_cleanup t e
       | Fn f => modify (add_event (Foreign_cleanup f e))
       | _ => crashed OutOfBounds
       end.

(** ** Handlers *)
Definition __cxa_begin_catch (t : tid) (e : word) : comp runtime word :=
  ti ← thread_info t;
  cls ← class_of e;
  if isCXXException cls then
    update_info ti (fun th => set_uncaught (uint_ (uncaughtExceptions th - 1)) th);;
    let ex := exceptionFromPointer e in
    n ← get_int ex handlerCount;
    (if n =? 0 then
       th ← read_info ti;
       set_ ex nextException (caughtExceptions th);;
       update_info ti (set_caught ex)
     else mret tt);;
    (if n <? 0 then
       m ← int_ (- n + 1);
       set_ ex handlerCount (Int m)
     else
       m ← int_ (n + 1);
       set_ ex handlerCount (Int m));;
    update_info ti (set_foreign none);;
    get ex adjustedPtr
  else
    th ← read_info ti;
    if decide (caughtExceptions th = NULL) then
      update_info ti (set_caught e);;
      update_info ti (set_foreign caught);;
      mret (shift e sizeof_Unwind_Exception)
    else terminate t.

Definition __cxa_end_catch (t : tid) : comp runtime unit :=
  ti ← thread_info_fast t;
  th ← read_info ti;
  let ex := caughtExceptions th in
  assert_ (bool_decide (ex <> NULL));;
  match foreign_exception_state th with
  | none =>
      n ← get_int ex handlerCount;
      let deleteException := negb (n <? 0) in
      m ← int_ (if n <? 0 then n + 1 else n - 1);
      set_ ex handlerCount (Int m);;
      if m =? 0 then
        next ← get ex nextException;
        update_info ti (set_caught next);;
        if deleteException then releaseException t ex else mret tt
      else mret tt
  | st =>
      (match st with
       | rethrown => mret tt
       | _ => call_cleanup t ex
       end);;
      update_info ti (set_caught NULL);;
      update_info ti (set_foreign none)
  end.

Definition __cxa_current_exception_type (t : tid) : comp runtime word :=
  info ← thread_info t;
  th ← read_info info;
  if decide (caughtExceptions th = NULL) then mret NULL
  else get (caughtExceptions th) exceptionType.

Definition __cxa_get_exception_ptr (exceptionObject : word) : comp runtime word :=
  get (exceptionFromPointer exceptionObject) adjustedPtr.

Definition __cxa_call_terminate (t : tid) (exception : word) : comp runtime unit := terminate t.

(** The handler leaves by an exception: [end_catch] runs as the cleanup of the
    frame, and the exception goes on. *)
Definition __cxa_call_unexpected (t : tid) (exception : word) : comp runtime unit :=
  __cxa_begin_catch t exception;;
  cls ← class_of exception;
  (if cls =? exception_class then
     h ← get (exceptionFromPointer exception) unexpectedHandler_;
     if decide (h = NULL) then unexpected t else call_unexpected_handler t h
   else unexpected t);;
  __cxa_end_catch t.

(** ** Throwing *)
Definition report_failure (t : tid) (err : Z) (thrown_exception : word) : comp runtime ending :=
  (if err =? _URC_END_OF_STACK then
     __cxa_begin_catch t (shift thrown_exception (offsetof unwindHeader));; mret tt
   else mret tt);;
  terminate t.

(** The call of the unwinder, and what follows it if it returns *)
Definition enter_unwinder (t : tid) (again : bool) (exceptionObject ex : word) : comp runtime ending :=
  r ← gets (unwind again exceptionObject);
  match r with
  | None => mret (Unwinding exceptionObject)
  | Some err => report_failure t err ex
  end.

Definition throw_exception (t : tid) (ex : word) : comp runtime ending :=
  info ← thread_info t;
  th ← read_info info;
  (if decide (unexpectedHandler th = NULL)
   then h ← gets g_unexpected; set_ ex unexpectedHandler_ h
   else set_ ex unexpectedHandler_ (unexpectedHandler th));;
  (if decide (terminateHandler th = NULL)
   then h ← gets g_terminate; set_ ex terminateHandler_ h
   else set_ ex terminateHandler_ (terminateHandler th));;
  update_info info (fun th => set_uncaught (uint_ (uncaughtExceptions th + 1)) th);;
  enter_unwinder t false (shift ex (offsetof unwindHeader)) ex.

Definition __cxa_init_primary_exception (object tinfo dest : word) : comp runtime word :=
  let ex := shift object (- sizeof_cxa_exception) in
  set_ ex referenceCount (Int 0);;
  set_ ex exceptionType tinfo;;
  set_ ex exceptionDestructor dest;;
  store (shift ex (offsetof unwindHeader + exception_class_)) (Int exception_class);;
  store (shift ex (offsetof unwindHeader + exception_cleanup_)) (Fn Exception_cleanup);;
  mret ex.

Definition __cxa_throw (t : tid) (thrown_exception tinfo dest : word) : comp runtime ending :=
  ex ← __cxa_init_primary_exception thrown_exception tinfo dest;
  set_ ex referenceCount (Int 1);;
  throw_exception t ex.

Definition __cxa_rethrow (t : tid) : comp runtime ending :=
  ti ← thread_info t;
  th ← read_info ti;
  let ex := caughtExceptions th in
  if decide (ex = NULL) then terminate t
  else match foreign_exception_state th with
  | none =>
      n ← get_int ex handlerCount;
      assert_ (0 <? n);;
      update_info ti (fun th => set_uncaught (uint_ (uncaughtExceptions th + 1)) th);;
      set_ ex handlerCount (Int (- n));;
      enter_unwinder t true (shift ex (offsetof unwindHeader)) ex
  | _ =>
      update_info ti (set_foreign rethrown);;
      enter_unwinder t true ex ex
  end.

(** ** exception_ptr *)
Definition __cxa_current_primary_exception (t : tid) : comp runtime word :=
  info ← thread_info t;
  th ← read_info info;
  if decide (caughtExceptions th = NULL) then mret NULL
  else
    ex ← realExceptionFromException (caughtExceptions th);
    add_reference ex 1;;
    mret (shift ex sizeof_cxa_exception).

Definition __cxa_increment_exception_refcount (thrown_exception : word) : comp runtime unit :=
  if decide (thrown_exception = NULL) then mret tt
  else
    let ex := shift thrown_exception (- sizeof_cxa_exception) in
    cls ← class_of_header ex;
    if isDependentException cls then mret tt
    else add_reference ex 1;; mret tt.

Definition __cxa_decrement_exception_refcount (t : tid) (thrown_exception : word) : comp runtime unit :=
  if decide (thrown_exception = NULL) then mret tt
  else releaseException t (shift thrown_exception (- sizeof_cxa_exception)).

Definition __cxa_rethrow_primary_exception (t : tid) (thrown_exception : word) : comp runtime ending :=
  if decide (thrown_exception = NULL) then mret Returned
  else
    let original := exceptionFromPointer thrown_exception in
    p ← __cxa_allocate_dependent_exception t;
    let ex := shift p (- sizeof_cxa_exception) in
    set_ ex primaryException thrown_exception;;
    __cxa_increment_exception_refcount thrown_exception;;
    ti ← get original exceptionType;
    set_ ex exceptionType ti;;
    store (shift ex (offsetof unwindHeader + exception_class_)) (Int dependent_exception_class);;
    store (shift ex (offsetof unwindHeader + exception_cleanup_)) (Fn Dependent_exception_cleanup);;
    throw_exception t ex.

(** ** The end of a thread *)
Fixpoint free_exception_list (fuel : nat) (t : tid) (ex : word) : comp runtime unit :=
  match fuel with
  | O => no_fuel
  | S fuel =>
      next ← get ex nextException;
      (if decide (next = NULL) then mret tt else free_exception_list fuel t next);;
      __cxa_free_exception t (shift ex sizeof_cxa_exception)
  end.

(** [thread_cleanup(thread_info)], the destructor of the thread's key *)
Definition thread_cleanup (t : tid) (info : option (option tid)) : comp runtime unit :=
  th ← read_info info;
  (if decide (caughtExceptions th = NULL) then mret tt
   else match foreign_exception_state th with
   | none => n ← gets (fun s => S (size (mem s))); free_exception_list n t (caughtExceptions th)
   | _ => call_cleanup t (caughtExceptions th)
   end);;
  modify (fun s => match info with Some k => set_infos (delete k (infos s)) s | None => s end).
End Exception.
