(* ===== verification/EmergencyPool.v ===== *)
(** * Emergency buffers under concurrency

    [emergency_malloc] and [emergency_malloc_free] of [exception.cc], cut at
    their accesses to what threads share: the lock, the condition variable,
    the flags and the buffers.  A step of the machine is the next such access
    of one thread; the scheduler, and whether [calloc] finds memory, are any. *)
From S2P Require Import Prelude ExnState ExnHandlers ExnAlloc.

#[global] Open Scope Z_scope.

(** Where a thread is.  The first group is [emergency_malloc], the second
    [emergency_malloc_free]; a number is the buffer. *)
Inductive pc :=
  | Idle
  | Locking              (** before [pthread_mutex_lock] *)
  | Trying               (** at the head of the loop: [calloc] *)
  | Scanning             (** looking for a buffer *)
  | Waiting              (** in [pthread_cond_wait] *)
  | Woken                (** in [pthread_cond_wait], about to lock again *)
  | LeavingMem           (** unlock, and return memory of [calloc] *)
  | Leaving (i : nat)    (** unlock, with the buffer *)
  | Counting (i : nat)   (** [emergencyBuffersHeld++] and return *)
  | Clearing (i : nat)   (** [memset] *)
  | LockingFree (i : nat)
  | Marking (i : nat)    (** [buffer_allocated[buffer] = false] *)
  | Signalling           (** [pthread_cond_signal] *)
  | UnlockingFree.

#[global] Instance pc_eq_dec : EqDecision pc.
Proof. solve_decision. Defined.

(** [out]: the program has the buffer; [clean]: it holds only zeros, which a
    buffer the program has may not. *)
Record pool := Pool {
  owner : option tid;
  flags : list bool;
  queue : list tid;
  pcs : list pc;
  held : list nat;
  out : list bool;
  clean : list bool;
}.

Definition set_owner (o : option tid) (s : pool) : pool :=
  Pool o (flags s) (queue s) (pcs s) (held s) (out s) (clean s).
Definition set_flag (i : nat) (b : bool) (s : pool) : pool :=
  Pool (owner s) (<[i := b]> (flags s)) (queue s) (pcs s) (held s) (out s) (clean s).
Definition set_queue (q : list tid) (s : pool) : pool :=
  Pool (owner s) (flags s) q (pcs s) (held s) (out s) (clean s).
Definition set_pc (t : tid) (p : pc) (s : pool) : pool :=
  Pool (owner s) (flags s) (queue s) (<[t := p]> (pcs s)) (held s) (out s) (clean s).
Definition count_held (t : tid) (s : pool) : pool :=
  Pool (owner s) (flags s) (queue s) (pcs s) (alter S t (held s)) (out s) (clean s).
Definition set_out (i : nat) (b : bool) (s : pool) : pool :=
  Pool (owner s) (flags s) (queue s) (pcs s) (held s) (<[i := b]> (out s)) (clean s).
Definition set_clean (i : nat) (b : bool) (s : pool) : pool :=
  Pool (owner s) (flags s) (queue s) (pcs s) (held s) (out s) (<[i := b]> (clean s)).

(** What a thread does next: calls one of the two functions; goes on, [calloc]
    finding memory or not if it is its turn; wakes up for no reason. *)
Inductive action := Malloc | Free (i : nat) | Run (memory : bool) | Spurious.

(** None: the step is not possible, the thread waits for the lock or a signal. *)
Definition step (t : tid) (a : action) (s : pool) : option pool :=
  match pcs s !! t, a with
  | Some Idle, Malloc =>
      h ← held s !! t;
      if (3 <? h)%nat then Some s else Some (set_pc t Locking s)
  | Some Idle, Free i =>
      if decide (out s !! i = Some true) then Some (set_pc t (Clearing i) (set_out i false s)) else None
  | Some Locking, Run _ | Some Woken, Run _ =>
      match owner s with
      | None => Some (set_pc t Trying (set_owner (Some t) s))
      | Some _ => None
      end
  | Some Trying, Run memory => Some (set_pc t (if memory then LeavingMem else Scanning) s)
  | Some Scanning, Run _ =>
      match first_free 0 (flags s) with
      | Some i => Some (set_pc t (Leaving i) (set_flag i true s))
      | None => Some (set_pc t Waiting (set_queue (queue s ++ [t]) (set_owner None s)))
      end
  | Some Waiting, Spurious => Some (set_pc t Woken (set_queue (filter (fun x => x <> t) (queue s)) s))
  | Some LeavingMem, Run _ => Some (set_pc t Idle (set_owner None s))
  | Some (Leaving i), Run _ => Some (set_pc t (Counting i) (set_owner None s))
  | Some (Counting i), Run _ => Some (set_pc t Idle (count_held t (set_out i true (set_clean i false s))))
  | Some (Clearing i), Run _ => Some (set_pc t (LockingFree i) (set_clean i true s))
  | Some (LockingFree i), Run _ =>
      match owner s with
      | None => Some (set_pc t (Marking i) (set_owner (Some t) s))
      | Some _ => None
      end
  | Some (Marking i), Run _ => Some (set_pc t Signalling (set_flag i false s))
  | Some Signalling, Run _ =>
      match queue s with
      | [] => Some (set_pc t UnlockingFree s)
      | x :: q => Some (set_pc t UnlockingFree (set_pc x Woken (set_queue q s)))
      end
  | Some UnlockingFree, Run _ => Some (set_pc t Idle (set_owner None s))
  | _, _ => None
  end.

(** [n] threads, before any call *)
Definition pool_started (n : nat) : pool :=
  Pool None (replicate EMERGENCY_BUFFERS false) [] (replicate n Idle) (replicate n 0%nat)
    (replicate EMERGENCY_BUFFERS false) (replicate EMERGENCY_BUFFERS true).

(** [starved]: no [calloc] succeeds. *)
Inductive pool_reachable (starved : bool) (n : nat) : pool -> Prop :=
  | pool_start : pool_reachable starved n (pool_started n)
  | pool_step s s' t a :
      pool_reachable starved n s -> step t a s = Some s' ->
      (starved = true -> a <> Run true) -> pool_reachable starved n s'.

(** ** The invariant *)

(** The threads that hold the lock *)
Definition locked (p : pc) : bool :=
  match p with
  | Trying | Scanning | LeavingMem | Leaving _ | Marking _ | Signalling | UnlockingFree => true
  | _ => false
  end.

(** The buffer a thread is handing out or taking back *)
Definition buffer_of (p : pc) : option nat :=
  match p with
  | Leaving i | Counting i | Clearing i | LockingFree i | Marking i => Some i
  | _ => None
  end.

Record pool_ok (s : pool) : Prop := {
  ok_owner : forall t p, pcs s !! t = Some p -> locked p = true <-> owner s = Some t;
  ok_unique : forall t1 t2 p1 p2 i, pcs s !! t1 = Some p1 -> pcs s !! t2 = Some p2 ->
    buffer_of p1 = Some i -> buffer_of p2 = Some i -> t1 = t2;
  ok_out : forall t p i, pcs s !! t = Some p -> buffer_of p = Some i ->
    out s !! i = Some false /\ flags s !! i = Some true;
  ok_flag : forall i, out s !! i = Some true -> flags s !! i = Some true;
  ok_clean : forall i, flags s !! i = Some false -> clean s !! i = Some true;
  ok_zero : forall t p i, pcs s !! t = Some p -> buffer_of p = Some i -> p <> Clearing i -> clean s !! i = Some true;
  ok_length : length (flags s) = EMERGENCY_BUFFERS /\ length (out s) = EMERGENCY_BUFFERS /\ length (clean s) = EMERGENCY_BUFFERS;
  ok_queue : forall t, t ∈ queue s <-> pcs s !! t = Some Waiting;
  ok_queue_nodup : NoDup (queue s);
}.

Lemma lookup_pcs t p s t' p' :
  pcs (set_pc t p s) !! t' = Some p' -> (t' = t /\ p' = p) \/ (t' <> t /\ pcs s !! t' = Some p').
Proof.
  cbn. intros H. destruct (decide (t = t')) as [->|Hne].
  - apply list_lookup_insert_Some in H as [(_ & -> & _)|[? _]]; auto. done.
  - rewrite list_lookup_insert_ne in H by done. auto.
Qed.

Lemma lookup_pcs_eq t p p0 s : pcs s !! t = Some p0 -> pcs (set_pc t p s) !! t = Some p.
Proof. intros H. cbn. apply list_lookup_insert_eq. by eapply lookup_lt_Some. Qed.

Lemma lookup_pcs_ne t t' p s : t' <> t -> pcs (set_pc t p s) !! t' = pcs s !! t'.
Proof. intros H. cbn. by apply list_lookup_insert_ne. Qed.

(** A thread moves; the rest of the state is [s'], with the same threads. *)
Lemma pool_move t p0 p s s' :
  pool_ok s -> pcs s !! t = Some p0 -> pcs s' = pcs s ->
  (locked p = true <-> owner s' = Some t) ->
  (forall t', t' <> t -> owner s' = Some t' <-> owner s = Some t') ->
  (forall i, buffer_of p = Some i -> out s' !! i = Some false /\ flags s' !! i = Some true /\
     (p <> Clearing i -> clean s' !! i = Some true) /\
     (buffer_of p0 = Some i \/ out s !! i = Some true \/ flags s !! i = Some false)) ->
  (forall t' p' i, t' <> t -> pcs s !! t' = Some p' -> buffer_of p' = Some i ->
     out s' !! i = out s !! i /\ flags s' !! i = flags s !! i /\ clean s' !! i = clean s !! i) ->
  (forall i, out s' !! i = Some true -> flags s' !! i = Some true) ->
  (forall i, flags s' !! i = Some false -> clean s' !! i = Some true) ->
  length (flags s') = length (flags s) -> length (out s') = length (out s) -> length (clean s') = length (clean s) ->
  (forall t', t' ∈ queue s' <-> (t' <> t /\ t' ∈ queue s) \/ (t' = t /\ p = Waiting)) -> NoDup (queue s') ->
  pool_ok (set_pc t p s').
Proof.
  intros [Hown Huniq Hout Hflag Hclean Hzero Hlen Hq Hnd] Hp Hpcs Hl Ho Hb Hrest Hf Hc H1 H2 H3 Hq' Hnd'.
  assert (forall t' p', pcs (set_pc t p s') !! t' = Some p' ->
    (t' = t /\ p' = p) \/ (t' <> t /\ pcs s !! t' = Some p')) as Hcase.
  { intros t' p' H%lookup_pcs. by rewrite Hpcs in H. }
  assert (forall t' p' i, pcs s !! t' = Some p' -> t' <> t -> buffer_of p' = Some i -> buffer_of p = Some i -> False) as Hdisj.
  { intros t' p' i Hp' Hne Hb' Hbp. destruct (Hb _ Hbp) as (_ & _ & _ & [Hb0|[Ht|Hfl]]).
    - by apply Hne, (Huniq _ _ _ _ i Hp' Hp).
    - destruct (Hout _ _ _ Hp' Hb') as [E _]. congruence.
    - destruct (Hout _ _ _ Hp' Hb') as [_ E]. congruence. }
  split; cbn [owner queue flags out clean set_pc].
  - intros t' p' [[-> ->]|[Hne H]]%Hcase; [done|]. rewrite Ho by done. by apply Hown.
  - intros t1 t2 p1 p2 i [[-> ->]|[Hne1 H1']]%Hcase [[-> ->]|[Hne2 H2']]%Hcase Hb1 Hb2;
      [done|exfalso; by eapply Hdisj..|by eapply Huniq].
  - intros t' p' i [[-> ->]|[Hne H]]%Hcase Hbi.
    + destruct (Hb _ Hbi) as (? & ? & _). done.
    + destruct (Hrest _ _ _ Hne H Hbi) as (-> & -> & _). by eapply Hout.
  - done.
  - done.
  - intros t' p' i [[-> ->]|[Hne H]]%Hcase Hbi Hnc.
    + destruct (Hb _ Hbi) as (_ & _ & Hz & _). by apply Hz.
    + destruct (Hrest _ _ _ Hne H Hbi) as (_ & _ & ->). by eapply Hzero.
  - rewrite H1, H2, H3. done.
  - intros t'. rewrite Hq'. split.
    + intros [[Hne H]|[-> ->]].
      * rewrite lookup_pcs_ne, Hpcs by done. by apply Hq.
      * eapply lookup_pcs_eq. by rewrite Hpcs.
    + intros [[-> H]|[Hne H]]%Hcase; [by right|left]. split; [done|by apply Hq].
  - done.
Qed.

Lemma pool_start_ok n : pool_ok (pool_started n).
Proof.
  assert (forall t p, pcs (pool_started n) !! t = Some p -> p = Idle) as Hidle.
  { intros t p H. by apply lookup_replicate in H as [-> _]. }
  assert (forall i, out (pool_started n) !! i <> Some true) as Hout.
  { intros i H. by apply lookup_replicate in H as [? _]. }
  split.
  - by intros t p ->%Hidle.
  - by intros t1 t2 p1 p2 i ->%Hidle.
  - by intros t p i ->%Hidle.
  - by intros i ?%Hout.
  - cbn [flags clean pool_started]. intros i [_ Hi]%lookup_replicate. by apply lookup_replicate_2.
  - by intros t p i ->%Hidle.
  - cbn [flags out clean pool_started]. by rewrite !length_replicate.
  - intros t. split; [by intros ?%not_elem_of_nil|]. by intros ?%Hidle.
  - constructor.
Qed.

(** A buffer below 16, with its bit in each of the lists *)
Lemma in_range i b (l : list bool) : l !! i = Some b -> length l = EMERGENCY_BUFFERS ->
  forall l' : list bool, length l' = EMERGENCY_BUFFERS -> (i < length l')%nat.
Proof. intros H Hl l' Hl'. apply lookup_lt_Some in H. lia. Qed.

Lemma nobody_waits_twice s t p0 : pool_ok s -> pcs s !! t = Some p0 -> p0 <> Waiting -> t ∉ queue s.
Proof. intros Hok Hp Hne Hin. apply (ok_queue _ Hok) in Hin. congruence. Qed.

(** The frame of a step that touches neither buffers nor the queue *)
Lemma pool_simple t p0 p o s :
  pool_ok s -> pcs s !! t = Some p0 -> p0 <> Waiting -> p <> Waiting ->
  (locked p = true <-> o = Some t) -> (forall t', t' <> t -> o = Some t' <-> owner s = Some t') ->
  (forall i, buffer_of p = Some i -> buffer_of p0 = Some i /\ p0 <> Clearing i) ->
  pool_ok (set_pc t p (set_owner o s)).
Proof.
  intros Hok Hp Hnw Hnw' Hl Ho Hb. eapply (pool_move t p0 p s); try done.
  - intros i Hi. destruct (Hb _ Hi) as [Hi0 Hnc]. destruct (ok_out _ Hok _ _ _ Hp Hi0) as [? ?].
    split; [done|]. split; [done|]. split; [|by left]. intros _. by eapply (ok_zero _ Hok).
  - by apply (ok_flag _ Hok).
  - by apply (ok_clean _ Hok).
  - intros t'. split.
    + intros Hin. left. split; [|done]. intros ->. by eapply nobody_waits_twice.
    + intros [[_ ?]|[_ ?]]; done.
  - by apply (ok_queue_nodup _ Hok).
Qed.

(** While a thread holds the lock, it is the only owner. *)
Lemma owner_of t p s : pool_ok s -> pcs s !! t = Some p -> locked p = true -> owner s = Some t.
Proof. intros Hok Hp Hl. by apply (ok_owner _ Hok _ _ Hp). Qed.

Lemma not_owner_of t p s : pool_ok s -> pcs s !! t = Some p -> locked p = false -> owner s <> Some t.
Proof. intros Hok Hp Hl Ho. apply (ok_owner _ Hok _ _ Hp) in Ho. congruence. Qed.

Lemma same_state s : s = set_owner (owner s) s.
Proof. by destruct s. Qed.

(** Steps of the queue *)
Lemma pool_enqueue t s : pool_ok s -> pcs s !! t = Some Scanning ->
  pool_ok (set_pc t Waiting (set_queue (queue s ++ [t]) (set_owner None s))).
Proof.
  intros Hok Hp. eapply (pool_move t Scanning); try done; cbn [owner flags queue out clean set_owner set_queue].
  - intros t' Hne. split; [done|]. intros E. pose proof (owner_of _ _ _ Hok Hp eq_refl). congruence.
  - by apply (ok_flag _ Hok).
  - by apply (ok_clean _ Hok).
  - intros t'. rewrite elem_of_app, list_elem_of_singleton.
    pose proof (nobody_waits_twice _ _ _ Hok Hp ltac:(done)).
    split; [intros [Hin| ->]; [left; split; [congruence|done]|by right]|intros [[_ ?]|[-> _]]; auto].
  - apply NoDup_app. split; [by apply ok_queue_nodup|]. split; [|by apply NoDup_singleton].
    intros x Hx ->%list_elem_of_singleton. by eapply nobody_waits_twice.
Qed.

Lemma pool_wake x q s : pool_ok s -> pcs s !! x = Some Waiting ->
  NoDup q -> (forall t, t ∈ q <-> t <> x /\ t ∈ queue s) -> pool_ok (set_pc x Woken (set_queue q s)).
Proof.
  intros Hok Hp Hnd Hq. eapply (pool_move x Waiting); try done; cbn [owner flags queue out clean set_queue].
  - split; [done|]. intros E. exfalso. by eapply not_owner_of.
  - by apply (ok_flag _ Hok).
  - by apply (ok_clean _ Hok).
  - intros t. rewrite Hq. split; [by left|]. by intros [?|[_ ?]].
Qed.

(** Steps of the buffers *)
Lemma pool_buffer t p0 p i b f s s' :
  pool_ok s -> pcs s !! t = Some p0 -> p0 <> Waiting -> p <> Waiting ->
  pcs s' = pcs s -> owner s' = owner s -> queue s' = queue s -> locked p = locked p0 ->
  (forall j, j <> i -> out s' !! j = out s !! j /\ flags s' !! j = flags s !! j /\ clean s' !! j = clean s !! j) ->
  out s' !! i = Some b -> flags s' !! i = Some f -> (b = true -> f = true) -> (f = false -> clean s' !! i = Some true) ->
  (buffer_of p0 = Some i \/ out s !! i = Some true \/ flags s !! i = Some false) ->
  (buffer_of p = None \/ buffer_of p = Some i /\ b = false /\ f = true /\ (p <> Clearing i -> clean s' !! i = Some true)) ->
  length (flags s') = length (flags s) -> length (out s') = length (out s) -> length (clean s') = length (clean s) ->
  pool_ok (set_pc t p s').
Proof.
  intros Hok Hp Hnw Hnw' Hpcs Ho Hqu Hl Hrest Hb Hf Hbf Hcl Hfree Hnew H1 H2 H3.
  eapply (pool_move t p0 p s s'); try done.
  - rewrite Ho, Hl. by apply (ok_owner _ Hok).
  - intros t' _. by rewrite Ho.
  - intros j Hj. destruct Hnew as [Hn|(Hn & -> & -> & Hz)]; [congruence|].
    assert (j = i) as -> by congruence. by split_and!.
  - intros t' p' j Hne Hp' Hj. apply Hrest. intros ->. destruct Hfree as [Hi|[Hi|Hi]].
    + by apply Hne, (ok_unique _ Hok _ _ _ _ i Hp' Hp).
    + destruct (ok_out _ Hok _ _ _ Hp' Hj). congruence.
    + destruct (ok_out _ Hok _ _ _ Hp' Hj). congruence.
  - intros j Hj. destruct (decide (j = i)) as [->|Hne].
    + rewrite Hf. f_equal. apply Hbf. congruence.
    + destruct (Hrest _ Hne) as (E1 & E2 & _). rewrite E1 in Hj. rewrite E2. by apply (ok_flag _ Hok).
  - intros j Hj. destruct (decide (j = i)) as [->|Hne]; [apply Hcl; congruence|].
    destruct (Hrest _ Hne) as (_ & E2 & ->). rewrite E2 in Hj. by apply (ok_clean _ Hok).
  - intros t'. rewrite Hqu. split; [intros Hin; left; split; [|done]|by intros [[_ ?]|[_ ?]]].
    intros ->. by eapply nobody_waits_twice.
  - rewrite Hqu. by apply (ok_queue_nodup _ Hok).
Qed.

Lemma pool_take t i s : pool_ok s -> pcs s !! t = Some Scanning -> flags s !! i = Some false ->
  pool_ok (set_pc t (Leaving i) (set_flag i true s)).
Proof.
  intros Hok Hp Hf. pose proof (ok_length _ Hok) as (Hlf & Hlo & _).
  assert (out s !! i = Some false) as Hi.
  { destruct (out s !! i) as [[]|] eqn:E; [|done|].
    - apply (ok_flag _ Hok) in E. congruence.
    - apply lookup_ge_None in E. apply lookup_lt_Some in Hf. lia. }
  eapply (pool_buffer t Scanning (Leaving i) i false true); try done; cbn [out flags clean set_flag].
  - intros x Hx. by rewrite list_lookup_insert_ne.
  - apply list_lookup_insert_eq. by eapply lookup_lt_Some.
  - by right; right.
  - right. split_and!; try done. intros _. by apply (ok_clean _ Hok).
  - by rewrite length_insert.
Qed.

(** A step with the lock that does not touch the buffers *)
Lemma pool_keep_lock t p0 p s : pool_ok s -> pcs s !! t = Some p0 -> locked p0 = true -> locked p = true ->
  buffer_of p = None -> pool_ok (set_pc t p s).
Proof.
  intros Hok Hp Hl0 Hl Hb. rewrite (same_state s). eapply pool_simple; try done.
  - by intros ->.
  - by intros ->.
  - split; [intros _; by eapply owner_of|done].
  - intros i. by rewrite Hb.
Qed.

Lemma pool_signal t x q s : pool_ok s -> pcs s !! t = Some Signalling -> queue s = x :: q ->
  pool_ok (set_pc t UnlockingFree (set_pc x Woken (set_queue q s))).
Proof.
  intros Hok Hp Hq.
  assert (pcs s !! x = Some Waiting) as Hx by (apply (ok_queue _ Hok); rewrite Hq; left).
  pose proof (ok_queue_nodup _ Hok) as Hnd. rewrite Hq in Hnd. apply NoDup_cons in Hnd as [Hnin Hnd].
  eapply (pool_keep_lock t Signalling); try done.
  - apply pool_wake; [done..|]. intros t'. rewrite Hq, elem_of_cons. split; [|tauto].
    intros Hin. split; [congruence|by right].
  - rewrite lookup_pcs_ne by congruence. done.
Qed.

(** The program gives a buffer back; it is cleared, marked free; or counted. *)
Lemma pool_give_back t j s : pool_ok s -> pcs s !! t = Some Idle -> out s !! j = Some true ->
  pool_ok (set_pc t (Clearing j) (set_out j false s)).
Proof.
  intros Hok Hp Hj. pose proof (ok_flag _ Hok _ Hj) as Hfl.
  eapply (pool_buffer t Idle (Clearing j) j false true); try done; cbn [out flags clean set_out].
  - intros k Hk. by rewrite list_lookup_insert_ne.
  - apply list_lookup_insert_eq. by eapply lookup_lt_Some.
  - by right; left.
  - right. by split_and!.
  - by rewrite length_insert.
Qed.

Lemma pool_hand_out t i s : pool_ok s -> pcs s !! t = Some (Counting i) ->
  pool_ok (set_pc t Idle (count_held t (set_out i true (set_clean i false s)))).
Proof.
  intros Hok Hp. destruct (ok_out _ Hok _ _ _ Hp eq_refl) as [Hoi Hfi].
  eapply (pool_buffer t (Counting i) Idle i true true s (count_held t (set_out i true (set_clean i false s))));
    try done; cbn [out flags clean count_held set_out set_clean].
  - intros x Hx. by rewrite !list_lookup_insert_ne.
  - apply list_lookup_insert_eq. by eapply lookup_lt_Some.
  - by left.
  - by left.
  - by rewrite length_insert.
  - by rewrite length_insert.
Qed.

Lemma pool_clear t i s : pool_ok s -> pcs s !! t = Some (Clearing i) ->
  pool_ok (set_pc t (LockingFree i) (set_clean i true s)).
Proof.
  intros Hok Hp. pose proof (ok_length _ Hok) as (Hlf & Hlo & Hlc).
  destruct (ok_out _ Hok _ _ _ Hp eq_refl) as [Hoi Hfi].
  assert (<[i:=true]> (clean s) !! i = Some true) as Hci.
  { apply list_lookup_insert_eq. apply lookup_lt_Some in Hoi. lia. }
  eapply (pool_buffer t (Clearing i) (LockingFree i) i false true); try done; cbn [out flags clean set_clean].
  - intros x Hx. by rewrite !list_lookup_insert_ne.
  - by left.
  - right. by split_and!.
  - by rewrite length_insert.
Qed.

Lemma pool_mark t i s : pool_ok s -> pcs s !! t = Some (Marking i) ->
  pool_ok (set_pc t Signalling (set_flag i false s)).
Proof.
  intros Hok Hp. destruct (ok_out _ Hok _ _ _ Hp eq_refl) as [Hoi Hfi].
  eapply (pool_buffer t (Marking i) Signalling i false false); try done; cbn [out flags clean set_flag].
  - intros x Hx. by rewrite !list_lookup_insert_ne.
  - apply list_lookup_insert_eq. by eapply lookup_lt_Some.
  - intros _. by apply (ok_zero _ Hok _ _ _ Hp).
  - by left.
  - by left.
  - by rewrite length_insert.
Qed.

Lemma pool_unlock t p0 p s : pool_ok s -> pcs s !! t = Some p0 -> p0 <> Waiting -> p <> Waiting ->
  locked p0 = true -> locked p = false -> (forall i, buffer_of p = Some i -> buffer_of p0 = Some i /\ p0 <> Clearing i) ->
  pool_ok (set_pc t p (set_owner None s)).
Proof.
  intros Hok Hp Hnw Hnw' Hl0 Hl Hb. eapply pool_simple; try done.
  - by rewrite Hl.
  - intros t' Hne. pose proof (owner_of _ _ _ Hok Hp Hl0). split; congruence.
Qed.

Lemma pool_lock t p0 p s : pool_ok s -> pcs s !! t = Some p0 -> p0 <> Waiting -> p <> Waiting ->
  locked p = true -> owner s = None -> (forall i, buffer_of p = Some i -> buffer_of p0 = Some i /\ p0 <> Clearing i) ->
  pool_ok (set_pc t p (set_owner (Some t) s)).
Proof.
  intros Hok Hp Hnw Hnw' Hl Ho Hb. eapply pool_simple; try done. intros t' Hne. split; congruence.
Qed.

Lemma step_ok t a s s' : pool_ok s -> step t a s = Some s' -> pool_ok s'.
Proof.
  intros Hok. unfold step. destruct (pcs s !! t) as [p|] eqn:Hp; [|done].
  destruct p as [| | | | | | |i|i|i|i|i| |], a as [|j|m|]; try done.
  - destruct (held s !! t) as [h|]; [|done]. cbn [mbind option_bind].
    destruct (3 <? h)%nat; intros [= <-]; [done|]. rewrite (same_state s). eapply pool_simple; try done. cbn. split; [done|].
    intros E. exfalso. by eapply not_owner_of.
  - case_decide as Hj; [|done]. intros [= <-]. by apply pool_give_back.
  - destruct (owner s) eqn:Ho; [done|]. intros [= <-]. by eapply pool_lock.
  - intros [= <-]. eapply pool_keep_lock; try done; by destruct m.
  - destruct (first_free 0 (flags s)) as [k|] eqn:Hk; intros [= <-]; [|by apply pool_enqueue].
    apply first_free_spec in Hk as (k' & -> & Hfk). by apply pool_take.
  - intros [= <-]. apply pool_wake; [done..| |].
    + apply NoDup_filter. by apply (ok_queue_nodup _ Hok).
    + intros x. by rewrite list_elem_of_filter.
  - destruct (owner s) eqn:Ho; [done|]. intros [= <-]. by eapply pool_lock.
  - intros [= <-]. by eapply pool_unlock.
  - intros [= <-]. by eapply pool_unlock.
  - intros [= <-]. by apply pool_hand_out.
  - intros [= <-]. by apply pool_clear.
  - destruct (owner s) eqn:Ho; [done|]. intros [= <-]. by eapply pool_lock.
  - intros [= <-]. by apply pool_mark.
  - destruct (queue s) as [|x q] eqn:Hq; intros [= <-].
    + by eapply pool_keep_lock.
    + by apply pool_signal.
  - intros [= <-]. by eapply pool_unlock.
Qed.

Lemma reachable_ok starved n s : pool_reachable starved n s -> pool_ok s.
Proof. induction 1; [apply pool_start_ok|by eapply step_ok]. Qed.

(** C8. Any number of threads, any interleaving of [emergency_malloc] and
    [emergency_malloc_free]: a buffer is given to one thread at a time, and
    never while the program has it; the thread receives it zeroed; every
    buffer the program has is marked as allocated; and one thread at most is
    between lock and unlock. *)
Theorem pool_exclusive starved n s : pool_reachable starved n s ->
  (forall t p i, pcs s !! t = Some p -> buffer_of p = Some i ->
     out s !! i = Some false /\ (forall t' p', pcs s !! t' = Some p' -> buffer_of p' = Some i -> t' = t)) /\
  (forall t i, pcs s !! t = Some (Counting i) -> clean s !! i = Some true) /\
  (forall i, out s !! i = Some true -> flags s !! i = Some true) /\
  (forall t t' p p', pcs s !! t = Some p -> pcs s !! t' = Some p' -> locked p = true -> locked p' = true -> t = t').
Proof.
  intros Hok%reachable_ok. split_and!.
  - intros t p i Hp Hi. split; [by eapply (ok_out _ Hok)|]. intros t' p' Hp' Hi'.
    by eapply (ok_unique _ Hok).
  - intros t i Hp. by apply (ok_zero _ Hok _ _ _ Hp).
  - by apply (ok_flag _ Hok).
  - intros t t' p p' Hp Hp' Hl Hl'.
    pose proof (owner_of _ _ _ Hok Hp Hl). pose proof (owner_of _ _ _ Hok Hp' Hl'). congruence.
Qed.

(** ** Waiting *)

(** Threads that will take a buffer, or wake one that will *)
Definition coming (p : pc) : nat :=
  match p with Woken | Trying | Scanning | Signalling => 1 | _ => 0 end%nat.

Definition unused (b : bool) : nat := if b then 0%nat else 1%nat.

Definition coming_threads (s : pool) : nat := weigh coming (pcs s).
Definition unused_buffers (s : pool) : nat := weigh unused (flags s).

Definition awaited (s : pool) : Prop := queue s = [] \/ (unused_buffers s <= coming_threads s)%nat.

Lemma coming_set_pc t p p0 s : pcs s !! t = Some p0 ->
  (coming_threads (set_pc t p s) + coming p0 = coming_threads s + coming p)%nat.
Proof. apply weigh_insert. Qed.

Lemma unused_set_flag i b b0 s : flags s !! i = Some b0 ->
  (unused_buffers (set_flag i b s) + unused b0 = unused_buffers s + unused b)%nat.
Proof. apply weigh_insert. Qed.

Lemma none_unused s : first_free 0 (flags s) = None -> unused_buffers s = 0%nat.
Proof.
  unfold unused_buffers. generalize 0%nat at 1. induction (flags s) as [|[] l IH]; intros k; cbn; [done| |done].
  intros H. by apply (IH (S k)).
Qed.

(** A step that changes no flag and turns nobody away *)
Lemma awaited_move t p0 p s s' : awaited s -> pcs s !! t = Some p0 ->
  pcs s' = pcs s -> flags s' = flags s -> (queue s = [] -> queue s' = []) -> (coming p0 <= coming p)%nat ->
  awaited (set_pc t p s').
Proof.
  intros [Hq|Ha] Hp Hpcs Hf Hq' Hw; [left; by apply Hq'|right].
  rewrite <- Hpcs in Hp. pose proof (coming_set_pc t p _ _ Hp) as Hc.
  unfold unused_buffers in *. cbn [flags set_pc]. rewrite Hf. unfold coming_threads in *. rewrite Hpcs in Hc. lia.
Qed.

Lemma awaited_take t i s : awaited s -> pcs s !! t = Some Scanning -> flags s !! i = Some false ->
  awaited (set_pc t (Leaving i) (set_flag i true s)).
Proof.
  intros [Hq|Ha] Hp Hf; [by left|right].
  pose proof (coming_set_pc t (Leaving i) Scanning (set_flag i true s) Hp) as Hc.
  pose proof (unused_set_flag i true _ _ Hf) as Hu.
  unfold coming_threads, unused_buffers in *. cbn [flags pcs set_pc set_flag coming unused] in *. lia.
Qed.

Lemma awaited_mark t i s : awaited s -> pcs s !! t = Some (Marking i) -> flags s !! i = Some true ->
  awaited (set_pc t Signalling (set_flag i false s)).
Proof.
  intros [Hq|Ha] Hp Hf; [by left|right].
  pose proof (coming_set_pc t Signalling _ (set_flag i false s) Hp) as Hc.
  pose proof (unused_set_flag i false _ _ Hf) as Hu.
  unfold coming_threads, unused_buffers in *. cbn [flags pcs set_pc set_flag coming unused] in *. lia.
Qed.

Lemma awaited_signal t x q s : pool_ok s -> awaited s -> pcs s !! t = Some Signalling -> queue s = x :: q ->
  awaited (set_pc t UnlockingFree (set_pc x Woken (set_queue q s))).
Proof.
  intros Hok [Hq|Ha] Hp Hq'; [congruence|right].
  assert (pcs s !! x = Some Waiting) as Hx by (apply (ok_queue _ Hok); rewrite Hq'; left).
  pose proof (coming_set_pc x Woken _ (set_queue q s) Hx) as Hc.
  pose proof (coming_set_pc t UnlockingFree Signalling (set_pc x Woken (set_queue q s))) as Hc'.
  rewrite lookup_pcs_ne in Hc' by congruence. specialize (Hc' Hp).
  unfold coming_threads, unused_buffers in *. cbn [flags pcs set_pc set_queue coming] in *. lia.
Qed.

Lemma step_awaited t a s s' : pool_ok s -> awaited s -> step t a s = Some s' -> a <> Run true -> awaited s'.
Proof.
  intros Hok Ha. unfold step. destruct (pcs s !! t) as [p|] eqn:Hp; [|done]. intros Hs Hm.
  destruct p as [| | | | | | |i|i|i|i|i| |], a as [|j|[]|]; try done.
  1: destruct (held s !! t) as [h|]; [|done]; cbn [mbind option_bind] in Hs.
  all: repeat case_match; simplify_eq; try done.
  all: try (eapply (awaited_move t _ _ s); first [done|cbn; lia]).
  - by apply awaited_take; [..|apply first_free_spec in H as (k & -> & ?)].
  - right. assert (unused_buffers s = 0)%nat as E by (by apply none_unused).
    unfold unused_buffers in *. cbn [flags set_pc set_queue set_owner]. lia.
  - eapply (awaited_move t _ _ s); try done; cbn; [by intros ->|lia].
  - apply awaited_mark; try done. by apply (ok_out _ Hok _ _ _ Hp).
  - by left.
  - by apply awaited_signal.
Qed.

Lemma reachable_awaited n s : pool_reachable true n s -> awaited s.
Proof.
  remember true as b eqn:Hb. induction 1 as [|s s' t a Hr IH Hs Hm]; [by left|].
  apply (step_awaited t a s); auto. by eapply reachable_ok.
Qed.

(** The thread with the lock can go on, and so can a thread that wants it when nobody has it. *)
Lemma locked_runs t p s : pcs s !! t = Some p -> locked p = true -> exists s', step t (Run false) s = Some s'.
Proof. intros Hp Hl. unfold step. rewrite Hp. destruct p; try done; repeat case_match; eauto. Qed.

Lemma coming_runs t p s : pool_ok s -> pcs s !! t = Some p -> (0 < coming p)%nat ->
  (forall x, owner s = Some x -> is_Some (pcs s !! x)) ->
  exists t' p' s', pcs s !! t' = Some p' /\ (locked p' = true \/ t' = t) /\ step t' (Run false) s = Some s'.
Proof.
  intros Hok Hp Hc Hx. destruct (locked p) eqn:Hl.
  - destruct (locked_runs _ _ _ Hp Hl) as [s' Hs]. exists t, p, s'. auto.
  - destruct p; try done; cbn in Hc; try lia. destruct (owner s) as [x|] eqn:Ho.
    + destruct (Hx x eq_refl) as [q Hq]. pose proof Ho as Hlq. apply (ok_owner _ Hok _ _ Hq) in Hlq.
      destruct (locked_runs _ _ _ Hq Hlq) as [s' Hs]. exists x, q, s'. auto.
    + exists t, Woken, (set_pc t Trying (set_owner (Some t) s)). unfold step. rewrite Hp, Ho. auto.
Qed.

(** The lock's owner is one of the threads. *)
Lemma step_length t a s s' : step t a s = Some s' -> (forall x, owner s = Some x -> is_Some (pcs s !! x)) ->
  length (pcs s') = length (pcs s) /\ (forall x, owner s' = Some x -> is_Some (pcs s' !! x)).
Proof.
  unfold step. intros Hs Ho. destruct (pcs s !! t) as [p|] eqn:Hp; [|done].
  assert (t < length (pcs s))%nat as Ht by (by eapply lookup_lt_Some).
  setoid_rewrite lookup_lt_is_Some. setoid_rewrite lookup_lt_is_Some in Ho.
  destruct p, a; try done.
  1: destruct (held s !! t) as [h|]; [|done]; cbn [mbind option_bind] in Hs.
  all: repeat case_match; simplify_eq; cbn; rewrite ?length_insert; split; try done.
  all: intros x Hx; try (injection Hx as <-); try done; by apply Ho.
Qed.

Lemma reachable_owner starved n s : pool_reachable starved n s ->
  length (pcs s) = n /\ (forall x, owner s = Some x -> is_Some (pcs s !! x)).
Proof.
  induction 1 as [|s s' t a Hr [Hl IH] Hs _]; [split; [apply length_replicate|done]|].
  destruct (step_length _ _ _ _ Hs IH) as [-> H]. done.
Qed.

(** C19. While no memory comes back, a thread does not sleep on a free
    buffer: as many threads as there are free buffers are about to take one or
    to wake a sleeper, and one of them, or the thread with the lock, can go
    on. *)
Theorem no_lost_wakeup n s t i : pool_reachable true n s ->
  pcs s !! t = Some Waiting -> flags s !! i = Some false ->
  (unused_buffers s <= coming_threads s)%nat /\
  exists u p s', pcs s !! u = Some p /\ (locked p = true \/ coming p = 1%nat) /\ step u (Run false) s = Some s'.
Proof.
  intros Hr Ht Hi. pose proof (reachable_ok _ _ _ Hr) as Hok.
  assert (unused_buffers s <= coming_threads s)%nat as Ha.
  { destruct (reachable_awaited _ _ Hr) as [Hq|]; [|done]. apply (ok_queue _ Hok) in Ht. rewrite Hq in Ht.
    by apply not_elem_of_nil in Ht. }
  split; [done|].
  assert (0 < unused_buffers s)%nat as Hu by (apply weigh_positive; exists i, false; auto).
  destruct (proj1 (weigh_positive coming (pcs s))) as (u & p & Hp & Hc); [unfold coming_threads in Ha; lia|].
  destruct (coming_runs _ _ _ Hok Hp Hc (proj2 (reachable_owner _ _ _ Hr))) as (u' & p' & s' & Hp' & Hor & Hs).
  exists u', p', s'. split; [done|]. split; [|done]. destruct Hor as [?| ->]; [by left|right].
  assert (p' = p) as -> by congruence. destruct p; cbn in *; lia.
Qed.

(** ** Runs *)

Fixpoint run (moves : list (tid * action)) (s : pool) : option pool :=
  match moves with
  | [] => Some s
  | (t, a) :: moves => s ← step t a s; run moves s
  end.

Definition starving (moves : list (tid * action)) : bool :=
  forallb (fun m => match m.2 with Run true => false | _ => true end) moves.

Lemma run_reachable starved n moves s s' : pool_reachable starved n s -> run moves s = Some s' ->
  (starved = true -> starving moves = true) -> pool_reachable starved n s'.
Proof.
  revert s. induction moves as [|[t a] moves IH]; intros s Hr Hrun Hm; cbn in Hrun; [congruence|].
  destruct (step t a s) as [s1|] eqn:Hs; [|done]. apply (IH s1); [|done|].
  - eapply pool_step; [done..|]. intros Hst ->. by specialize (Hm Hst).
  - intros Hst. specialize (Hm Hst). cbn in Hm. by apply andb_prop in Hm as [_ ?].
Qed.

Definition go (t : tid) (k : nat) : list (tid * action) := replicate k (t, Run false).
(** [emergency_malloc] that finds a buffer, one that does not, up to its sleep,
    and [emergency_malloc_free] *)
Definition takes (t : tid) : list (tid * action) := (t, Malloc) :: go t 5.
Definition sleeps (t : tid) : list (tid * action) := (t, Malloc) :: go t 3.
Definition gives (t : tid) (i : nat) : list (tid * action) := (t, Free i) :: go t 5.

(** Four threads take the sixteen buffers, two more wait, a buffer is given back. *)
Definition rush : list (tid * action) :=
  mjoin (map (fun t => takes t ++ takes t ++ takes t ++ takes t) [2; 3; 4; 5]%nat) ++
  sleeps 0 ++ sleeps 1 ++ gives 2 0.

(** a buffer can lie free with a thread asleep for it and everybody
    else done: the sleeper that was woken found memory and left without the
    buffer and without waking the next. *)
Theorem lost_wakeup : exists moves s, run moves (pool_started 6) = Some s /\
  pcs s = [Idle; Waiting; Idle; Idle; Idle; Idle] /\ owner s = None /\ flags s !! 0%nat = Some false.
Proof.
  exists (rush ++ [(0%nat, Run false); (0%nat, Run true); (0%nat, Run false)]). eexists.
  split; [vm_compute; reflexivity|]. done.
Qed.

Definition after_moves (moves : list (tid * action)) : pool := default (pool_started 6) (run moves (pool_started 6)).

Lemma after_moves_reachable moves : run moves (pool_started 6) <> None -> starving moves = true ->
  pool_reachable true 6 (after_moves moves).
Proof.
  intros Hr Hm. unfold after_moves. destruct (run moves (pool_started 6)) as [s|] eqn:E; [|done].
  apply (run_reachable true 6 moves (pool_started 6)); [constructor|done|done].
Qed.

Lemma pool_exclusive_witness : exists s, pool_reachable true 6 s /\ pcs s !! 0%nat = Some (Leaving 0) /\
  out s !! 0%nat = Some false /\ forall t' p', pcs s !! t' = Some p' -> buffer_of p' = Some 0%nat -> t' = 0%nat.
Proof.
  assert (pool_reachable true 6 (after_moves (rush ++ go 0 3))) as H
    by (apply after_moves_reachable; [by vm_compute|reflexivity]).
  exists (after_moves (rush ++ go 0 3)). split; [exact H|]. split; [reflexivity|].
  exact (proj1 (pool_exclusive _ _ _ H) 0%nat (Leaving 0) 0%nat eq_refl eq_refl).
Defined.

Lemma no_lost_wakeup_witness : exists s, pool_reachable true 6 s /\
  exists u p s', pcs s !! u = Some p /\ (locked p = true \/ coming p = 1%nat) /\ step u (Run false) s = Some s'.
Proof.
  assert (pool_reachable true 6 (after_moves rush)) as H
    by (apply after_moves_reachable; [by vm_compute|reflexivity]).
  exists (after_moves rush). split; [exact H|].
  exact (proj2 (no_lost_wakeup 6 _ 1 0 H eq_refl eq_refl)).
Defined.
