(* ===== verification/ExnShared.v ===== *)
(** * An exception shared by threads

    The reference count of an exception under concurrency: [exception_ptr]s to
    one exception are copied ([__cxa_increment_exception_refcount], and
    [__cxa_current_primary_exception]) and dropped ([releaseException]) by any
    number of threads, one access to the exception at a time.  An owner is a
    throw, an [exception_ptr] or a dependent exception; a thread may hand one
    to another thread. *)
From S2P Require Import Prelude ExnState.

#[global] Open Scope Z_scope.

(** Where a thread is *)
Inductive pc :=
  | Idle
  | Checking (copying : bool)   (** reading [exception_class] *)
  | Adding                      (** [__sync_fetch_and_add(&ex->referenceCount, 1)] *)
  | Subtracting                 (** [__sync_sub_and_fetch(&ex->referenceCount, 1)] *)
  | Destroying                  (** [ex->exceptionDestructor(thrown_exception)] *)
  | Freeing.                    (** [free_exception] *)

(** [count] is [referenceCount]; [fault] that freed memory was used or freed
    again; [held] how many owners each thread has. *)
Record shared := Shared {
  count : Z;
  freed : bool;
  destroyed : nat;
  fault : bool;
  held : list nat;
  pcs : list pc;
}.

Inductive action := Copy | Drop | Give (to : tid) | Run.

(** [m] is what the access changes. *)
Definition accessing (s : shared) (m : shared) : shared :=
  if freed s then Shared (count s) (freed s) (destroyed s) true (held s) (pcs s) else m.

Definition with_pc (t : tid) (p : pc) (s : shared) : shared :=
  Shared (count s) (freed s) (destroyed s) (fault s) (held s) (<[t := p]> (pcs s)).
Definition with_count (n : Z) (s : shared) : shared :=
  Shared n (freed s) (destroyed s) (fault s) (held s) (pcs s).
Definition with_held (t : tid) (f : nat -> nat) (s : shared) : shared :=
  Shared (count s) (freed s) (destroyed s) (fault s) (alter f t (held s)) (pcs s).

Definition step (t : tid) (a : action) (s : shared) : option shared :=
  match pcs s !! t, a with
  | Some Idle, Copy =>
      h ← held s !! t;
      if (0 <? h)%nat then Some (with_pc t (Checking true) s) else None
  | Some Idle, Drop =>
      h ← held s !! t;
      if (0 <? h)%nat then Some (with_pc t (Checking false) (with_held t pred s)) else None
  | Some Idle, Give u =>
      h ← held s !! t;
      if (0 <? h)%nat && (u <? length (held s))%nat then Some (with_held u S (with_held t pred s)) else None
  | Some (Checking true), Run => Some (accessing s (with_pc t Adding s))
  | Some (Checking false), Run => Some (accessing s (with_pc t Subtracting s))
  | Some Adding, Run => Some (accessing s (with_pc t Idle (with_held t S (with_count (size_t (count s + 1)) s))))
  | Some Subtracting, Run =>
      let n := size_t (count s - 1) in
      Some (accessing s (with_pc t (if n =? 0 then Destroying else Idle) (with_count n s)))
  | Some Destroying, Run =>
      Some (accessing s (with_pc t Freeing (Shared (count s) (freed s) (S (destroyed s)) (fault s) (held s) (pcs s))))
  | Some Freeing, Run =>
      Some (accessing s (with_pc t Idle (Shared (count s) true (destroyed s) (fault s) (held s) (pcs s))))
  | _, _ => None
  end.

(** Thread 0 of [n + 1] has thrown the exception. *)
Definition just_thrown (n : nat) : shared :=
  Shared 1 false 0 false (1%nat :: replicate n 0%nat) (replicate (S n) Idle).

Definition releasing (p : pc) : nat := match p with Checking false | Subtracting => 1 | _ => 0 end%nat.
Definition owners (s : shared) : nat := (weigh (fun h => h) (held s) + weigh releasing (pcs s))%nat.

(** There are fewer owners than addresses. *)
Inductive reachable (n : nat) : shared -> Prop :=
  | at_throw : reachable n (just_thrown n)
  | by_step s t a s' :
      reachable n s -> step t a s = Some s' -> Z.of_nat (owners s') < SIZE_MOD -> reachable n s'.

Definition ending (p : pc) : nat := match p with Destroying | Freeing => 1 | _ => 0 end%nat.
Definition at_free (p : pc) : nat := match p with Freeing => 1 | _ => 0 end%nat.
Definition copying (p : pc) : bool := match p with Checking true | Adding => true | _ => false end.

Definition endings (s : shared) : nat := weigh ending (pcs s).

(** How far the life of the exception has got. *)
Definition life (s : shared) : Prop :=
  (0 < owners s)%nat /\ endings s = 0%nat /\ freed s = false /\ destroyed s = 0%nat \/
  owners s = 0%nat /\ endings s = 1%nat /\ freed s = false /\ destroyed s = weigh at_free (pcs s) \/
  owners s = 0%nat /\ endings s = 0%nat /\ freed s = true /\ destroyed s = 1%nat.

Record shared_ok (s : shared) : Prop := {
  ok_fault : fault s = false;
  ok_count : count s = Z.of_nat (owners s);
  ok_life : life s;
  ok_copying : forall t p, pcs s !! t = Some p -> copying p = true -> exists h, held s !! t = Some (S h);
  ok_threads : length (held s) = length (pcs s);
}.

Lemma lookup_with_pc t p t' p' s : pcs (with_pc t p s) !! t' = Some p' ->
  (t' = t /\ p' = p) \/ (t' <> t /\ pcs s !! t' = Some p').
Proof.
  cbn. intros H. destruct (decide (t = t')) as [->|Hne].
  - apply list_lookup_insert_Some in H as [(_ & -> & _)|[? _]]; auto. done.
  - rewrite list_lookup_insert_ne in H by done. auto.
Qed.

(** A thread moves; the counters change with it. *)
Lemma moves t p0 p s s' :
  shared_ok s -> pcs s !! t = Some p0 -> pcs s' = pcs s -> fault s' = false -> length (held s') = length (held s) ->
  count s' = Z.of_nat (owners (with_pc t p s')) -> life (with_pc t p s') ->
  (copying p = true -> exists h, held s' !! t = Some (S h)) ->
  (forall t' h, t' <> t -> held s !! t' = Some (S h) -> exists h', held s' !! t' = Some (S h')) ->
  shared_ok (with_pc t p s').
Proof.
  intros Hok Hp Hpcs Hf Hlen Hc Hl Hcp Hrest. split; cbn [fault count held]; try done.
  - intros t' p' [[-> ->]|[Hne H]]%lookup_with_pc Hcop; [by apply Hcp|]. rewrite Hpcs in H.
    destruct (ok_copying _ Hok _ _ H Hcop) as [h Hh]. by eapply Hrest.
  - cbn [pcs held with_pc]. rewrite length_insert, Hpcs, Hlen. apply (ok_threads _ Hok).
Qed.

Lemma weigh_alter (w : nat -> nat) (l : list nat) f t h : l !! t = Some h ->
  (weigh w (alter f t l) + w h = weigh w l + w (f h))%nat.
Proof.
  revert t. induction l as [|x l IH]; intros [|t] H; try done; cbn in *.
  - injection H as ->. lia.
  - specialize (IH _ H). unfold alter in *. lia.
Qed.

Lemma owners_alter t f h s : held s !! t = Some h -> (owners (with_held t f s) + h = owners s + f h)%nat.
Proof. intros H. unfold owners. cbn [held pcs with_held]. pose proof (weigh_alter (fun h => h) _ f _ _ H). cbn in *. lia. Qed.

Lemma owners_pc t p p0 s : pcs s !! t = Some p0 -> (owners (with_pc t p s) + releasing p0 = owners s + releasing p)%nat.
Proof. intros H. unfold owners. cbn [held pcs with_pc]. pose proof (weigh_insert releasing _ _ _ p H). lia. Qed.

Lemma endings_pc t p p0 s : pcs s !! t = Some p0 -> (endings (with_pc t p s) + ending p0 = endings s + ending p)%nat.
Proof. apply weigh_insert. Qed.

(** Whoever has an owner, or is dropping one, keeps the exception alive. *)
Lemma owned_alive s : shared_ok s -> (0 < owners s)%nat -> endings s = 0%nat /\ freed s = false /\ destroyed s = 0%nat.
Proof. intros Hok H. destruct (ok_life _ Hok) as [?|[?|?]]; [tauto|lia..]. Qed.

Lemma held_owners t h s : held s !! t = Some h -> (h <= owners s)%nat.
Proof. intros H. pose proof (owners_alter t (fun _ => 0%nat) h s H) as E. cbn in E. lia. Qed.

Lemma releasing_owners t p s : pcs s !! t = Some p -> (releasing p <= owners s)%nat.
Proof. intros H. pose proof (owners_pc t Idle p s H). cbn in *. lia. Qed.

Lemma ending_endings t p s : pcs s !! t = Some p -> (ending p <= endings s)%nat.
Proof. intros H. pose proof (endings_pc t Idle p s H). cbn in *. lia. Qed.

Lemma at_free_le l : (weigh at_free l <= weigh ending l)%nat.
Proof. induction l as [|[] l IH]; cbn; lia. Qed.

Lemma start_ok n : shared_ok (just_thrown n).
Proof.
  assert (forall w : pc -> nat, w Idle = 0%nat -> forall k, weigh w (replicate k Idle) = 0%nat) as Hidle.
  { intros w Hw k. induction k as [|k IH]; [done|]. cbn. by rewrite Hw, IH. }
  assert (forall k, weigh (fun h => h) (replicate k 0%nat) = 0%nat) as Hzero by (induction k as [|k IH]; [done|exact IH]).
  assert (owners (just_thrown n) = 1%nat) as Ho.
  { unfold owners, just_thrown. cbn [held pcs]. rewrite (Hidle releasing eq_refl). cbn. by rewrite Hzero. }
  split; try done.
  - by rewrite Ho.
  - left. rewrite Ho. split; [lia|]. split; [|done]. by apply (Hidle ending).
  - intros t p H. apply lookup_replicate in H as [-> _]. done.
  - cbn. by rewrite !length_replicate.
Qed.

(** Starting a call: the owner dropped counts until it is subtracted. *)
Lemma copy_ok t h s : shared_ok s -> pcs s !! t = Some Idle -> held s !! t = Some h -> (0 < h)%nat ->
  shared_ok (with_pc t (Checking true) s).
Proof.
  intros Hok Hp Hh Hpos. pose proof (owners_pc t (Checking true) _ _ Hp) as Ho. pose proof (held_owners _ _ _ Hh).
  destruct (owned_alive _ Hok) as (He & Hf & Hd); [lia|].
  pose proof (endings_pc t (Checking true) _ _ Hp) as Hen. cbn [releasing ending] in *.
  eapply (moves t Idle); try done; [by apply Hok|rewrite (ok_count _ Hok); lia| | |by eauto].
  - left. cbn [freed destroyed with_pc]. split; [lia|]. split; [lia|done].
  - intros _. destruct h as [|h]; [lia|]. by exists h.
Qed.

Lemma held_with t f h s t' : held s !! t = Some h ->
  held (with_held t f s) !! t' = if decide (t' = t) then Some (f h) else held s !! t'.
Proof.
  intros H. cbn. destruct (decide (t' = t)) as [->|Hne].
  - by rewrite list_lookup_alter_eq, H.
  - by rewrite list_lookup_alter_ne.
Qed.

Lemma drop_ok t h s : shared_ok s -> pcs s !! t = Some Idle -> held s !! t = Some h -> (0 < h)%nat ->
  shared_ok (with_pc t (Checking false) (with_held t pred s)).
Proof.
  intros Hok Hp Hh Hpos. set (s' := with_held t pred s).
  assert (pcs s' !! t = Some Idle) as Hp' by exact Hp.
  pose proof (owners_pc t (Checking false) _ _ Hp') as Ho. pose proof (owners_alter t pred _ _ Hh) as Ha.
  pose proof (held_owners _ _ _ Hh). destruct (owned_alive _ Hok) as (He & Hf & Hd); [lia|].
  pose proof (endings_pc t (Checking false) _ _ Hp') as Hen. cbn [releasing ending] in *.
  eapply (moves t Idle); try done; [by apply Hok|cbn; by rewrite length_alter| | |].
  - unfold s' in *. change (count (with_held t pred s)) with (count s). rewrite (ok_count _ Hok). lia.
  - left. unfold s' in *. change (endings (with_held t pred s)) with (endings s) in Hen.
    cbn [freed destroyed with_pc with_held]. split; [lia|]. split; [lia|done].
  - intros t' h' Hne H'. exists h'. unfold s'. rewrite (held_with _ _ _ _ _ Hh). by rewrite decide_False.
Qed.

Lemma give_ok t u h s : shared_ok s -> pcs s !! t = Some Idle -> held s !! t = Some h -> (0 < h)%nat ->
  (u < length (held s))%nat -> shared_ok (with_held u S (with_held t pred s)).
Proof.
  intros Hok Hp Hh Hpos Hu. set (s1 := with_held t pred s).
  destruct (lookup_lt_is_Some_2 (held s1) u) as [k Hk]; [cbn; by rewrite length_alter|].
  assert (owners (with_held u S s1) = owners s) as Ho.
  { pose proof (owners_alter t pred _ _ Hh). pose proof (owners_alter u S _ _ Hk). unfold s1 in *. lia. }
  split.
  - by apply Hok.
  - rewrite Ho. apply (ok_count _ Hok).
  - unfold life. rewrite Ho. exact (ok_life _ Hok).
  - intros t' p H Hc. destruct (ok_copying _ Hok t' p H Hc) as [h' H'].
    rewrite (held_with _ _ _ _ _ Hk). destruct (decide (t' = u)) as [->|_]; [by eexists|].
    unfold s1. rewrite (held_with _ _ _ _ _ Hh). rewrite decide_False; [by eexists|].
    intros ->. change (pcs s !! t = Some p) in H. assert (p = Idle) as -> by congruence. done.
  - cbn. rewrite !length_alter. apply (ok_threads _ Hok).
Qed.

(** An access by a thread that keeps the exception alive is sound. *)
Lemma accessing_alive s m : freed s = false -> accessing s m = m.
Proof. intros H. unfold accessing. by rewrite H. Qed.

Lemma alive_of t p s : shared_ok s -> pcs s !! t = Some p -> p <> Idle -> freed s = false.
Proof.
  intros Hok Hp Hne. destruct p as [|[]| | | |]; [done|..].
  - destruct (ok_copying _ Hok _ _ Hp eq_refl) as [h Hh]. apply held_owners in Hh. apply (owned_alive _ Hok). lia.
  - apply releasing_owners in Hp. cbn in Hp. apply (owned_alive _ Hok). lia.
  - destruct (ok_copying _ Hok _ _ Hp eq_refl) as [h Hh]. apply held_owners in Hh. apply (owned_alive _ Hok). lia.
  - apply releasing_owners in Hp. cbn in Hp. apply (owned_alive _ Hok). lia.
  - apply ending_endings in Hp. cbn in Hp. destruct (ok_life _ Hok) as [?|[?|?]]; [lia|tauto|lia].
  - apply ending_endings in Hp. cbn in Hp. destruct (ok_life _ Hok) as [?|[?|?]]; [lia|tauto|lia].
Qed.

(** Moves that change no counter *)
Lemma check_ok t p0 p s : shared_ok s -> pcs s !! t = Some p0 -> releasing p = releasing p0 ->
  ending p0 = 0%nat -> ending p = 0%nat -> at_free p0 = 0%nat -> at_free p = 0%nat ->
  (copying p = true -> copying p0 = true) -> shared_ok (with_pc t p s).
Proof.
  intros Hok Hp Hr He0 He Hf0 Hf Hc. pose proof (owners_pc t p _ _ Hp) as Ho. pose proof (endings_pc t p _ _ Hp) as Hen.
  pose proof (weigh_insert at_free _ _ _ p Hp) as Hw.
  eapply (moves t p0); try done; [by apply Hok|rewrite (ok_count _ Hok); f_equal; lia| | |by eauto].
  - unfold life. cbn [freed destroyed with_pc]. destruct (ok_life _ Hok) as [(?&?&?&?)|[(?&?&?&Hd)|(?&?&?&?)]].
    + left. split_and!; try done; lia.
    + right; left. split_and!; try done; try lia. cbn [pcs with_pc]. rewrite Hd. lia.
    + right; right. split_and!; try done; lia.
  - intros Hcp. apply (ok_copying _ Hok _ _ Hp). by apply Hc.
Qed.

Lemma add_ok t s : shared_ok s -> pcs s !! t = Some Adding -> 
  Z.of_nat (owners s) + 1 < SIZE_MOD ->
  shared_ok (with_pc t Idle (with_held t S (with_count (size_t (count s + 1)) s))).
Proof.
  intros Hok Hp Hb. destruct (ok_copying _ Hok _ _ Hp eq_refl) as [h Hh].
  pose proof (held_owners _ _ _ Hh) as Hpos. destruct (owned_alive _ Hok) as (He & Hf & Hd); [lia|].
  set (s' := with_held t S (with_count (size_t (count s + 1)) s)).
  assert (owners s' = S (owners s)) as Ho'.
  { pose proof (owners_alter t S _ (with_count (size_t (count s + 1)) s) Hh) as Ha.
    change (owners (with_count (size_t (count s + 1)) s)) with (owners s) in Ha. unfold s'. lia. }
  assert (pcs s' !! t = Some Adding) as Hp' by exact Hp.
  pose proof (owners_pc t Idle _ _ Hp') as Ho. pose proof (endings_pc t Idle _ _ Hp') as Hen. cbn [releasing ending] in *.
  eapply (moves t Adding); try done; [by apply Hok|cbn; by rewrite length_alter| | |].
  - change (count s') with (size_t (count s + 1)). rewrite (ok_count _ Hok), size_t_small by lia. lia.
  - left. change (endings s') with (endings s) in Hen. cbn [freed destroyed with_pc with_held with_count s'].
    split; [lia|]. split; [lia|done].
  - intros t' h' Hne H'. exists h'. unfold s'. rewrite (held_with t S (S h)) by exact Hh. by rewrite decide_False.
Qed.

Lemma subtract_ok t s : shared_ok s -> pcs s !! t = Some Subtracting -> Z.of_nat (owners s) < SIZE_MOD ->
  let n := size_t (count s - 1) in
  shared_ok (with_pc t (if n =? 0 then Destroying else Idle) (with_count n s)).
Proof.
  intros Hok Hp Hb. pose proof (releasing_owners _ _ _ Hp) as Hpos. cbn in Hpos.
  destruct (owned_alive _ Hok) as (He & Hf & Hd); [lia|].
  rewrite (ok_count _ Hok), size_t_small by lia. cbv zeta. set (n := Z.of_nat (owners s) - 1).
  set (p := if n =? 0 then Destroying else Idle).
  assert (pcs (with_count n s) !! t = Some Subtracting) as Hp' by exact Hp.
  pose proof (owners_pc t p _ _ Hp') as Ho. pose proof (endings_pc t p _ _ Hp') as Hen.
  change (owners (with_count n s)) with (owners s) in Ho. change (endings (with_count n s)) with (endings s) in Hen.
  assert (releasing p = 0%nat /\ copying p = false) as [Hr Hcp] by (by unfold p; destruct (n =? 0)).
  cbn [releasing ending] in *.
  eapply (moves t Subtracting); try done; [by apply Hok|cbn [count with_count]; lia| |by rewrite Hcp|by eauto].
  unfold life. cbn [freed destroyed with_pc with_count]. unfold p in *. destruct (Z.eqb_spec n 0); cbn [ending] in *.
  - right; left. split; [lia|]. split; [lia|]. split; [done|]. cbn [pcs with_pc with_count].
    pose proof (weigh_insert at_free _ _ _ Destroying Hp) as Hw. cbn [at_free] in Hw.
    pose proof (at_free_le (pcs s)). unfold endings in He. lia.
  - left. split_and!; try done; lia.
Qed.

Lemma destroy_ok t s : shared_ok s -> pcs s !! t = Some Destroying ->
  shared_ok (with_pc t Freeing (Shared (count s) (freed s) (S (destroyed s)) (fault s) (held s) (pcs s))).
Proof.
  intros Hok Hp. set (s' := Shared _ _ _ _ _ _). pose proof (ending_endings _ _ _ Hp) as Hpos. cbn in Hpos.
  destruct (ok_life _ Hok) as [?|[(Ho0 & He & Hf & Hd)|?]]; [lia| |lia].
  assert (pcs s' !! t = Some Destroying) as Hp' by exact Hp.
  pose proof (owners_pc t Freeing _ _ Hp') as Ho. pose proof (endings_pc t Freeing _ _ Hp') as Hen.
  change (owners s') with (owners s) in Ho. change (endings s') with (endings s) in Hen. cbn [releasing ending] in *.
  eapply (moves t Destroying); try done; [by apply Hok|cbn [count s']; rewrite (ok_count _ Hok); lia| |by eauto].
  right; left. cbn [freed destroyed with_pc s' pcs]. split; [lia|]. split; [lia|]. split; [done|].
  pose proof (weigh_insert at_free _ _ _ Freeing Hp) as Hw. cbn [at_free] in Hw. lia.
Qed.

Lemma free_ok t s : shared_ok s -> pcs s !! t = Some Freeing ->
  shared_ok (with_pc t Idle (Shared (count s) true (destroyed s) (fault s) (held s) (pcs s))).
Proof.
  intros Hok Hp. set (s' := Shared _ _ _ _ _ _). pose proof (ending_endings _ _ _ Hp) as Hpos. cbn in Hpos.
  destruct (ok_life _ Hok) as [?|[(Ho0 & He & Hf & Hd)|?]]; [lia| |lia].
  assert (pcs s' !! t = Some Freeing) as Hp' by exact Hp.
  pose proof (owners_pc t Idle _ _ Hp') as Ho. pose proof (endings_pc t Idle _ _ Hp') as Hen.
  change (owners s') with (owners s) in Ho. change (endings s') with (endings s) in Hen. cbn [releasing ending] in *.
  eapply (moves t Freeing); try done; [by apply Hok|cbn [count s']; rewrite (ok_count _ Hok); lia| |by eauto].
  right; right. cbn [freed destroyed with_pc s' pcs]. split; [lia|]. split; [lia|]. split; [done|].
  pose proof (weigh_insert at_free _ _ _ Idle Hp) as Hw. cbn [at_free] in Hw.
  pose proof (at_free_le (<[t := Idle]> (pcs s))) as Hle. unfold endings in *. cbn [pcs with_pc s'] in *. lia.
Qed.

Lemma shared_step_ok t a s s' : shared_ok s -> Z.of_nat (owners s) < SIZE_MOD -> Z.of_nat (owners s') < SIZE_MOD ->
  step t a s = Some s' -> shared_ok s'.
Proof.
  intros Hok Hb Hb'. unfold step. destruct (pcs s !! t) as [p|] eqn:Hp; [|done].
  destruct p as [|[]| | | |], a as [| |u|]; try done.
  1-3: destruct (held s !! t) as [h|] eqn:Hh; [|done]; cbn [mbind option_bind].
  4-9: rewrite (accessing_alive s) by (by eapply alive_of).
  - destruct (Nat.ltb_spec 0 h); intros [= <-]. by eapply copy_ok.
  - destruct (Nat.ltb_spec 0 h); intros [= <-]. by eapply drop_ok.
  - destruct (Nat.ltb_spec 0 h), (Nat.ltb_spec u (length (held s))); cbn [andb]; intros [= <-]. by eapply give_ok.
  - intros [= <-]. by eapply check_ok.
  - intros [= <-]. by eapply check_ok.
  - intros [= <-]. apply add_ok; [done..|]. destruct (ok_copying _ Hok _ _ Hp eq_refl) as [h Hh].
    pose proof (owners_alter t S _ (with_count (size_t (count s + 1)) s) Hh) as Ha.
    pose proof (owners_pc t Idle Adding (with_held t S (with_count (size_t (count s + 1)) s)) Hp) as Ho.
    change (owners (with_count (size_t (count s + 1)) s)) with (owners s) in Ha. cbn [releasing] in Ho. lia.
  - intros [= <-]. by apply subtract_ok.
  - intros [= <-]. by apply destroy_ok.
  - intros [= <-]. by apply free_ok.
Qed.

Lemma shared_reachable_ok n s : reachable n s -> shared_ok s /\ Z.of_nat (owners s) < SIZE_MOD.
Proof.
  induction 1 as [|s t a s' Hr [Hok Hb] Hs Hb'].
  - split; [apply start_ok|]. pose proof (start_ok n) as Hok. apply ok_count in Hok. rewrite <- Hok. done.
  - split; [by eapply shared_step_ok|done].
Qed.

(** C9. An exception shared by any number of threads, in any
    interleaving of their copies and drops: no access is made to it after it
    was freed, and it is not freed twice; it is neither destroyed nor freed
    while somebody owns it; and when nobody does and all calls have returned,
    its destructor has run once and its memory is free. *)
Theorem shared_exception_freed_once n s : reachable n s ->
  fault s = false /\ (destroyed s <= 1)%nat /\
  ((0 < owners s)%nat -> freed s = false /\ destroyed s = 0%nat) /\
  (owners s = 0%nat -> (forall t p, pcs s !! t = Some p -> p = Idle) -> freed s = true /\ destroyed s = 1%nat).
Proof.
  intros [Hok _]%shared_reachable_ok. split; [by apply Hok|].
  pose proof (at_free_le (pcs s)) as Hle. unfold endings in *.
  destruct (ok_life _ Hok) as [(H1&H2&H3&H4)|[(H1&H2&H3&H4)|(H1&H2&H3&H4)]]; unfold endings in *.
  - split_and!; [lia|done|lia].
  - split_and!; [lia|lia|]. intros _ Hidle.
    destruct (proj1 (weigh_positive ending (pcs s))) as (t & p & Hp & Hw); [lia|]. rewrite (Hidle _ _ Hp) in Hw. cbn in Hw. lia.
  - split_and!; [lia|lia|done].
Qed.

Fixpoint run (moves : list (tid * action)) (s : shared) : option shared :=
  match moves with
  | [] => Some s
  | (t, a) :: moves => s ← step t a s; if (owners s <? 100)%nat then run moves s else None
  end.

Lemma shared_run_reachable n moves s s' : reachable n s -> run moves s = Some s' -> reachable n s'.
Proof.
  revert s. induction moves as [|[t a] moves IH]; intros s Hr Hrun; cbn in Hrun; [congruence|].
  destruct (step t a s) as [s1|] eqn:Hs; [|done]. cbn in Hrun.
  destruct (Nat.leb_spec (owners s1) 99); [|done]. apply (IH s1); [|done]. eapply by_step; [done..|].
  unfold SIZE_MOD. lia.
Qed.

(** A copy is given to a second thread, and both drop theirs at the same time. *)
Definition two_owners : list (tid * action) :=
  [(0, Copy); (0, Run); (0, Run); (0, Give 1); (0, Drop); (1, Drop); (0, Run); (1, Run); (1, Run); (0, Run);
   (0, Run); (0, Run)]%nat.

Lemma shared_exception_freed_once_witness : exists s, run two_owners (just_thrown 1) = Some s /\
  fault s = false /\ freed s = true /\ destroyed s = 1%nat.
Proof.
  destruct (run two_owners (just_thrown 1)) as [s|] eqn:E; [|by vm_compute in E].
  exists s. split; [reflexivity|].
  destruct (shared_exception_freed_once 1 s (shared_run_reachable _ _ _ _ (at_throw 1) E)) as (Hf & _ & _ & H).
  split; [exact Hf|]. vm_compute in E. injection E as <-. apply H; [reflexivity|].
  intros [|[|t]] p Hp; [injection Hp as <-; reflexivity..|discriminate Hp].
Defined.
