(* ===== verification/Personality.v ===== *)
(** * The personality function

    Models the part of [exception.cc] the unwinder calls for every frame:
    finding the handler of an exception in the tables of the frame
    ([DwarfEh]), comparing types ([TypeInfo]), and what is kept between the
    two phases in the header of the exception ([ExnState]).  Not ARM. *)
From S2P Require Import Prelude DwarfEh TypeInfo ExnState ExnHandlers ExnAlloc Exception.

#[global] Open Scope Z_scope.

Inductive handler_type := handler_none | handler_cleanup | handler_catch.

(** [_Unwind_Action] *)
Definition _UA_SEARCH_PHASE : Z := 1.
Definition _UA_CLEANUP_PHASE : Z := 2.
Definition _UA_HANDLER_FRAME : Z := 4.
Definition _UA_FORCE_UNWIND : Z := 8.

(** What the function tells the unwinder: a reason code; or to install the
    context with an instruction pointer and the two exception registers. *)
Inductive verdict :=
  | Reason (code : Z)
  | Install (ip : Z) (exceptionObject : word) (selector : Z).

(** How the program's addresses relate to what is modelled apart: where blocks
    of exceptions are, and the [type_info] at an address. *)
Class AddressSpace := {
  addr_of : block -> Z;
  type_at : Z -> option type_info;
  typeid_void : type_info;
}.

Section Personality.
Context {L : Linked} {Mem : Memory} {W : Words} {A : AddressSpace}.

Abbreviation R := (comp runtime).

(** ** The handler found in phase 1 *)
Definition saveLandingPad (ex : word) (selector landingPad : Z) : R unit :=
  if decide (ex = NULL) then mret tt
  else set_ ex handlerSwitchValue (Int selector);;
       set_ ex catchTemp (Int landingPad).

(** The selector and the landing pad; nothing is read without an exception. *)
Definition loadLandingPad (ex : word) (selector landingPad : Z) : R (Z * Z) :=
  if decide (ex = NULL) then mret (selector, landingPad)
  else s ← get_int ex handlerSwitchValue;
       p ← get_int ex catchTemp;
       mret (u64 s, p).

(** ** Types *)

(** The address of the [type_info] for a filter, 0 for none *)
Definition get_type_info_entry (context : unwind_context) (lsda : dwarf_eh_lsda) (filter : Z) : R Z :=
  match dwarf_size_of_fixed_size_field (type_table_encoding lsda) with
  | None => crashed AssertFail
  | Some n =>
      let record := u64 (type_table lsda - n * filter) in
      '(offset, _) ← with_local record (read_value (type_table_encoding lsda));
      if offset =? 0 then mret 0
      else '(p, _) ← with_local 0 (resolve_indirect_value context (type_table_encoding lsda) offset record);
           mret p
  end.

(** The address a pointer stands for *)
Definition address (p : word) : Z :=
  match p with
  | Ptr b o => addr_of b + o
  | Int z => z
  | Fn _ => 0
  end.

Definition type_info_at (p : word) : R type_info :=
  match p with
  | Int a => match type_at a with Some t => mret t | None => crashed OutOfBounds end
  | _ => crashed OutOfBounds
  end.

(** [adjustedPtr] is [ex->adjustedPtr] of the exception [own]; [ex] is the one
    with the object. *)
Definition check_type_signature (ex : word) (type : Z) (own : word) : R bool :=
  if decide (ex = NULL) then mret (type =? 0)
  else
    let exception_ptr := address (shift ex sizeof_cxa_exception) in
    p ← get ex exceptionType;
    ex_type ← type_info_at p;
    exception_ptr ← (if __is_pointer_p ex_type then deref exception_ptr else mret exception_ptr);
    if type =? 0 then set_ own adjustedPtr (Int exception_ptr);; mret true
    else
      type ← type_info_at (Int type);
      if ti_eq type ex_type then set_ own adjustedPtr (Int exception_ptr);; mret true
      else
        '(b, exception_ptr) ← with_local exception_ptr (__do_catch typeid_void type ex_type 1);
        if (b : bool) then set_ own adjustedPtr (Int exception_ptr);; mret true
        else mret false.

(** ** Action records *)

(** The types an exception specification allows: bytes up to a zero one *)
Fixpoint allowed (fuel : nat) (context : unwind_context) (lsda : dwarf_eh_lsda) (type_index : Z) (ex own : word) : R bool :=
  match fuel with
  | O => no_fuel
  | S fuel =>
      '(index, next) ← with_local type_index read_byte;
      if index =? 0 then mret false
      else
        type ← get_type_info_entry context lsda index;
        matched ← check_type_signature ex type own;
        if (matched : bool) then mret true else allowed fuel context lsda next ex own
  end.

(** A record: the filter, and the address of the next record, 0 at the end *)
Definition read_action (action_record : Z) : R (Z * Z) :=
  '(filter, base) ← with_local action_record read_sleb128;
  '(displacement, _) ← with_local base read_sleb128;
  let displacement := signed 32 displacement in
  mret (signed 32 filter, if displacement =? 0 then 0 else u64 (base + displacement)).

(** What one record decides: to stop, or how to go on. *)
Inductive decision := Stop (h : handler_type) (selector : Z) | Go (found : handler_type) (selector : Z).

Definition check_filter (fuel : nat) (context : unwind_context) (lsda : dwarf_eh_lsda) (ex own : word)
    (found : handler_type) (selector filter : Z) : R decision :=
  if 0 <? filter then
    type ← get_type_info_entry context lsda filter;
    b ← check_type_signature ex type own;
    mret (if (b : bool) then Stop handler_catch (u64 filter) else Go found selector)
  else if (filter <? 0) && negb (bool_decide (ex = NULL)) then
    matched ← allowed fuel context lsda (u64 (type_table lsda - filter - 1)) ex own;
    mret (if (matched : bool) then Go found (u64 filter) else Stop handler_catch (u64 filter))
  else if filter =? 0 then mret (Go handler_cleanup 0)
  else mret (Go found selector).

Fixpoint action_loop (fuel : nat) (context : unwind_context) (lsda : dwarf_eh_lsda) (ex own : word)
    (action_record : Z) (found : handler_type) (selector : Z) : R (handler_type * Z) :=
  if action_record =? 0 then mret (found, selector)
  else match fuel with
  | O => no_fuel
  | S fuel =>
      '(filter, next) ← read_action action_record;
      d ← check_filter fuel context lsda ex own found selector filter;
      match d with
      | Stop h selector => mret (h, selector)
      | Go found selector => action_loop fuel context lsda ex own next found selector
      end
  end.

(** The handler, and [*selector] *)
Definition check_action_record (fuel : nat) (context : unwind_context) (lsda : dwarf_eh_lsda)
    (action_record : Z) (ex own : word) (selector : Z) : R (handler_type * Z) :=
  if action_record =? 0 then mret (handler_cleanup, selector)
  else action_loop fuel context lsda ex own action_record handler_none selector.

(** ** __gxx_personality_v0 *)
Definition find_action (context : unwind_context) (lsda_addr : Z) : R (dwarf_eh_lsda * (bool * dwarf_eh_action)) :=
  '(lsda, _) ← with_local lsda_addr (parse_lsda context);
  '(r, _) ← with_local 0 (fun _ => dwarf_eh_find_callsite context lsda);
  mret (lsda, r).

Definition has_flag (actions flag : Z) : bool := negb (Z.land actions flag =? 0).

(** [_Unwind_SetIP], [_Unwind_SetGR] and [return _URC_INSTALL_CONTEXT] *)
Definition install (landing_pad : Z) (exceptionObject : word) (selector : Z) : R verdict :=
  mret (Install landing_pad exceptionObject selector).

Definition continueUnwinding : R verdict := mret (Reason _URC_CONTINUE_UNWIND).

(** Phase 1 *)
Definition search_phase (fuel : nat) (context : unwind_context) (lsda_addr : Z) (ex realEx : word) : R verdict :=
  '(lsda, (found, action)) ← find_action context lsda_addr;
  if negb found then mret (Reason _URC_HANDLER_FOUND)
  else
    '(found_handler, selector) ← check_action_record fuel context lsda (action_record action) realEx ex 0;
    match found_handler with
    | handler_catch =>
        (if decide (ex = NULL) then mret tt
         else saveLandingPad ex (signed 32 selector) (landing_pad action);;
              set_ ex languageSpecificData (Int lsda_addr);;
              set_ ex actionRecord (Int (action_record action)));;
        mret (Reason _URC_HANDLER_FOUND)
    | _ => continueUnwinding
    end.

(** Phase 2, in a frame without the handler *)
Definition cleanup_phase (fuel : nat) (context : unwind_context) (lsda_addr : Z)
    (ex realEx exceptionObject : word) : R verdict :=
  '(lsda, (_, action)) ← find_action context lsda_addr;
  if landing_pad action =? 0 then continueUnwinding
  else
    '(found_handler, selector) ← check_action_record fuel context lsda (action_record action) realEx ex 0;
    match found_handler with
    | handler_cleanup => install (landing_pad action) exceptionObject selector
    | _ => continueUnwinding
    end.

(** Phase 2, in the frame with the handler, for a foreign exception *)
Definition foreign_frame (fuel : nat) (context : unwind_context) (lsda_addr : Z) (ex realEx exceptionObject : word) : R verdict :=
  '(lsda, (_, action)) ← find_action context lsda_addr;
  '(_, selector) ← check_action_record fuel context lsda (action_record action) realEx ex 0;
  install (landing_pad action) exceptionObject selector.

(** Phase 2, in the frame with the handler, for one of ours *)
Definition handler_frame (t : tid) (ex exceptionObject : word) : R verdict :=
  temp ← get ex catchTemp;
  if decide (temp = NULL) then terminate t
  else
    '(selector, landing_pad) ← loadLandingPad ex 0 0;
    set_ ex catchTemp NULL;;
    set_ ex handlerSwitchValue (Int 0);;
    install landing_pad exceptionObject selector.

Definition __gxx_personality_v0 (fuel : nat) (t : tid) (version actions exceptionClass : Z) (exceptionObject : word)
    (context : unwind_context) (lsda_addr : Z) : R verdict :=
  if negb (version =? 1) then mret (Reason _URC_FATAL_PHASE1_ERROR)
  else
    let foreignException := negb (isCXXException exceptionClass) in
    let ex := if foreignException then NULL else exceptionFromPointer exceptionObject in
    realEx ← (if foreignException then mret NULL else realExceptionFromException ex);
    if lsda_addr =? 0 then continueUnwinding
    else if has_flag actions _UA_SEARCH_PHASE then search_phase fuel context lsda_addr ex realEx
    else if negb (has_flag actions _UA_HANDLER_FRAME) then cleanup_phase fuel context lsda_addr ex realEx exceptionObject
    else if foreignException then foreign_frame fuel context lsda_addr ex realEx exceptionObject
    else handler_frame t ex exceptionObject.
End Personality.
