(* ===== verification/Diagnostics.v ===== *)
(** * The default terminate handler

    [terminate_with_diagnostics] of [exception.cc], the handler [terminate]
    calls unless the program sets another, with [trace], which it has the
    unwinder call for the frames of the stack.  What is modelled is what they
    print. *)
From S2P Require Import Prelude CString Platform CxaDemangle TypeInfo ExnState ExnHandlers Exception Personality.

#[global] Open Scope Z_scope.

(** What the handler finds in the program and its loader *)
Class Program := {
  name_at : Z -> bytes;             (** the name a [type_info] points at *)
  typeid_exception : type_info;     (** [typeid(std::exception)] *)
  what : Z -> bytes;                (** [e->what()] of a [std::exception] *)
  (** [dladdr]: the name of the function and of its file *)
  dladdr : Z -> option (bytes * bytes);
  self : Z;                         (** [__cxa_current_exception_type] *)
  (** [_Unwind_Backtrace]: what the callback, called for frames by their
      instruction pointer, has printed *)
  _Unwind_Backtrace : forall {line : Type}, (Z -> list line * Z) -> list line;
}.

Inductive line :=
  | Uncaught_exception (ex : word)   (** "Terminating due to uncaught exception %p" *)
  | Said (text : bytes)              (** " '%s'" *)
  | Of_type (text : bytes)           (** " of type %s" *)
  | Frame (ip : Z) (fn file : bytes).

Section Diagnostics.
Context {L : Linked} {W : Words} {A : AddressSpace} {P : Platform} {D : Program}.

(** The lines printed, and the reason code *)
Definition trace (ip : Z) : list line * Z :=
  (match dladdr ip with
   | Some (fn, file) =>
       match dladdr self with
       | Some (_, myfile) => if decide (file <> myfile) then [Frame ip fn file] else []
       | None => [Frame ip fn file]
       end
   | None => []
   end, _URC_CONTINUE_UNWIND).

(** The name of the type, demangled if it can be, in a buffer of 128 bytes if
    there is memory *)
Definition type_text (mangled : bytes) : comp nat bytes :=
  p ← Platform.malloc 128;
  r ← __cxa_demangle (Some mangled) (match p with Some _ => Some 128 | None => None end) (Some 128) (Some 0);
  mret (match d_status r, d_buf r with
        | Some 0, Some (s, _) => s
        | _, _ => mangled
        end).

(** [' what() '], if the object can be cast *)
Definition what_text (ty : type_info) (object : Z) : comp runtime (list line) :=
  if is_class ty then
    '(e, _) ← with_local tt (cast_to typeid_exception object (ti_addr ty));
    mret (if e =? 0 then [] else [Said (what e)])
  else mret [].

(** What is printed before [abort]; [heap] is the state of the allocator. *)
Definition terminate_with_diagnostics (t : tid) (heap : nat) : comp runtime (list line) :=
  globals ← thread_info t;
  th ← read_info globals;
  if decide (caughtExceptions th = NULL) then mret []
  else
    ex ← realExceptionFromException (caughtExceptions th);
    p ← get ex exceptionType;
    throw_ti ← type_info_at p;
    said ← what_text throw_ti (address (shift ex sizeof_cxa_exception));
    '(text, _) ← with_local heap (type_text (name_at (name throw_ti)));
    mret (Uncaught_exception (caughtExceptions th) :: said ++ [Of_type text] ++ _Unwind_Backtrace trace).
End Diagnostics.
