(* ===== verification/AuxHelper.v ===== *)
(** * Helper functions of compiled code

    [auxhelper.cc]: the functions compiled code calls where an exception of the
    standard library is to be thrown, or a virtual function is missing; with
    the classes of [stdexcept.cc] and [stdexcept.h], and the stubs of
    [noexception.cc]. *)
From S2P Require Import Prelude ExnState ExnHandlers ExnAlloc Exception.

#[global] Open Scope Z_scope.

(** The classes of [stdexcept.h] *)
Inductive std_exception := exception | bad_alloc | bad_cast | bad_typeid | bad_array_new_length.

Definition base (x : std_exception) : option std_exception :=
  match x with
  | exception => None
  | bad_alloc | bad_cast | bad_typeid => Some exception
  | bad_array_new_length => Some bad_alloc
  end.

Definition what (x : std_exception) : string :=
  match x with
  | exception => "std::exception"
  | bad_alloc => "cxxrt::bad_alloc"
  | bad_cast => "std::bad_cast"
  | bad_typeid => "std::bad_typeid"
  | bad_array_new_length => "std::bad_array_new_length"
  end.

(** What the compiler emits for each class, and whether the library is built
    with exceptions *)
Class Emitted := {
  typeid : std_exception -> word;
  vtable : std_exception -> word;
  destructor : std_exception -> fn;
  exceptions : bool;
}.

Section AuxHelper.
Context {L : Linked} {E : Emitted}.

(** An object of one of these classes is its pointer to the vtable. *)
Definition sizeof_object : Z := 8.
Definition construct (x : std_exception) (object : word) : comp runtime unit := store object (vtable x).

(** [throw T()] *)
Definition throw_exception (x : std_exception) (t : tid) : comp runtime ending :=
  if exceptions then
    object ← __cxa_allocate_exception t sizeof_object;
    construct x object;;
    __cxa_throw t object (typeid x) (Fn (destructor x))
  else crashed AssertFail.

Definition __cxa_bad_cast (t : tid) : comp runtime ending := throw_exception bad_cast t.
Definition __cxa_bad_typeid (t : tid) : comp runtime ending := throw_exception bad_typeid t.
Definition __cxa_throw_bad_array_new_length (t : tid) : comp runtime ending := throw_exception bad_array_new_length t.

Definition __cxa_pure_virtual : comp runtime unit := crashed AssertFail.
Definition __cxa_deleted_virtual : comp runtime unit := crashed AssertFail.
End AuxHelper.

(** [noexception.cc]: a build without exceptions never has one in flight. *)
Module noexception.
Definition uncaught_exception : bool := false.
Definition uncaught_exceptions : Z := 0.
End noexception.
