(* ===== verification/ExnSpec.v ===== *)
(** * The protocol of exceptions

    What the ABI functions of [Exception] are for, without memory, counters or
    linked lists: every thread has a stack of exceptions in flight and of
    active handlers; every exception has owners; it is destroyed when the
    last one goes.

    A handler is active until its [__cxa_end_catch].  What is above an
    exception in flight belongs to the cleanups (destructors) run while it
    passes. *)
From S2P Require Import Prelude ExnState.

Inductive entry := Flying (e : block) | Handling (e : block).

#[global] Instance entry_eq_dec : EqDecision entry.
Proof. solve_decision. Defined.

Definition id_of (x : entry) : block := match x with Flying e | Handling e => e end.

Definition ids (st : list entry) : list block := id_of <$> st.

(** The handlers, innermost first; the exceptions in flight *)
Definition handling (st : list entry) : list block :=
  omap (fun x => match x with Handling e => Some e | Flying _ => None end) st.
Definition flying (st : list entry) : list block :=
  omap (fun x => match x with Flying e => Some e | Handling _ => None end) st.

(** The exception [throw;] throws again *)
Definition current (st : list entry) : option block := head (handling st).

(** An exception is memory not thrown yet, an exception with an object, or one
    that stands for another, which [exception_ptr] threw again.  [thrower] is
    the thread on whose stack it is, [handles] the [exception_ptr]s to it. *)
Inductive kind :=
  | Raw
  | Primary (thrower : option tid) (handles : nat) (destructor : word)
  | Dependent (thrower : tid) (primary : block).

#[global] Instance kind_eq_dec : EqDecision kind.
Proof. solve_decision. Defined.

Definition thrower (k : kind) : option tid :=
  match k with
  | Raw => None
  | Primary t _ _ => t
  | Dependent t _ => Some t
  end.

Definition depends (p : block) (k : kind) : Prop :=
  match k with Dependent _ q => q = p | _ => False end.

#[global] Instance depends_dec p k : Decision (depends p k).
Proof. destruct k; cbn; typeclasses eauto. Defined.

Record spec := Spec {
  stacks : gmap tid (list entry);
  live : gmap block kind;
  log : list event;
}.

Definition dependents (l : gmap block kind) (p : block) : nat :=
  size (filter (fun x => depends p (snd x)) l).

(** Who keeps a primary exception alive: the throw, as long as the exception
    is in flight or handled, the [exception_ptr]s, the dependents. *)
Definition owners (l : gmap block kind) (p : block) : nat :=
  match l !! p with
  | Some (Primary th h _) => (match th with Some _ => 1 | None => 0 end) + h + dependents l p
  | _ => 0
  end.

Definition destroy_event (d : word) (p : block) : list event :=
  match d with Fn f => [Destroyed f (Ptr p sizeof_cxa_exception)] | _ => [] end.

(** The primary [p] has lost an owner. *)
Definition collect (p : block) (σ : spec) : spec :=
  match live σ !! p with
  | Some (Primary _ _ d) =>
      if (owners (live σ) p =? 0)%nat
      then Spec (stacks σ) (delete p (live σ)) (Released p :: destroy_event d p ++ log σ)
      else σ
  | _ => σ
  end.

Definition set_stack (t : tid) (st : list entry) (σ : spec) : spec :=
  Spec (<[t := st]> (stacks σ)) (live σ) (log σ).
Definition set_kind (e : block) (k : kind) (σ : spec) : spec :=
  Spec (stacks σ) (<[e := k]> (live σ)) (log σ).
Definition forget (e : block) (σ : spec) : spec :=
  Spec (stacks σ) (delete e (live σ)) (log σ).
Definition note (v : event) (σ : spec) : spec := Spec (stacks σ) (live σ) (v :: log σ).

(** The throw no longer owns [e]. *)
Definition let_go (e : block) (σ : spec) : spec :=
  match live σ !! e with
  | Some (Primary _ h d) => collect e (set_kind e (Primary None h d) σ)
  | Some (Dependent _ p) => note (Released e) (collect p (forget e σ))
  | _ => σ
  end.

(** Leaving the innermost handler: the one on top, or the one the exception on
    top is unwinding. *)
Definition end_handler (st : list entry) : option (block * list entry) :=
  match st with
  | Handling e :: st => Some (e, st)
  | Flying e' :: Handling e :: st => Some (e, Flying e' :: st)
  | _ => None
  end.

Definition primary_of (l : gmap block kind) (e : block) : block :=
  match l !! e with Some (Dependent _ p) => p | _ => e end.

(** One more or one less [exception_ptr] *)
Definition add_handle (p : block) (σ : spec) : spec :=
  match live σ !! p with
  | Some (Primary th h d) => set_kind p (Primary th (S h) d) σ
  | _ => σ
  end.
Definition drop_handle (p : block) (σ : spec) : spec :=
  match live σ !! p with
  | Some (Primary th h d) => collect p (set_kind p (Primary th (pred h) d) σ)
  | _ => σ
  end.

(** ** Calls *)
Inductive call :=
  | Allocate (t : tid) (thrown_size : Z)
  | Free (t : tid) (e : block)
  | Throw (t : tid) (e : block) (tinfo destructor : word)
  | RethrowPtr (t : tid) (p : block)
  | BeginCatch (t : tid) (e : block)
  | EndCatch (t : tid)
  | Rethrow (t : tid)
  | CurrentPtr (t : tid)
  | CopyPtr (p : block)
  | DropPtr (t : tid) (p : block)
  | Uncaught (t : tid).

Definition stack_of (t : tid) (σ : spec) : list entry := default [] (stacks σ !! t).

Definition has_handles (p : block) (σ : spec) : bool :=
  match live σ !! p with Some (Primary _ (S _) _) => true | _ => false end.

(** Counters have room for one more. *)
Definition room_on (t : tid) (σ : spec) : bool := Z.of_nat (length (stack_of t σ)) <? INT_MAX.
Definition room_for (p : block) (σ : spec) : bool := Z.of_nat (owners (live σ) p) <? INT_MAX.

(** There is a destructor, or none. *)
Definition destructor_ok (d : word) : Prop := d = NULL \/ exists f, d = Fn f.

#[global] Instance destructor_ok_dec d : Decision (destructor_ok d).
Proof.
  unfold destructor_ok. destruct d as [z| |f].
  - destruct (decide (z = 0)) as [->|Hz]; [by left; left|right]. intros [[= ->]|[f [=]]]. done.
  - right. intros [[=]|[f [=]]].
  - left. right. by exists f.
Defined.

(** When compiled code makes the call. *)
Definition legal (c : call) (σ : spec) : Prop :=
  match c with
  | Allocate t n => is_Some (stacks σ !! t) /\ 0 <= n < SIZE_MOD - sizeof_cxa_exception
  | Free t e => is_Some (stacks σ !! t) /\ live σ !! e = Some Raw
  | Throw t e ti d => is_Some (stacks σ !! t) /\ live σ !! e = Some Raw /\ room_on t σ = true /\
      destructor_ok d
  | RethrowPtr t p => is_Some (stacks σ !! t) /\ has_handles p σ = true /\
      room_on t σ = true /\ room_for p σ = true
  | BeginCatch t e => head (stack_of t σ) = Some (Flying e)
  | EndCatch t => is_Some (end_handler (stack_of t σ))
  | Rethrow t => room_on t σ = true /\
      match current (stack_of t σ) with
      | Some e => Flying e ∉ stack_of t σ
      | None => False
      end
  | CurrentPtr t => is_Some (stacks σ !! t) /\
      match current (stack_of t σ) with
      | Some e => room_for (primary_of (live σ) e) σ = true
      | None => True
      end
  | CopyPtr p => has_handles p σ = true /\ room_for p σ = true
  | DropPtr t p => is_Some (stacks σ !! t) /\ has_handles p σ = true
  | Uncaught t => is_Some (stacks σ !! t)
  end.

#[global] Instance legal_dec c σ : Decision (legal c σ).
Proof.
  destruct c; cbn; try (destruct (current (stack_of _ σ))); typeclasses eauto.
Defined.

(** The state after the call, when it answers [r] *)
Definition next (c : call) (r : word) (σ : spec) : spec :=
  match c with
  | Allocate t _ => match r with Ptr b _ => set_kind b Raw σ | _ => σ end
  | Free t e => note (Released e) (forget e σ)
  | Throw t e _ d => set_stack t (Flying e :: stack_of t σ) (set_kind e (Primary (Some t) 0 d) σ)
  | RethrowPtr t p =>
      match r with
      | Ptr d _ => set_stack t (Flying d :: stack_of t σ) (set_kind d (Dependent t p) σ)
      | _ => σ
      end
  | BeginCatch t e => set_stack t (Handling e :: tail (stack_of t σ)) σ
  | EndCatch t =>
      match end_handler (stack_of t σ) with
      | Some (e, st) =>
          let σ := set_stack t st σ in
          if decide (e ∈ ids st) then σ else let_go e σ
      | None => σ
      end
  | Rethrow t =>
      match current (stack_of t σ) with
      | Some e => set_stack t (Flying e :: stack_of t σ) σ
      | None => σ
      end
  | CurrentPtr t =>
      match current (stack_of t σ) with
      | Some e => add_handle (primary_of (live σ) e) σ
      | None => σ
      end
  | CopyPtr p => add_handle p σ
  | DropPtr t p => drop_handle p σ
  | Uncaught _ => σ
  end.

(** What it may answer: a new block for new exceptions; the exception that is
    in flight now; the object of the exception being handled; how many are in
    flight. *)
Definition answers (c : call) (r : word) (σ : spec) : Prop :=
  match c with
  | Allocate _ _ => exists b, r = Ptr b sizeof_cxa_exception /\ live σ !! b = None
  | RethrowPtr _ _ => exists b, r = Ptr b (offsetof unwindHeader) /\ live σ !! b = None
  | Throw _ e _ _ => r = Ptr e (offsetof unwindHeader)
  | Rethrow t => match current (stack_of t σ) with
      | Some e => r = Ptr e (offsetof unwindHeader)
      | None => False
      end
  | CurrentPtr t => r = (match current (stack_of t σ) with
      | Some e => Ptr (primary_of (live σ) e) sizeof_cxa_exception
      | None => NULL
      end)
  | Uncaught t => r = Int (zlength (flying (stack_of t σ)))
  | _ => True
  end.

(** ** The invariant *)

(** An exception is in flight at most once; and when it is, or starts being
    handled, no other handler is between it and its older handlers. *)
Fixpoint wf (st : list entry) : Prop :=
  match st with
  | [] => True
  | x :: st =>
      wf st /\ (Flying (id_of x) ∉ st) /\
      ((id_of x ∉ handling st) \/ current st = Some (id_of x))
  end.

(** The invariant, but for the owners of [p], where it is [Some]: that one may
    have lost its last owner. *)
Record Inv_but (p : option block) (σ : spec) : Prop := {
  inv_wf : forall t st, stacks σ !! t = Some st -> wf st;
  inv_room : forall t st, stacks σ !! t = Some st -> Z.of_nat (length st) <= INT_MAX;
  (** what is on a stack is alive, and thrown by that thread *)
  inv_stack : forall t st e, stacks σ !! t = Some st -> e ∈ ids st ->
    exists k, live σ !! e = Some k /\ thrower k = Some t;
  inv_thrown : forall e k t, live σ !! e = Some k -> thrower k = Some t -> e ∈ ids (stack_of t σ);
  inv_dependent : forall d t p, live σ !! d = Some (Dependent t p) ->
    exists th h dest, live σ !! p = Some (Primary th h dest);
  inv_dest : forall e th h d, live σ !! e = Some (Primary th h d) -> destructor_ok d;
  inv_owned : forall e th h d, live σ !! e = Some (Primary th h d) ->
    (Some e <> p -> (0 < owners (live σ) e)%nat) /\ Z.of_nat (owners (live σ) e) <= INT_MAX;
}.

Abbreviation Inv := (Inv_but None).

(** How often an exception is being handled, negated while it is in flight
    again: what [handlerCount] is. *)
Definition activations (e : block) (st : list entry) : nat :=
  length (filter (fun x => x = e) (handling st)).
Definition handler_count (e : block) (st : list entry) : Z :=
  if decide (Flying e ∈ st) then - Z.of_nat (activations e st) else Z.of_nat (activations e st).

(** The exceptions being handled, once each: what [caughtExceptions] lists. *)
Fixpoint caught_list (st : list entry) : list block :=
  match st with
  | [] => []
  | Flying _ :: st => caught_list st
  | Handling e :: st => if decide (e ∈ handling st) then caught_list st else e :: caught_list st
  end.
