(* ===== verification/ExnSpecLemmas.v ===== *)
(** * The protocol keeps its invariant

    Lemmas on stacks and owners, and [Inv] after every legal call. *)
From S2P Require Import Prelude ExnState ExnSpec.

(** ** Stacks *)
Lemma handling_ids e st : e ∈ handling st -> e ∈ ids st.
Proof.
  unfold handling, ids. rewrite list_elem_of_omap, list_elem_of_fmap.
  intros ([e'|e'] & Hin & [= ->]). by exists (Handling e).
Qed.

Lemma elem_handling e st : e ∈ handling st <-> Handling e ∈ st.
Proof.
  unfold handling. rewrite list_elem_of_omap. split.
  - by intros ([e'|e'] & Hin & [= ->]).
  - intros H. by exists (Handling e).
Qed.

Lemma elem_ids e st : e ∈ ids st <-> Flying e ∈ st \/ e ∈ handling st.
Proof.
  rewrite elem_handling. unfold ids. rewrite list_elem_of_fmap. split.
  - intros ([e'|e'] & -> & Hin); cbn; auto.
  - intros [H|H]; [by exists (Flying e) | by exists (Handling e)].
Qed.

Lemma ids_cons x st : ids (x :: st) = id_of x :: ids st.
Proof. done. Qed.

Lemma handling_handling e st : handling (Handling e :: st) = e :: handling st.
Proof. done. Qed.
Lemma handling_flying e st : handling (Flying e :: st) = handling st.
Proof. done. Qed.

Lemma current_elem st e : current st = Some e -> e ∈ handling st.
Proof. unfold current. destruct (handling st); cbn; [done|]. intros [= ->]. left. Qed.

Lemma caught_list_elem e st : e ∈ caught_list st <-> e ∈ handling st.
Proof.
  induction st as [|[e'|e'] st IH]; cbn [caught_list]; [done|by rewrite handling_flying|].
  rewrite handling_handling. case_decide; rewrite !elem_of_cons, ?IH; [|done].
  split; [by right|]. intros [Heq|?]; [by rewrite Heq|done].
Qed.

Lemma caught_list_head st : wf st -> head (caught_list st) = current st.
Proof.
  unfold current. induction st as [|[e|e] st IH]; cbn [caught_list wf]; [done|..]; intros (Hw & _ & Hc).
  - by rewrite handling_flying, IH.
  - rewrite handling_handling. cbn [id_of] in Hc. case_decide as Hin; [|done].
    rewrite IH by done. destruct Hc as [?|Hc]; [done|exact Hc].
Qed.

Lemma caught_list_nodup st : NoDup (caught_list st).
Proof.
  induction st as [|[e|e] st IH]; cbn [caught_list]; [constructor|done|].
  case_decide as H; [done|]. constructor; [|done]. by rewrite caught_list_elem.
Qed.

Lemma activations_flying e x st : activations e (Flying x :: st) = activations e st.
Proof. done. Qed.
Lemma activations_handling e x st :
  activations e (Handling x :: st) = ((if decide (x = e) then 1 else 0) + activations e st)%nat.
Proof.
  unfold activations. rewrite handling_handling, filter_cons. by case_decide.
Qed.

Lemma activations_none e st : e ∉ handling st -> activations e st = 0%nat.
Proof.
  intros H. unfold activations. induction (handling st) as [|y l IH]; [done|].
  rewrite not_elem_of_cons in H. destruct H as [Hne H]. rewrite filter_cons.
  rewrite decide_False by congruence. by apply IH.
Qed.

Lemma activations_pos e st : e ∈ handling st -> (0 < activations e st)%nat.
Proof.
  unfold activations. induction (handling st) as [|y l IH]; [by intros ?%not_elem_of_nil|].
  rewrite filter_cons, elem_of_cons. case_decide; cbn [length]; [lia|].
  intros [?|?]; [congruence|auto].
Qed.

Lemma activations_le e st : (activations e st <= length st)%nat.
Proof.
  induction st as [|[x|x] st IH]; [done|..].
  - rewrite activations_flying. cbn. lia.
  - rewrite activations_handling. cbn. case_decide; lia.
Qed.

Lemma handler_count_none e st : e ∉ handling st -> handler_count e st = 0.
Proof. intros H. unfold handler_count. rewrite activations_none by done. by case_decide. Qed.

(** What is pushed on a stack says nothing of other exceptions. *)
Lemma handler_count_cons e x st : id_of x <> e -> handler_count e (x :: st) = handler_count e st.
Proof.
  intros Hne. unfold handler_count.
  assert (activations e (x :: st) = activations e st) as ->.
  { destruct x as [x|x]; [done|]. rewrite activations_handling. by rewrite decide_False. }
  destruct (decide (Flying e ∈ st)) as [H|H].
  - rewrite decide_True; [done|]. by right.
  - rewrite decide_False; [done|]. rewrite elem_of_cons. intros [<-|?]; done.
Qed.

Lemma handler_count_handling e st :
  Flying e ∉ st -> handler_count e (Handling e :: st) = handler_count e st + 1.
Proof.
  intros H. unfold handler_count. rewrite !decide_False; [|done|].
  - rewrite activations_handling, decide_True by done. lia.
  - rewrite elem_of_cons. intros [?|?]; done.
Qed.

Lemma handler_count_flying e st :
  Flying e ∉ st -> handler_count e (Flying e :: st) = - handler_count e st.
Proof.
  intros H. unfold handler_count. rewrite decide_True, decide_False by (done || left). done.
Qed.

Lemma handler_count_bound e st : Z.abs (handler_count e st) <= Z.of_nat (length st).
Proof. pose proof (activations_le e st). unfold handler_count. case_decide; lia. Qed.

Lemma handler_count_zero e st : handler_count e st = 0 -> e ∉ handling st.
Proof.
  intros H Hin%activations_pos. unfold handler_count in H. case_decide; lia.
Qed.

(** Leaving a handler *)
Lemma end_handler_current st e st' : end_handler st = Some (e, st') -> current st = Some e.
Proof. destruct st as [|[x|x] [|[y|y] st]]; cbn; congruence. Qed.

Lemma end_handler_incl st e st' x : end_handler st = Some (e, st') -> x ∈ st' -> x ∈ st.
Proof.
  destruct st as [|[a|a] [|[b|b] st]]; cbn; try done; intros [= -> <-]; rewrite ?elem_of_cons; tauto.
Qed.

Lemma end_handler_length st e st' : end_handler st = Some (e, st') -> length st = S (length st').
Proof. destruct st as [|[a|a] [|[b|b] st]]; cbn; try done; by intros [= -> <-]. Qed.

Lemma end_handler_flying st e st' : end_handler st = Some (e, st') -> flying st' = flying st.
Proof. destruct st as [|[a|a] [|[b|b] st]]; cbn; try done; by intros [= -> <-]. Qed.

Lemma end_handler_handling st e st' : end_handler st = Some (e, st') -> handling st = e :: handling st'.
Proof. destruct st as [|[a|a] [|[b|b] st]]; cbn; try done; by intros [= -> <-]. Qed.

Lemma end_handler_wf st e st' : end_handler st = Some (e, st') -> wf st -> wf st'.
Proof.
  intros E. assert (st = Handling e :: st' \/ exists e' l, st = Flying e' :: Handling e :: l /\ st' = Flying e' :: l)
    as [->|(e' & l & -> & ->)].
  { destruct st as [|[a|a] [|[b|b] st]]; cbn in E; try done; injection E as -> <-; eauto. }
  { cbn. tauto. }
  cbn [wf id_of]. rewrite handling_handling. intros ((Hw & Hf & Hc) & Hf' & Hc').
  split; [done|]. split; [intros ?; apply Hf'; by right|].
  destruct Hc' as [Hc'|[= ->]]; [left; intros ?; apply Hc'; by right|]. done.
Qed.

Lemma end_handler_ids st e st' x :
  end_handler st = Some (e, st') -> x <> e -> x ∈ ids st -> x ∈ ids st'.
Proof.
  destruct st as [|[a|a] [|[b|b] st]]; cbn; try done; intros [= -> <-]; cbn;
    rewrite ?elem_of_cons; tauto.
Qed.

Lemma end_handler_ids_back st e st' x : end_handler st = Some (e, st') -> x ∈ ids st' -> x ∈ ids st.
Proof.
  intros E. unfold ids. rewrite !list_elem_of_fmap. intros (y & -> & Hy). exists y.
  split; [done|]. by eapply end_handler_incl.
Qed.

Lemma elem_flying e st : e ∈ flying st <-> Flying e ∈ st.
Proof.
  unfold flying. rewrite list_elem_of_omap. split.
  - by intros ([e'|e'] & Hin & [= ->]).
  - intros H. by exists (Flying e).
Qed.

Lemma end_handler_flies st e st' x : end_handler st = Some (e, st') -> Flying x ∈ st <-> Flying x ∈ st'.
Proof. intros E. by rewrite <- !elem_flying, (end_handler_flying _ _ _ E). Qed.

(** The count goes one step towards zero; for others it stays. *)
Lemma end_handler_count st e st' :
  end_handler st = Some (e, st') -> wf st ->
  handler_count e st' = if handler_count e st <? 0 then handler_count e st + 1 else handler_count e st - 1.
Proof.
  intros E Hw. assert (activations e st = S (activations e st')) as Ha.
  { unfold activations. rewrite (end_handler_handling _ _ _ E), filter_cons, decide_True by done. done. }
  pose proof (end_handler_flies _ _ _ e E) as Hf.
  unfold handler_count. rewrite Ha.
  destruct (decide (Flying e ∈ st)) as [H|H].
  - rewrite decide_True by by apply Hf. destruct (Z.ltb_spec (- Z.of_nat (S (activations e st'))) 0); lia.
  - rewrite decide_False by by rewrite <- Hf. destruct (Z.ltb_spec (Z.of_nat (S (activations e st'))) 0); lia.
Qed.

Lemma end_handler_count_other st e st' x :
  end_handler st = Some (e, st') -> x <> e -> handler_count x st' = handler_count x st.
Proof.
  intros E Hne. unfold handler_count.
  assert (activations x st' = activations x st) as ->.
  { unfold activations. rewrite (end_handler_handling _ _ _ E), filter_cons, decide_False by congruence. done. }
  pose proof (end_handler_flies _ _ _ x E) as Hf.
  by destruct (decide (Flying x ∈ st')) as [H|H], (decide (Flying x ∈ st)) as [H'|H']; try tauto.
Qed.

(** After the last activation of an exception that is not in flight, it is
    not on the stack. *)
Lemma end_handler_gone st e st' :
  end_handler st = Some (e, st') ->
  e ∈ ids st' <-> handler_count e st' <> 0 \/ handler_count e st < 0.
Proof.
  intros E. rewrite elem_ids. unfold handler_count.
  assert (activations e st = S (activations e st')) as ->.
  { unfold activations. rewrite (end_handler_handling _ _ _ E), filter_cons, decide_True by done. done. }
  pose proof (end_handler_flies _ _ _ e E) as Hf.
  split.
  - intros [H|H].
    + right. rewrite decide_True by by apply Hf. lia.
    + left. pose proof (activations_pos _ _ H). case_decide; lia.
  - intros H. destruct (decide (Flying e ∈ st')) as [?|Hn]; [by left|]. right.
    rewrite decide_False in H by by rewrite Hf. destruct H as [H|H]; [|lia].
    destruct (decide (e ∈ handling st')) as [?|?]; [done|]. rewrite activations_none in H by done. lia.
Qed.

Lemma end_handler_caught st e st' :
  end_handler st = Some (e, st') ->
  caught_list st = if decide (e ∈ handling st') then caught_list st' else e :: caught_list st'.
Proof.
  destruct st as [|[a|a] [|[b|b] st]]; cbn; try done; by intros [= -> <-].
Qed.

(** ** Dependents and owners *)
Definition dep1 (p : block) (k : kind) : nat := if decide (depends p k) then 1 else 0.

Lemma dependents_insert l e k p :
  l !! e = None -> dependents (<[e := k]> l) p = (dep1 p k + dependents l p)%nat.
Proof.
  intros He. unfold dependents, dep1. case_decide as Hd.
  - rewrite map_filter_insert_True by done. rewrite map_size_insert_None; [done|].
    apply map_lookup_filter_None. by left.
  - rewrite map_filter_insert_False by done. by rewrite delete_id.
Qed.

Lemma dependents_delete l e k p :
  l !! e = Some k -> dependents l p = (dep1 p k + dependents (delete e l) p)%nat.
Proof.
  intros He. rewrite <- (insert_delete_id l e k He) at 1.
  apply dependents_insert, lookup_delete_eq.
Qed.

Lemma dependents_update l e k0 k p :
  l !! e = Some k0 -> (dependents (<[e := k]> l) p + dep1 p k0 = dependents l p + dep1 p k)%nat.
Proof.
  intros He. rewrite <- insert_delete_eq.
  rewrite dependents_insert by apply lookup_delete_eq.
  pose proof (dependents_delete l e k0 p He). lia.
Qed.

Lemma dep1_other p k : ~ depends p k -> dep1 p k = 0%nat.
Proof. intros H. unfold dep1. by rewrite decide_False. Qed.

Lemma dependents_pos l d t p : l !! d = Some (Dependent t p) -> (0 < dependents l p)%nat.
Proof.
  intros H. rewrite (dependents_delete _ _ _ _ H). unfold dep1. rewrite decide_True by done. lia.
Qed.

(** The exceptions whose owners an update leaves alone *)
Lemma owners_insert_other l e k p :
  e <> p -> ~ depends p k -> (forall k0, l !! e = Some k0 -> ~ depends p k0) ->
  owners (<[e := k]> l) p = owners l p.
Proof.
  intros Hne Hk Hk0. unfold owners. rewrite lookup_insert_ne by done.
  assert (dependents (<[e := k]> l) p = dependents l p) as ->; [|done].
  destruct (l !! e) as [k0|] eqn:E.
  - pose proof (dependents_update l e k0 k p E) as H.
    rewrite !dep1_other in H by auto. lia.
  - rewrite dependents_insert, dep1_other by done. done.
Qed.

Lemma owners_delete_other l e k p :
  l !! e = Some k -> e <> p -> ~ depends p k -> owners (delete e l) p = owners l p.
Proof.
  intros He Hne Hk. unfold owners. rewrite lookup_delete_ne by done.
  rewrite (dependents_delete l e k p He), dep1_other by done. done.
Qed.

Lemma dependents_same l e k0 k p :
  l !! e = Some k0 -> dep1 p k = dep1 p k0 -> dependents (<[e := k]> l) p = dependents l p.
Proof. intros He Hd. pose proof (dependents_update l e k0 k p He). lia. Qed.

(** ** The invariant *)
Lemma owners_primary l p th h d :
  l !! p = Some (Primary th h d) ->
  owners l p = ((match th with Some _ => 1 | None => 0 end) + h + dependents l p)%nat.
Proof. intros H. unfold owners. by rewrite H. Qed.

(** What a call may do to [live] and the stacks, so that [Inv] has to be
    looked at only for what it touches. *)
Lemma stack_of_set t st σ t' :
  stack_of t' (set_stack t st σ) = if decide (t' = t) then st else stack_of t' σ.
Proof.
  unfold stack_of, set_stack. cbn. case_decide; subst.
  - by rewrite lookup_insert_eq.
  - by rewrite lookup_insert_ne.
Qed.

Lemma Inv_weaken p σ : Inv σ -> Inv_but p σ.
Proof. intros []. split; try done. intros e ? ? ? He. by split; [intros _|]; eapply inv_owned. Qed.

(** [collect] restores the invariant. *)
Lemma collect_Inv p σ : Inv_but (Some p) σ -> Inv (collect p σ).
Proof.
  intros HI. pose proof HI as [Hwf Hroom Hstack Hthrown Hdepd Hdest Howned]. unfold collect.
  assert ((forall th h d, live σ !! p = Some (Primary th h d) -> (0 < owners (live σ) p)%nat) -> Inv σ) as Hsame.
  { intros Hp. split; try done. intros e th h d He. destruct (Howned _ _ _ _ He) as [Ha Hb].
    split; [intros _|done]. destruct (decide (e = p)) as [->|]; [by eapply Hp | apply Ha; congruence]. }
  destruct (live σ !! p) as [[|th h d|]|] eqn:Hp; [by apply Hsame | | by apply Hsame..].
  destruct (Nat.eqb_spec (owners (live σ) p) 0) as [H0|H0]; [|apply Hsame; intros; lia].
  assert (th = None /\ dependents (live σ) p = 0%nat) as [-> Hdep].
  { rewrite (owners_primary _ _ _ _ _ Hp) in H0. destruct th; cbn in H0; split; (done || lia). }
  split; cbn; try done.
  - intros t st e Hst He. destruct (Hstack _ _ _ Hst He) as (k & Hk & Ht). exists k.
    split; [|done]. rewrite lookup_delete_ne; [done|]. intros ->. rewrite Hp in Hk. by injection Hk as <-.
  - intros e k t [_ Hk]%lookup_delete_Some Ht. exact (Hthrown _ _ _ Hk Ht).
  - intros e t q [_ Hk]%lookup_delete_Some. destruct (Hdepd _ _ _ Hk) as (th & h' & dest & Hq).
    exists th, h', dest. rewrite lookup_delete_ne; [done|]. intros ->.
    pose proof (dependents_pos _ _ _ _ Hk). lia.
  - intros e th h' d' [_ Hk]%lookup_delete_Some. by eapply Hdest.
  - intros e th h' d' [Hne Hk]%lookup_delete_Some.
    rewrite (owners_delete_other _ _ _ _ Hp) by (done || intros []).
    destruct (Howned _ _ _ _ Hk) as [Ha Hb]. split; [intros _; apply Ha; congruence|done].
Qed.

Lemma Inv_note p v σ : Inv_but p σ -> Inv_but p (note v σ).
Proof. by intros []. Qed.

Lemma stack_of_elem t σ e : e ∈ ids (stack_of t σ) -> exists st, stacks σ !! t = Some st /\ e ∈ ids st.
Proof.
  unfold stack_of. destruct (stacks σ !! t) as [st|]; cbn; [by exists st|by intros ?%not_elem_of_nil].
Qed.

Lemma stack_of_Some t σ st : stacks σ !! t = Some st -> stack_of t σ = st.
Proof. intros H. unfold stack_of. by rewrite H. Qed.

(** Only one thread has an exception on its stack. *)
Lemma stack_owner p σ t t' st e k :
  Inv_but p σ -> live σ !! e = Some k -> thrower k = Some t ->
  stacks σ !! t' = Some st -> e ∈ ids st -> t' = t.
Proof. intros HI Hk Ht Hst He. destruct (inv_stack _ _ HI _ _ _ Hst He) as (k' & ? & ?). congruence. Qed.

Lemma dependents_zero p σ e :
  Inv_but p σ -> (forall th h d, live σ !! e <> Some (Primary th h d)) -> dependents (live σ) e = 0%nat.
Proof.
  intros HI He. unfold dependents. apply map_size_empty_iff, map_empty. intros x.
  apply map_lookup_filter_None. right. intros k Hk Hd. destruct k as [|? ? ?|t q]; try done.
  cbn in Hd. subst q. destruct (inv_dependent _ _ HI _ _ _ Hk) as (? & ? & ? & ?). by eapply He.
Qed.

(** Another order of the same exceptions *)
Lemma set_stack_Inv p t st σ :
  Inv_but p σ -> wf st -> Z.of_nat (length st) <= INT_MAX ->
  (forall e, e ∈ ids st <-> e ∈ ids (stack_of t σ)) -> Inv_but p (set_stack t st σ).
Proof.
  intros [] Hw Hl Hids. split; cbn; try done.
  - intros t' st'. rewrite lookup_insert_Some. intros [[_ <-]|[_ H]]; eauto.
  - intros t' st'. rewrite lookup_insert_Some. intros [[_ <-]|[_ H]]; eauto.
  - intros t' st' e. rewrite lookup_insert_Some. intros [[<- <-]|[_ H]] He; [|eauto].
    apply Hids, stack_of_elem in He as (st0 & ? & ?). eauto.
  - intros e k t' Hk Ht. rewrite stack_of_set. case_decide as E; [subst t'|eauto].
    apply Hids. eauto.
Qed.

Lemma dependents_thrown l e k p :
  l !! e = None \/ l !! e = Some Raw ->
  (dependents (<[e := k]> l) p = dep1 p k + dependents l p)%nat.
Proof.
  intros [E|E]; [by apply dependents_insert|].
  pose proof (dependents_update _ _ _ k p E) as Hu. rewrite (dep1_other p Raw) in Hu by intros []. lia.
Qed.

(** A new exception, thrown *)
Lemma push_Inv σ t e k :
  Inv σ -> is_Some (stacks σ !! t) ->
  (live σ !! e = None \/ live σ !! e = Some Raw) ->
  Z.of_nat (length (stack_of t σ)) < INT_MAX ->
  (exists d, k = Primary (Some t) 0 d /\ destructor_ok d) \/
  (exists p, k = Dependent t p /\ (exists th h d, live σ !! p = Some (Primary th h d)) /\
     Z.of_nat (owners (live σ) p) < INT_MAX) ->
  Inv (set_stack t (Flying e :: stack_of t σ) (set_kind e k σ)).
Proof.
  intros HI [st Hst] Hfree Hroom Hk. rewrite (stack_of_Some _ _ _ Hst) in *.
  pose proof HI as [Hwf Hlen Hstack Hthrown Hdepd Hdest Howned].
  assert (forall th h d, live σ !! e <> Some (Primary th h d)) as Hnp by (intros; destruct Hfree; congruence).
  assert (thrower k = Some t) as Hth by (destruct Hk as [(? & -> & _)|(? & -> & _)]; done).
  assert (forall t' st', stacks σ !! t' = Some st' -> e ∉ ids st') as Hnew.
  { intros t' st' H He. destruct (Hstack _ _ _ H He) as (k' & Hk' & Ht').
    destruct Hfree as [E|E]; rewrite E in Hk'; [done|]. by injection Hk' as <-. }
  assert (forall q, depends q k -> exists th h d, live σ !! q = Some (Primary th h d)) as Hq.
  { intros q Hd. destruct Hk as [(? & -> & _)|(? & -> & ? & _)]; [done|]. cbn in Hd. by subst. }
  split; cbn.
  - intros t' st'. rewrite lookup_insert_Some. intros [[_ <-]|[_ H]]; [|eauto]. cbn. split_and!; [eauto|..].
    + intros H%(or_introl (B := e ∈ handling st))%elem_ids. by apply (Hnew _ _ Hst).
    + left. intros H%handling_ids. by apply (Hnew _ _ Hst).
  - intros t' st'. rewrite lookup_insert_Some. intros [[_ <-]|[_ H]]; [cbn; lia|eauto].
  - intros t' st' x. rewrite lookup_insert_Some. intros [[<- <-]|[Hne H]] Hx.
    + apply elem_of_cons in Hx as [->|Hx]; [by exists k; rewrite lookup_insert_eq|].
      rewrite lookup_insert_ne; [eauto|]. intros ->. by apply (Hnew _ _ Hst).
    + rewrite lookup_insert_ne; [eauto|]. intros ->. by apply (Hnew _ _ H).
  - intros x k' t'. rewrite stack_of_set, lookup_insert_Some. intros [[<- <-]|[Hne H]] Ht'.
    + rewrite decide_True by congruence. left.
    + pose proof (Hthrown _ _ _ H Ht') as Hin. case_decide as E; [|done]. subst t'. right.
      by rewrite (stack_of_Some _ _ _ Hst) in Hin.
  - intros d t' q. rewrite lookup_insert_Some. intros Hd.
    assert (exists th h dest, live σ !! q = Some (Primary th h dest)) as (th & h & dest & Hq').
    { destruct Hd as [[_ ->]|[_ H]]; [by apply Hq | by eapply Hdepd]. }
    exists th, h, dest. rewrite lookup_insert_ne; [done|]. intros ->. by eapply Hnp.
  - intros x th h d. rewrite lookup_insert_Some. intros [[_ ->]|[_ H]]; [|eauto].
    destruct Hk as [(? & [= -> -> ->] & ?)|(? & [=] & _)]. done.
  - intros x th h d. rewrite lookup_insert_Some. intros [[<- ->]|[Hne H]].
    + destruct Hk as [(? & [= -> -> ->] & ?)|(? & [=] & _)].
      assert (dependents (<[e := Primary (Some t) 0 x]> (live σ)) e = 0%nat) as E0.
      { rewrite dependents_thrown by done. by apply (dependents_zero _ _ _ HI). }
      erewrite owners_primary by apply lookup_insert_eq. rewrite E0. unfold INT_MAX. lia.
    + destruct (Howned _ _ _ _ H) as [Ha Hb].
      erewrite owners_primary by by rewrite lookup_insert_ne.
      rewrite (owners_primary _ _ _ _ _ H) in *. rewrite dependents_thrown by done. unfold dep1. case_decide as Hd; [|by split].
      destruct Hk as [(? & -> & _)|(p & -> & _ & Hp)]; [done|]. cbn in Hd. subst p.
      rewrite (owners_primary _ _ _ _ _ H) in Hp. split; [|lia]. intros _. destruct th; lia.
Qed.

(** [e] leaves the stack of its thread. *)
Section Leave.
Context (σ : spec) (t : tid) (st st' : list entry) (e : block).
Context (HI : Inv σ) (Hst : stacks σ !! t = Some st).
Context (Hw : wf st') (Hl : Z.of_nat (length st') <= INT_MAX).
Context (Hids : forall x, x <> e -> x ∈ ids st' <-> x ∈ ids st) (Hgone : e ∉ ids st').

Lemma leave_wf t' l : <[t := st']> (stacks σ) !! t' = Some l -> wf l /\ Z.of_nat (length l) <= INT_MAX.
Proof.
  rewrite lookup_insert_Some. intros [[_ <-]|[_ H]]; [done|].
  split; [by eapply inv_wf | by eapply inv_room].
Qed.

Lemma leave_stack t' l x :
  (exists k, live σ !! e = Some k /\ thrower k = Some t) ->
  <[t := st']> (stacks σ) !! t' = Some l -> x ∈ ids l ->
  x <> e /\ exists k, live σ !! x = Some k /\ thrower k = Some t'.
Proof.
  intros (k & Hk & Ht). rewrite lookup_insert_Some. intros [[<- <-]|[Hne H]] Hx.
  - assert (x <> e) as Hxe by congruence. split; [done|].
    eapply inv_stack; [done..|]. by apply Hids.
  - split; [intros ->|by eapply inv_stack]. destruct Hne.
    by rewrite (stack_owner _ _ _ _ _ _ _ HI Hk Ht H Hx).
Qed.

Lemma leave_thrown x k t' σ1 :
  x <> e -> live σ !! x = Some k -> thrower k = Some t' -> stacks σ1 = stacks σ ->
  x ∈ ids (stack_of t' (set_stack t st' σ1)).
Proof.
  intros Hne Hk Ht Hs. rewrite stack_of_set. pose proof (inv_thrown _ _ HI _ _ _ Hk Ht) as Hin.
  case_decide as E; [|unfold stack_of in *; by rewrite Hs]. subst t'.
  rewrite (stack_of_Some _ _ _ Hst) in Hin. by apply Hids.
Qed.

Lemma leave_primary h d :
  live σ !! e = Some (Primary (Some t) h d) ->
  Inv_but (Some e) (set_stack t st' (set_kind e (Primary None h d) σ)).
Proof.
  intros He. split; cbn.
  - intros t' l H. apply (leave_wf _ _ H).
  - intros t' l H. apply (leave_wf _ _ H).
  - intros t' l x H Hx. destruct (leave_stack _ _ _ ltac:(eauto) H Hx) as (Hne & k & ? & ?).
    exists k. by rewrite lookup_insert_ne.
  - intros x k t'. rewrite lookup_insert_Some. intros [[_ <-]|[Hne H]] Ht'; [done|].
    by eapply leave_thrown.
  - intros x t' q. rewrite lookup_insert_Some. intros [[_ [=]]|[Hne H]].
    destruct (inv_dependent _ _ HI _ _ _ H) as (th & h' & dest & Hq).
    destruct (decide (q = e)) as [->|]; [exists None, h, d; by rewrite lookup_insert_eq|].
    exists th, h', dest. by rewrite lookup_insert_ne.
  - intros x th h' d'. rewrite lookup_insert_Some. intros [[_ [= <- <- <-]]|[_ H]]; by eapply inv_dest.
  - intros x th h' d' Hx. assert (x = e \/ x <> e /\ live σ !! x = Some (Primary th h' d')) as Hcase.
    { rewrite lookup_insert_Some in Hx. destruct Hx as [[<- _]|[? ?]]; auto. }
    destruct Hcase as [->|[Hne H]].
    + split; [done|]. pose proof (inv_owned _ _ HI _ _ _ _ He) as [_ Hb].
      erewrite owners_primary by apply lookup_insert_eq. rewrite (owners_primary _ _ _ _ _ He) in Hb.
      rewrite (dependents_same _ _ _ _ _ He) by done. lia.
    + rewrite owners_insert_other; [|congruence|intros []|intros k0; rewrite He; intros [= <-] []].
      pose proof (inv_owned _ _ HI _ _ _ _ H) as [Ha Hb]. split; [intros _; by apply Ha|done].
Qed.

Lemma leave_dependent p :
  live σ !! e = Some (Dependent t p) -> Inv_but (Some p) (set_stack t st' (forget e σ)).
Proof.
  intros He. split; cbn.
  - intros t' l H. apply (leave_wf _ _ H).
  - intros t' l H. apply (leave_wf _ _ H).
  - intros t' l x H Hx. destruct (leave_stack _ _ _ ltac:(eauto) H Hx) as (Hne & k & ? & ?).
    exists k. by rewrite lookup_delete_ne.
  - intros x k t' [Hne H]%lookup_delete_Some Ht'. by eapply leave_thrown.
  - intros x t' q [Hne H]%lookup_delete_Some.
    destruct (inv_dependent _ _ HI _ _ _ H) as (th & h' & dest & Hq). exists th, h', dest.
    rewrite lookup_delete_ne; [done|]. congruence.
  - intros x th h' d' [_ H]%lookup_delete_Some. by eapply inv_dest.
  - intros x th h' d' Hx. pose proof Hx as [Hne H]%lookup_delete_Some.
    pose proof (inv_owned _ _ HI _ _ _ _ H) as [Ha Hb]. specialize (Ha ltac:(done)).
    rewrite (owners_primary _ _ _ _ _ Hx). rewrite (owners_primary _ _ _ _ _ H) in Ha, Hb.
    rewrite (dependents_delete _ _ _ _ He) in Ha, Hb. split; [|lia].
    intros Hp. rewrite dep1_other in Ha; [done|]. cbn. congruence.
Qed.
End Leave.

Lemma let_go_Inv σ t st st' e :
  Inv σ -> stacks σ !! t = Some st -> wf st' -> Z.of_nat (length st') <= INT_MAX ->
  (forall x, x <> e -> x ∈ ids st' <-> x ∈ ids st) -> e ∉ ids st' ->
  e ∈ ids st -> Inv (let_go e (set_stack t st' σ)).
Proof.
  intros HI Hst Hw Hl Hids Hgone He. destruct (inv_stack _ _ HI _ _ _ Hst He) as (k & Hk & Ht).
  unfold let_go. cbn. rewrite Hk. destruct k as [|th h d|t' p]; [done|..].
  - cbn in Ht. subst th. apply collect_Inv. by apply (leave_primary σ t st st' e).
  - cbn in Ht. injection Ht as ->. apply Inv_note, collect_Inv. by apply (leave_dependent σ t st st' e).
Qed.

Lemma raw_Inv σ e : Inv σ -> live σ !! e = None -> Inv (set_kind e Raw σ).
Proof.
  intros HI He. pose proof HI as [Hwf Hlen Hstack Hthrown Hdepd Hdest Howned]. split; cbn; try done.
  - intros t st x Hst Hx. destruct (Hstack _ _ _ Hst Hx) as (k & Hk & Ht). exists k.
    rewrite lookup_insert_ne; [done|]. congruence.
  - intros x k t. rewrite lookup_insert_Some. intros [[_ <-]|[_ H]]; [done|]. by apply Hthrown.
  - intros x t q. rewrite lookup_insert_Some. intros [[_ [=]]|[_ H]].
    destruct (Hdepd _ _ _ H) as (th & h & d & Hq). exists th, h, d. rewrite lookup_insert_ne; [done|]. congruence.
  - intros x th h d. rewrite lookup_insert_Some. intros [[_ [=]]|[_ H]]. by eapply Hdest.
  - intros x th h d. rewrite lookup_insert_Some. intros [[_ [=]]|[Hne H]].
    rewrite owners_insert_other; [by eapply Howned|done|intros []|intros k; by rewrite He].
Qed.

Lemma forget_raw_Inv σ e : Inv σ -> live σ !! e = Some Raw -> Inv (forget e σ).
Proof.
  intros HI He. pose proof HI as [Hwf Hlen Hstack Hthrown Hdepd Hdest Howned]. split; cbn; try done.
  - intros t st x Hst Hx. destruct (Hstack _ _ _ Hst Hx) as (k & Hk & Ht). exists k.
    rewrite lookup_delete_ne; [done|]. intros ->. rewrite He in Hk. by injection Hk as <-.
  - intros x k t [_ H]%lookup_delete_Some. by apply Hthrown.
  - intros x t q [_ H]%lookup_delete_Some.
    destruct (Hdepd _ _ _ H) as (th & h & d & Hq). exists th, h, d. rewrite lookup_delete_ne; [done|]. congruence.
  - intros x th h d [_ H]%lookup_delete_Some. by eapply Hdest.
  - intros x th h d [Hne H]%lookup_delete_Some.
    rewrite (owners_delete_other _ _ _ _ He); [by eapply Howned|done|intros []].
Qed.

(** Handles of [p] come and go. *)
Lemma handles_Inv σ p th h d h' :
  Inv σ -> live σ !! p = Some (Primary th h d) ->
  Z.of_nat (owners (live σ) p + h' - h) <= INT_MAX ->
  Inv_but (Some p) (set_kind p (Primary th h' d) σ).
Proof.
  intros HI Hp Hb. pose proof HI as [Hwf Hlen Hstack Hthrown Hdepd Hdest Howned]. split; cbn; try done.
  - intros t st x Hst Hx. destruct (Hstack _ _ _ Hst Hx) as (k & Hk & Ht).
    destruct (decide (p = x)) as [->|]; [|exists k; by rewrite lookup_insert_ne].
    exists (Primary th h' d). rewrite lookup_insert_eq. rewrite Hp in Hk. by injection Hk as <-.
  - intros x k t. rewrite lookup_insert_Some. intros [[-> <-]|[_ H]] Ht; [|by eapply Hthrown].
    by apply (Hthrown x _ _ Hp).
  - intros x t q. rewrite lookup_insert_Some. intros [[_ [=]]|[_ H]].
    destruct (Hdepd _ _ _ H) as (th0 & h0 & d0 & Hq).
    destruct (decide (p = q)) as [->|]; [exists th, h', d; by rewrite lookup_insert_eq|].
    exists th0, h0, d0. by rewrite lookup_insert_ne.
  - intros x th0 h0 d0. rewrite lookup_insert_Some. intros [[_ [= <- <- <-]]|[_ H]]; by eapply Hdest.
  - intros x th0 h0 d0. destruct (decide (p = x)) as [<-|Hne].
    + intros _. split; [done|]. erewrite owners_primary by apply lookup_insert_eq.
      rewrite (dependents_same _ _ _ _ _ Hp) by done. rewrite (owners_primary _ _ _ _ _ Hp) in Hb. lia.
    + rewrite lookup_insert_ne by done. intros H. destruct (Howned _ _ _ _ H) as [Ha ?].
      rewrite owners_insert_other; [by split; [intros _; apply Ha|]|done|intros []|].
      intros k. rewrite Hp. intros [= <-] [].
Qed.

Lemma has_handles_Some p σ :
  has_handles p σ = true -> exists th h d, live σ !! p = Some (Primary th (S h) d).
Proof.
  unfold has_handles. destruct (live σ !! p) as [[|th [|h] d|]|]; try done. eauto.
Qed.

(** What [let_go] is about to be told of the stack *)
Lemma end_handler_same st e st' x :
  end_handler st = Some (e, st') -> x <> e -> x ∈ ids st' <-> x ∈ ids st.
Proof. intros E Hne. split; [by eapply end_handler_ids_back | by eapply end_handler_ids]. Qed.

Lemma current_ids st e : current st = Some e -> e ∈ ids st.
Proof. intros H. by apply handling_ids, current_elem. Qed.

Lemma stack_of_current t σ e : current (stack_of t σ) = Some e -> exists st, stacks σ !! t = Some st /\ current st = Some e.
Proof. unfold stack_of. destruct (stacks σ !! t); cbn; eauto. done. Qed.

(** What is being handled is a primary, or stands for one. *)
Lemma primary_of_live σ t st e :
  Inv σ -> stacks σ !! t = Some st -> e ∈ ids st ->
  exists th h d, live σ !! primary_of (live σ) e = Some (Primary th h d).
Proof.
  intros HI Hst He. destruct (inv_stack _ _ HI _ _ _ Hst He) as (k & Hk & Ht).
  unfold primary_of. rewrite Hk. destruct k as [|th h d|t' p]; [done|by rewrite Hk; eauto|].
  by eapply inv_dependent.
Qed.

Lemma add_handle_Inv p σ th h d :
  Inv σ -> live σ !! p = Some (Primary th h d) -> room_for p σ = true -> Inv (add_handle p σ).
Proof.
  intros HI Hp Hr%Z.ltb_lt. unfold add_handle. rewrite Hp.
  pose proof (handles_Inv σ p th h d (S h) HI Hp ltac:(lia)) as [Hwf Hlen Hstack Hthrown Hdepd Hdest Howned].
  split; try done. intros x th0 h0 d0 Hx. destruct (Howned _ _ _ _ Hx) as [Ha Hb]. split; [intros _|done].
  destruct (decide (x = p)) as [->|Hne]; [|apply Ha; congruence].
  rewrite (owners_primary _ _ _ _ _ Hx). cbn in Hx. rewrite lookup_insert_eq in Hx. injection Hx as <- <- <-. lia.
Qed.

Lemma stack_head t σ x : head (stack_of t σ) = Some x -> exists st, stacks σ !! t = Some (x :: st).
Proof. unfold stack_of. destruct (stacks σ !! t) as [[|y st]|]; cbn; try done. intros [= ->]. eauto. Qed.

Lemma next_Inv c r σ : Inv σ -> legal c σ -> answers c r σ -> Inv (next c r σ).
Proof.
  intros HI Hl Ha. destruct c as [t n|t e|t e ti d|t p|t e|t|t|t|p|t p|t]; cbn in Hl, Ha |- *.
  - destruct Ha as (b & -> & Hb). by apply raw_Inv.
  - apply Inv_note, forget_raw_Inv; [done|apply Hl].
  - destruct Hl as (Ht & He & Hr%Z.ltb_lt & Hd). apply push_Inv; eauto.
  - destruct Ha as (b & -> & Hb). destruct Hl as (Ht & Hp & Hr%Z.ltb_lt & Hf%Z.ltb_lt).
    destruct (has_handles_Some _ _ Hp) as (th & h & d & ?). apply push_Inv; eauto.
    right. exists p. split; [done|]. eauto.
  - apply stack_head in Hl as (st & Hst). rewrite (stack_of_Some _ _ _ Hst). cbn [tail].
    pose proof (inv_wf _ _ HI _ _ Hst) as Hw. pose proof (inv_room _ _ HI _ _ Hst).
    apply set_stack_Inv; [done..|]. intros x. rewrite (stack_of_Some _ _ _ Hst). done.
  - destruct Hl as [[e st'] E]. rewrite E. unfold stack_of in E.
    destruct (stacks σ !! t) as [st|] eqn:Hst; [|done]. cbn in E.
    pose proof (end_handler_wf _ _ _ E (inv_wf _ _ HI _ _ Hst)) as Hw.
    assert (Z.of_nat (length st') <= INT_MAX) as Hlen.
    { pose proof (inv_room _ _ HI _ _ Hst). rewrite (end_handler_length _ _ _ E) in *. lia. }
    pose proof (current_ids _ _ (end_handler_current _ _ _ E)) as He.
    case_decide as Hin.
    + apply set_stack_Inv; [done..|]. intros x. rewrite (stack_of_Some _ _ _ Hst).
      destruct (decide (x = e)) as [->|]; [done|]. by apply (end_handler_same _ _ _ _ E).
    + eapply let_go_Inv; [done..| |done|done]. intros x Hx. by apply (end_handler_same _ _ _ _ E).
  - destruct Hl as [Hr%Z.ltb_lt Hc]. destruct (current (stack_of t σ)) as [e|] eqn:E; [|done].
    destruct (stack_of_current _ _ _ E) as (st & Hst & Ec). rewrite (stack_of_Some _ _ _ Hst) in *.
    pose proof (inv_wf _ _ HI _ _ Hst) as Hw.
    apply set_stack_Inv; [done| | |].
    + cbn. split; [done|]. split; [done|by right].
    + cbn [length]. lia.
    + intros x. rewrite (stack_of_Some _ _ _ Hst), ids_cons, elem_of_cons. cbn.
      pose proof (current_ids _ _ E). split; [intros [->|]; done|by right].
  - destruct Hl as [Ht Hc]. destruct (current (stack_of t σ)) as [e|] eqn:E; [|done].
    destruct (stack_of_current _ _ _ E) as (st & Hst & Ec).
    destruct (primary_of_live _ _ _ _ HI Hst (current_ids _ _ Ec)) as (th & h & d & Hp).
    by eapply add_handle_Inv.
  - destruct Hl as [Hp Hr]. destruct (has_handles_Some _ _ Hp) as (th & h & d & ?). by eapply add_handle_Inv.
  - destruct Hl as [_ Hp]. destruct (has_handles_Some _ _ Hp) as (th & h & d & Hp').
    unfold drop_handle. rewrite Hp'. apply collect_Inv.
    pose proof (inv_owned _ _ HI _ _ _ _ Hp') as [_ ?]. apply (handles_Inv _ _ _ (S h)); [done..|]. cbn. lia.
  - done.
Qed.
