(* ===== verification/ExnRefine.v ===== *)
(** * The runtime represents the protocol

    The relation between the runtime's memory and threads and the states of
    [ExnSpec], and rules to run the operations of [Exception] on a memory
    that is known. *)
From S2P Require Import Prelude ExnState ExnHandlers ExnAlloc Exception ExnSpec ExnSpecLemmas.

(** ** Running *)

(** [m] returns, from [s], with a result and a state in [Q]. *)
Definition ok {A} (m : comp runtime A) (s : runtime) (Q : A -> runtime -> Prop) : Prop :=
  match m s with Ok a s' => Q a s' | _ => False end.

Definition put (b : block) (c : contents) (s : runtime) : runtime := set_mem (<[b := c]> (mem s)) s.
Definition with_thread (t : tid) (th : thread) (s : runtime) : runtime :=
  set_infos (<[Some t := th]> (infos s)) s.

Lemma ok_bind {A B} (m : comp runtime A) (f : A -> comp runtime B) s Q :
  ok m s (fun a s' => ok (f a) s' Q) -> ok (m ≫= f) s Q.
Proof. unfold ok, mbind, comp_bind. by destruct (m s). Qed.

Lemma ok_ret {A} (a : A) s (Q : A -> runtime -> Prop) : Q a s -> ok (mret a) s Q.
Proof. done. Qed.

Lemma ok_gets {A} (f : runtime -> A) s (Q : A -> runtime -> Prop) : Q (f s) s -> ok (gets f) s Q.
Proof. done. Qed.

Lemma ok_modify f s (Q : unit -> runtime -> Prop) : Q tt (f s) -> ok (modify f) s Q.
Proof. done. Qed.

Lemma ok_assert b s (Q : unit -> runtime -> Prop) : b = true -> Q tt s -> ok (assert_ b) s Q.
Proof. by intros ->. Qed.

Lemma ok_run {A} (m : comp runtime A) s Q : ok m s Q -> exists a s', m s = Ok a s' /\ Q a s'.
Proof. unfold ok. destruct (m s); [eauto | done..]. Qed.

Lemma ok_mono {A} (m : comp runtime A) s (Q Q' : A -> runtime -> Prop) :
  ok m s Q -> (forall a s', Q a s' -> Q' a s') -> ok m s Q'.
Proof. unfold ok. destruct (m s); auto. Qed.

(** Memory *)
Lemma live_put b c c' s : live_block b s = Some c -> live_block b (put b c' s) = Some c'.
Proof.
  unfold live_block. destruct b; cbn; [by rewrite lookup_insert_eq| |by rewrite lookup_insert_eq].
  destruct (default _ _); [by rewrite lookup_insert_eq|done].
Qed.

Lemma live_put_ne b b' c s : b <> b' -> live_block b' (put b c s) = live_block b' s.
Proof. intros H. unfold live_block. destruct b'; cbn; by rewrite lookup_insert_ne. Qed.

Lemma live_with t th b s : live_block b (with_thread t th s) = live_block b s.
Proof. done. Qed.

Lemma live_mem b s c : live_block b s = Some c -> mem s !! b = Some c.
Proof. unfold live_block. destruct b; [done| |done]. by destruct (default _ _). Qed.

Definition header_fits (c : contents) : Prop := sizeof_cxa_exception <= block_size c.

Lemma offset_in_header f c :
  header_fits c -> ((0 <=? offsetof f) && (offsetof f <? block_size c)) = true.
Proof.
  unfold header_fits. intros H. apply andb_true_iff. rewrite Z.leb_le, Z.ltb_lt.
  change sizeof_cxa_exception with 128 in H. destruct f; cbn; lia.
Qed.

Lemma ok_load b o c s (Q : word -> runtime -> Prop) :
  live_block b s = Some c -> 0 <= o < block_size c -> Q (words c o) s -> ok (load (Ptr b o)) s Q.
Proof.
  intros Hb Ho HQ. unfold ok, load, at_word. rewrite Hb.
  by rewrite (proj2 (Z.leb_le _ _)), (proj2 (Z.ltb_lt _ _)) by lia.
Qed.

Lemma ok_store b o c w s (Q : unit -> runtime -> Prop) :
  live_block b s = Some c -> 0 <= o < block_size c -> Q tt (put b (write o w c) s) ->
  ok (store (Ptr b o) w) s Q.
Proof.
  intros Hb Ho HQ. unfold ok, store, at_word. rewrite Hb.
  by rewrite (proj2 (Z.leb_le _ _)), (proj2 (Z.ltb_lt _ _)) by lia.
Qed.

Lemma ok_get b f c s (Q : word -> runtime -> Prop) :
  live_block b s = Some c -> header_fits c -> Q (words c (offsetof f)) s -> ok (get (Ptr b 0) f) s Q.
Proof.
  intros Hb Hc HQ. unfold get. rewrite decide_False by done. unfold ok, load, at_word. cbn [shift].
  rewrite Z.add_0_l, Hb. by rewrite offset_in_header.
Qed.

Lemma ok_set b f w c s (Q : unit -> runtime -> Prop) :
  live_block b s = Some c -> header_fits c -> Q tt (put b (write (offsetof f) w c) s) ->
  ok (set_ (Ptr b 0) f w) s Q.
Proof.
  intros Hb Hc HQ. unfold set_. rewrite decide_False by done. unfold ok, store, at_word. cbn [shift].
  rewrite Z.add_0_l, Hb. by rewrite offset_in_header.
Qed.

Lemma ok_get_int b f c s n (Q : Z -> runtime -> Prop) :
  live_block b s = Some c -> header_fits c -> words c (offsetof f) = Int n -> Q n s ->
  ok (get_int (Ptr b 0) f) s Q.
Proof. intros Hb Hc Hn HQ. apply ok_bind. eapply ok_get; [done..|]. by rewrite Hn. Qed.

Lemma ok_int z s (Q : Z -> runtime -> Prop) : - 2 ^ 31 <= z <= INT_MAX -> Q z s -> ok (int_ z) s Q.
Proof.
  intros H HQ. unfold int_. by rewrite !(proj2 (Z.leb_le _ _)) by lia.
Qed.

Lemma ok_class_of_header b c cls s (Q : Z -> runtime -> Prop) :
  live_block b s = Some c -> header_fits c -> words c (offsetof unwindHeader) = Int cls -> Q cls s ->
  ok (class_of_header (Ptr b 0)) s Q.
Proof. intros Hb Hc Hn HQ. apply ok_bind. eapply ok_get; [done..|]. by rewrite Hn. Qed.

Lemma ok_class_of b c cls s (Q : Z -> runtime -> Prop) :
  live_block b s = Some c -> header_fits c -> words c (offsetof unwindHeader) = Int cls -> Q cls s ->
  ok (class_of (Ptr b 96)) s Q.
Proof.
  intros Hb Hc Hn HQ. apply ok_bind. change (shift (Ptr b 96) exception_class_) with (Ptr b (offsetof unwindHeader)).
  eapply ok_load; [done| |by rewrite Hn].
  unfold header_fits in Hc. change sizeof_cxa_exception with 128 in Hc. cbn. lia.
Qed.

(** Threads *)
Section Run.
Context {L : Linked}.
Hypothesis pthreads : fakeTLS = false.

Lemma ok_thread_info t th s (Q : option (option tid) -> runtime -> Prop) :
  infos s !! Some t = Some th -> Q (Some (Some t)) s -> ok (thread_info t) s Q.
Proof using pthreads. intros H HQ. unfold ok, thread_info. by rewrite pthreads, H. Qed.

Lemma ok_thread_info_fast t th s (Q : option (option tid) -> runtime -> Prop) :
  infos s !! Some t = Some th -> Q (Some (Some t)) s -> ok (thread_info_fast t) s Q.
Proof using pthreads. intros H HQ. unfold ok, thread_info_fast. by rewrite pthreads, H. Qed.

Lemma ok_read_info t th s (Q : thread -> runtime -> Prop) :
  infos s !! Some t = Some th -> Q th s -> ok (read_info (Some (Some t))) s Q.
Proof. intros H HQ. unfold ok, read_info. by rewrite H. Qed.

Lemma ok_update_info t th f s (Q : unit -> runtime -> Prop) :
  infos s !! Some t = Some th -> Q tt (with_thread t (f th) s) -> ok (update_info (Some (Some t)) f) s Q.
Proof. intros H HQ. apply ok_bind. by eapply ok_read_info. Qed.
End Run.

(** ** The relation *)
Fixpoint chain (nx : block -> word) (w : word) (l : list block) : Prop :=
  match l with
  | [] => w = NULL
  | b :: l => w = Ptr b 0 /\ chain nx (nx b) l
  end.

Lemma chain_ext nx nx' w l :
  (forall b, b ∈ l -> nx' b = nx b) -> chain nx w l -> chain nx' w l.
Proof.
  revert w. induction l as [|b l IH]; intros w H; cbn; [done|]. intros [-> Hc]. split; [done|].
  rewrite H by left. apply IH; [|done]. intros b' ?. apply H. by right.
Qed.

Definition next_of (s : runtime) (b : block) : word :=
  match live_block b s with Some c => words c (offsetof nextException) | None => NULL end.

(** The threads whose stack has [b] *)
Definition count_of (σ : spec) (b : block) (k : kind) : Z :=
  match thrower k with Some t => handler_count b (stack_of t σ) | None => 0 end.

(** The header of an exception; before the throw, there are only zeros in it.
    [lost] is a primary one of whose owners has
    gone, but not yet from its count. *)
Definition describes (lost : option block) (σ : spec) (b : block) (k : kind) (c : contents) : Prop :=
  header_fits c /\
  match k with
  | Raw => forall o, 0 <= o < sizeof_cxa_exception -> words c o = NULL
  | Primary _ _ d =>
      words c (offsetof referenceCount)
        = Int (Z.of_nat (owners (live σ) b) + (if decide (lost = Some b) then 1 else 0)) /\
      words c (offsetof exceptionDestructor) = d /\
      words c (offsetof unwindHeader) = Int exception_class /\
      words c (offsetof handlerCount) = Int (count_of σ b k)
  | Dependent _ p =>
      words c (offsetof primaryException) = Ptr p sizeof_cxa_exception /\
      words c (offsetof unwindHeader) = Int dependent_exception_class /\
      words c (offsetof handlerCount) = Int (count_of σ b k)
  end.

Definition thread_ok (s : runtime) (t : tid) (st : list entry) : Prop :=
  exists th, infos s !! Some t = Some th /\
    foreign_exception_state th = none /\
    uncaughtExceptions th = zlength (flying st) /\
    chain (next_of s) (caughtExceptions th) (caught_list st).

(** What the allocator relies on *)
Record tidy (s : runtime) : Prop := {
  tidy_fresh : forall n, is_Some (mem s !! Heap n) -> (n < clock s)%nat;
  tidy_buffers : length (buffer_allocated s) = EMERGENCY_BUFFERS;
  tidy_zero : forall i, buffer_allocated s !! i = Some false -> mem s !! Emergency i = Some (zeroed EMERGENCY_SIZE);
  tidy_alien : forall n, mem s !! Alien n = None;
  tidy_terminate : g_terminate s <> NULL /\ statics s In_terminate = None;
}.

(** [extra]: blocks about to be freed, forgotten by the specification. *)
Record rel_but (extra : list block) (lost : option block) (s : runtime) (σ : spec) : Prop := {
  rel_threads : forall t st, stacks σ !! t = Some st -> thread_ok s t st;
  rel_blocks : forall b k, live σ !! b = Some k ->
    exists c, live_block b s = Some c /\ describes lost σ b k c;
  rel_dom : forall b c, live_block b s = Some c -> is_Some (live σ !! b) \/ b ∈ extra;
  rel_extra : forall b, b ∈ extra -> is_Some (live_block b s) /\ live σ !! b = None;
  rel_log : trace s = log σ;
  rel_tidy : tidy s;
}.

Abbreviation rel := (rel_but [] None).

(** ** What a change leaves alone *)

(** Everything but thread [t] and block [e] *)
Record kept (t : tid) (e : block) (s s' : runtime) : Prop := {
  kept_infos : forall t', t' <> t -> infos s' !! Some t' = infos s !! Some t';
  kept_blocks : forall b, b <> e -> live_block b s' = live_block b s;
  kept_trace : trace s' = trace s;
  kept_tidy : tidy s -> tidy s';
}.

Lemma kept_refl t e s : kept t e s s.
Proof. by split. Qed.

Lemma kept_trans t e s1 s2 s3 : kept t e s1 s2 -> kept t e s2 s3 -> kept t e s1 s3.
Proof.
  intros [] []. split; auto.
  - intros t' H. by rewrite kept_infos1, kept_infos0.
  - intros b H. by rewrite kept_blocks1, kept_blocks0.
  - congruence.
Qed.

Lemma tidy_put b c c' s : live_block b s = Some c -> tidy s -> tidy (put b c' s).
Proof.
  intros Hb [Hf Hbuf Hz Ha Ht]. split; cbn; try done.
  - intros n. destruct (decide (b = Heap n)) as [->|]; [|by rewrite lookup_insert_ne; auto].
    intros _. apply Hf. by rewrite (live_mem _ _ _ Hb).
  - intros i Hi. rewrite lookup_insert_ne; [by apply Hz|]. intros ->. unfold live_block in Hb.
    by rewrite Hi in Hb.
  - intros n. rewrite lookup_insert_ne; [done|]. intros ->. apply live_mem in Hb. by rewrite Ha in Hb.
Qed.

Lemma kept_put t e c c' s : live_block e s = Some c -> kept t e s (put e c' s).
Proof.
  intros He. split; [done| |done|by eapply tidy_put]. intros b Hb. by apply live_put_ne.
Qed.

Lemma kept_with t e th s : kept t e s (with_thread t th s).
Proof.
  split; cbn; [|done..|by intros []]. intros t' Ht'. apply lookup_insert_ne. congruence.
Qed.

Lemma next_of_kept t e s s' b : kept t e s s' -> b <> e -> next_of s' b = next_of s b.
Proof. intros [] H. unfold next_of. by rewrite kept_blocks0. Qed.

(** A step that touches one thread and one block of a protocol state *)
Lemma rel_step extra lost t e s s' σ σ' :
  rel_but extra lost s σ -> kept t e s s' ->
  log σ' = log σ ->
  (forall t', t' <> t -> stacks σ' !! t' = stacks σ !! t') ->
  (forall b, b <> e -> live σ' !! b = live σ !! b) ->
  (forall b k, b <> e -> live σ !! b = Some k ->
    owners (live σ') b = owners (live σ) b /\ count_of σ' b k = count_of σ b k) ->
  (forall t' st, t' <> t -> stacks σ !! t' = Some st -> e ∉ caught_list st) ->
  (forall st, stacks σ' !! t = Some st -> thread_ok s' t st) ->
  e ∉ extra ->
  (exists k c, live σ' !! e = Some k /\ live_block e s' = Some c /\ describes lost σ' e k c) ->
  rel_but extra lost s' σ'.
Proof.
  intros [Hth Hbl Hdom Hex Hlog Ht] Hk Hlog' Hst Hlive Hown Hother Hthread Hne (k & c & Hke & Hce & Hd). split.
  - intros t' st. destruct (decide (t' = t)) as [->|Hn]; [apply Hthread|].
    rewrite Hst by done. intros H. destruct (Hth _ _ H) as (th & ? & ? & ? & Hc). exists th.
    split_and!; [by rewrite (kept_infos _ _ _ _ Hk)|done..|].
    eapply chain_ext; [|exact Hc]. intros b Hb. eapply next_of_kept; [done|].
    intros ->. by eapply Hother.
  - intros b k'. destruct (decide (b = e)) as [->|Hn]; [rewrite Hke; intros [= <-]; eauto|].
    rewrite Hlive by done. intros H. destruct (Hbl _ _ H) as (c' & Hc' & Hf & Hd'). exists c'.
    rewrite (kept_blocks _ _ _ _ Hk) by done. split; [done|]. split; [done|].
    destruct (Hown _ _ Hn H) as [-> Hcount]. destruct k'; [done|..]; by rewrite Hcount.
  - intros b c'. destruct (decide (b = e)) as [->|Hn]; [rewrite Hke; eauto|].
    rewrite (kept_blocks _ _ _ _ Hk), Hlive by done. apply Hdom.
  - intros b Hb. destruct (Hex _ Hb). rewrite (kept_blocks _ _ _ _ Hk), Hlive by congruence. done.
  - by rewrite (kept_trace _ _ _ _ Hk), Hlog'.
  - by apply (kept_tidy _ _ _ _ Hk).
Qed.

(** A step that touches one block and no thread *)
Lemma rel_block extra lost lost' e c c' s σ σ' k :
  rel_but extra lost s σ -> live_block e s = Some c ->
  words c' (offsetof nextException) = words c (offsetof nextException) ->
  stacks σ' = stacks σ -> log σ' = log σ ->
  (forall b, b <> e -> live σ' !! b = live σ !! b) ->
  (forall b, b <> e -> owners (live σ') b = owners (live σ) b) ->
  (forall b, b <> e -> lost' = Some b <-> lost = Some b) ->
  e ∉ extra -> live σ' !! e = Some k -> describes lost' σ' e k c' ->
  rel_but extra lost' (put e c' s) σ'.
Proof.
  intros [Hth Hbl Hdom Hex Hlog Ht] Hc Hnext Hst Hlog' Hlive Hown Hlost Hne Hke Hd.
  assert (forall b, next_of (put e c' s) b = next_of s b) as Hnx.
  { intros b. unfold next_of. destruct (decide (b = e)) as [->|Hb].
    - by rewrite (live_put _ _ _ _ Hc), Hc.
    - by rewrite live_put_ne. }
  assert (forall b k, count_of σ' b k = count_of σ b k) as Hcount.
  { intros b k'. unfold count_of, stack_of. by rewrite Hst. }
  split.
  - intros t st. rewrite Hst. intros H. destruct (Hth _ _ H) as (th & ? & ? & ? & Hch). exists th.
    split_and!; try done. by eapply chain_ext; [|exact Hch].
  - intros b k'. destruct (decide (b = e)) as [->|Hb].
    + rewrite Hke. intros [= <-]. exists c'. split; [by eapply live_put|done].
    + rewrite Hlive by done. intros H. destruct (Hbl _ _ H) as (c0 & Hc0 & Hf & Hw). exists c0.
      rewrite live_put_ne by done. split; [done|]. split; [done|].
      destruct k'; [done|..]; rewrite Hcount; [|done]. rewrite Hown by done.
      by rewrite (decide_ext (lost' = Some b) (lost = Some b)) by auto.
  - intros b c0. destruct (decide (b = e)) as [->|Hb]; [rewrite Hke; eauto|].
    rewrite live_put_ne, Hlive by done. apply Hdom.
  - intros b Hb. destruct (Hex _ Hb). rewrite live_put_ne, Hlive by congruence. done.
  - by rewrite Hlog'.
  - by eapply tidy_put.
Qed.

Lemma rel_note extra lost v s σ :
  rel_but extra lost s σ -> rel_but extra lost (add_event v s) (note v σ).
Proof. intros [Hth Hbl Hdom Hex Hlog []]. split; [done..| |by split]. cbn. by rewrite Hlog. Qed.

(** The specification forgets a block before it is freed. *)
Lemma rel_forget extra lost lost' e k s σ :
  rel_but extra lost s σ -> live σ !! e = Some k ->
  (forall b, b <> e -> (owners (live σ) b + (if decide (lost = Some b) then 1 else 0)
     = owners (delete e (live σ)) b + (if decide (lost' = Some b) then 1 else 0))%nat) ->
  rel_but (e :: extra) lost' s (forget e σ).
Proof.
  intros [Hth Hbl Hdom Hex Hlog Ht] Hk Hown. split; cbn; try done.
  - intros b k' [Hne H]%lookup_delete_Some. destruct (Hbl _ _ H) as (c & Hc & Hf & Hw).
    exists c. split; [done|]. split; [done|]. destruct k'; [done| |done].
    destruct Hw as (Hw & ?). split; [|done]. rewrite Hw. f_equal.
    specialize (Hown b ltac:(done)). cbn. do 2 case_decide; lia.
  - intros b c Hc. destruct (decide (b = e)) as [->|Hne]; [right; left|].
    rewrite lookup_delete_ne by done. destruct (Hdom _ _ Hc); [by left|by right; right].
  - intros b [->|Hb]%elem_of_cons.
    + rewrite lookup_delete_eq. destruct (Hbl _ _ Hk) as (c & Hc & _). by rewrite Hc.
    + destruct (Hex _ Hb) as [? Hn]. split; [done|]. rewrite lookup_delete_ne; [done|]. intros ->. congruence.
Qed.

(** ** Freeing *)
Definition freed (e : block) (s : runtime) : runtime :=
  add_event (Released e) (match e with
    | Emergency i => set_buffers (<[i := false]> (buffer_allocated s)) (put e (zeroed EMERGENCY_SIZE) s)
    | _ => set_mem (delete e (mem s)) s
    end).

Lemma live_freed e b s :
  is_Some (live_block e s) -> live_block b (freed e s) = if decide (b = e) then None else live_block b s.
Proof.
  intros [c Hc]. unfold live_block, freed.
  destruct (decide (b = e)) as [->|Hne]; destruct e as [n|i|n]; cbn; try apply lookup_delete_eq.
  - cbn in Hc. destruct (buffer_allocated s !! i) eqn:E; [|done].
    rewrite list_lookup_insert_eq; [done|]. by eapply lookup_lt_Some.
  - destruct b; cbn; by rewrite lookup_delete_ne.
  - destruct b as [m|j|m]; cbn; rewrite ?lookup_insert_ne by done; try done.
    by rewrite list_lookup_insert_ne by congruence.
  - destruct b; cbn; by rewrite lookup_delete_ne.
Qed.

Lemma tidy_freed e s : is_Some (live_block e s) -> tidy s -> tidy (freed e s).
Proof.
  intros [c Hc] [Hf Hbuf Hz Ha Ht]. unfold freed. destruct e as [n|i|n]; cbn in Hc.
  - split; cbn; try done.
    + intros m [? [_ H]%lookup_delete_Some]. eauto.
    + intros j Hj. rewrite lookup_delete_ne by done. auto.
    + intros m. rewrite lookup_delete_ne by done. auto.
  - split; cbn; try done.
    + intros m. rewrite lookup_insert_ne by done. auto.
    + by rewrite length_insert.
    + intros j. destruct (decide (i = j)) as [->|Hne]; [by rewrite lookup_insert_eq|].
      rewrite list_lookup_insert_ne, lookup_insert_ne by congruence. auto.
    + intros m. by rewrite lookup_insert_ne.
  - by rewrite Ha in Hc.
Qed.

Lemma ok_free_exception e s (Q : unit -> runtime -> Prop) :
  is_Some (live_block e s) -> tidy s -> Q tt (freed e s) -> ok (free_exception (Ptr e 0)) s Q.
Proof.
  intros [c Hc] Ht HQ. unfold ok, free_exception, freed in *. destruct e as [n|i|n]; cbn in *.
  - unfold mbind, comp_bind, free. by rewrite Hc.
  - exact HQ.
  - by rewrite (tidy_alien _ Ht) in Hc.
Qed.

Lemma rel_freed extra lost e s σ :
  rel_but (e :: extra) lost s σ -> e ∉ extra ->
  (forall t st, stacks σ !! t = Some st -> e ∉ caught_list st) ->
  rel_but extra lost (freed e s) (note (Released e) σ).
Proof.
  intros [Hth Hbl Hdom Hex Hlog Ht] Hne Hcaught.
  destruct (Hex e ltac:(by left)) as [Hlive Hnone].
  assert (forall b, b <> e -> live_block b (freed e s) = live_block b s) as Hsame.
  { intros b Hb. rewrite live_freed by done. by rewrite decide_False. }
  split; cbn [stacks live log note].
  - intros t st H. destruct (Hth _ _ H) as (th & Hi & ? & ? & Hc). exists th.
    split_and!; [by destruct e|done..|]. eapply chain_ext; [|exact Hc]. intros b Hb.
    unfold next_of. rewrite Hsame; [done|]. intros ->. by eapply Hcaught.
  - intros b k H. rewrite Hsame by congruence. by apply Hbl.
  - intros b c. rewrite live_freed by done. case_decide; [done|]. intros Hc.
    destruct (Hdom _ _ Hc) as [?|[?|?]%elem_of_cons]; [by left|done|by right].
  - intros b Hb. rewrite Hsame by congruence. apply Hex. by right.
  - destruct e; cbn; by rewrite Hlog.
  - by apply tidy_freed.
Qed.
