(* ===== verification/ExnSim.v ===== *)
(** * Each call does what the protocol says

    One lemma per function of [Exception] and [ExnAlloc]: run on a memory
    that represents a protocol state, it ends in one that represents the next
    state. *)
From S2P Require Import Prelude ExnState ExnHandlers ExnAlloc Exception ExnSpec ExnSpecLemmas ExnRefine.

(** ** Headers of exceptions on a stack *)
Lemma rel_thrown extra lost s σ p t st e :
  rel_but extra lost s σ -> Inv_but p σ -> stacks σ !! t = Some st -> e ∈ ids st ->
  exists k c cls, live σ !! e = Some k /\ thrower k = Some t /\ live_block e s = Some c /\
    describes lost σ e k c /\ header_fits c /\
    words c (offsetof unwindHeader) = Int cls /\ isCXXException cls = true /\
    words c (offsetof handlerCount) = Int (handler_count e st).
Proof.
  intros Hr HI Hst He. destruct (inv_stack _ _ HI _ _ _ Hst He) as (k & Hk & Ht).
  destruct (rel_blocks _ _ _ _ Hr _ _ Hk) as (c & Hc & Hd). pose proof Hd as [Hf Hw].
  assert (count_of σ e k = handler_count e st) as Hcount.
  { unfold count_of. by rewrite Ht, (stack_of_Some _ _ _ Hst). }
  destruct k as [|th h d|t' q]; [done|..]; rewrite <- Hcount.
  - destruct Hw as (_ & _ & Hcls & Hn). by exists (Primary th h d), c, exception_class.
  - destruct Hw as (_ & Hcls & Hn). by exists (Dependent t' q), c, dependent_exception_class.
Qed.

Lemma describes_count lost σ σ' b k c n :
  describes lost σ b k c -> is_Some (thrower k) -> owners (live σ') b = owners (live σ) b ->
  count_of σ' b k = n -> describes lost σ' b k (write (offsetof handlerCount) (Int n) c).
Proof.
  intros [Hf Hw] [t Ht] Ho Hn. split; [done|].
  destruct k as [|th h d|t' q]; [done|..]; cbn in *; rewrite ?Ho, <- Hn; tauto.
Qed.

(** The fields the relation does not mention *)
Definition not_counted (f : field) : bool :=
  match f with
  | exceptionType | unexpectedHandler_ | terminateHandler_ | nextException | handlerSwitchValue
  | actionRecord | languageSpecificData | catchTemp | adjustedPtr => true
  | _ => false
  end.

Lemma describes_write lost σ b k c f w :
  describes lost σ b k c -> is_Some (thrower k) ->
  not_counted f = true ->
  describes lost σ b k (write (offsetof f) w c).
Proof.
  intros [Hf Hw] [t Ht] Hin. split; [done|]. by destruct k as [|th h d|t' q]; [done|..]; destruct f.
Qed.

Lemma describes_frame lost σ σ' b k c :
  describes lost σ b k c -> owners (live σ') b = owners (live σ) b -> count_of σ' b k = count_of σ b k ->
  describes lost σ' b k c.
Proof. intros [Hf Hw] Ho Hn. split; [done|]. by destruct k; rewrite ?Ho, ?Hn. Qed.

Lemma not_elsewhere p σ t st e :
  Inv_but p σ -> stacks σ !! t = Some st -> e ∈ ids st ->
  forall t' st', t' <> t -> stacks σ !! t' = Some st' -> e ∉ caught_list st'.
Proof.
  intros HI Hst He t' st' Hne Hst' Hin%caught_list_elem%handling_ids.
  destruct (inv_stack _ _ HI _ _ _ Hst He) as (k & Hk & Ht).
  by apply Hne, (stack_owner _ _ _ _ _ _ _ HI Hk Ht Hst').
Qed.

Lemma flying_length st : zlength (flying st) <= Z.of_nat (length st).
Proof.
  unfold zlength. induction st as [|[e|e] st IH]; cbn; [done|..]; unfold flying in *; cbn; lia.
Qed.

Lemma uint_small z : 0 <= z <= INT_MAX -> uint_ z = z.
Proof. intros H. apply Z.mod_small. unfold INT_MAX in H. lia. Qed.

Lemma isCXX_dependent cls : isCXXException cls = true -> isDependentException cls = false -> cls = exception_class.
Proof. unfold isCXXException, isDependentException. intros [H|H]%orb_true_iff E; [by apply Z.eqb_eq|congruence]. Qed.

Lemma next_of_put e c s : is_Some (live_block e s) -> next_of (put e c s) e = words c (offsetof nextException).
Proof. intros [c0 H]. unfold next_of. by rewrite (live_put _ _ _ _ H). Qed.

Lemma next_of_put_ne e e' c s : e <> e' -> next_of (put e c s) e' = next_of s e'.
Proof. intros H. unfold next_of. by rewrite live_put_ne. Qed.

(** The head of the list of caught exceptions is the current one. *)
Lemma chain_head nx w st : wf st -> chain nx w (caught_list st) ->
  w = (match current st with Some e => Ptr e 0 | None => NULL end).
Proof.
  intros Hw. rewrite <- (caught_list_head _ Hw). destruct (caught_list st); cbn; [done|by intros [-> _]].
Qed.

(** A new order of a thread's stack changes only the counts of [e]. *)
Lemma rel_restack t e st st' s s' σ :
  rel s σ -> Inv σ -> stacks σ !! t = Some st -> e ∈ ids st -> kept t e s s' ->
  (forall b, b <> e -> handler_count b st' = handler_count b st) ->
  thread_ok s' t st' ->
  (forall k c, live σ !! e = Some k -> live_block e s = Some c -> describes None σ e k c ->
     exists c', live_block e s' = Some c' /\ describes None (set_stack t st' σ) e k c') ->
  rel s' (set_stack t st' σ).
Proof.
  intros Hr HI Hst He Hk Hcount Hth Hd.
  eapply (rel_step _ _ t e); [exact Hr|exact Hk|done|..].
  - intros t' Ht'. cbn. apply lookup_insert_ne. congruence.
  - done.
  - intros b k Hb Hlb. split; [done|]. unfold count_of. destruct (thrower k) as [t'|]; [|done].
    rewrite stack_of_set. case_decide; [|done]. subst t'. rewrite (stack_of_Some _ _ _ Hst). auto.
  - exact (not_elsewhere _ _ _ _ _ HI Hst He).
  - intros st0. cbn. rewrite lookup_insert_eq. by intros [= <-].
  - apply not_elem_of_nil.
  - destruct (rel_thrown _ _ _ _ _ _ _ _ Hr HI Hst He) as (k & c & _ & Hlk & _ & Hlc & Hdc & _).
    destruct (Hd _ _ Hlk Hlc Hdc) as (c' & ? & ?). by exists k, c'.
Qed.

Lemma count_of_set t st σ b k : thrower k = Some t -> count_of (set_stack t st σ) b k = handler_count b st.
Proof. intros H. unfold count_of. by rewrite H, stack_of_set, decide_True. Qed.

(** The header of [e] has its new handler count, and its thread the new list. *)
Lemma rel_recount t e st st' s s' σ c c1 th :
  rel s σ -> Inv σ -> stacks σ !! t = Some st -> live_block e s = Some c -> e ∈ ids st ->
  kept t e s s' -> (forall b, b <> e -> handler_count b st' = handler_count b st) ->
  c1 = c \/ (exists w, c1 = write (offsetof nextException) w c) ->
  live_block e s' = Some (write (offsetof handlerCount) (Int (handler_count e st')) c1) ->
  infos s' !! Some t = Some th -> foreign_exception_state th = none ->
  uncaughtExceptions th = zlength (flying st') ->
  chain (next_of s') (caughtExceptions th) (caught_list st') ->
  rel s' (set_stack t st' σ).
Proof.
  intros Hr HI Hst Hc He Hk Hcount Hc1 Hl Hi Hf Hu Hch.
  destruct (rel_thrown _ _ _ _ _ _ _ _ Hr HI Hst He) as (k & _ & _ & Hlk & Ht & _).
  eapply rel_restack; [done..|by exists th|].
  intros k' c' Hk' Hc' Hd. assert (k' = k) as -> by congruence. assert (c' = c) as -> by congruence.
  eexists. split; [exact Hl|]. apply (describes_count _ σ); [|by exists t|done|by rewrite count_of_set].
  destruct Hc1 as [->|[w ->]]; [done|]. apply describes_write; [done|by exists t|done].
Qed.

Lemma rel_not_extra extra lost s σ b k : rel_but extra lost s σ -> live σ !! b = Some k -> b ∉ extra.
Proof. intros Hr Hk Hb. destruct (rel_extra _ _ _ _ Hr _ Hb). congruence. Qed.

(** An exception nobody owns is on no list. *)
Lemma unowned_not_caught p σ th h d :
  Inv_but (Some p) σ -> live σ !! p = Some (Primary th h d) -> owners (live σ) p = 0%nat ->
  forall t st, stacks σ !! t = Some st -> p ∉ caught_list st.
Proof.
  intros HI Hp Ho t st Hst Hin%caught_list_elem%handling_ids.
  destruct (inv_stack _ _ HI _ _ _ Hst Hin) as (k & Hk & Ht).
  rewrite Hp in Hk. injection Hk as <-. cbn in Ht. subst th.
  rewrite (owners_primary _ _ _ _ _ Hp) in Ho. lia.
Qed.

Section Sim.
Context {L : Linked}.
Hypothesis pthreads : fakeTLS = false.
Hypothesis destructors_return : forall f, destructor_throws f = false.

Lemma add_reference_ok p c n d s (Q : Z -> runtime -> Prop) :
  live_block p s = Some c -> header_fits c -> words c (offsetof referenceCount) = Int n ->
  0 <= n + d < SIZE_MOD ->
  Q (n + d) (put p (write (offsetof referenceCount) (Int (n + d)) c) s) ->
  ok (add_reference (Ptr p 0) d) s Q.
Proof.
  intros Hc Hf Hn Hb HQ. apply ok_bind. eapply ok_get_int; [done..|].
  rewrite size_t_small by done. apply ok_bind. by eapply ok_set.
Qed.

(** The destructor runs, and the memory goes. *)
Lemma free_exception_ok extra lost p d t s σ c :
  rel_but (p :: extra) lost s σ -> p ∉ extra -> (forall t st, stacks σ !! t = Some st -> p ∉ caught_list st) ->
  live_block p s = Some c -> header_fits c -> words c (offsetof exceptionDestructor) = d ->
  (d = NULL \/ exists f, d = Fn f) ->
  ok (__cxa_free_exception t (Ptr p sizeof_cxa_exception)) s (fun _ s' =>
    rel_but extra lost s' (Spec (stacks σ) (live σ) (Released p :: destroy_event d p ++ log σ))).
Proof using destructors_return.
  intros Hr Hex Hcaught Hc Hf Hd Hdest. unfold __cxa_free_exception.
  change (shift (Ptr p sizeof_cxa_exception) (- sizeof_cxa_exception)) with (Ptr p 0). cbv zeta.
  apply ok_bind. eapply ok_get; [done..|]. rewrite Hd. apply ok_bind.
  destruct Hdest as [->|[f ->]].
  - rewrite decide_True by done. apply ok_ret. apply ok_free_exception; [by eexists|by eapply rel_tidy|].
    by apply (rel_freed _ _ _ _ σ).
  - rewrite decide_False by done. cbn [destroy]. apply ok_bind, ok_modify. rewrite destructors_return. apply ok_ret.
    apply (rel_note _ _ (Destroyed f (Ptr p sizeof_cxa_exception))) in Hr.
    apply ok_free_exception; [by eexists|by eapply rel_tidy|]. by apply (rel_freed _ _ _ _ _ Hr).
Qed.

(** One owner of a primary exception less *)
Lemma release_primary_ok extra fuel t p th h d s σ :
  rel_but extra (Some p) s σ -> Inv_but (Some p) σ -> live σ !! p = Some (Primary th h d) ->
  ok (release (S fuel) t (Ptr p 0)) s (fun _ s' => rel_but extra None s' (collect p σ)).
Proof using destructors_return.
  intros Hr HI Hp. destruct (rel_blocks _ _ _ _ Hr _ _ Hp) as (c & Hc & Hd).
  pose proof Hd as (Hf & Href & Hdest & Hcls & Hcount). rewrite decide_True in Href by done.
  pose proof (inv_owned _ _ HI _ _ _ _ Hp) as [_ Hb]. pose proof (rel_not_extra _ _ _ _ _ _ Hr Hp) as Hex.
  cbn [release]. apply ok_bind. eapply ok_class_of_header; [done..|].
  change (isDependentException exception_class) with false. cbv iota.
  set (n := Z.of_nat (owners (live σ) p)) in *.
  apply ok_bind. eapply add_reference_ok; [done..| |]; replace (n + 1 + -1) with n by lia.
  { unfold SIZE_MOD, INT_MAX in *. lia. }
  assert (rel_but extra None (put p (write (offsetof referenceCount) (Int n) c) s) σ) as Hr'.
  { eapply (rel_block _ _ _ _ _ _ _ σ σ); try done.
    - intros b Hne. split; congruence.
    - split; [done|]. split_and!; try done. rewrite decide_False by done. cbn. by rewrite Z.add_0_r. }
  unfold collect. rewrite Hp. destruct (Nat.eqb_spec (owners (live σ) p) 0) as [H0|H0].
  - replace n with 0 in * by lia. cbn [Z.eqb].
    change (shift (Ptr p 0) sizeof_cxa_exception) with (Ptr p sizeof_cxa_exception).
    eapply (free_exception_ok extra None p d t _ (forget p σ));
      [|done|exact (unowned_not_caught _ _ _ _ _ HI Hp H0)|by eapply live_put|done|done|by eapply inv_dest].
    eapply (rel_forget extra None None p _ _ σ); [done|exact Hp|]. intros b Hne. rewrite decide_False by done.
    rewrite (owners_delete_other _ _ _ _ Hp) by (done || intros []). done.
  - rewrite (proj2 (Z.eqb_neq _ _)) by lia. by apply ok_ret.
Qed.

(** An owner of [e] goes, its count to follow. *)
Lemma rel_rekind extra e th h d th' h' s σ :
  rel_but extra None s σ -> live σ !! e = Some (Primary th h d) ->
  (owners (live σ) e = S (owners (<[e := Primary th' h' d]> (live σ)) e))%nat ->
  count_of σ e (Primary th h d) = count_of σ e (Primary th' h' d) ->
  rel_but extra (Some e) s (set_kind e (Primary th' h' d) σ).
Proof.
  intros Hr He Hown Hcount. pose proof Hr as [Hth Hbl Hdom Hex Hlog Ht]. split; cbn; try done.
  - intros b k. rewrite lookup_insert_Some. intros [[<- <-]|[Hne H]].
    + destruct (Hbl _ _ He) as (c & Hc & Hf & Href & Hd & Hcls & Hn). exists c. split; [done|]. split; [done|].
      split_and!; [|done..|by rewrite Hn, Hcount].
      rewrite Href, decide_False, decide_True by done. f_equal. cbn [set_kind live]. lia.
    + destruct (Hbl _ _ H) as (c & Hc & Hf & Hw). exists c. split; [done|]. split; [done|].
      destruct k; [done| |done]. destruct Hw as (Hw & ?). split; [|done]. rewrite Hw. cbn [set_kind live].
      rewrite !decide_False by congruence. rewrite owners_insert_other; [done..|intros []|].
      rewrite He. intros ? [= <-] [].
  - intros b c Hc. destruct (Hdom _ _ Hc) as [?|?]; [left|by right].
    destruct (decide (e = b)) as [->|]; [by rewrite lookup_insert_eq; eauto|by rewrite lookup_insert_ne].
  - intros b Hb. destruct (Hex _ Hb). split; [done|]. rewrite lookup_insert_ne; [done|]. congruence.
Qed.

Lemma collect_other p q σ : live σ !! q = None -> live (collect p σ) !! q = None.
Proof.
  intros H. unfold collect. destruct (live σ !! p) as [[]|]; try done.
  case_match; [|done]. cbn. rewrite lookup_delete_None. by right.
Qed.

Lemma stacks_collect p σ : stacks (collect p σ) = stacks σ.
Proof. unfold collect. destruct (live σ !! p) as [[]|]; try done. by case_match. Qed.

Lemma let_go_ok t e k s σ :
  rel s σ -> live σ !! e = Some k -> is_Some (thrower k) -> count_of σ e k = 0 ->
  match k with
  | Raw => False
  | Primary _ h d => Inv_but (Some e) (set_kind e (Primary None h d) σ)
  | Dependent _ p => Inv_but (Some p) (forget e σ) /\
      exists th h d, live σ !! p = Some (Primary th h d)
  end ->
  (forall t' st, stacks σ !! t' = Some st -> e ∉ caught_list st) ->
  ok (releaseException t (Ptr e 0)) s (fun _ s' => rel s' (let_go e σ)).
Proof using destructors_return.
  intros Hr He [t0 Hth] Hcount HI Hcaught. unfold releaseException, let_go. rewrite He.
  destruct k as [|th h d|t' p]; [done|..].
  - cbn in Hth. subst th.
    eapply release_primary_ok; [|exact HI|apply lookup_insert_eq].
    apply (rel_rekind _ _ (Some t0) h d None h); [done..| |by rewrite Hcount].
    rewrite (owners_primary _ _ _ _ _ He). erewrite (owners_primary (<[_ := _]> _)) by apply lookup_insert_eq.
    by rewrite (dependents_same _ _ _ _ _ He).
  - destruct HI as [HI (th & h & d & Hp)].
    destruct (rel_blocks _ _ _ _ Hr _ _ He) as (c & Hc & Hf & Hprim & Hcls & _).
    assert (e <> p) as Hne by congruence.
    assert (rel_but [e] (Some p) s (forget e σ)) as Hr1.
    { apply (rel_forget _ None _ _ _ _ _ Hr He). intros b Hb. rewrite decide_False by done.
      destruct (live σ !! b) as [[|th' h' d'|]|] eqn:Eb;
        try (unfold owners; rewrite lookup_delete_ne, Eb by done; rewrite decide_False by congruence; done).
      rewrite (owners_primary _ _ _ _ _ Eb).
      erewrite (owners_primary (delete _ _)) by by rewrite lookup_delete_ne.
      rewrite (dependents_delete _ _ _ _ He). unfold dep1. cbn.
      destruct (decide (p = b)), (decide (Some p = Some b)); (congruence || lia). }
    set (fuel := size (mem s)). cbn [release]. apply ok_bind. eapply ok_class_of_header; [done..|].
    change (isDependentException dependent_exception_class) with true. cbv iota. unfold free_dependent.
    change (shift (shift (Ptr e 0) sizeof_cxa_exception) (- sizeof_cxa_exception)) with (Ptr e 0). cbv zeta.
    apply ok_bind. eapply ok_class_of_header; [done..|]. apply ok_bind, ok_assert; [done|].
    apply ok_bind. eapply ok_get; [done..|]. rewrite Hprim. apply ok_bind.
    rewrite decide_False by done. apply ok_bind. unfold realExceptionFromException.
    apply ok_bind. eapply ok_class_of_header; [done..|].
    change (negb (isDependentException dependent_exception_class)) with false. cbv iota.
    apply ok_bind. eapply ok_get; [done..|]. rewrite Hprim. apply ok_ret.
    change (shift (Ptr p sizeof_cxa_exception) (- sizeof_cxa_exception)) with (Ptr p 0).
    eapply ok_mono; [eapply release_primary_ok; [exact Hr1|exact HI|by cbn; rewrite lookup_delete_ne]|].
    intros u s1 Hr2; cbn beta in Hr2. apply ok_free_exception; [|by eapply rel_tidy|].
    + eapply rel_extra; [exact Hr2|]. by apply list_elem_of_singleton.
    + apply rel_freed; [done|by apply not_elem_of_nil|]. intros t1 st1. rewrite stacks_collect. apply Hcaught.
Qed.

(** The chain once a block not on it has been put in front *)
Lemma begin_chain t e st c c1 n th1 th2 th3 s w :
  live_block e s = Some c -> e ∉ handling st -> chain (next_of s) w (caught_list st) ->
  c1 = write (offsetof nextException) w c ->
  chain (next_of (with_thread t th3 (put e (write (offsetof handlerCount) n c1)
    (with_thread t th2 (put e c1 (with_thread t th1 s)))))) (Ptr e 0) (caught_list (Handling e :: st)).
Proof.
  intros Hc Hin Hchain ->. cbn [caught_list]. rewrite decide_False by done. split; [done|].
  assert (forall th' s' b, next_of (with_thread t th' s') b = next_of s' b) as Hnw by done.
  rewrite Hnw, next_of_put by (eexists; by eapply live_put). cbn.
  eapply chain_ext; [|exact Hchain]. intros b Hb%caught_list_elem.
  assert (e <> b) as Hne by congruence. by rewrite Hnw, next_of_put_ne, Hnw, next_of_put_ne.
Qed.

Lemma begin_catch_ok t e st s σ :
  rel s σ -> Inv σ -> stacks σ !! t = Some (Flying e :: st) ->
  ok (__cxa_begin_catch t (Ptr e 96)) s (fun _ s' => rel s' (set_stack t (Handling e :: st) σ)).
Proof using pthreads.
  intros Hr HI Hst. pose proof (inv_wf _ _ HI _ _ Hst) as (Hw & Hnf & _). cbn [id_of] in Hnf.
  assert (e ∈ ids (Flying e :: st)) as He by left.
  destruct (rel_thrown _ _ _ _ _ _ _ _ Hr HI Hst He) as (k & c & cls & Hk & Ht & Hc & Hd & Hf & Hcls & Hcxx & Hn).
  destruct (rel_threads _ _ _ _ Hr _ _ Hst) as (th & Hth & Hforeign & Hunc & Hchain). cbn [caught_list] in Hchain.
  assert (uint_ (uncaughtExceptions th - 1) = zlength (flying st)) as Hu.
  { rewrite Hunc. change (flying (Flying e :: st)) with (e :: flying st). rewrite zlength_cons.
    pose proof (flying_length st). pose proof (inv_room _ _ HI _ _ Hst) as Hroom. cbn in Hroom.
    replace (1 + zlength (flying st) - 1) with (zlength (flying st)) by lia.
    apply uint_small. split; [done|lia]. }
  rewrite handler_count_flying in Hn by done.
  pose proof (inv_room _ _ HI _ _ Hst) as Hroom. cbn [length] in Hroom.
  pose proof (activations_le e st) as Hal.
  assert (handler_count e st = Z.of_nat (activations e st)) as Hact by (unfold handler_count; by rewrite decide_False).
  unfold __cxa_begin_catch. apply ok_bind. eapply ok_thread_info; [done..|]. apply ok_bind.
  eapply ok_class_of; [done..|]. rewrite Hcxx. apply ok_bind. eapply ok_update_info; [done|].
  change (exceptionFromPointer (Ptr e 96)) with (Ptr e 0). cbv zeta. apply ok_bind.
  eapply ok_get_int; [exact Hc|done..|]. apply ok_bind. set (th1 := set_uncaught _ th).
  assert (forall b, b <> e -> handler_count b (Handling e :: st) = handler_count b (Flying e :: st)) as Hothers.
  { intros b Hb. by rewrite !handler_count_cons by (cbn; congruence). }
  destruct (decide (e ∈ handling st)) as [Hin|Hin].
  - pose proof (activations_pos _ _ Hin).
    rewrite (proj2 (Z.eqb_neq _ _)) by lia. apply ok_ret. apply ok_bind.
    rewrite (proj2 (Z.ltb_lt _ _)) by lia. apply ok_bind. apply ok_int; [lia|].
    eapply ok_set; [exact Hc|done|]. apply ok_bind.
    eapply ok_update_info; [cbn; by rewrite lookup_insert_eq|].
    eapply ok_get; [by eapply live_put|done|].
    replace (- - handler_count e st + 1) with (handler_count e (Handling e :: st))
      by (rewrite handler_count_handling by done; lia).
    eapply (rel_recount t e _ _ s); [done..| |exact Hothers|by left|by eapply live_put|apply lookup_insert_eq|done|done|].
    + eapply kept_trans; [apply kept_with|]. eapply kept_trans; [by apply (kept_put t e c)|apply kept_with].
    + cbn [caught_list]. rewrite decide_True by done. eapply chain_ext; [|exact Hchain].
      intros b Hb. change (next_of (with_thread t (set_foreign none th1) ?s1) b) with (next_of s1 b).
      destruct (decide (b = e)) as [->|Hne]; [|by rewrite next_of_put_ne].
      rewrite next_of_put by by exists c. unfold next_of. by rewrite Hc.
  - rewrite handler_count_none in Hn by done. rewrite handler_count_none by done. cbn [Z.opp Z.eqb].
    apply ok_bind. eapply ok_read_info; [apply lookup_insert_eq|].
    apply ok_bind. eapply ok_set; [exact Hc|done|].
    eapply ok_update_info; [apply lookup_insert_eq|]. apply ok_bind. cbn [Z.ltb Z.compare].
    apply ok_bind. apply ok_int; [by vm_compute|]. eapply ok_set; [by eapply live_put|done|].
    apply ok_bind. eapply ok_update_info; [apply lookup_insert_eq|].
    eapply ok_get; [eapply live_put; by eapply live_put|done|].
    replace (- 0 + 1) with (handler_count e (Handling e :: st))
      by (rewrite handler_count_handling by done; by rewrite handler_count_none).
    eapply (rel_recount t e _ _ s); [done..| |exact Hothers|right; by exists (caughtExceptions th)|eapply live_put; by eapply live_put|apply lookup_insert_eq|done|done|].
    + eapply kept_trans; [apply kept_with|]. eapply kept_trans; [by apply (kept_put t e c)|].
      eapply kept_trans; [apply kept_with|]. eapply kept_trans; [|apply kept_with].
      eapply kept_put. by eapply live_put.
    + by eapply begin_chain.
Qed.

(** The exception has left the last stack it was on. *)
Lemma let_go_after t st st' e s σ :
  rel s (set_stack t st' σ) -> Inv σ -> stacks σ !! t = Some st -> end_handler st = Some (e, st') ->
  e ∉ ids st' ->
  ok (releaseException t (Ptr e 0)) s (fun _ s' => rel s' (let_go e (set_stack t st' σ))).
Proof using destructors_return.
  intros Hr HI Hst E Hgone.
  pose proof (end_handler_wf _ _ _ E (inv_wf _ _ HI _ _ Hst)) as Hw.
  assert (Z.of_nat (length st') <= INT_MAX) as Hlen.
  { pose proof (inv_room _ _ HI _ _ Hst). rewrite (end_handler_length _ _ _ E) in *. lia. }
  pose proof (current_ids _ _ (end_handler_current _ _ _ E)) as He.
  assert (forall x, x <> e -> x ∈ ids st' <-> x ∈ ids st) as Hids by (intros x; by apply end_handler_same).
  destruct (inv_stack _ _ HI _ _ _ Hst He) as (k & Hk & Ht).
  eapply let_go_ok; [exact Hr|exact Hk|by exists t| | |].
  - rewrite count_of_set by done. apply handler_count_none. intros H. by apply Hgone, handling_ids.
  - destruct k as [|th h d|t' p]; [done|..]; cbn in Ht; simplify_eq.
    + by apply (leave_primary σ t st st' e HI Hst Hw Hlen Hids Hgone).
    + split; [by apply (leave_dependent σ t st st' e HI Hst Hw Hlen Hids Hgone)|].
      exact (inv_dependent _ _ HI _ _ _ Hk).
  - intros t' l. cbn. rewrite lookup_insert_Some. intros [[<- <-]|[Hne H]].
    + rewrite caught_list_elem. intros H. by apply Hgone, handling_ids.
    + by apply (not_elsewhere _ _ _ _ _ HI Hst He t').
Qed.

Lemma end_catch_ok t st e st' s σ :
  rel s σ -> Inv σ -> stacks σ !! t = Some st -> end_handler st = Some (e, st') ->
  ok (__cxa_end_catch t) s (fun _ s' => rel s'
    (if decide (e ∈ ids st') then set_stack t st' σ else let_go e (set_stack t st' σ))).
Proof using pthreads destructors_return.
  intros Hr HI Hst E. pose proof (inv_wf _ _ HI _ _ Hst) as Hw.
  pose proof (current_ids _ _ (end_handler_current _ _ _ E)) as He.
  destruct (rel_thrown _ _ _ _ _ _ _ _ Hr HI Hst He) as (k & c & cls & Hk & Ht & Hc & Hd & Hf & _ & _ & Hn).
  destruct (rel_threads _ _ _ _ Hr _ _ Hst) as (th & Hth & Hforeign & Hunc & Hchain).
  pose proof (chain_head _ _ _ Hw Hchain) as Hhead. rewrite (end_handler_current _ _ _ E) in Hhead.
  pose proof (end_handler_count _ _ _ E Hw) as Hcount.
  pose proof (end_handler_gone _ _ _ E) as Hgone.
  pose proof (handler_count_bound e st') as Hb. pose proof (inv_room _ _ HI _ _ Hst) as Hroom.
  rewrite (end_handler_length _ _ _ E) in Hroom.
  rewrite (end_handler_caught _ _ _ E) in Hchain.
  unfold __cxa_end_catch. apply ok_bind. eapply ok_thread_info_fast; [done..|]. apply ok_bind.
  eapply ok_read_info; [done|]. rewrite Hhead, Hforeign. cbv zeta. apply ok_bind, ok_assert; [done|].
  apply ok_bind. eapply ok_get_int; [done..|]. rewrite <- Hcount. apply ok_bind, ok_int; [unfold INT_MAX in *; lia|].
  apply ok_bind. eapply ok_set; [done..|].
  assert (forall th' s', infos s' !! Some t = Some th' -> kept t e s s' ->
      live_block e s' = Some (write (offsetof handlerCount) (Int (handler_count e st')) c) ->
      foreign_exception_state th' = none -> uncaughtExceptions th' = uncaughtExceptions th ->
      caughtExceptions th' = (if decide (e ∈ handling st') then caughtExceptions th else next_of s e) ->
      rel s' (set_stack t st' σ)) as Hrel.
  { intros th' s' Hi Hkept Hl Hf' Hu' Hc'. eapply (rel_recount t e _ _ s); [done..| |by left|exact Hl|exact Hi|done| |].
    - intros b Hne. by apply (end_handler_count_other _ _ _ _ E).
    - by rewrite Hu', Hunc, (end_handler_flying _ _ _ E).
    - rewrite Hc'. apply (chain_ext (next_of s)); [|case_decide; [done|apply Hchain]].
      intros b _. destruct (decide (b = e)) as [->|Hne]; [|by apply (next_of_kept _ _ _ _ _ Hkept)].
      unfold next_of. by rewrite Hl, Hc. }
  destruct (decide (handler_count e st' = 0)) as [H0|H0].
  - rewrite H0 in *. cbn [Z.eqb]. apply handler_count_zero in H0 as Hnot. rewrite decide_False in Hchain by done.
    apply ok_bind. eapply ok_get; [by eapply live_put|done|]. apply ok_bind. eapply ok_update_info; [done|].
    change (words (write _ _ c) (offsetof nextException)) with (words c (offsetof nextException)).
    set (s1 := with_thread _ _ _). assert (rel s1 (set_stack t st' σ)) as Hr1.
    { eapply Hrel; [apply lookup_insert_eq| |by eapply live_put|done..|].
      - eapply kept_trans; [by apply (kept_put t e c)|apply kept_with].
      - rewrite decide_False by done. unfold next_of. by rewrite Hc. }
    destruct (Z.ltb_spec (handler_count e st) 0) as [Hneg|Hpos]; cbn [negb].
    + apply ok_ret. rewrite decide_True by (apply Hgone; by right). done.
    + rewrite decide_False by (rewrite Hgone; lia). eapply let_go_after; [done..|]. rewrite Hgone. lia.
  - rewrite (proj2 (Z.eqb_neq _ _)) by done. apply ok_ret. rewrite decide_True by (apply Hgone; by left).
    assert (e ∈ handling st') as Hin.
    { destruct (decide (e ∈ handling st')); [done|]. by rewrite handler_count_none in H0. }
    eapply (Hrel th); [done|by apply (kept_put t e c)|by eapply live_put|done..|].
    by rewrite decide_True.
Qed.

(** ** Throwing *)

(** The contents of a block the specification does not know are free. *)
Lemma rel_extra_put extra lost e c s σ :
  rel_but extra lost s σ -> e ∈ extra -> (forall t st, stacks σ !! t = Some st -> e ∉ caught_list st) ->
  rel_but extra lost (put e c s) σ.
Proof.
  intros Hr He Hcaught. destruct (rel_extra _ _ _ _ Hr _ He) as [[c0 Hc0] Hnone].
  pose proof Hr as [Hth Hbl Hdom Hex Hlog Ht]. split.
  - intros t st H. destruct (Hth _ _ H) as (th & ? & ? & ? & Hc). exists th. split_and!; [done..|].
    eapply chain_ext; [|exact Hc]. intros b Hb. apply next_of_put_ne. intros ->. by eapply Hcaught.
  - intros b k Hk. rewrite live_put_ne by congruence. by apply Hbl.
  - intros b c1. destruct (decide (b = e)) as [->|]; [by right|]. rewrite live_put_ne by done. apply Hdom.
  - intros b Hb. destruct (Hex _ Hb) as [[c1 ?] ?]. split; [|done].
    destruct (decide (b = e)) as [->|]; [by exists c; eapply live_put|]. rewrite live_put_ne by done. by exists c1.
  - done.
  - by eapply tidy_put.
Qed.

(** A new exception in flight *)
Lemma rel_push lost t e k c st th s s' σ :
  rel_but [e] lost s σ -> stacks σ !! t = Some st -> Z.of_nat (length st) < INT_MAX ->
  (forall t' st', stacks σ !! t' = Some st' -> e ∉ ids st') ->
  kept t e s s' -> infos s !! Some t = Some th ->
  infos s' !! Some t = Some (set_uncaught (uint_ (uncaughtExceptions th + 1)) th) ->
  live_block e s' = Some c ->
  describes None (set_stack t (Flying e :: st) (set_kind e k σ)) e k c ->
  (forall b, b <> e -> (owners (<[e := k]> (live σ)) b
     = owners (live σ) b + (if decide (lost = Some b) then 1 else 0))%nat) ->
  rel s' (set_stack t (Flying e :: st) (set_kind e k σ)).
Proof.
  intros Hr Hst Hroom Hnew Hk Hi Hi' Hlc Hd Hown.
  pose proof Hr as [Hth Hbl Hdom Hex Hlog Ht].
  assert (forall t' st', stacks σ !! t' = Some st' -> forall b, b ∈ caught_list st' -> next_of s' b = next_of s b) as Hnext.
  { intros t' st' H b Hb%caught_list_elem%handling_ids. apply (next_of_kept _ _ _ _ _ Hk).
    intros ->. by eapply Hnew. }
  split; cbn [stacks live log set_stack set_kind].
  - intros t' st'. rewrite lookup_insert_Some. intros [[<- <-]|[Hne H]].
    + destruct (Hth _ _ Hst) as (th0 & Hi0 & Hfor & Hunc & Hc). assert (th0 = th) as -> by congruence.
      eexists. split; [exact Hi'|]. split; [done|]. split.
      * change (uint_ (uncaughtExceptions th + 1) = zlength (e :: flying st)). rewrite Hunc, zlength_cons.
        pose proof (flying_length st). rewrite uint_small; [lia|]. pose proof (zlength_nonneg (flying st)). lia.
      * cbn [caught_list]. eapply chain_ext; [|exact Hc]. by eapply Hnext.
    + destruct (Hth _ _ H) as (th0 & ? & ? & ? & Hc). exists th0.
      split_and!; [by rewrite (kept_infos _ _ _ _ Hk)|done..|]. eapply chain_ext; [|exact Hc]. by eapply Hnext.
  - intros b k'. rewrite lookup_insert_Some. intros [[<- <-]|[Hne H]]; [by exists c|].
    destruct (Hbl _ _ H) as (c' & Hc' & Hf & Hw). exists c'.
    rewrite (kept_blocks _ _ _ _ Hk) by done. split; [done|]. split; [done|].
    assert (count_of (set_stack t (Flying e :: st) (set_kind e k σ)) b k' = count_of σ b k') as Hcount.
    { unfold count_of. destruct (thrower k') as [t'|]; [|done]. rewrite stack_of_set.
      destruct (decide (t' = t)) as [->|]; [|done]. rewrite (stack_of_Some _ _ _ Hst). by apply handler_count_cons. }
    destruct k'; [done|..]; rewrite Hcount; [|done]. destruct Hw as (Hw & ?). split; [|done].
    rewrite Hw. cbn [live set_stack set_kind]. rewrite Hown by done. f_equal. do 2 case_decide; (done || lia).
  - intros b c'. destruct (decide (b = e)) as [->|Hne]; [rewrite lookup_insert_eq; eauto|].
    rewrite (kept_blocks _ _ _ _ Hk), lookup_insert_ne by done. intros H.
    destruct (Hdom _ _ H) as [?|?%list_elem_of_singleton]; [by left|done].
  - by intros b ?%not_elem_of_nil.
  - by rewrite (kept_trace _ _ _ _ Hk).
  - by apply (kept_tidy _ _ _ _ Hk).
Qed.

Hypothesis unwinder_takes : forall again e s, unwind again e s = None.

(** The handlers are written down, the exception counted, and the unwinder
    called. *)
Lemma throw_exception_ok t e th c s :
  infos s !! Some t = Some th -> live_block e s = Some c -> header_fits c ->
  ok (throw_exception t (Ptr e 0)) s (fun r s' => r = Unwinding (Ptr e (offsetof unwindHeader)) /\
    exists h1 h2, live_block e s' = Some (write (offsetof terminateHandler_) h2 (write (offsetof unexpectedHandler_) h1 c)) /\
      kept t e s s' /\ infos s' !! Some t = Some (set_uncaught (uint_ (uncaughtExceptions th + 1)) th)).
Proof using pthreads unwinder_takes.
  intros Hi Hc Hf. unfold throw_exception. apply ok_bind. eapply ok_thread_info; [done..|].
  apply ok_bind. eapply ok_read_info; [done|].
  assert (forall (m : word) s1 c1 f Q, live_block e s1 = Some c1 -> header_fits c1 ->
    (forall w, Q tt (put e (write (offsetof f) w c1) s1)) ->
    ok (if decide (m = NULL) then h ← gets g_unexpected; set_ (Ptr e 0) f h else set_ (Ptr e 0) f m) s1 Q /\
    ok (if decide (m = NULL) then h ← gets g_terminate; set_ (Ptr e 0) f h else set_ (Ptr e 0) f m) s1 Q) as Hset.
  { intros m s1 c1 f Q H1 H2 HQ. case_decide; split; try (apply ok_bind, ok_gets); by eapply ok_set. }
  apply ok_bind. apply (Hset _ s c unexpectedHandler_); [done..|]. intros h1.
  apply ok_bind. eapply (Hset _ _ _ terminateHandler_); [by eapply live_put|done|]. intros h2.
  apply ok_bind. eapply ok_update_info; [done|]. unfold enter_unwinder. apply ok_bind, ok_gets.
  rewrite unwinder_takes. apply ok_ret. split; [done|]. exists h1, h2. split.
  { rewrite live_with. eapply live_put. by eapply live_put. }
  split; [|apply lookup_insert_eq]. eapply kept_trans; [by apply (kept_put t e c)|].
  eapply kept_trans; [|apply kept_with]. eapply kept_put. by eapply live_put.
Qed.

Lemma raw_not_on_stack p σ e t st :
  Inv_but p σ -> (live σ !! e = None \/ live σ !! e = Some Raw) -> stacks σ !! t = Some st -> e ∉ ids st.
Proof.
  intros HI He Hst Hin. destruct (inv_stack _ _ HI _ _ _ Hst Hin) as (k & Hk & Ht).
  destruct He as [He|He]; rewrite He in Hk; [done|]. by injection Hk as <-.
Qed.

Lemma not_caught e st : e ∉ ids st -> e ∉ caught_list st.
Proof. intros H ?%caught_list_elem%handling_ids. done. Qed.

(** The header [__cxa_init_primary_exception] writes *)
Definition primary_header (ti d : word) (c : contents) : contents :=
  write 104 (Fn Exception_cleanup) (write 96 (Int exception_class)
    (write (offsetof exceptionDestructor) d (write (offsetof exceptionType) ti
      (write (offsetof referenceCount) (Int 0) c)))).

Lemma init_primary_ok t e ti d c s :
  live_block e s = Some c -> header_fits c ->
  ok (__cxa_init_primary_exception (Ptr e sizeof_cxa_exception) ti d) s (fun ex s' =>
    ex = Ptr e 0 /\ kept t e s s' /\ infos s' = infos s /\ live_block e s' = Some (primary_header ti d c)).
Proof.
  intros Hc Hf. unfold __cxa_init_primary_exception.
  change (shift (Ptr e sizeof_cxa_exception) (- sizeof_cxa_exception)) with (Ptr e 0). cbv zeta.
  assert (sizeof_cxa_exception <= block_size c) as Hsize by done. change sizeof_cxa_exception with 128 in Hsize.
  apply ok_bind. eapply ok_set; [exact Hc|done|]. set (c1 := write _ _ c).
  apply ok_bind. eapply ok_set; [by eapply live_put|done|]. set (c2 := write _ _ c1).
  apply ok_bind. eapply ok_set; [eapply live_put; by eapply live_put|done|]. set (c3 := write _ _ c2).
  apply ok_bind. eapply (ok_store e 96 c3); [do 2 eapply live_put; by eapply live_put|cbn; lia|].
  set (c4 := write _ _ c3).
  apply ok_bind. eapply (ok_store e 104 c4); [do 3 eapply live_put; by eapply live_put|cbn; lia|].
  apply ok_ret. split; [done|]. split; [|split; [done|do 4 eapply live_put; by eapply live_put]].
  repeat first [eapply kept_trans; [|eapply kept_put; repeat first [exact Hc | eapply live_put]] | apply kept_refl].
Qed.

Lemma throw_ok t e ti d st s σ :
  rel s σ -> Inv σ -> stacks σ !! t = Some st -> live σ !! e = Some Raw -> Z.of_nat (length st) < INT_MAX ->
  ok (__cxa_throw t (Ptr e sizeof_cxa_exception) ti d) s (fun r s' =>
    r = Unwinding (Ptr e (offsetof unwindHeader)) /\
    rel s' (set_stack t (Flying e :: st) (set_kind e (Primary (Some t) 0 d) σ)) /\
    forall c, live_block e s = Some c -> exists c', live_block e s' = Some c' /\
      words c' (offsetof exceptionType) = ti /\ forall o, sizeof_cxa_exception <= o -> words c' o = words c o).
Proof using pthreads unwinder_takes.
  intros Hr HI Hst He Hroom. destruct (rel_blocks _ _ _ _ Hr _ _ He) as (c & Hc & Hf & Hzero).
  destruct (rel_threads _ _ _ _ Hr _ _ Hst) as (th & Hth & _).
  assert (forall t' st', stacks σ !! t' = Some st' -> e ∉ ids st') as Hnew.
  { intros t' st'. apply (raw_not_on_stack _ _ _ _ _ HI). by right. }
  assert (rel_but [e] None s (forget e σ)) as Hr0.
  { apply (rel_forget _ None _ _ _ _ _ Hr He). intros b Hb. rewrite decide_False by done.
    by rewrite (owners_delete_other _ _ _ _ He) by (done || intros []). }
  unfold __cxa_throw. apply ok_bind.
  eapply ok_mono; [by apply (init_primary_ok t e ti d c)|]. intros ex s5 (-> & Hk5 & Hi5 & Hc5). cbn beta.
  apply ok_bind. eapply ok_set; [exact Hc5|done|].
  set (c6 := write _ _ _). set (s6 := put e c6 s5).
  assert (live_block e s6 = Some c6) as Hc6 by by eapply live_put.
  assert (kept t e s s6) as Hk6 by (eapply kept_trans; [exact Hk5|by eapply kept_put]).
  assert (infos s6 !! Some t = Some th) as Hi6 by (cbn; by rewrite Hi5).
  eapply ok_mono; [by eapply (throw_exception_ok t e th c6 s6)|].
  intros r s' (-> & h1 & h2 & Hc' & Hk' & Hi'). split; [done|]. split.
  2: { intros c0 Hc0. assert (c0 = c) as -> by congruence. eexists. split; [exact Hc'|]. split; [done|].
       intros o Ho. change sizeof_cxa_exception with 128 in Ho. cbn. by rewrite !(proj2 (Z.eqb_neq _ _)) by lia. }
  assert (set_kind e (Primary (Some t) 0 d) σ = set_kind e (Primary (Some t) 0 d) (forget e σ)) as ->.
  { unfold set_kind, forget. cbn. by rewrite insert_delete_eq. }
  eapply (rel_push None t e _ _ st th s s' (forget e σ)); [done..| |done|exact Hi'|exact Hc'| |].
  - by eapply kept_trans.
  - split; [done|]. rewrite decide_False by done. split; [|split; [done|split; [done|]]].
    + cbn [set_stack set_kind live forget]. rewrite insert_delete_eq.
      erewrite owners_primary by apply lookup_insert_eq.
      rewrite (dependents_same _ _ _ _ _ He) by done.
      rewrite (dependents_zero _ _ _ HI) by (intros; congruence). done.
    + rewrite count_of_set by done. cbn. rewrite Hzero by done. rewrite handler_count_none; [done|].
      intros H. by apply (Hnew _ _ Hst), handling_ids.
  - intros b Hb. rewrite decide_False by done. cbn [forget live]. rewrite insert_delete_eq.
    rewrite owners_insert_other, (owners_delete_other _ _ _ _ He); [lia|done|intros []|done|intros []|].
    rewrite He. intros ? [= <-] [].
Qed.

Lemma rethrow_ok t st e s σ :
  rel s σ -> Inv σ -> stacks σ !! t = Some st -> Z.of_nat (length st) < INT_MAX ->
  current st = Some e -> Flying e ∉ st ->
  ok (__cxa_rethrow t) s (fun r s' =>
    r = Unwinding (Ptr e (offsetof unwindHeader)) /\ rel s' (set_stack t (Flying e :: st) σ)).
Proof using pthreads unwinder_takes.
  intros Hr HI Hst Hroom Hcur Hnf. pose proof (inv_wf _ _ HI _ _ Hst) as Hw.
  pose proof (current_ids _ _ Hcur) as He.
  destruct (rel_thrown _ _ _ _ _ _ _ _ Hr HI Hst He) as (k & c & cls & Hk & Ht & Hc & Hd & Hf & _ & _ & Hn).
  destruct (rel_threads _ _ _ _ Hr _ _ Hst) as (th & Hth & Hforeign & Hunc & Hchain).
  pose proof (chain_head _ _ _ Hw Hchain) as Hhead. rewrite Hcur in Hhead.
  pose proof (activations_pos _ _ (current_elem _ _ Hcur)) as Hpos.
  assert (handler_count e st = Z.of_nat (activations e st)) as Hact by (unfold handler_count; by rewrite decide_False).
  unfold __cxa_rethrow. apply ok_bind. eapply ok_thread_info; [done..|]. apply ok_bind.
  eapply ok_read_info; [done|]. rewrite Hhead, Hforeign. cbv zeta. rewrite decide_False by done.
  apply ok_bind. eapply ok_get_int; [done..|]. apply ok_bind, ok_assert; [apply Z.ltb_lt; lia|].
  apply ok_bind. eapply ok_update_info; [done|]. apply ok_bind. eapply ok_set; [exact Hc|done|].
  unfold enter_unwinder. apply ok_bind, ok_gets. rewrite unwinder_takes. apply ok_ret. split; [done|].
  eapply rel_restack; [done..| | | |].
  - eapply kept_trans; [apply kept_with|]. by apply (kept_put t e c).
  - intros b Hb. apply handler_count_cons. cbn. congruence.
  - eexists. split; [apply lookup_insert_eq|]. split; [done|]. split.
    + change (uint_ (uncaughtExceptions th + 1) = zlength (e :: flying st)). rewrite Hunc, zlength_cons.
      pose proof (flying_length st). pose proof (zlength_nonneg (flying st)). rewrite uint_small; lia.
    + eapply chain_ext; [|exact Hchain]. intros b _. destruct (decide (e = b)) as [<-|Hne].
      * rewrite next_of_put by by exists c. unfold next_of. by rewrite Hc.
      * by rewrite next_of_put_ne.
  - intros k' c' Hk' Hc' Hd'. assert (k' = k) as -> by congruence. assert (c' = c) as -> by congruence.
    eexists. split; [by eapply live_put|]. apply (describes_count _ σ); [done|by exists t|done|].
    rewrite count_of_set by done. by rewrite handler_count_flying.
Qed.

(** ** exception_ptr *)

(** One more owner, in the count first *)
Lemma add_owner extra p th h d c s σ :
  rel_but extra None s σ -> live σ !! p = Some (Primary th h d) -> live_block p s = Some c ->
  rel_but extra (Some p) (put p (write (offsetof referenceCount) (Int (Z.of_nat (owners (live σ) p) + 1)) c) s) σ.
Proof.
  intros Hr Hp Hc. destruct (rel_blocks _ _ _ _ Hr _ _ Hp) as (c0 & Hc0 & Hf & Href & Hw).
  assert (c0 = c) as -> by congruence. eapply (rel_block _ _ _ _ _ _ _ σ σ); try done.
  - intros b Hb. split; congruence.
  - by eapply rel_not_extra.
  - split; [done|]. split; [|done]. by rewrite decide_True.
Qed.

(** ... then in the specification *)
Lemma rel_gain extra p th h d s σ :
  rel_but extra (Some p) s σ -> live σ !! p = Some (Primary th h d) -> rel_but extra None s (add_handle p σ).
Proof.
  intros Hr Hp. pose proof Hr as [Hth Hbl Hdom Hex Hlog Ht]. unfold add_handle. rewrite Hp. split; cbn; try done.
  - intros b k. rewrite lookup_insert_Some. intros [[<- <-]|[Hne H]].
    + destruct (Hbl _ _ Hp) as (c & Hc & Hf & Href & Hw). exists c. split; [done|]. split; [done|].
      split; [|done]. rewrite Href. rewrite decide_True, decide_False by done. f_equal.
      rewrite (owners_primary _ _ _ _ _ Hp). cbn [set_kind live].
      erewrite owners_primary by apply lookup_insert_eq. rewrite (dependents_same _ _ _ _ _ Hp) by done. lia.
    + destruct (Hbl _ _ H) as (c & Hc & Hf & Hw). exists c. split; [done|]. split; [done|].
      destruct k; [done| |done]. destruct Hw as (Hw & ?). split; [|done]. rewrite Hw. cbn [set_kind live].
      rewrite !decide_False by congruence. rewrite owners_insert_other; [done..|intros []|].
      rewrite Hp. intros ? [= <-] [].
  - intros b c Hc. destruct (Hdom _ _ Hc) as [?|?]; [left|by right].
    destruct (decide (p = b)) as [->|]; [by rewrite lookup_insert_eq; eauto|by rewrite lookup_insert_ne].
  - intros b Hb. destruct (Hex _ Hb). split; [done|]. rewrite lookup_insert_ne; [done|]. congruence.
Qed.

Lemma increment_ok extra p th h d s σ :
  rel_but extra None s σ -> live σ !! p = Some (Primary th h d) -> Z.of_nat (owners (live σ) p) < INT_MAX ->
  ok (__cxa_increment_exception_refcount (Ptr p sizeof_cxa_exception)) s (fun _ s' =>
    rel_but extra (Some p) s' σ /\
    exists c, live_block p s = Some c /\ s' = put p (write (offsetof referenceCount) (Int (Z.of_nat (owners (live σ) p) + 1)) c) s).
Proof.
  intros Hr Hp Hb. destruct (rel_blocks _ _ _ _ Hr _ _ Hp) as (c & Hc & Hf & Href & Hd & Hcls & Hn).
  rewrite decide_False, Z.add_0_r in Href by done.
  unfold __cxa_increment_exception_refcount. rewrite decide_False by done.
  change (shift (Ptr p sizeof_cxa_exception) (- sizeof_cxa_exception)) with (Ptr p 0). cbv zeta.
  apply ok_bind. eapply ok_class_of_header; [done..|].
  change (isDependentException exception_class) with false. cbv iota.
  apply ok_bind. eapply add_reference_ok; [done..| |].
  { unfold INT_MAX, SIZE_MOD in *. lia. }
  apply ok_ret. split; [by eapply add_owner|]. by exists c.
Qed.

(** The primary behind a caught exception *)
Lemma real_exception_ok e k th h d s σ (Q : word -> runtime -> Prop) :
  rel s σ -> live σ !! e = Some k -> is_Some (thrower k) ->
  live σ !! primary_of (live σ) e = Some (Primary th h d) ->
  Q (Ptr (primary_of (live σ) e) 0) s -> ok (realExceptionFromException (Ptr e 0)) s Q.
Proof.
  intros Hr Hk [t Ht] Hp HQ. destruct (rel_blocks _ _ _ _ Hr _ _ Hk) as (c & Hc & Hf & Hw).
  unfold realExceptionFromException, primary_of in *. rewrite Hk in *.
  destruct k as [|th' h' d'|t' p]; [done|..].
  - destruct Hw as (_ & _ & Hcls & _). apply ok_bind. by eapply ok_class_of_header.
  - destruct Hw as (Hprim & Hcls & _). apply ok_bind. eapply ok_class_of_header; [done..|].
    change (negb (isDependentException dependent_exception_class)) with false. cbv iota.
    apply ok_bind. eapply ok_get; [done..|]. rewrite Hprim. apply ok_ret. exact HQ.
Qed.

Lemma current_primary_ok t st s σ :
  rel s σ -> Inv σ -> stacks σ !! t = Some st ->
  (forall e, current st = Some e -> room_for (primary_of (live σ) e) σ = true) ->
  ok (__cxa_current_primary_exception t) s (fun r s' => match current st with
    | Some e => r = Ptr (primary_of (live σ) e) sizeof_cxa_exception /\ rel s' (add_handle (primary_of (live σ) e) σ)
    | None => r = NULL /\ rel s' σ
    end).
Proof using pthreads.
  intros Hr HI Hst Hroom. pose proof (inv_wf _ _ HI _ _ Hst) as Hw.
  destruct (rel_threads _ _ _ _ Hr _ _ Hst) as (th & Hth & Hforeign & Hunc & Hchain).
  pose proof (chain_head _ _ _ Hw Hchain) as Hhead.
  unfold __cxa_current_primary_exception. apply ok_bind. eapply ok_thread_info; [done..|]. apply ok_bind.
  eapply ok_read_info; [done|]. rewrite Hhead. destruct (current st) as [e|] eqn:Hcur; [|done].
  rewrite decide_False by done. specialize (Hroom e eq_refl). apply Z.ltb_lt in Hroom.
  pose proof (current_ids _ _ Hcur) as He.
  destruct (rel_thrown _ _ _ _ _ _ _ _ Hr HI Hst He) as (k & c & cls & Hk & Ht & _).
  destruct (primary_of_live _ _ _ _ HI Hst He) as (th' & h & d & Hp). set (p := primary_of _ _) in *.
  apply ok_bind. eapply real_exception_ok; [done|exact Hk|by exists t|exact Hp|]. fold p.
  destruct (rel_blocks _ _ _ _ Hr _ _ Hp) as (cp & Hcp & Hfp & Href & _).
  rewrite decide_False, Z.add_0_r in Href by done.
  apply ok_bind. eapply add_reference_ok; [done..| |].
  { unfold INT_MAX, SIZE_MOD in *. lia. }
  apply ok_ret. split; [done|]. eapply rel_gain; [|done]. by eapply add_owner.
Qed.

Lemma decrement_ok t p th h d s σ :
  rel s σ -> Inv σ -> live σ !! p = Some (Primary th (S h) d) ->
  ok (__cxa_decrement_exception_refcount t (Ptr p sizeof_cxa_exception)) s (fun _ s' => rel s' (drop_handle p σ)).
Proof using destructors_return.
  intros Hr HI Hp. unfold __cxa_decrement_exception_refcount. rewrite decide_False by done.
  change (shift (Ptr p sizeof_cxa_exception) (- sizeof_cxa_exception)) with (Ptr p 0).
  unfold drop_handle, releaseException. rewrite Hp. eapply release_primary_ok; [| |apply lookup_insert_eq].
  - apply (rel_rekind _ _ th (S h)); [done..| |done].
    rewrite (owners_primary _ _ _ _ _ Hp). erewrite owners_primary by apply lookup_insert_eq.
    rewrite (dependents_same _ _ _ _ _ Hp) by done. cbn. lia.
  - pose proof (inv_owned _ _ HI _ _ _ _ Hp) as [_ ?]. apply (handles_Inv _ _ _ (S h)); [done..|]. cbn. lia.
Qed.

(** ** Allocation *)
Lemma terminate_stops {A} t th s : infos s !! Some t = Some th -> tidy s -> terminate (A := A) t s = Crash Terminate.
Proof using pthreads.
  intros Hi [_ _ _ _ [Hg Hs]]. unfold terminate, terminate_calls, static_info, mbind, comp_bind.
  rewrite Hs. unfold thread_info. rewrite pthreads, Hi. unfold read_info. cbn. rewrite Hi.
  destruct (decide (terminateHandler th = NULL)); cbn; by rewrite decide_False.
Qed.

Lemma rel_clock extra lost s σ : rel_but extra lost s σ -> rel_but extra lost (set_clock (S (clock s)) s) σ.
Proof.
  intros [Hth Hbl Hdom Hex Hlog [Hf Hbuf Hz Ha Ht]]. split; try done. split; try done.
  cbn. intros n Hn. specialize (Hf n Hn). lia.
Qed.

(** A block the specification does not know yet *)
Lemma rel_appear b c s s' σ :
  rel s σ -> Inv σ -> live_block b s = None -> live_block b s' = Some c ->
  (forall b', b' <> b -> live_block b' s' = live_block b' s) ->
  (forall t th, infos s !! Some t = Some th -> exists th', infos s' !! Some t = Some th' /\
    foreign_exception_state th' = foreign_exception_state th /\
    uncaughtExceptions th' = uncaughtExceptions th /\ caughtExceptions th' = caughtExceptions th) ->
  trace s' = trace s -> tidy s' ->
  rel_but [b] None s' σ /\ live σ !! b = None.
Proof.
  intros Hr HI Hb Hb' Hsame Hi Htr Ht. pose proof Hr as [Hth Hbl Hdom Hex Hlog _].
  assert (live σ !! b = None) as Hlive.
  { destruct (live σ !! b) as [k|] eqn:E; [|done]. destruct (Hbl _ _ E) as (c' & Hc' & _). congruence. }
  split; [|done]. split.
  - intros t st Hst. destruct (Hth _ _ Hst) as (th & Hit & Hfor & Hu & Hc).
    destruct (Hi _ _ Hit) as (th' & Hit' & Hf' & Hu' & Hc'). exists th'.
    split_and!; [done|by rewrite Hf'|by rewrite Hu'|]. rewrite Hc'.
    eapply chain_ext; [|exact Hc]. intros b' Hin%caught_list_elem%handling_ids. unfold next_of.
    rewrite Hsame; [done|]. intros ->. by eapply raw_not_on_stack; [..|exact Hst|]; eauto.
  - intros b' k Hk. rewrite Hsame by congruence. by apply Hbl.
  - intros b' c'. destruct (decide (b' = b)) as [->|Hne]; [right; by apply list_elem_of_singleton|].
    rewrite Hsame by done. intros H. destruct (Hdom _ _ H) as [?|?%not_elem_of_nil]; [by left|done].
  - intros b' ->%list_elem_of_singleton. by rewrite Hb'.
  - by rewrite Htr.
  - done.
Qed.

(** A new block of zeros: *)
Definition new_block (n : Z) (s : runtime) (σ : spec) (b : block) (s' : runtime) : Prop :=
  rel_but [b] None s' σ /\ live σ !! b = None /\
  exists c, live_block b s' = Some c /\ n <= block_size c /\ forall o, words c o = NULL.

Lemma calloc_ok_ n s σ :
  rel s σ -> Inv σ ->
  match calloc n s with
  | Ok (Some b) s' => new_block n s σ b s'
  | Ok None s' => rel s' σ /\ buffer_allocated s' = buffer_allocated s /\ infos s' = infos s
  | _ => False
  end.
Proof.
  intros Hr HI. pose proof (rel_clock _ _ _ _ Hr) as Hr'. unfold calloc. cbv zeta. destruct (calloc_ok _ _); [|done].
  pose proof (rel_tidy _ _ _ _ Hr) as Ht.
  assert (mem s !! Heap (clock s) = None) as Hfree.
  { destruct (mem s !! Heap (clock s)) eqn:E; [|done].
    pose proof (tidy_fresh _ Ht (clock s) ltac:(by rewrite E)). lia. }
  set (s' := set_mem _ _).
  assert (live_block (Heap (clock s)) s' = Some (zeroed n)) as Hb by (cbn; apply lookup_insert_eq).
  destruct (rel_appear (Heap (clock s)) (zeroed n) _ s' _ Hr' HI) as [Hrel Hnone]; [done|exact Hb| | |done| |].
  - intros b Hne. exact (live_put_ne (Heap (clock s)) b (zeroed n) _ (not_eq_sym Hne)).
  - eauto.
  - destruct Ht as [Hf Hbuf Hz Ha Ht]. split; cbn; try done.
    + intros k. destruct (decide (k = clock s)) as [->|Hne]; [lia|].
      rewrite lookup_insert_ne by congruence. intros Hk. specialize (Hf k Hk). lia.
    + intros i. rewrite lookup_insert_ne by done. apply Hz.
    + intros k. by rewrite lookup_insert_ne.
  - split; [done|]. split; [done|]. exists (zeroed n). split; [done|]. by split; [reflexivity|].
Qed.

(** Ends with a block, waits, or terminates the program for lack of memory. *)
Lemma alloc_or_die_ok t n s σ :
  rel s σ -> Inv σ -> is_Some (stacks σ !! t) ->
  match alloc_or_die t n s with
  | Ok b s' => new_block n s σ b s'
  | Fail s' => rel s' σ
  | Crash c => c = Terminate
  | NoFuel => False
  end.
Proof using pthreads.
  intros Hr HI [st Hst]. unfold alloc_or_die, mbind, comp_bind. pose proof (calloc_ok_ n s σ Hr HI) as H1.
  destruct (calloc n s) as [[b|] s1| | |]; try done. destruct H1 as (Hr1 & Hbuf1 & Hi1).
  destruct (rel_threads _ _ _ _ Hr1 _ _ Hst) as (th & Hth & Hfor & Hunc & Hchain).
  unfold emergency_malloc. destruct (Z.gtb_spec n EMERGENCY_SIZE) as [Hbig|Hfit].
  { cbn. by rewrite (terminate_stops t th) by (done || by eapply rel_tidy). }
  unfold mbind, comp_bind. unfold thread_info at 1. rewrite pthreads, Hth. unfold read_info at 1. rewrite Hth.
  destruct (emergencyBuffersHeld th >? 3).
  { cbn. by rewrite (terminate_stops t th) by (done || by eapply rel_tidy). }
  pose proof (calloc_ok_ n s1 σ Hr1 HI) as H2.
  destruct (calloc n s1) as [[b|] s2| | |]; try done. destruct H2 as (Hr2 & Hbuf2 & Hi2).
  unfold gets. destruct (first_free 0 (buffer_allocated s2)) as [i|] eqn:Hi; [|done].
  apply first_free_spec in Hi as (i' & -> & Hfree). cbn [Nat.add].
  unfold update_info, mbind, comp_bind, modify, read_info. cbn [infos set_buffers]. rewrite Hi2, Hth.
  pose proof (rel_tidy _ _ _ _ Hr2) as Ht2. pose proof (tidy_zero _ Ht2 _ Hfree) as Hz.
  assert (live_block (Emergency i') s2 = None) as Hdead by (cbn; by rewrite Hfree).
  unfold mret, comp_ret. set (s3 := set_infos _ _).
  assert (live_block (Emergency i') s3 = Some (zeroed EMERGENCY_SIZE)) as Hb.
  { cbn. rewrite list_lookup_insert_eq by (by eapply lookup_lt_Some). exact Hz. }
  destruct (rel_appear (Emergency i') _ s2 s3 σ Hr2 HI Hdead Hb) as [Hrel Hnone].
  - intros [k|j|k] Hne; try done. cbn. by rewrite list_lookup_insert_ne by congruence.
  - intros t' th'. cbn. rewrite Hi2. intros Ht'. destruct (decide (t' = t)) as [->|Hne].
    + rewrite lookup_insert_eq. eexists. split; [done|]. by assert (th' = th) as -> by congruence.
    + rewrite lookup_insert_ne by congruence. eauto.
  - done.
  - destruct Ht2 as [Hf Hbuf Hz2 Ha Ht]. split; cbn; try done; [by rewrite length_insert|].
    intros j. destruct (decide (i' = j)) as [->|Hne].
    + by rewrite list_lookup_insert_eq by (by eapply lookup_lt_Some).
    + rewrite list_lookup_insert_ne by done. apply Hz2.
  - split; [done|]. split; [done|]. exists (zeroed EMERGENCY_SIZE). split; [done|]. by split; [cbn; lia|].
Qed.

(** The new block becomes an exception not thrown yet. *)
Lemma new_raw n s b s' σ :
  new_block n s σ b s' -> Inv σ -> sizeof_cxa_exception <= n -> rel s' (set_kind b Raw σ).
Proof.
  intros (Hr & Hnone & c & Hc & Hn & Hz) HI Hsize. pose proof Hr as [Hth Hbl Hdom Hex Hlog Ht].
  split; cbn; try done.
  - intros b' k. rewrite lookup_insert_Some. intros [[<- <-]|[Hne H]].
    + exists c. split; [done|]. split; [unfold header_fits; lia|done].
    + destruct (Hbl _ _ H) as (c' & Hc' & Hd). exists c'. split; [done|].
      eapply describes_frame; [exact Hd| |done]. cbn.
      rewrite owners_insert_other; [done|done|intros []|by rewrite Hnone].
  - intros b' c' Hc'. destruct (Hdom _ _ Hc') as [H|Hb%list_elem_of_singleton]; [|subst b'; rewrite lookup_insert_eq; eauto].
    left. destruct (decide (b = b')) as [->|]; [rewrite lookup_insert_eq; eauto|by rewrite lookup_insert_ne].
  - by intros b' ?%not_elem_of_nil.
Qed.

(** Giving back an exception that was not thrown *)
Lemma free_raw_ok t e s σ :
  rel s σ -> Inv σ -> live σ !! e = Some Raw ->
  ok (__cxa_free_exception t (Ptr e sizeof_cxa_exception)) s (fun _ s' => rel s' (note (Released e) (forget e σ))).
Proof using destructors_return.
  intros Hr HI He. destruct (rel_blocks _ _ _ _ Hr _ _ He) as (c & Hc & Hf & Hz).
  eapply (free_exception_ok [] None e NULL t s (forget e σ));
    [|apply not_elem_of_nil| |done|done|by rewrite Hz|by left].
  - apply (rel_forget _ None _ _ _ _ _ Hr He). intros b Hb. rewrite decide_False by done.
    by rewrite (owners_delete_other _ _ _ _ He) by (done || intros []).
  - intros t' st Hst. apply not_caught. eapply raw_not_on_stack; [done|by right|done].
Qed.

(** The part of [__cxa_rethrow_primary_exception] after the allocation *)
Lemma rethrow_dependent_ok t p b st th h d s s1 σ :
  Inv σ -> stacks σ !! t = Some st -> Z.of_nat (length st) < INT_MAX ->
  live σ !! p = Some (Primary th (S h) d) -> Z.of_nat (owners (live σ) p) < INT_MAX ->
  new_block sizeof_cxa_exception s σ b s1 ->
  ok (let ex := shift (Ptr b sizeof_cxa_exception) (- sizeof_cxa_exception) in
      set_ ex primaryException (Ptr p sizeof_cxa_exception);;
      __cxa_increment_exception_refcount (Ptr p sizeof_cxa_exception);;
      ti ← get (exceptionFromPointer (Ptr p sizeof_cxa_exception)) exceptionType;
      set_ ex exceptionType ti;;
      store (shift ex (offsetof unwindHeader + exception_class_)) (Int dependent_exception_class);;
      store (shift ex (offsetof unwindHeader + exception_cleanup_)) (Fn Dependent_exception_cleanup);;
      throw_exception t ex) s1 (fun r s' => r = Unwinding (Ptr b (offsetof unwindHeader)) /\
    rel s' (set_stack t (Flying b :: st) (set_kind b (Dependent t p) σ))).
Proof using pthreads unwinder_takes.
  intros HI Hst Hroom Hp Hown (Hr & Hnone & c & Hc & Hsize & Hz).
  assert (b <> p) as Hne by congruence. assert (header_fits c) as Hf by done.
  assert (forall t' st', stacks σ !! t' = Some st' -> b ∉ ids st') as Hnew.
  { intros t' st'. apply (raw_not_on_stack _ _ _ _ _ HI). by left. }
  change (shift (Ptr b sizeof_cxa_exception) (- sizeof_cxa_exception)) with (Ptr b 0). cbv zeta.
  apply ok_bind. eapply ok_set; [exact Hc|done|]. set (c1 := write _ _ c).
  assert (rel_but [b] None (put b c1 s1) σ) as Hr1.
  { apply rel_extra_put; [done|by apply list_elem_of_singleton|]. intros t' st' H. by eapply not_caught, Hnew. }
  apply ok_bind. eapply ok_mono; [eapply increment_ok; [exact Hr1|exact Hp|done]|].
  intros u s3 [Hr3 (cp & Hcp & Hs3)]. cbn beta in Hs3.
  assert (live_block b s3 = Some c1) as Hb3.
  { subst s3. rewrite live_put_ne by done. by eapply live_put. }
  destruct (rel_blocks _ _ _ _ Hr3 _ _ Hp) as (cp3 & Hcp3 & Hfp & _).
  change (exceptionFromPointer (Ptr p sizeof_cxa_exception)) with (Ptr p 32).
  apply ok_bind. unfold get. rewrite decide_False by done. eapply (ok_load p 48); [exact Hcp3| |].
  { unfold header_fits in Hfp. change sizeof_cxa_exception with 128 in Hfp. lia. }
  change sizeof_cxa_exception with 128 in Hsize.
  apply ok_bind. eapply ok_set; [exact Hb3|done|]. set (c2 := write _ _ c1).
  apply ok_bind. eapply (ok_store b 96 c2); [by eapply live_put|cbn; lia|]. set (c3 := write _ _ c2).
  apply ok_bind. eapply (ok_store b 104 c3); [eapply live_put; by eapply live_put|cbn; lia|].
  set (c4 := write _ _ c3). set (s4 := put b c4 _).
  assert (live_block b s4 = Some c4) as Hc4 by (do 2 eapply live_put; by eapply live_put).
  assert (kept t b s3 s4) as Hk4.
  { repeat first [eapply kept_trans; [|eapply kept_put; repeat first [exact Hb3 | eapply live_put]] | apply kept_refl]. }
  destruct (rel_threads _ _ _ _ Hr3 _ _ Hst) as (thr & Hthr & _).
  eapply ok_mono; [eapply (throw_exception_ok t b thr c4 s4); [by unfold s4|done|done]|].
  intros r s' (-> & h1 & h2 & Hc' & Hk' & Hi'). split; [done|].
  eapply (rel_push (Some p) t b _ _ st thr s3 s' σ); [done..| |done|exact Hi'|exact Hc'| |].
  - by eapply kept_trans.
  - split; [done|]. split; [done|]. split; [done|]. rewrite count_of_set by done.
    cbn. rewrite Hz. rewrite handler_count_none; [done|]. intros H. by apply (Hnew _ _ Hst), handling_ids.
  - intros q Hq. destruct (decide (Some p = Some q)) as [[= <-]|Hnq].
    + erewrite owners_primary by (rewrite lookup_insert_ne; [exact Hp|done]).
      rewrite (owners_primary _ _ _ _ _ Hp), dependents_insert by done.
      unfold dep1. rewrite decide_True by done. lia.
    + rewrite owners_insert_other; [lia|done|cbn; congruence|by rewrite Hnone].
Qed.

Lemma rethrow_primary_ok t p st th h d s σ :
  rel s σ -> Inv σ -> stacks σ !! t = Some st -> Z.of_nat (length st) < INT_MAX ->
  live σ !! p = Some (Primary th (S h) d) -> Z.of_nat (owners (live σ) p) < INT_MAX ->
  match __cxa_rethrow_primary_exception t (Ptr p sizeof_cxa_exception) s with
  | Ok r s' => exists b, r = Unwinding (Ptr b (offsetof unwindHeader)) /\ live σ !! b = None /\
      rel s' (set_stack t (Flying b :: st) (set_kind b (Dependent t p) σ))
  | Fail s' => rel s' σ
  | Crash c => c = Terminate
  | NoFuel => False
  end.
Proof using pthreads unwinder_takes.
  intros Hr HI Hst Hroom Hp Hown. unfold __cxa_rethrow_primary_exception. rewrite decide_False by done.
  pose proof (alloc_or_die_ok t sizeof_cxa_exception s σ Hr HI (ex_intro _ _ Hst)) as Ha. cbv zeta.
  unfold __cxa_allocate_dependent_exception. rewrite bind_assoc.
  destruct (alloc_or_die t sizeof_cxa_exception s) as [b s1|s1|c|] eqn:E; try done;
    [|by rewrite (bind_Fail _ _ _ _ E)|by rewrite (bind_Crash _ _ _ _ E)].
  rewrite (bind_Ok _ _ _ _ _ E), bind_ret.
  destruct (ok_run _ _ _ (rethrow_dependent_ok t p b st th h d s s1 σ HI Hst Hroom Hp Hown Ha)) as (r & s' & Er & -> & Hr').
  cbv zeta in Er. rewrite Er. exists b. split; [done|]. split; [apply Ha|done].
Qed.
End Sim.
