(* ===== verification/VectorTheorems.v ===== *)
(** * The vectors refine lists

    A vector of strings driven by any sequence of its operations holds what the
    same operations on a list of strings give; the command stack is last in,
    first out; growing never trips its assertion. *)
From S2P Require Import Prelude CString Platform VectorStr VectorAux.

(** ** An operation, as the code performs it and on the list *)
Inductive vec_op :=
  | VPush (src : bytes) (len : Z)
  | VPop
  | VPrepend (org : vector_str)
  | VAppend (org : vector_str).

Definition texts (v : vector_str) : list bytes :=
  omap (fun c => match cval c with Bytes s => Some s | _ => None end) (container v).

Definition list_op (op : vec_op) (ss : list bytes) : list bytes :=
  match op with
  | VPush src len => ss ++ [ztake len src]
  | VPop => removelast ss
  | VPrepend org => texts org ++ ss
  | VAppend org => ss ++ texts org
  end.

(** The arguments the code passes: a length that is not negative, and a
    well-formed, non-empty vector. *)
Definition op_wf (op : vec_op) : Prop :=
  match op with
  | VPush _ len => 0 <= len
  | VPop => True
  | VPrepend org | VAppend org => vec_ok org (texts org) /\ texts org <> []
  end.

Definition is_append (op : vec_op) : bool := match op with VAppend _ => true | _ => false end.

Section Run.
Context {P : Platform}.

Definition exec_op (op : vec_op) (v : vector_str) : comp nat (bool * vector_str) :=
  match op with
  | VPush src len => vector_str_push v (Bytes src) len
  | VPop => vector_str_pop v
  | VPrepend org => vector_str_push_vector_head v org
  | VAppend org => vector_str_push_vector v org
  end.

(** A failed operation is skipped, as a caller that looks at the status
    would. *)
Fixpoint exec_ops (ops : list vec_op) (v : vector_str) : comp nat vector_str :=
  match ops with
  | [] => mret v
  | op :: ops => '(_, v) ← exec_op op v; exec_ops ops v
  end.

(** A fresh vector, a run, the flat string, and the destruction. *)
Definition session (ops : list vec_op) : comp nat (option (option (mem * Z))) :=
  o ← vector_str_init;
  match o with
  | None => mret None
  | Some v =>
      v ← exec_ops ops v;
      r ← vector_str_get_flat v;
      vector_str_dest v;;
      mret (Some r)
  end.

Lemma ztake_0 {A} (l : list A) : ztake 0 l = [].
Proof.
  unfold ztake. pose proof (zlength_nonneg l). rewrite Z.min_l by lia. apply take_0.
Qed.

Lemma pushed_ztake src len : 0 <= len -> pushed (Bytes src) len (ztake len src).
Proof.
  intros. destruct (decide (len = 0)) as [->|]; [left; by rewrite ztake_0|].
  right. split; [lia|]. eauto.
Qed.

Lemma exec_op_ok op v ss n :
  op_wf op -> vec_ok v ss ->
  exists b v' n', exec_op op v n = Ok (b, v') n' /\ (n <= n')%nat /\
    (b = true -> vec_ok v' (list_op op ss)) /\
    (b = false -> is_append op = false -> vec_ok v' ss) /\ (never_oom -> b = true).
Proof.
  intros Hop Hv. destruct op as [src len| |org|org]; cbn [exec_op list_op is_append].
  - destruct (vector_str_push_ok v ss (Bytes src) len _ n Hv (pushed_ztake src len Hop))
      as (b & v' & n' & H & Hn & Hok & Ho).
    exists b, v', n'. split_and!; try done; by intros ->.
  - destruct (vector_str_pop_ok v ss n Hv) as (v' & H & Hok).
    exists true, v', n. by split_and!.
  - destruct Hop as [Ho Hne].
    destruct (vector_str_push_vector_head_ok v org ss _ n Hv Ho) as (b & v' & n' & H & Hn & Hok & Hoom).
    { by intros [? ?]%app_nil. }
    exists b, v', n'. split_and!; try done; by intros ->.
  - destruct Hop as [Ho Hne].
    destruct (vector_str_push_vector_ok v org ss _ n Hv Ho) as (b & v' & n' & H & Hn & Hok & Hoom).
    { by intros [? ?]%app_nil. }
    exists b, v', n'. by split_and!.
Qed.

Lemma exec_ops_ok ops v ss n :
  never_oom -> Forall op_wf ops -> vec_ok v ss ->
  exists v' n', exec_ops ops v n = Ok v' n' /\
    vec_ok v' (fold_left (fun ss op => list_op op ss) ops ss).
Proof.
  intros Hoom Hops. revert v ss n.
  induction Hops as [|op ops Hop _ IH]; intros v ss n Hv; cbn [exec_ops fold_left].
  { by exists v, n. }
  destruct (exec_op_ok op v ss n Hop Hv) as (b & v' & n' & H & _ & Hok & _ & Hb).
  run H. apply IH, Hok, Hb, Hoom.
Qed.

Lemma exec_ops_oom ops v ss n :
  Forall op_wf ops -> Forall (fun op => is_append op = false) ops -> vec_ok v ss ->
  exists v' ss' n', exec_ops ops v n = Ok v' n' /\ vec_ok v' ss'.
Proof.
  intros Hops Happ. revert v ss n.
  induction Hops as [|op ops Hop _ IH]; intros v ss n Hv; cbn [exec_ops].
  { by exists v, ss, n. }
  apply Forall_cons_1 in Happ as [Ha Happ].
  destruct (exec_op_ok op v ss n Hop Hv) as (b & v' & n' & H & _ & Hok & Hno & _).
  run H. destruct b; eauto.
Qed.


End Run.


(** An allocator that fails from the fourth request on. *)
Definition tight_platform : Platform := {|
  malloc_ok n _ := (n <? 3)%nat; strtol_einval := false;
  sizeof_long_double := 16; fmt_f _ _ := [];
|}.


(** The cleanup of a failed append frees the strings of the destination: when
    the allocator refuses the copy of the appended string, the destination's
    own destruction afterwards frees its strings a second time. *)
Theorem vector_append_oom_double_free {P : Platform} dst org n :
  0 < size dst -> (exists c, org = VectorStr 8 [c] /\ cval c = Bytes (lit "b")) ->
  malloc_ok n (SIZEOF_PTR * BUFFER_GROW (size dst + 1)) = true ->
  malloc_ok (S n) 2 = false ->
  (r ← vector_str_push_vector dst org; vector_str_dest r.2) n = Crash DoubleFree.
Proof.
  intros Hd (c & -> & Hc) H1 H2.
  assert (vector_str_push_vector dst (VectorStr 8 [c]) n
    = Ok (false, VectorStr (capacity dst) ((fun c => Cell (cid c) Freed) <$> container dst))
        (S (S n))) as Hp.
  { unfold vector_str_push_vector, malloc. unfold mbind at 1, comp_bind at 1.
    change (size (VectorStr 8 [c])) with 1. rewrite H1. cbn [container dup_cells].
    rewrite Hc. unfold read_cstr, mbind, comp_bind, malloc, mret, comp_ret.
    change (zlength (lit "b") + 1) with 2. by rewrite H2. }
  erewrite bind_Ok by exact Hp. unfold vector_str_dest. cbn [snd container].
  unfold size, zlength in Hd. by destruct (container dst).
Qed.

Lemma vector_append_oom_double_free_witness :
  (r ← @vector_str_push_vector tight_platform
         (VectorStr 8 [Cell 0 (Bytes (lit "a"))]) (VectorStr 8 [Cell 1 (Bytes (lit "b"))]);
   vector_str_dest r.2) 2%nat = Crash DoubleFree.
Proof.
  apply (@vector_append_oom_double_free tight_platform); try reflexivity.
  by eexists.
Defined.

(** ** Parts of a vector *)
Section Parts.
Context {P : Platform}.

(** The readers take "the output since index [i]" with
    [vector_str_substr]: it is the concatenation of the strings pushed since
    the vector had [i] of them, whatever they are, and the vector they are
    taken from may hold any strings before. *)
Theorem vector_substr_since v before since n :
  vec_ok v (before ++ since) -> since <> [] -> size v < SIZE_MOD -> never_oom ->
  vector_str_substr v (zlength before) (size_t (size v - 1)) n
  = Ok (Some (Bytes (concat since), zlength (concat since))) (S n).
Proof.
  intros Hv Hne Hmod Hoom.
  pose proof (vec_ok_size _ _ Hv) as Hsz. rewrite zlength_app in Hsz.
  assert (0 < zlength since).
  { destruct since; [done|]. rewrite zlength_cons. pose proof (zlength_nonneg since). lia. }
  pose proof (zlength_nonneg before).
  destruct (vector_str_substr_ok v before since [] n) as (r & Hr & Hcase & Hs);
    [by rewrite app_nil_r | done..|].
  rewrite size_t_small by lia.
  replace (size v - 1) with (zlength before + zlength since - 1) by lia. rewrite Hr.
  destruct Hcase as [->| ->]; [by destruct (Hs Hoom)|done].
Qed.

(** [vector_str_find] answers 1 exactly when the string sought is a prefix of
    one of the strings held, 0 otherwise, and never looks at freed memory;
    finding a string that is not held is how [_Z1f3abc2abS0_] loses a
    substitution. *)
Theorem vector_find_is_prefix v ss o n :
  vec_ok v ss ->
  exists r, vector_str_find v (Some (Bytes o)) (zlength o) n = Ok r n /\
    (r = 1 <-> exists s, s ∈ ss /\ o `prefix_of` s) /\ (r = 0 <-> r <> 1).
Proof.
  intros Hv. rewrite (vector_str_find_ok v ss o n Hv). eexists. split; [done|].
  destruct (existsb _ _) eqn:E.
  - split; [|lia]. split; [|done]. intros _.
    apply existsb_exists in E as (s & Hs & Hp). exists s. split.
    + by apply list_elem_of_In.
    + by apply is_prefix_spec.
  - split; [|lia]. split; [lia|]. intros (s & Hs & Hp). exfalso.
    assert (existsb (is_prefix o) ss = true); [|congruence].
    apply existsb_exists. exists s. split; [by apply list_elem_of_In | by apply is_prefix_spec].
Qed.
End Parts.

Lemma vector_substr_since_witness :
  @vector_str_substr plain_platform
    (VectorStr 8 (Cell 0 <$> [Bytes (lit "f"); Bytes (lit "("); Bytes (lit "int")])) 1 2 9%nat
  = Ok (Some (Bytes (lit "(int"), 4)) 10%nat.
Proof.
  refine (@vector_substr_since plain_platform
    (VectorStr 8 (Cell 0 <$> [Bytes (lit "f"); Bytes (lit "("); Bytes (lit "int")]))
    [lit "f"] [lit "("; lit "int"] 9%nat _ _ _ _); [|done..].
  split_and!; cbn; try done; try lia.
Defined.

Lemma vector_find_is_prefix_witness :
  exists r, @vector_str_find (VectorStr 8 [Cell 0 (Bytes (lit "abc"))]) (Some (Bytes (lit "ab"))) 2 9%nat
    = Ok r 9%nat /\ (r = 1 <-> exists s, s ∈ [lit "abc"] /\ lit "ab" `prefix_of` s) /\ (r = 0 <-> r <> 1).
Proof.
  apply (vector_find_is_prefix (VectorStr 8 [Cell 0 (Bytes (lit "abc"))]) [lit "abc"] (lit "ab") 9%nat).
  split_and!; cbn; try done; try lia.
Defined.

(** ** The command stack *)
Section Commands.
Context {P : Platform}.

Fixpoint push_all (its : list read_cmd_item) (v : vector_read_cmd) : comp nat (bool * vector_read_cmd) :=
  match its with
  | [] => mret (true, v)
  | i :: its =>
      '(ok, v) ← vector_read_cmd_push v (item_cmd i) (item_data i);
      if (ok : bool) then push_all its v else mret (false, v)
  end.

Fixpoint pop_all (n : nat) (v : vector_read_cmd) : bool * vector_read_cmd :=
  match n with
  | O => (true, v)
  | S n => let '(ok, v) := vector_read_cmd_pop v in if ok then pop_all n v else (false, v)
  end.

Lemma push_all_ok its v old n :
  never_oom -> r_ok v old ->
  exists v' n', push_all its v n = Ok (true, v') n' /\ r_ok v' (old ++ its).
Proof.
  intros Hoom. revert v old n. induction its as [|[c d] its IH]; intros v old n Hv; cbn [push_all].
  { exists v, n. by rewrite app_nil_r. }
  destruct (vector_read_cmd_push_ok v c d old n Hv) as (b & v' & n' & H & _ & Hok & Hb).
  cbn [item_cmd item_data]. run H. rewrite (Hb Hoom) in Hok |- *.
  destruct (IH v' _ n' Hok) as (v'' & n'' & H'' & Hv''). exists v'', n''.
  split; [done|]. by rewrite <- app_assoc in Hv''.
Qed.

Lemma pop_all_ok its v old :
  r_ok v (old ++ its) -> exists v', pop_all (length its) v = (true, v') /\ r_ok v' old.
Proof.
  revert v. induction its as [|i its IH] using rev_ind; intros v Hv.
  { exists v. by rewrite app_nil_r in Hv. }
  rewrite app_assoc in Hv. rewrite length_app, Nat.add_comm. cbn [length Nat.add pop_all].
  destruct (vector_read_cmd_pop_ok v _ i Hv) as (v' & -> & Hv'). by apply IH.
Qed.

(** The command stack is last in, first out at any depth, across its growths:
    after any commands are pushed, the innermost item of each kind is the one
    found, and as many pops give back the stack there was. *)
Theorem read_cmd_stack_lifo its v old n dst :
  never_oom -> r_ok v old -> dst <> READ_FAIL ->
  exists v' v'' n', push_all its v n = Ok (true, v') n' /\
    vector_read_cmd_find v' dst
      = match find (fun i => bool_decide (item_cmd i = dst)) (rev its) with
        | Some i => Some i
        | None => vector_read_cmd_find v dst
        end /\
    pop_all (length its) v' = (true, v'') /\ r_container v'' = r_container v.
Proof.
  intros Hoom Hv Hdst. destruct (push_all_ok its v old n Hoom Hv) as (v' & n' & Hp & Hv').
  destruct (pop_all_ok its v' old Hv') as (v'' & Hpop & Hv''). exists v', v'', n'.
  split; [done|]. destruct Hv as (_ & _ & Hv), Hv' as (_ & _ & Hv'), Hv'' as (_ & _ & Hv'').
  split_and!; [|done|congruence].
  unfold vector_read_cmd_find. rewrite Hv', Hv, rev_app_distr.
  assert (forall l1 l2 : list read_cmd_item, find (fun i => bool_decide (item_cmd i = dst)) (l1 ++ l2)
    = match find (fun i => bool_decide (item_cmd i = dst)) l1 with
      | Some i => Some i | None => find (fun i => bool_decide (item_cmd i = dst)) l2 end) as ->.
  { intros l1 l2. induction l1 as [|x l1 IH]; [done|]. cbn. by case_bool_decide. }
  by destruct dst.
Qed.
End Commands.

Lemma read_cmd_stack_lifo_witness :
  exists v' v'' n', @push_all plain_platform
      [ReadCmdItem READ_TMPL None; ReadCmdItem READ_PTRMEM None] (VectorReadCmd 8 []) 0%nat = Ok (true, v') n' /\
    vector_read_cmd_find v' READ_TMPL = Some (ReadCmdItem READ_TMPL None) /\
    pop_all 2 v' = (true, v'') /\ r_container v'' = [].
Proof.
  apply (@read_cmd_stack_lifo plain_platform
    [ReadCmdItem READ_TMPL None; ReadCmdItem READ_PTRMEM None] (VectorReadCmd 8 []) [] 0%nat READ_TMPL).
  - apply plain_never_oom.
  - split_and!; cbn; try done; lia.
  - done.
Defined.
