(* ===== verification/DemTheorems.v ===== *)
(** * What every run of the demangler promises

    Termination and the depth of the recursion, the shape of the result, the
    discipline of the reader's stacks, and the stability of back-references:
    for every input, every platform, and every status a call returns. *)
From S2P Require Import Prelude CString Platform VectorStr VectorAux DemState DemQual DemLex DemReaders DemNames DemTypes Demangler DemFrame DemLogic DemTotal DemFuel DemCrash.

(** The four places where the readers' recursion goes round. *)
Inductive entry :=
  | EType (td : option type_delimit)
  | EEncoding
  | EExpression
  | EName.

Definition enter {P : Platform} {I : Input} (R : Readers) (e : entry) : M unit :=
  match e with
  | EType td => r_type td;; mret tt
  | EEncoding => r_encoding
  | EExpression => r_expression
  | EName => r_name
  end.

(** ** Results *)
Definition yields {S A} (Q : A -> Prop) (m : comp S A) : Prop := forall s,
  match m s with Ok a _ => Q a | _ => True end.

Section Yields.
Context {S : Type}.

Lemma yields_ret {A} (Q : A -> Prop) a : Q a -> yields (S := S) Q (mret a).
Proof. by intros H s. Qed.

Lemma yields_bind {A B} (Q : A -> Prop) (Q' : B -> Prop) (m : comp S A) f :
  yields Q m -> (forall a, Q a -> yields Q' (f a)) -> yields Q' (m ≫= f).
Proof.
  intros Hm Hf s. unfold mbind, comp_bind. specialize (Hm s).
  destruct (m s) as [a s'| | |]; try done. by apply Hf.
Qed.

Lemma yields_any {A} (m : comp S A) : yields (fun _ => True) m.
Proof. intros s. by destruct (m s). Qed.

Lemma yields_skip {A B} (Q : B -> Prop) (m : comp S A) f :
  (forall a, yields Q (f a)) -> yields Q (m ≫= f).
Proof. intros. eapply yields_bind; [apply yields_any|auto]. Qed.

Lemma yields_on_fail {A} (Q : A -> Prop) (m : comp S A) h : yields Q m -> yields Q (on_fail m h).
Proof.
  intros Hm s. unfold on_fail. specialize (Hm s). destruct (m s) as [|s'| |]; try done.
  by destruct (h s').
Qed.
End Yields.

Lemma yields_on_clock {A} (Q : A -> Prop) (m : comp nat A) : yields Q m -> yields Q (on_clock m).
Proof. intros Hm s. unfold on_clock. specialize (Hm (clock s)). by destruct (m (clock s)). Qed.

(** A returned string is readable and not empty. *)
Definition good_string (m : mem) : Prop := exists s, m = Bytes s /\ s <> [].
Definition good_result (r : option mem) : Prop := forall m, r = Some m -> good_string m.

Section Results.
Context {P : Platform}.

(** [concat_cells] reads what [strlen_sum] measured. *)
Lemma concat_cells_length cs n l n1 n2 :
  strlen_sum cs n = Ok l n1 ->
  match concat_cells cs n2 with Ok s _ => zlength s = l | _ => True end.
Proof.
  revert n l n1 n2. induction cs as [|c cs IH]; intros n l n1 n2; [by intros [= <- <-]|].
  cbn [strlen_sum concat_cells]. unfold read_cstr.
  destruct (cval c); try done. rewrite !bind_ret. unfold mbind, comp_bind, mret, comp_ret.
  destruct (strlen_sum cs n) as [k n'| | |] eqn:E; try done. intros [= <- <-].
  specialize (IH _ _ _ n2 E). destruct (concat_cells cs n2); try done.
  rewrite zlength_app. by rewrite IH.
Qed.

Lemma get_flat_good v : yields (fun o => good_result (fst <$> o)) (vector_str_get_flat v).
Proof.
  intros n. unfold vector_str_get_flat. destruct (_ =? _); [done|].
  unfold get_strlen_sum, mbind at 1, comp_bind at 1.
  destruct ((assert_ (0 <? size v);; strlen_sum (container v)) n) as [l n'| | |] eqn:E; try done.
  destruct (Z.eqb_spec l 0); [done|]. unfold malloc, mbind, comp_bind.
  destruct (malloc_ok _ _); [|done].
  assert (exists k, strlen_sum (container v) k = Ok l n') as [k Hk].
  { unfold assert_ in E. destruct (_ <? _); [|done]. by exists n. }
  pose proof (concat_cells_length _ _ _ _ (S n') Hk) as Hl.
  destruct (concat_cells (container v) (S n')) as [s n''| | |]; try done.
  intros m [= <-]. exists s. split; [done|]. intros ->. by subst.
Qed.

Lemma final_flat {I : Input} v :
  yields good_result (o ← on_clock (vector_str_get_flat v); mret (fst <$> o)).
Proof.
  eapply yields_bind; [apply yields_on_clock, get_flat_good|].
  intros o Ho. by apply yields_ret.
Qed.

Lemma demangle_type_good {I : Input} {R : Readers} : yields good_result demangle_type.
Proof. do 2 (apply yields_skip; intros ?). apply final_flat. Qed.

Lemma demangle_encoding_good {I : Input} {R : Readers} : yields good_result demangle_encoding.
Proof.
  do 5 (apply yields_skip; intros ?). apply yields_skip. intros [l h].
  apply yields_skip. intros [[td h'] m']. eapply yields_bind.
  - apply yields_on_fail. do 11 (apply yields_skip; intros ?). apply final_flat.
  - intros r Hr. apply yields_skip. intros _. by apply yields_ret.
Qed.

Lemma with_data_good {I : Input} start body :
  yields good_result body -> yields good_result (with_data start body).
Proof.
  intros Hb. apply yields_skip. intros [d|]; [|by apply yields_ret].
  intros n. unfold work_and_clean, mbind, comp_bind. specialize (Hb (set_clock n d)).
  destruct (body _) as [r s|s| |]; try done; by destruct (cpp_demangle_data_dest s).
Qed.

Lemma ztake_cons_ne {A} n (a : A) l : 0 < n -> ztake n (a :: l) <> [].
Proof.
  intros Hn. unfold ztake. rewrite zlength_cons. pose proof (zlength_nonneg l).
  destruct (Z.to_nat _) eqn:E; [lia|done].
Qed.

Lemma demangle_at_good fuel org : yields good_result (demangle_at fuel org).
Proof.
  unfold demangle_at. set (I := org : Input). destruct (_ || _); [apply with_data_good, demangle_type_good|].
  destruct (_ && _) eqn:E; [|apply with_data_good, demangle_encoding_good].
  apply yields_skip. intros [i|]; [|by apply yields_ret]. apply yields_ret.
  intros m [= <-]. eexists. split; [done|].
  apply andb_true_iff in E as [E _]. apply Z.gtb_lt in E.
  apply ztake_cons_ne. pose proof (zlength_nonneg I). lia.
Qed.

(** Destroying vectors never reports a failure. *)
Definition no_fail {S A} (m : comp S A) : Prop := forall s s', m s <> Fail s'.

Lemma no_fail_bind {S A B} (m : comp S A) (f : A -> comp S B) :
  no_fail m -> (forall a, no_fail (f a)) -> no_fail (m ≫= f).
Proof.
  intros Hm Hf s s'. unfold mbind, comp_bind. specialize (Hm s).
  destruct (m s) as [a s1|s1| |]; [apply Hf | by destruct (Hm s1) | done..].
Qed.

Lemma no_fail_dest v : no_fail (vector_str_dest v).
Proof.
  unfold vector_str_dest. induction (container v) as [|c cs IH]; [done|].
  intros s s'. cbn. destruct (cval c); (apply IH || done).
Qed.

Lemma no_fail_init : no_fail vector_str_init.
Proof. by intros ? ?. Qed.

Lemma no_fail_data_init {I : Input} start : no_fail (cpp_demangle_data_init start).
Proof.
  unfold cpp_demangle_data_init, vector_read_cmd_init.
  repeat first
    [ done
    | apply no_fail_init
    | apply no_fail_dest
    | apply no_fail_bind; [|intros ?]
    | match goal with |- no_fail (match ?x with _ => _ end) => destruct x end
    | by intros ? ? ].
Qed.

Lemma no_fail_on_clock {A} (m : comp nat A) : no_fail m -> no_fail (on_clock m).
Proof.
  intros Hm s s'. unfold on_clock. specialize (Hm (clock s)).
  destruct (m (clock s)) as [a n|n| |]; [done | by destruct (Hm n) | done..].
Qed.

Lemma no_fail_data_dest {I : Input} : no_fail cpp_demangle_data_dest.
Proof.
  apply no_fail_bind; [by intros ? ?|]. intros s. apply no_fail_on_clock.
  apply no_fail_bind; [by intros ? ?|intros _].
  repeat (apply no_fail_bind; [apply no_fail_dest | intros _]). apply no_fail_dest.
Qed.

Lemma with_data_no_fail {I : Input} start body : no_fail (with_data start body).
Proof.
  apply no_fail_bind; [apply no_fail_data_init|]. intros [d|]; [|by intros ? ?].
  intros n n'. unfold work_and_clean, mbind, comp_bind.
  pose proof no_fail_data_dest as Hd.
  destruct (body _) as [r s|s| |]; try done;
    specialize (Hd s); destruct (cpp_demangle_data_dest s) as [| s1 | |]; try done; by destruct (Hd s1).
Qed.

Lemma demangle_at_no_fail fuel org : no_fail (demangle_at fuel org).
Proof.
  unfold demangle_at. set (I := org : Input). destruct (_ || _); [apply with_data_no_fail|].
  destruct (_ && _); [|apply with_data_no_fail].
  apply no_fail_bind; [by intros ? ?|]. intros [?|]; by intros ? ?.
Qed.
End Results.

(** ** The theorems *)
Section Theorems.
Context {P : Platform}.

(** C4. Termination: for every argument, NULL included, on every platform, the
    recursion of the demangler is never deeper than its input is long: it
    returns, or stops at an identified fault; it does not run for ever. *)
Theorem demangle_terminates org n : __cxa_demangle_gnu3 org n <> NoFuel.
Proof.
  destruct org as [org|]; [|done]. cbn [__cxa_demangle_gnu3].
  apply demangle_at_fuel. unfold recursion_fuel. lia.
Qed.

(** The recursion depth is not part of the behaviour: with more levels of
    readers than the input needs the run is the same one. *)
Theorem demangle_fuel_irrelevant org fuel n :
  (recursion_fuel org <= fuel)%nat ->
  demangle_at fuel org n = __cxa_demangle_gnu3 (Some org) n.
Proof.
  intros Hf. cbn [__cxa_demangle_gnu3].
  replace fuel with (recursion_fuel org + (fuel - recursion_fuel org))%nat by lia.
  apply demangle_at_more, demangle_at_fuel. unfold recursion_fuel. lia.
Qed.

(** C7. A run that reaches its end returns NULL or a string: the string is
    completely written, live, and not empty.  With memory at hand a run on any
    bytes at all can go wrong in five ways only (all of them happen:
    [TestCases], [LexTheorems]); no string is freed twice, and no reader leaves
    a freed string in a vector. *)
Theorem demangle_result org n :
  match __cxa_demangle_gnu3 org n with
  | Ok None _ => True
  | Ok (Some m) _ => exists s, m = Bytes s /\ s <> []
  | Crash c => never_oom -> stray c
  | Fail _ | NoFuel => False
  end.
Proof.
  pose proof (fun c Hoom => demangle_stray Hoom org n c) as Hc. revert Hc.
  destruct org as [org|]; [|done]. cbn [__cxa_demangle_gnu3]. intros Hc.
  pose proof (demangle_at_good (recursion_fuel org) org n) as Hg.
  pose proof (demangle_at_no_fail (recursion_fuel org) org n) as Hf.
  assert ((length org + 2 <= recursion_fuel org)%nat) as Ht by (unfold recursion_fuel; lia).
  pose proof (demangle_at_fuel org _ n Ht) as Hn.
  destruct (demangle_at _ _ n) as [[m|] n'|n'|c|]; try done; [by apply Hg | by destruct (Hf n') | intros Ho; by apply Hc].
Qed.

Context {I : Input}.

Lemma enter_reader fuel e c :
  reader (INPUT_END - Z.of_nat fuel) c c (fun _ => True) (enter (readers fuel) e).
Proof.
  pose proof (readers_ok fuel) as []. destruct e; cbn [enter]; eauto.
  eapply reader_bind; [apply ok_type|]. intros. by apply reader_ret.
Qed.

(** The stacks a state has. *)
Definition stacks_of (s : cpp_demangle_data) : stacks :=
  K (cmds s) (depth s) (bool_decide (cur_output s = VOutput)).

Lemma holds_stacks_of s : holds (stacks_of s) s.
Proof. unfold holds, stacks_of. cbn. split_and!; try done. by intros ?%bool_decide_eq_true. Qed.

(** Each level of recursion needs a position of the input: from a position
    with [k] bytes (and the two positions behind them) left, [k + 2] levels
    are enough for any of the recursive readers. *)
Theorem reader_depth_bounded fuel e s :
  J s -> INPUT_END - cur s < Z.of_nat fuel -> enter (readers fuel) e s <> NoFuel.
Proof.
  intros Hs Hf E. pose proof (enter_reader fuel e (stacks_of s) s Hs (holds_stacks_of s)) as H.
  rewrite E in H. lia.
Qed.


(** C17. Back-references are stable: whether a reader succeeds or fails, every
    substitution candidate and template argument keeps its number and its
    string; readers only add entries after the old ones. *)
Theorem back_references_stable fuel e s i c :
  J s ->
  match enter (readers fuel) e s with
  | Ok _ s' | Fail s' =>
      (container (subst s) !! i = Some c -> container (subst s') !! i = Some c) /\
      (container (tmpl s) !! i = Some c -> container (tmpl s') !! i = Some c)
  | _ => True
  end.
Proof.
  intros Hs. pose proof (enter_reader fuel e (stacks_of s) s Hs (holds_stacks_of s)) as H.
  destruct (enter _ e s) as [? s'|s'| |]; try done.
  - destruct H as (_ & _ & _ & [_ _ H1 H2]). split; intros; by eapply prefix_lookup_Some.
  - destruct H as [_ _ H1 H2]. split; intros; by eapply prefix_lookup_Some.
Qed.
End Theorems.

(** ** The theorems at concrete inputs *)
Definition state_after {A} (o : outcome cpp_demangle_data A) : cpp_demangle_data :=
  match o with Ok _ s | Fail s => s | _ => fresh_data 0 end.

(** The type [St6vectorIPKcE], and the state in which it was read. *)
Definition example_type : Input := lit "St6vectorIPKcE".
Definition after_example : cpp_demangle_data :=
  state_after (@enter plain_platform example_type (@readers plain_platform example_type 17) (EType None) (fresh_data 0)).

Lemma fresh_J (I : Input) start : 0 <= start <= zlength input + 1 -> J (fresh_data start).
Proof. intros H. by split. Qed.

Lemma demangle_fuel_irrelevant_witness :
  @demangle_at plain_platform 100 (lit "_Z1fv") 0%nat
  = @__cxa_demangle_gnu3 plain_platform (Some (lit "_Z1fv")) 0%nat.
Proof. apply (@demangle_fuel_irrelevant plain_platform (lit "_Z1fv") 100 0). vm_compute. lia. Defined.

Lemma reader_depth_bounded_witness :
  @enter plain_platform example_type (@readers plain_platform example_type 16) (EType None) (fresh_data 0) <> NoFuel.
Proof.
  apply (@reader_depth_bounded plain_platform example_type 16 (EType None) (fresh_data 0)).
  - by apply fresh_J.
  - by vm_compute.
Defined.


(** The same state about to read the argument [PKc] once more. *)
Definition again_example : cpp_demangle_data := set_cur 10 after_example.

Lemma back_references_stable_witness :
  J (I := example_type) again_example /\
  let c := Cell 25 (Bytes (lit "char const")) in
  container (subst again_example) !! 1%nat = Some c /\
  match @enter plain_platform example_type (@readers plain_platform example_type 17) (EType None)
        again_example with
  | Ok _ s' | Fail s' =>
      (container (subst again_example) !! 1%nat = Some c -> container (subst s') !! 1%nat = Some c) /\
      (container (tmpl again_example) !! 1%nat = Some c -> container (tmpl s') !! 1%nat = Some c)
  | _ => True
  end.
Proof.
  assert (J (I := example_type) again_example) as HJ.
  { split; vm_compute; [exact Logic.I | split; discriminate]. }
  split; [exact HJ|]. split; [vm_compute; reflexivity|].
  exact (@back_references_stable plain_platform example_type 17 (EType None) again_example 1%nat
    (Cell 25 (Bytes (lit "char const"))) HJ).
Defined.
