(* ===== verification/RoundtripTheorems.v ===== *)
(** * The demangler inverts the mangling

    The round trips over [Mangling]'s fragment: complete runs of
    [__cxa_demangle_gnu3] on the mangled form of any well-formed declaration
    or type of the fragment return its C++ text. *)
From S2P Require Import Prelude CString Platform VectorStr VectorAux DemState DemQual DemLex DemReaders DemNames DemTypes Demangler DemEval DemLexEval DemSeq Mangling Roundtrip RoundtripTypes.

(** ** Declarations *)
Inductive params := NoParams | VoidParams | Params (t : ty) (ts : list ty).

(** A function template has its return type mangled too. *)
Record encoding := Encoding { e_head : component; e_tail : list component; e_ret : option ty; e_params : params }.

Definition mangle_params (ps : params) : bytes :=
  match ps with
  | NoParams => []
  | VoidParams => ["v"%char]
  | Params t ts => concat (map mangle_ty (t :: ts))
  end.

Definition mangle_ret (ret : option ty) : bytes := from_option mangle_ty [] ret.

Definition mangle_encoding (e : encoding) : bytes :=
  mangle_name (e_head e) (e_tail e) ++ mangle_ret (e_ret e) ++ mangle_params (e_params e).

Definition no_tables : tables := ([], []).
Definition name_chunks (c : component) (cs : list component) : list bytes := (d_base no_tables (Class c cs)).1.

Definition param_chunks (T : tables) (ps : params) : list bytes :=
  match ps with
  | NoParams => []
  | VoidParams => [lit "("; lit ")"]
  | Params t ts => lit "(" :: ty_chunks T t ++ tail_chunks (ty_table T t) ts ++ [lit ")"]
  end.

(** The return type is written in front, and read before the parameters. *)
Definition ret_chunks (T : tables) (ret : option ty) : list bytes :=
  from_option (fun t => ty_chunks T t ++ [lit " "]) [] ret.
Definition ret_table (T : tables) (ret : option ty) : tables := from_option (ty_table T) T ret.

(** The candidates behind the name of a function: its last is the function
    itself, and is taken back. *)
Definition name_table (c : component) (cs : list component) : tables := cand_pop (d_base no_tables (Class c cs)).2.

Definition encoding_chunks (e : encoding) : list bytes :=
  let T := name_table (e_head e) (e_tail e) in
  ret_chunks T (e_ret e) ++ name_chunks (e_head e) (e_tail e) ++ param_chunks (ret_table T (e_ret e)) (e_params e).

Definition print_encoding (e : encoding) : bytes := concat (encoding_chunks e).

(** [void] alone is a parameter list, not a parameter; and the loop over the
    types gives up after its 129th round, [n] of which are left for the
    parameters. *)
Definition is_void (b : base) : bool := match b with Void => true | _ => false end.

Definition param_ok (T : tables) (t : ty) : bool :=
  ty_ok T t && negb (is_void (base_of t) && bool_decide (quals t = [])).

Definition params_ok (n : nat) (T : tables) (ps : params) : bool :=
  match ps with
  | Params t ts => types_ok ty_table param_ok T (t :: ts) && (length (t :: ts) <=? n)%nat
  | _ => true
  end.

(** A return type is there exactly behind a name that ends in template
    arguments, and then there are parameters. *)
Definition ret_ok (T : tables) (tmpl : bool) (ret : option ty) (ps : params) : bool :=
  match ret with
  | Some t => tmpl && ty_ok T t && match ps with NoParams => false | _ => true end
  | None => negb tmpl
  end.

Definition turns_left (ret : option ty) : nat := match ret with Some _ => CPP_DEMANGLE_TRY_LIMIT | None => MORE_TRIES end.

(** The size keeps every count within [size_t]. *)
Definition encoding_ok (e : encoding) : bool :=
  let T := name_table (e_head e) (e_tail e) in
  base_ok no_tables (Class (e_head e) (e_tail e)) &&
  ret_ok T (base_tmpl (Class (e_head e) (e_tail e))) (e_ret e) (e_params e) &&
  params_ok (turns_left (e_ret e)) (ret_table T (e_ret e)) (e_params e) && (zlength (mangle_encoding e) <? 2 ^ 60).

Lemma encoding_ok_iff e : encoding_ok e = true ->
  let T := name_table (e_head e) (e_tail e) in
  base_ok no_tables (Class (e_head e) (e_tail e)) = true /\
  ret_ok T (base_tmpl (Class (e_head e) (e_tail e))) (e_ret e) (e_params e) = true /\
  params_ok (turns_left (e_ret e)) (ret_table T (e_ret e)) (e_params e) = true /\ zlength (mangle_encoding e) < 2 ^ 60.
Proof.
  unfold encoding_ok. intros [[[H1 H2]%andb_true_iff H3]%andb_true_iff H4]%andb_true_iff.
  apply Z.ltb_lt in H4. done.
Qed.

Lemma types_ok_cons next tok T t ts :
  types_ok next tok T (t :: ts) = true -> tok T t = true /\ types_ok next tok (next T t) ts = true.
Proof. by intros [? ?]%andb_true_iff. Qed.

Lemma param_ok_ty T t : param_ok T t = true -> ty_ok T t = true /\ (base_of t = Void -> quals t <> []).
Proof.
  unfold param_ok. intros [Ht Hv]%andb_true_iff. split; [done|]. intros E Hq. rewrite E in Hv. cbn in Hv.
  by rewrite bool_decide_true in Hv.
Qed.

(** ** Counting pieces *)
Lemma encoding_chunks_bound e : encoding_ok e = true -> zlength (encoding_chunks e) < 2 ^ 62.
Proof.
  intros (_ & _ & _ & Hm)%encoding_ok_iff. unfold mangle_encoding, encoding_chunks in *.
  rewrite !zlength_app in Hm. rewrite !zlength_app. destruct pieces_bound as (Ht & Hb & _).
  pose proof (Hb (Class (e_head e) (e_tail e)) no_tables) as Hn. fold (name_chunks (e_head e) (e_tail e)) in Hn.
  unfold mangle_name in Hm. pose proof (zlength_nonneg (mangle_params (e_params e))).
  pose proof (zlength_nonneg (mangle_ret (e_ret e))).
  generalize dependent (name_table (e_head e) (e_tail e)). intros T.
  pose proof (zlength_nonneg (mangle_base (Class (e_head e) (e_tail e)))).
  assert (zlength (ret_chunks T (e_ret e)) <= 2 * zlength (mangle_ret (e_ret e))) as Hr.
  { destruct (e_ret e) as [t|]; [|done]. cbn [ret_chunks mangle_ret from_option]. rewrite zlength_app.
    change (zlength [lit " "]) with 1. specialize (Ht t T). unfold ty_chunks. lia. }
  generalize (ret_table T (e_ret e)). intros T'.
  assert (zlength (param_chunks T' (e_params e)) <= 2 + 2 * zlength (mangle_params (e_params e))); [|lia].
  destruct (e_params e) as [| |t ts]; [done..|].
  cbn [param_chunks mangle_params map concat]. rewrite zlength_cons, !zlength_app. change (zlength [lit ")"]) with 1.
  pose proof (Ht t T'). pose proof (small_tail d_ty ts (proj2 (Forall_forall _ _) (fun t _ => Ht t)) (ty_table T' t)).
  unfold ty_chunks, tail_chunks in *. lia.
Qed.

(** ** Reading a declaration *)
Section Read.
Context {P : Platform} {I : Input} {R : Readers} (Hoom : never_oom).
Context {n : nat} (Hreads : reads_types R n) {d : nat}.
Abbreviation any := (fun _ => True).

(** A parameter list [(void)] prints nothing but its parenthesis. *)
Lemma does_read_void i o T b :
  o <> [] -> zlength (o ++ [lit "("]) < SIZE_MOD ->
  does (W None d i ["v"%char] o false T b) (cpp_demangle_read_type (Some (TypeDelimit false true)))
    (eq (Some (TypeDelimit true false))) (W None d (i + 1) [] (o ++ [lit "("]) false T false).
Proof using Hoom.
  intros Ho Hmod. unfold cpp_demangle_read_type. eapply does_eq; [apply does_gets_out|].
  eapply does_eq; [by apply (does_delimiter Hoom)|]. cbn [delim_chunks delim_after paren firstp app].
  eapply does_bind; [apply (does_vector_init Hoom)|].
  intros ? (v & -> & Hv). eapply does_eq; [by apply does_out_size|].
  eapply (does_eq _ (W None d (i + 1) [] (o ++ [lit "("]) false T false)).
  { apply does_loop_core; [done..|]. unfold read_type_core.
    change (builtin_type "v") with (@None string). cbn [switch].
    rewrite !decide_False by done. rewrite decide_True by done.
    intros s Hs. run1. rewrite (sees_cur _ _ Hs). cbn [v_pos firstp andb].
    replace (zdrop (i + 1) input) with (@nil ascii).
    2: { destruct (sees_pos _ _ Hs) as [Hi Hl]. cbn in Hi, Hl.
         symmetry. apply (zdrop_plus input i ["v"%char] []); [done | apply Hs | exact Hl]. }
    cbn [omit_void]. rewrite bind_ret.
    refine (does_any _ _ _ _ _ _ (does_advance1 i "v"%char [] _ _) _ s Hs).
    intros _. by apply does_ret. }
  unfold finish_type. cbn [tr_p_idx tr_is_builtin tr_skip_ref_qualifier tr_v tr_td].
  eapply does_eq; [apply does_substr_nil; [done | by destruct o | done]|].
  apply does_bind_ret. cbn [fmap option_fmap option_map].
  eapply (does_finish_end _ _ _ [] (Some (TypeDelimit true true))); [exact Hv|].
  unfold cpp_demangle_push_type_qualifier, q_size.
  destruct Hv as (_ & _ & -> & _). by apply does_ret.
Qed.

(** ** The parameter list *)
Definition sep : type_delimit := TypeDelimit true false.

Lemma does_end {e} l td h m o tries i :
  does (View i [] o false e) (demangle_types_loop l td h m tries) (eq (td, h, m)) (View i [] o false e).
Proof.
  destruct tries; cbn [demangle_types_loop]; (eapply does_eq; [apply does_peek|]);
    (apply does_if_true; [done|]); by apply does_ret.
Qed.

(** One turn of the loop over the parameter types. *)
Lemma does_turn {e} c r i o q l td m k (td' : type_delimit) w w' Q :
  c <> NUL -> c <> "@"%char ->
  does (View i (c :: r) o q e) (cpp_demangle_read_type (Some td)) (eq (Some td')) w ->
  does w (demangle_types_loop l td' false false k) Q w' ->
  does (View i (c :: r) o q e) (demangle_types_loop l td false m (S k)) Q w'.
Proof.
  intros Hc Hat Hty Hk. cbn [demangle_types_loop].
  eapply does_eq; [apply does_peek_cons|]. apply does_if_false; [done|].
  eapply does_eq; [apply does_peek1|]. apply does_if_false; [by intros [? ?]|].
  apply does_assoc. eapply does_eq; [exact Hty|]. exact Hk.
Qed.

Abbreviation shallow_types := (Forall (fun t => ty_depth t <= n)%nat).

Lemma types_no_args tok T ts : (forall T t, tok T t = true -> ty_ok T t = true) ->
  types_ok ty_table tok T ts = true -> no_args (concat (map mangle_ty ts)).
Proof. intros Htok. destruct ts as [|t ts]; [done|]. intros [Ht%Htok _]%types_ok_cons. by eapply mangle_ty_no_args. Qed.

Lemma does_more_params ts : forall i o l m tries T b,
  types_ok ty_table param_ok T ts = true -> shallow_types ts -> (length ts <= tries)%nat -> (ts = [] -> m = false) -> o <> [] ->
  zlength (o ++ tail_chunks T ts) < SIZE_MOD ->
  exists b', does (W None d i (concat (map mangle_ty ts)) o false T b) (demangle_types_loop l sep false m tries)
    (eq (sep, false, false))
    (W None d (i + zlength (concat (map mangle_ty ts))) [] (o ++ tail_chunks T ts) false (tail_run d_ty T ts).2 b').
Proof using Hoom Hreads.
  unfold tail_chunks. induction ts as [|t ts IH]; intros i o l m tries T b Hwf Hd Ht Hm Ho Hmod.
  { cbn [map concat tail_run fst snd]. rewrite app_nil_r, Z.add_0_r. exists b.
    rewrite Hm by done. apply does_end. }
  apply types_ok_cons in Hwf as [[Hty Hv]%param_ok_ty Hts]. apply Forall_cons_1 in Hd as [Hdt Hds].
  destruct tries as [|k]; [cbn in Ht; lia|].
  cbn [map concat tail_run fst snd] in *. fold (ty_chunks T t) in *. fold (ty_table T t) in *.
  pose proof (types_no_args _ _ _ (fun T t H => proj1 (param_ok_ty T t H)) Hts) as Hno.
  rewrite zlength_app, Z.add_assoc, app_comm_cons, app_assoc. rewrite app_comm_cons, app_assoc, zlength_app in Hmod.
  pose proof (zlength_nonneg (tail_run d_ty (ty_table T t) ts).1).
  pose proof (does_read_type Hoom Hreads (d := d) (u := None) t i (concat (map mangle_ty ts)) o (Some sep) T b Hty Hdt Hno (fun _ => conj Ho eq_refl)
    (fun _ => or_intror eq_refl)) as Hread.
  cbn [delim_chunks sep paren firstp app] in Hread. specialize (Hread ltac:(lia)).
  destruct (IH (i + zlength (mangle_ty t)) (o ++ lit ", " :: ty_chunks T t) l false k (ty_table T t) (ty_tmpl t)) as [b' Hmore];
    [done | done | cbn in Ht; lia | done | by destruct o | by rewrite zlength_app|]. exists b'.
  destruct (mangle_ty_head T t Hty) as (c & l' & E & _ & _ & _ & _ & Hc & _ & Hat). rewrite E in *. cbn [app] in *.
  eapply does_turn; [done | done | exact Hread | exact Hmore].
Qed.

(** ** The encoding *)
Lemma switch_outside {A} (k lo hi : Z) (cs : list (Z * A)) a :
  forallb (fun x => (x.1 <? lo) || (hi <=? x.1)) cs = true -> lo <= k < hi -> switch k cs a = a.
Proof.
  intros H Hk. apply switch_miss. revert H. induction cs as [|x cs IH]; cbn; [done|].
  intros [[H%Z.ltb_lt|H%Z.leb_le]%orb_true_iff Hcs]%andb_true_iff;
    rewrite IH, andb_true_r by done; apply negb_true_iff, Z.eqb_neq; lia.
Qed.

Lemma name_hash c cs r :
  exists a l, mangle_name c cs ++ r = a :: l /\ a <> NUL /\
    (2944 <= SIMPLE_HASH a (default NUL (head l)) < 4000 \/
     5040 <= SIMPLE_HASH a (default NUL (head l)) < 5050).
Proof.
  destruct (mangle_comp_head c) as (a & l & E & Ha). destruct cs as [|c' cs]; unfold mangle_name; cbn [mangle_base].
  - rewrite E. exists a, (l ++ r). split; [done|].
    split; [by apply digit_not_NUL|]. left. by apply digit_hash.
  - eexists _, _. split; [done|]. split; [done|]. right. rewrite E. cbn [app head].
    change (default NUL (Some a)) with a. unfold SIMPLE_HASH.
    pose proof (isdigit_range a Ha). rewrite (isdigit_schar a Ha). change (schar "N") with 78. lia.
Qed.

Lemma does_encoding i c cs r T b :
  base_ok T (Class c cs) = true -> (base_depth (Class c cs) <= n)%nat -> no_args r ->
  zlength (d_base T (Class c cs)).1 < SIZE_MOD ->
  does (W None d i (mangle_name c cs ++ r) [] false T b) cpp_demangle_read_encoding any
    (W None d (i + zlength (mangle_name c cs)) r (d_base T (Class c cs)).1 false (d_base T (Class c cs)).2 (base_tmpl (Class c cs))).
Proof using Hoom Hreads.
  intros Hok Hd Hr Hmod. pose proof (does_name Hoom Hreads (u := None) c cs d i r [] T b Hok Hd Hr Hmod) as Hn.
  destruct (name_hash c cs r) as (a & l & E & Ha & Hh). rewrite E in *.
  unfold cpp_demangle_read_encoding.
  eapply does_any; [by apply does_guard_more | intros _].
  eapply does_eq; [apply does_hash|].
  destruct Hh as [Hh|Hh]; [rewrite (switch_outside _ 2944 4000) by done | rewrite (switch_outside _ 5040 5050) by done];
    exact Hn.
Qed.

Lemma does_gets_is_tmpl w : does w (gets is_tmpl) (eq (e_tmpl (v_ext w))) w.
Proof. intros s Hs. exists (is_tmpl s), s. split; [done|]. split; [|done]. symmetry. apply Hs. Qed.

Lemma does_flat {e} i o :
  e_under e = None -> concat o <> [] ->
  does (View i [] o false e)
    (v ← vec_get VOutput; o ← on_clock (vector_str_get_flat v); mret (fst <$> o))
    (eq (Some (Bytes (concat o)))) (View i [] o false e).
Proof.
  intros He Hne. pose proof (does_vec_get (View i [] o false e)) as Hg. cbn [v_ext v_out] in Hg. rewrite He in Hg.
  eapply does_bind; [exact Hg|]. intros v Hv.
  eapply (does_eq _ _ _ (Some (Bytes (concat o), zlength (concat o)))); [|by apply does_ret].
  apply does_on_clock. intros k. destruct (vector_str_get_flat_ok v o k Hv) as (x & n' & E & _ & Hx & _ & Hsome).
  eexists _, _. split; [done|]. destruct Hx as [->| ->]; [by destruct (Hsome Hoom Hne)|done].
Qed.

Lemma does_on_fail w w' {A} (m : M A) (c : M unit) Q : does w m Q w' -> does w (on_fail m c) Q w'.
Proof.
  intros H s Hs. destruct (H s Hs) as (a & s' & E & Ha). exists a, s'. unfold on_fail. by rewrite E.
Qed.

(** What [demangle_encoding] does after the types: the closing parenthesis
    if one was opened, and no qualifier of a member function. *)
Lemma does_closing {e} i o (pa : bool) td :
  e_under e = None -> paren td = pa -> o <> [] -> concat o <> [] ->
  does (View i [] o false e)
    (on_fail
      (guard_ (negb false);;
       n ← vec_size VOutput;
       guard_ (negb (n =? 0));;
       s ← gets id;
       push_if (paren td) ")";;
       push_if (mem_vat s) " volatile";;
       push_if (mem_cst s) " const";;
       push_if (mem_rst s) " restrict";;
       push_if (mem_ref s) " &";;
       push_if (mem_rref s) " &&";;
       v ← vec_get VOutput;
       o ← on_clock (vector_str_get_flat v);
       mret (fst <$> o)) (mret tt))
    (eq (Some (Bytes (concat (o ++ if pa then [lit ")"] else []))))) (View i [] (o ++ if pa then [lit ")"] else []) false e).
Proof.
  intros He Hpa Ho Hc. apply does_on_fail, does_guard; [done|].
  eapply does_eq; [apply does_out_size; by rewrite He|]. pose proof (zlength_pos o Ho).
  apply does_guard; [by rewrite (proj2 (Z.eqb_neq _ _)) by lia|].
  intros s Hs. run1. change (id s) with s. pose proof (sees_mem _ _ Hs) as [= -> -> -> -> ->]. revert s Hs.
  eapply (does_any _ (View i [] (o ++ if pa then [lit ")"] else []) false e)).
  { rewrite Hpa. destruct pa; cbn [push_if]; [|rewrite app_nil_r; by apply does_ret].
    replace (lit ")") with (ztake 1 (lit ")")) at 2 by done. apply (does_vec_push Hoom); [done|by rewrite He]. }
  intros _. cbn [push_if]. do 5 apply does_bind_ret. apply does_flat; [done|].
  rewrite concat_app. by intros [? _]%app_nil.
Qed.

Lemma does_params i ps o l T b m tries :
  params_ok tries T ps = true -> (match ps with Params t ts => shallow_types (t :: ts) | _ => True end) ->
  (0 < tries)%nat -> (m = true -> ps <> NoParams) -> o <> [] -> zlength (o ++ param_chunks T ps) < SIZE_MOD ->
  exists td o' T' b',
    does (W None d i (mangle_params ps) o false T b)
      (demangle_types_loop l (TypeDelimit false true) false m tries)
      (eq (td, false, false)) (W None d (i + zlength (mangle_params ps)) [] o' false T' b') /\
    o' <> [] /\ (exists o'', o' = o ++ o'') /\
    o ++ param_chunks T ps = o' ++ (if paren td then [lit ")"] else []).
Proof using Hoom Hreads.
  intros Hwf Hd Htr Hm Ho Hmod. destruct tries as [|k]; [lia|].
  destruct ps as [| |t ts]; cbn [mangle_params param_chunks] in *.
  - destruct m; [by destruct (Hm eq_refl)|]. exists (TypeDelimit false true), o, T, b. rewrite Z.add_0_r. cbn [paren].
    split; [apply does_end|]. split; [done|]. split; [by exists []; rewrite app_nil_r|done].
  - exists sep, (o ++ [lit "("]), T, false. split_and!.
    + eapply (does_turn _ _ _ _ _ _ _ _ _ sep); [done | done | |apply does_end].
      apply does_read_void; [done|]. revert Hmod. rewrite !zlength_app.
      change (zlength [lit "("; lit ")"]) with 2. change (zlength [lit "("]) with 1. lia.
    + by destruct o.
    + by eexists.
    + cbn [paren sep]. by rewrite <- app_assoc.
  - cbn [params_ok] in Hwf. apply andb_true_iff in Hwf as [[[Hty Hv]%param_ok_ty Hts]%types_ok_cons Hlen%Nat.leb_le].
    cbn [length] in Hlen. apply Forall_cons_1 in Hd as [Hdt Hds].
    pose proof (does_read_type Hoom Hreads (d := d) (u := None) t i (concat (map mangle_ty ts)) o (Some (TypeDelimit false true)) T b Hty Hdt
      (types_no_args _ _ _ (fun T t H => proj1 (param_ok_ty T t H)) Hts) (fun _ => conj Ho eq_refl) (fun H => or_introl (Hv H))) as Hread.
    cbn [delim_chunks sep paren firstp app] in Hread.
    assert (zlength ((o ++ lit "(" :: ty_chunks T t) ++ tail_chunks (ty_table T t) ts) < SIZE_MOD) as Hm2.
    { revert Hmod. rewrite !zlength_app, !zlength_cons, !zlength_app.
      change (zlength [lit ")"]) with 1. lia. }
    assert (zlength (o ++ lit "(" :: ty_chunks T t) < SIZE_MOD) as Hm1.
    { revert Hm2. rewrite zlength_app. pose proof (zlength_nonneg (tail_chunks (ty_table T t) ts)). lia. }
    specialize (Hread Hm1).
    destruct (does_more_params ts (i + zlength (mangle_ty t)) (o ++ lit "(" :: ty_chunks T t) l false
      k (ty_table T t) (ty_tmpl t)) as [b' Hmore];
      [done | done | lia | done | by destruct o | done|].
    eexists sep, ((o ++ lit "(" :: ty_chunks T t) ++ tail_chunks (ty_table T t) ts), _, b'.
    split_and!.
    + cbn [map concat]. rewrite zlength_app, Z.add_assoc.
      destruct (mangle_ty_head T t Hty) as (c & l' & E & _ & _ & _ & _ & Hc & _ & Hat). rewrite E in *. cbn [app] in *.
      eapply does_turn; [done | done | exact Hread | exact Hmore].
    + by destruct o.
    + eexists. by rewrite <- app_assoc.
    + cbn [paren sep]. by rewrite <- !app_assoc.
Qed.

(** *** The return type *)

(** It is read into a vector of its own, *)
Lemma does_enter_ret i r o q T b :
  does (W None d i r o q T b)
    (modify (set_is_tmpl false);;
     v ← local_vec;
     l ← push_local v;
     modify (set_cur_output l);;
     mret (l, true))
    (eq (VLocal 0, true)) (W (Some o) d i r [] q T false).
Proof.
  eapply (does_any _ (W None d i r o q T false)).
  { intros s Hs. eexists tt, _. split; [done|]. split; [done|]. destruct Hs. by constructor. }
  intros _. eapply does_bind; [by apply (does_local_vec Hoom)|]. intros v Hv s Hs.
  destruct (sees_out _ _ Hs) as [Ho Hl]. unfold push_local, gets, mbind, comp_bind, mret, comp_ret. cbn [v_ext e_under] in *.
  rewrite Hl. eexists _, _. split; [reflexivity|]. split; [done|].
  destruct Hs. constructor; try done. cbn in *. split; [done|]. exists v. by rewrite Hl.
Qed.

(** which is put in front of the output and destroyed. *)
Lemma does_prepend i r k o q T b :
  k <> [] ->
  does (W (Some o) d i r k q T b)
    (out ← vec_get VOutput;
     ret_type ← vec_get (VLocal 0);
     '(ok, out) ← on_clock (vector_str_push_vector_head out ret_type);
     vec_set VOutput out;;
     guard_ ok)
    any (W (Some (k ++ o)) d i r k q T b).
Proof.
  intros Hk s Hs. destruct (sees_out _ _ Hs) as (Ho & v & Hl & Hv). cbn [v_out] in Hv. run1.
  unfold vec_get at 1. cbn [vec_lookup]. unfold mbind at 1, comp_bind at 1. rewrite Hl. cbn [lookup list_lookup].
  destruct (vector_str_push_vector_head_ok (output s) v o k (clock s) Ho Hv) as (ok & v' & n' & E & _ & Hv' & Hb).
  { by destruct k. }
  rewrite (Hb Hoom) in *. erewrite bind_Ok by (unfold on_clock; by rewrite E).
  eexists tt, _. split; [done|]. split; [done|]. destruct Hs. constructor; try done. cbn. split; [done|]. by exists v.
Qed.

Lemma does_leave_ret i r k o q T b (td : type_delimit) :
  does (W (Some o) d i r k q T b) (modify (set_cur_output VOutput);; drop_local;; mret (td, true))
    (eq (td, true)) (W None d i r o q T b).
Proof.
  intros s Hs. destruct (sees_out _ _ Hs) as (Ho & v & Hl & Hv). run1.
  erewrite bind_Ok.
  2: { unfold drop_local. run1. cbn [locals set_cur_output]. rewrite Hl. cbn [last].
       erewrite bind_Ok by (unfold on_clock; by rewrite (vector_str_dest_ok v k _ Hv)). reflexivity. }
  eexists _, _. split; [done|]. split; [done|]. destruct Hs. constructor; try done. cbn. by rewrite Hl.
Qed.

(** The first round of the loop over the types, where there is a return type *)
Lemma does_ret_turn t i r o T b td k Q w' :
  ty_ok T t = true -> (ty_depth t <= n)%nat -> no_args r -> zlength (ty_chunks T t) < SIZE_MOD ->
  does (W None d (i + zlength (mangle_ty t)) r ((ty_chunks T t ++ [lit " "]) ++ o) false (ty_table T t) (ty_tmpl t))
    (demangle_types_loop (VLocal 0) td false true k) Q w' ->
  does (W (Some o) d i (mangle_ty t ++ r) [] false T b) (demangle_types_loop (VLocal 0) td true false (S k)) Q w'.
Proof using Hoom Hreads.
  intros Ht Hd Hr Hmod Hk. cbn [demangle_types_loop].
  pose proof (does_read_type Hoom Hreads (d := d) (u := Some o) t i r [] None T b Ht Hd Hr ltac:(done) ltac:(by right) Hmod) as Hread.
  destruct (mangle_ty_head T t Ht) as (c & l & E & _ & _ & _ & _ & Hc & _ & Hat). rewrite E in *. cbn [app] in *.
  eapply does_eq; [apply does_peek_cons|]. apply does_if_false; [done|].
  eapply does_eq; [apply does_peek1|]. apply does_if_false; [by intros [? ?]|].
  eapply (does_eq _ _ _ (td, true)); [|exact Hk].
  eapply does_any; [apply does_on_fail | intros _; apply does_leave_ret].
  eapply does_eq; [exact Hread|].
  eapply does_any; [|intros _; by apply does_prepend; destruct (ty_chunks T t)].
  replace (lit " ") with (ztake 1 (lit " ")) at 2 by done. by apply (does_vec_push Hoom).
Qed.

(** With or without one, up to the parameters *)
Definition has_ret (ret : option ty) : bool := match ret with Some _ => true | None => false end.

Lemma does_return ret ps tmpl i r o T td :
  ret_ok T tmpl ret ps = true -> (from_option ty_depth 0%nat ret <= n)%nat -> no_args r ->
  zlength (ret_chunks T ret) < SIZE_MOD ->
  exists l b', forall (A : Type) (f : type_delimit * bool * bool -> M A) x w1 Q w',
    does (W None d (i + zlength (mangle_ret ret)) r (ret_chunks T ret ++ o) false (ret_table T ret) b')
      (demangle_types_loop l td false (has_ret ret) (turns_left ret)) (eq x) w1 ->
    does w1 (f x) Q w' ->
    does (W None d i (mangle_ret ret ++ r) o false T tmpl)
      ('(l, h) ←
         (if tmpl then
            modify (set_is_tmpl false);;
            v ← local_vec;
            l ← push_local v;
            modify (set_cur_output l);;
            mret (l, true)
          else mret (VOutput, false));
       demangle_types_loop l td h false MORE_TRIES ≫= f) Q w'.
Proof using Hoom Hreads.
  intros Hok Hd Hr Hmod. destruct ret as [t|]; cbn [ret_ok mangle_ret ret_chunks ret_table from_option has_ret] in *.
  - apply andb_true_iff in Hok as [[-> Ht]%andb_true_iff _]. exists (VLocal 0), (ty_tmpl t). intros A f x w1 Q w' Hloop Hf.
    eapply does_eq; [apply does_enter_ret|]. rewrite zlength_app in Hmod. change (zlength [lit " "]) with 1 in Hmod.
    eapply does_eq; [|exact Hf]. by apply (does_ret_turn t i r o T false td CPP_DEMANGLE_TRY_LIMIT); [..|lia|].
  - apply negb_true_iff in Hok as ->. exists VOutput, false. intros A f x w1 Q w' Hloop Hf.
    apply does_bind_ret. rewrite Z.add_0_r in Hloop. by eapply does_eq.
Qed.

(** The candidate of the function itself is taken back. *)
Lemma does_table_size i r o q T b : does (W None d i r o q T b) (vec_size VSubst) (eq (zlength T.1)) (W None d i r o q T b).
Proof.
  intros s Hs. destruct (sees_table _ _ Hs) as (T' & H1 & _ & HT). rewrite <- (HT T eq_refl) in H1.
  eexists _, s. split; [done|]. split; [|done]. symmetry. apply (vec_ok_size _ _ H1).
Qed.

Lemma does_take_back i r o q T b (more : bool) :
  does (W None d i r o q T b) (if more && (zlength T.1 >=? 1) then vec_pop VSubst else mret tt) any
    (W None d i r o q (if more then cand_pop T else T) b).
Proof.
  destruct more; cbn [andb]; [|by apply does_ret].
  destruct (zlength T.1 >=? 1) eqn:HT; [apply (does_pop_table (W None d i r o q T b))|].
  destruct T as [[|x l] A]; [by apply does_ret|].
  revert HT. cbn [fst]. rewrite zlength_cons. pose proof (zlength_nonneg l). lia.
Qed.

Definition params_depth (ps : params) : nat :=
  match ps with Params t ts => list_max (map ty_depth (t :: ts)) | _ => 0 end.

Definition encoding_depth (e : encoding) : nat :=
  (base_depth (Class (e_head e) (e_tail e)) `max` from_option ty_depth 0%nat (e_ret e)) `max` params_depth (e_params e).

Lemma params_no_args k T ps : params_ok k T ps = true -> no_args (mangle_params ps).
Proof.
  destruct ps as [| |t ts]; [done..|]. intros [Hp _]%andb_true_iff.
  exact (types_no_args _ _ _ (fun T t H => proj1 (param_ok_ty T t H)) Hp).
Qed.

(** What follows the name *)
Lemma rest_head k T tmpl ret ps :
  ret_ok T tmpl ret ps = true -> params_ok k (ret_table T ret) ps = true ->
  no_args (mangle_ret ret ++ mangle_params ps) /\
  (default NUL (head (mangle_ret ret ++ mangle_params ps)) = NUL -> ret = None /\ ps = NoParams).
Proof.
  intros Hr Hp. destruct ret as [t|]; cbn [ret_ok mangle_ret from_option app] in *.
  - apply andb_true_iff in Hr as [[_ Ht]%andb_true_iff _]. split; [by eapply mangle_ty_no_args|].
    destruct (mangle_ty_head T t Ht) as (c & l & -> & _ & _ & _ & _ & Hc & _). done.
  - split; [by eapply params_no_args|].
    destruct ps as [| |t ts]; [done..|]. cbn [params_ok] in Hp. apply andb_true_iff in Hp as [Hp _].
    apply types_ok_cons in Hp as [[Ht _]%param_ok_ty _]. cbn [mangle_params map concat].
      destruct (mangle_ty_head _ t Ht) as (c & l & -> & _ & _ & _ & _ & Hc & _). done.
Qed.

Lemma ret_params T tmpl ret ps : ret_ok T tmpl ret ps = true -> has_ret ret = true -> ps <> NoParams.
Proof. destruct ret as [t|]; [|done]. intros [_ Hps]%andb_true_iff _ ->. done. Qed.

Lemma does_demangle_encoding i e :
  encoding_ok e = true -> (encoding_depth e <= n)%nat ->
  exists w, does (W None d i (mangle_encoding e) [] false no_tables false) demangle_encoding
    (eq (Some (Bytes (print_encoding e)))) w.
Proof using Hoom Hreads.
  intros Hwf Hd. pose proof (encoding_chunks_bound e Hwf) as Hb. apply encoding_ok_iff in Hwf as (Hn & Hret & Hp & _).
  destruct e as [c cs ret ps]. unfold mangle_encoding, print_encoding, encoding_chunks, encoding_depth in *.
  cbn [e_head e_tail e_ret e_params] in *. apply Nat.max_lub_iff in Hd as [[Hdn Hdr]%Nat.max_lub_iff Hdp].
  pose proof (base_text_ne no_tables _ Hn) as Hc. fold (name_chunks c cs) in Hc.
  destruct (rest_head _ _ _ ret ps Hret Hp) as [Hno Hnul].
  assert (exists T, (if bool_decide (default NUL (head (mangle_ret ret ++ mangle_params ps)) <> NUL) then name_table c cs
      else (d_base no_tables (Class c cs)).2) = T /\
    ret_ok T (base_tmpl (Class c cs)) ret ps = true /\ params_ok (turns_left ret) (ret_table T ret) ps = true /\
    ret_chunks T ret ++ name_chunks c cs ++ param_chunks (ret_table T ret) ps
    = ret_chunks (name_table c cs) ret ++ name_chunks c cs ++ param_chunks (ret_table (name_table c cs) ret) ps)
    as (T & HT & Hret' & Hp' & Hsame).
  { case_bool_decide as HN; eexists; (split; [done|]); [done|]. destruct Hnul as [-> ->]; [|done]. by destruct (decide (default NUL (head (mangle_ret ret ++ mangle_params ps)) = NUL)). }
  rewrite <- Hsame in *. clear Hsame Hp Hret.
  assert (match ps with Params t ts => shallow_types (t :: ts) | _ => True end) as Hsh.
  { destruct ps as [| |t ts]; [done..|]. apply list_max_le in Hdp. by apply Forall_map in Hdp. }
  set (o := name_chunks c cs) in *. pose proof (pieces_ne _ Hc) as Ho.
  assert (zlength ((ret_chunks T ret ++ o) ++ param_chunks (ret_table T ret) ps) < SIZE_MOD) as Hmod
    by (rewrite <- app_assoc; unfold SIZE_MOD; lia).
  assert (zlength (ret_chunks T ret) < SIZE_MOD /\ zlength o < SIZE_MOD) as [Hm1 Hm2].
  { revert Hmod. rewrite !zlength_app. pose proof (zlength_nonneg (ret_chunks T ret)). pose proof (zlength_nonneg o).
    pose proof (zlength_nonneg (param_chunks (ret_table T ret) ps)). lia. }
  destruct (does_return ret ps (base_tmpl (Class c cs)) (i + zlength (mangle_name c cs)) (mangle_params ps) o T
    (TypeDelimit false true) Hret' Hdr) as (l & b' & Hstart); [by eapply params_no_args | done |].
  destruct (does_params (i + zlength (mangle_name c cs) + zlength (mangle_ret ret)) ps (ret_chunks T ret ++ o) l
    (ret_table T ret) b' (has_ret ret) (turns_left ret) Hp' Hsh) as (td & o' & T'' & b'' & Hloop & Ho' & [o'' Eo] & Hfinal);
    [by apply Nat.ltb_lt; destruct ret | by eapply ret_params | by destruct (ret_chunks T ret) | done |].
  rewrite (app_assoc (ret_chunks T ret)), Hfinal. eexists. unfold demangle_encoding.
  eapply does_any; [apply does_encoding; [done | done | done | exact Hm2] | intros _].
  fold (name_chunks c cs). fold o.
  eapply does_eq; [apply does_peek|]. eapply does_eq; [apply does_table_size|].
  eapply does_any; [apply does_take_back | intros _]. fold (name_table c cs). rewrite HT.
  eapply does_eq; [apply does_gets_is_tmpl|]. eapply Hstart; [exact Hloop|].
  eapply does_eq; [apply does_closing; [done | reflexivity | done|]|].
  { rewrite Eo, !concat_app. by intros [[_ ?]%app_nil _]%app_nil. }
  apply does_bind_ret. by apply does_ret.
Qed.
Lemma does_demangle_type i t T b :
  ty_ok T t = true -> (ty_depth t <= n)%nat -> zlength (ty_chunks T t) < SIZE_MOD ->
  exists w, does (W None d i (mangle_ty t) [] false T b) demangle_type (eq (Some (Bytes (print_ty T t)))) w.
Proof using Hoom Hreads.
  intros Ht Hd Hmod. eexists. unfold demangle_type. eapply does_eq.
  - pose proof (does_read_type Hoom Hreads (d := d) (u := None) t i [] [] None T b Ht Hd ltac:(done) ltac:(done) ltac:(by right) Hmod) as H.
    rewrite app_nil_r in H. exact H.
  - cbn [app delim_chunks]. apply does_flat; [done|]. by apply ty_text_ne.
Qed.
End Read.

(** ** The theorems *)
Section Theorems.
Context {P : Platform}.

Definition mangled (e : encoding) : bytes := lit "_Z" ++ mangle_encoding e.

Lemma encoding_depth_fuel e : (encoding_depth e <= recursion_fuel (mangled e))%nat.
Proof.
  unfold encoding_depth, mangled, mangle_encoding, recursion_fuel. rewrite !length_app.
  destruct depth_bound as (Ht & Hb & _). pose proof (Hb (Class (e_head e) (e_tail e))) as H. unfold mangle_name.
  assert (from_option ty_depth 0 (e_ret e) <= length (mangle_ret (e_ret e)))%nat by (destruct (e_ret e); [apply Ht | done]).
  assert (params_depth (e_params e) <= length (mangle_params (e_params e)))%nat; [|lia].
  destruct (e_params e) as [| |t ts]; cbn [params_depth mangle_params]; [lia..|].
  eapply list_max_map_le; [|done]. apply Forall_forall. intros. apply Ht.
Qed.

(** The complete run on a mangled declaration. *)
Lemma mangled_run e n :
  never_oom -> encoding_ok e = true ->
  exists n', __cxa_demangle_gnu3 (Some (mangled e)) n = Ok (Some (Bytes (print_encoding e))) n'.
Proof.
  intros Hoom Hwf. unfold __cxa_demangle_gnu3, demangle_at.
  pose proof (encoding_depth_fuel e) as Hd. unfold mangled in *.
  set (I := (lit "_Z" ++ mangle_encoding e) : Input).
  pose proof (zlength_nonneg (mangle_encoding e)).
  assert (zlength I = 2 + zlength (mangle_encoding e)) as Hlen.
  { unfold I. rewrite zlength_app. done. }
  rewrite (proj2 (Z.ltb_ge _ _)) by lia. rewrite !bool_decide_true by done. cbn [orb negb].
  change (strncmp_eq I (lit "_GLOBAL__I_") 11) with false. rewrite andb_false_r.
  destruct (does_demangle_encoding Hoom (readers_read Hoom (recursion_fuel I)) (d := 0) 2 e Hwf Hd) as [w Hw].
  apply (run_from_start Hoom 2 _ n) with (w := w); [unfold input; lia|].
  replace (zdrop 2 input) with (mangle_encoding e); [exact Hw|].
  symmetry. apply (zdrop_app (lit "_Z") (mangle_encoding e)).
Qed.


(** A string that is no encoding is demangled as a type: any type of the
    fragment, alone, returns its C++ text. *)
Theorem demangle_type_mangled t n :
  never_oom -> ty_ok no_tables t = true -> zlength (mangle_ty t) < 2 ^ 60 ->
  exists n', __cxa_demangle_gnu3 (Some (mangle_ty t)) n = Ok (Some (Bytes (print_ty no_tables t))) n'.
Proof.
  intros Hoom Hwf Hsize. unfold __cxa_demangle_gnu3, demangle_at.
  set (I := mangle_ty t : Input).
  pose proof (proj1 pieces_bound t no_tables) as Hp. fold (ty_chunks no_tables t) in Hp.
  assert ((zlength I <? 2) || negb (bool_decide (I !! 0%nat = Some "_"%char))
    || negb (bool_decide (I !! 1%nat = Some "Z"%char)) = true) as ->.
  { apply orb_true_iff. left. apply orb_true_iff. right. apply negb_true_iff, bool_decide_eq_false.
    destruct (mangle_ty_head no_tables t Hwf) as (c & l & E & _ & _ & _ & _ & _ & Hc & _). unfold I. rewrite E.
    cbn. congruence. }
  assert (ty_depth t <= recursion_fuel I)%nat as Hd.
  { pose proof (proj1 depth_bound t). unfold recursion_fuel, I. lia. }
  destruct (does_demangle_type Hoom (readers_read Hoom (recursion_fuel I)) (d := 0) 0 t no_tables false Hwf Hd) as [w Hw].
  { unfold SIZE_MOD. lia. }
  apply (run_from_start Hoom 0 _ n) with (w := w); [pose proof (zlength_nonneg (@input I)); lia|].
  rewrite zdrop_0. exact Hw.
Qed.
End Theorems.

(** ** The theorems at concrete inputs *)
Definition name (x : string) : component := plain_comp (lit x).
Definition inst (x : string) (args : list ty) : component := Comp (lit x) args.

(** [ns::cls::get(int const*, ns2::Key const&, char volatile* restrict&&, ...)] *)
Definition example_encoding : encoding :=
  Encoding (name "ns") [name "cls"; name "get"] None
    (Params (Ty [QPtr; QConst] (Builtin "i"))
       [Ty [QRef; QConst] (Class (name "ns2") [name "Key"]);
        Ty [QRRef; QRestrict; QPtr; QVolatile] (Builtin "c");
        Ty [QPtr] Void;
        Ty [] (BuiltinD "n");
        Ty [] (Builtin "z")]).

(** [ns::cls::get(ns::Key const&, ns::Key const&, ns::Key*, ns::cls&)] *)
Definition back_encoding : encoding :=
  Encoding (name "ns") [name "cls"; name "get"] None
    (Params (Ty [QRef; QConst] (Under None [] [name "Key"]))
       [Ty [] (Back (Some [3])); Ty [QPtr] (Back (Some [1])); Ty [QRef] (Back (Some [0]))]).

(** [ns::Map<int, Key>::merge(ns::Map<int, Key> const&, ns::Map<Vec<Key*>, int>::iter)] *)
Definition template_encoding : encoding :=
  Encoding (name "ns") [inst "Map" [Ty [] (Builtin "i"); Ty [] (Class (name "Key") [])]; name "merge"] None
    (Params (Ty [QRef; QConst] (Back (Some [2])))
       [Ty [] (Under (Some [0]) [Ty [] (Class (inst "Vec" [Ty [QPtr] (Back (Some [1]))]) []); Ty [] (Builtin "i")] [name "iter"])]).

(** [ns::Vec<int> ns::copy<int, ns::Key>(ns::Key const*, int)] *)
Definition function_template_encoding : encoding :=
  Encoding (name "ns") [inst "copy" [Ty [] (Builtin "i"); Ty [] (Under None [] [name "Key"])]]
    (Some (Ty [] (Under None [] [inst "Vec" [Ty [] (Param None)]])))
    (Params (Ty [QPtr; QConst] (Param (Some [0]))) [Ty [] (Param None)]).

Lemma example_encoding_ok : encoding_ok example_encoding = true.
Proof. by vm_compute. Qed.
Lemma back_encoding_ok : encoding_ok back_encoding = true.
Proof. by vm_compute. Qed.
Lemma template_encoding_ok : encoding_ok template_encoding = true.
Proof. by vm_compute. Qed.
Lemma function_template_encoding_ok : encoding_ok function_template_encoding = true.
Proof. by vm_compute. Qed.


Lemma demangle_type_mangled_witness : exists n',
  @__cxa_demangle_gnu3 plain_platform (Some (lit "PVK3abc")) 0%nat
  = Ok (Some (Bytes (lit "abc const volatile*"))) n'.
Proof.
  apply (@demangle_type_mangled plain_platform (Ty [QPtr; QVolatile; QConst] (Class (name "abc") [])) 0%nat).
  - apply plain_never_oom.
  - by vm_compute.
  - by vm_compute.
Defined.
