(* ===== verification/Compression.v ===== *)
(** * The compressing mangling

    What a compiler writes: the Itanium mangling of a declaration, where every
    component that was mangled before is replaced by its sequence id.  The
    dictionary is the one of the ABI, by equality of the components; the
    demangler keeps its own, by prefixes.  When no candidate is a proper
    prefix of an earlier one, demangling the compressed name returns the text
    of the declaration.

    The compressor works with either dictionary: what it writes with the
    demangler's keeps its text and is well formed ([encoding_kept], here), and
    where no candidate is lost the two compressors write the same
    ([CompressionTheorems.compress_same]). *)
From S2P Require Import Prelude CString Platform VectorStr VectorAux DemState DemQual DemLex DemReaders DemNames DemTypes Demangler DemEval DemLexEval DemSeq Mangling Roundtrip RoundtripTypes RoundtripTheorems.

(** ** Sequence ids *)
Fixpoint digits36 (fuel : nat) (n : Z) : list Z :=
  match fuel with
  | O => []
  | S fuel => if n <? 36 then [n] else digits36 fuel (n / 36) ++ [n mod 36]
  end.

(** The id of the candidate with number [n]. *)
Definition id_of (n : nat) : seqid :=
  match n with O => None | S k => Some (digits36 (S k) (Z.of_nat k)) end.

Lemma digits36_spec fuel : forall n, 0 <= n < Z.of_nat fuel ->
  digits36 fuel n <> [] /\ Forall (fun d => 0 <= d < 36) (digits36 fuel n) /\ seq_value (digits36 fuel n) = n.
Proof.
  induction fuel as [|fuel IH]; intros n Hn; [lia|]. cbn [digits36].
  destruct (Z.ltb_spec n 36).
  - split_and!; [done | apply Forall_singleton; lia | done].
  - pose proof (Z.mod_pos_bound n 36 ltac:(lia)). pose proof (Z.div_mod n 36 ltac:(lia)).
    destruct (IH (n / 36)) as (Hne & HF & Hv); [lia|]. split_and!.
    + by destruct (digits36 fuel (n / 36)).
    + by apply Forall_app; split; [|apply Forall_singleton].
    + unfold seq_value in *. rewrite fold_left_app, Hv. cbn. lia.
Qed.

Lemma id_of_index n : seq_index (id_of n) = Z.of_nat n.
Proof.
  destruct n as [|k]; [done|]. unfold id_of, seq_index.
  destruct (digits36_spec (S k) (Z.of_nat k)) as (_ & _ & ->); lia.
Qed.

Lemma id_of_wf n : Z.of_nat n <= LONG_MAX -> seq_wf (id_of n).
Proof.
  destruct n as [|k]; [done|]. intros Hn. unfold id_of, seq_wf.
  destruct (digits36_spec (S k) (Z.of_nat k)) as (? & ? & ->); [lia|]. split_and!; [done..|lia].
Qed.

(** ** Source text

    The C++ text of a declaration without back-references. *)
Definition wrap_text (l : list bytes) : bytes :=
  match l with
  | [] => []
  | a :: l => lit "<" ++ a ++ concat (map (fun b => lit ", " ++ b) l) ++ lit ">"
  end.

Fixpoint ty_text (t : ty) : bytes :=
  match t with Ty qs b => base_text b ++ concat (qual_chunks qs) end
with base_text (b : base) : bytes :=
  match b with
  | Builtin c => lit (default "" (builtin_type c))
  | BuiltinD c => lit (default "" (builtin_D_type c))
  | Void => lit "void"
  | Class c cs => comp_text c ++ concat (map (fun c => lit "::" ++ comp_text c) cs)
  | _ => []
  end
with comp_text (c : component) : bytes :=
  match c with Comp x args => x ++ wrap_text (map ty_text args) end.

Definition scope_text (cs : list component) : bytes := concat (map (fun c => lit "::" ++ comp_text c) cs).
Definition tail_text (ts : list ty) : bytes := concat (map (fun t => lit ", " ++ ty_text t) ts).
Definition args_text (args : list ty) : bytes := wrap_text (map ty_text args).

(** A well-formed source has no back-references. *)
Fixpoint source_ty (t : ty) : bool :=
  match t with Ty qs b => source_base b && refs_ok false qs end
with source_base (b : base) : bool :=
  match b with
  | Builtin c => bool_decide (is_Some (builtin_type c))
  | BuiltinD c => bool_decide (is_Some (builtin_D_type c))
  | Void => true
  | Class c cs =>
      negb (has_args (c_args c) && op_like (c_name c)) && source_comp c && forallb source_comp cs
      && (turns (c :: cs) <=? MAX_COMPONENTS)%nat
  | _ => false
  end
with source_comp (c : component) : bool :=
  match c with Comp x args => bool_decide (ident x) && forallb source_ty args && (length args <=? MAX_COMPONENTS)%nat end.

(** ** Compression *)
Section Compress.
Context {D : Type} (add : bytes -> D -> D) (get : D -> seqid -> bytes).
Context (arg : bytes -> D -> D) (par : D -> seqid -> bytes) (find : bytes -> D -> option seqid).
Abbreviation run := (ty_run add get arg par).
Abbreviation crun := (comp_run add get arg par).

Section Level.
Context (cty : D -> ty -> ty).

(** Each type with the dictionary that those before it leave, as they are read
    by [r] *)
Fixpoint c_types (r : D -> ty -> list bytes * D) (d : D) (ts : list ty) : list ty :=
  match ts with
  | [] => []
  | t :: ts => let t' := cty d t in t' :: c_types r (r d t').2 ts
  end.

Definition c_targs : D -> list ty -> list ty := c_types (arg_run arg run).

Definition c_comp (pre : bytes) (d : D) (c : component) : component :=
  Comp (c_name c) (c_targs (add (pre ++ c_name c) d) (c_args c)).

Fixpoint c_scope (pre : bytes) (d : D) (cs : list component) : list component :=
  match cs with
  | [] => []
  | c :: cs =>
      let pre := pre ++ lit "::" in
      let c' := c_comp pre d c in
      let a := crun pre d c' in
      c' :: c_scope (pre ++ concat a.1) a.2 cs
  end.

(** The longest beginning of the name [c::cs] behind [pre] that is in the
    dictionary; the arguments and the components that follow it *)
Fixpoint longest (d : D) (pre : bytes) (c : component) (cs : list component)
    : option (seqid * list ty * list component) :=
  let here :=
    match find (pre ++ comp_text c) d with
    | Some id => Some (id, [], cs)
    | None => if has_args (c_args c) then (fun id => (id, c_args c, cs)) <$> find (pre ++ c_name c) d else None
    end in
  match cs with
  | [] => here
  | c' :: cs' => match longest d (pre ++ comp_text c ++ lit "::") c' cs' with Some r => Some r | None => here end
  end.

Definition c_base (d : D) (b : base) : base :=
  match b with
  | Class c cs =>
      match longest d [] c cs with
      | Some (id, [], []) => Back id
      | Some (id, args, rest) =>
          let pre := get d id in let d := add pre d in
          let args' := c_targs d args in
          let a := inst_run add arg run pre d args' in
          match rest, cs with
          | [], [] => BackInst id args'
          | _, _ => Under id args' (c_scope (pre ++ concat a.1) a.2 rest)
          end
      | None =>
          let c' := c_comp [] d c in
          let a := crun [] d c' in
          Class c' (c_scope (concat a.1) a.2 cs)
      end
  | _ => b
  end.
End Level.

(** The outermost part of a type that is in the dictionary; [whole] is false
    inside a run of [const], [volatile] and [restrict], which counts as one
    qualifier.  A built-in type has no entry. *)
Definition lookup_ty (d : D) (whole : bool) (qs : list qual) (b : base) : option seqid :=
  if negb whole || (bool_decide (qs = []) && is_builtin b) then None else find (ty_text (Ty qs b)) d.

(** [b'] is the base compressed. *)
Fixpoint c_quals (d : D) (whole : bool) (qs : list qual) (b b' : base) : ty :=
  match lookup_ty d whole qs b with
  | Some id => Ty [] (Back id)
  | None =>
      match qs with
      | [] => Ty [] b'
      | q :: qs =>
          let in_run := q_is_cv q && match qs with q' :: _ => q_is_cv q' | [] => false end in
          let t := c_quals d (negb in_run) qs b b' in Ty (q :: quals t) (base_of t)
      end
  end.

(** [n] bounds the nesting of template arguments. *)
Fixpoint c_ty (n : nat) (d : D) (t : ty) : ty :=
  match n with
  | O => t
  | S n => c_quals d true (quals t) (base_of t) (c_base (c_ty n) d (base_of t))
  end.

Definition c_params (n : nat) (d : D) (ps : params) : params :=
  match ps with
  | Params t ts => let t' := c_ty n d t in Params t' (c_types (c_ty n) run (run d t').2 ts)
  | _ => ps
  end.

(** [start] is the dictionary behind the name, [empty] the first. *)
Definition c_encoding (start : component -> list component -> D) (empty : D) (e : encoding) : encoding :=
  let n := S (encoding_depth e) in
  let c := c_comp (c_ty n) [] empty (e_head e) in
  let a := crun [] empty c in
  let cs := c_scope (c_ty n) (concat a.1) a.2 (e_tail e) in
  let ret := c_ty n (start c cs) <$> e_ret e in
  Encoding c cs ret (c_params n (from_option (fun t => (run (start c cs) t).2) (start c cs) ret) (e_params e)).
End Compress.

(** ** The two dictionaries *)
Definition index_of (x : bytes) (T : tables) : option seqid := (fun p => id_of p.1) <$> list_find (fun y => y = x) T.1.

(** The ABI's: the components that occurred, in order, and whether none was a
    proper prefix of an earlier one; such a one the demangler loses.  Template
    arguments are kept as the demangler does: without template parameters in the
    source they do not matter. *)
Abbreviation dict := (tables * bool)%type.
Definition no_dict : dict := (no_tables, true).

Definition clear (x : bytes) (l : list bytes) : Prop := x ∈ l \/ Forall (fun y => ~ x `prefix_of` y) l.

#[export] Instance clear_dec x l : Decision (clear x l).
Proof. unfold clear. apply _. Defined.

Definition abi_add (x : bytes) (d : dict) : dict :=
  (if decide (x ∈ d.1.1) then d.1 else (d.1.1 ++ [x], d.1.2), d.2 && bool_decide (clear x d.1.1)).
Definition abi_get (d : dict) (id : seqid) : bytes := entry d.1 id.
Definition abi_arg (x : bytes) (d : dict) : dict := (arg_add x d.1, d.2).
Definition abi_par (d : dict) (id : seqid) : bytes := param d.1 id.
Definition abi_find (x : bytes) (d : dict) : option seqid := index_of x d.1.

Abbreviation a_ty := (ty_run abi_add abi_get abi_arg abi_par).
Abbreviation a_base := (base_run abi_add abi_get abi_arg abi_par).
Abbreviation a_comp := (comp_run abi_add abi_get abi_arg abi_par).
Abbreviation a_arg := (arg_run abi_arg a_ty).
Abbreviation a_args := (args_run abi_arg a_ty).
Abbreviation a_inst := (inst_run abi_add abi_arg a_ty).
Abbreviation a_scope := (scope_run a_comp).

(** What a function is nested in is in its dictionary, and for a function
    template its name and its arguments; the function is not. *)
Definition abi_last (pre : bytes) (d : dict) (c : component) : dict :=
  let a := if has_args (c_args c) then a_args (abi_add (pre ++ c_name c) d) (c_args c) else ([], d) in
  (a.2.1, a.2.2 && bool_decide (Forall (fun y => ~ (pre ++ c_name c ++ concat a.1) `prefix_of` y) a.2.1.1)).

Definition abi_start (c : component) (cs : list component) : dict :=
  match last cs with
  | None => abi_last [] no_dict c
  | Some c' =>
      let a := a_comp [] no_dict c in
      let b := a_scope (concat a.1) a.2 (removelast cs) in
      abi_last ((concat a.1 ++ concat b.1) ++ lit "::") b.2 c'
  end.

Definition compress (e : encoding) : encoding :=
  c_encoding abi_add abi_get abi_arg abi_par abi_find abi_start no_dict e.

(** No candidate of the compressed declaration is lost. *)
Definition ret_dict (d : dict) (ret : option ty) : dict := from_option (fun t => (a_ty d t).2) d ret.
Definition params_dict (d : dict) (ps : params) : dict :=
  match ps with Params t ts => (tail_run a_ty d (t :: ts)).2 | _ => d end.

Definition lossless (e : encoding) : bool :=
  (params_dict (ret_dict (abi_start (e_head e) (e_tail e)) (e_ret e)) (e_params e)).2.

(** No instance of a template that is not nested was written with the id of
    the template: the demangler reads that form wrong. *)
Fixpoint no_bare_ty (t : ty) : bool :=
  match t with Ty _ b => no_bare_base b end
with no_bare_base (b : base) : bool :=
  match b with
  | Class c cs => no_bare_comp c && forallb no_bare_comp cs
  | BackInst _ _ => false
  | Under _ args cs => forallb no_bare_ty args && forallb no_bare_comp cs
  | _ => true
  end
with no_bare_comp (c : component) : bool :=
  match c with Comp _ args => forallb no_bare_ty args end.

(** ** The size of the table *)
Lemma cand_add_length x T : zlength (cand_add x T).1 <= zlength T.1 + 1.
Proof. cbn [cand_add fst]. unfold list_add. destruct (existsb _ _); [lia|]. rewrite zlength_app. change (zlength [x]) with 1. lia. Qed.

Lemma cand_adds_length xs : forall T, zlength (cand_adds xs T).1 <= zlength T.1 + zlength xs.
Proof.
  induction xs as [|x xs IH]; intros T; [unfold cand_adds; cbn [fold_left]; pose proof (zlength_nonneg (@nil bytes)); lia|].
  change (cand_adds (x :: xs) T) with (cand_adds xs (cand_add x T)). specialize (IH (cand_add x T)).
  pose proof (cand_add_length x T). rewrite zlength_cons. lia.
Qed.

Lemma q_cands_length acc qs : zlength (q_cands acc qs) <= zlength qs.
Proof.
  revert acc. induction qs as [|q qs IH]; intros acc; [done|]. cbn [q_cands]. specialize (IH (acc ++ lit (q_text q))).
  destruct (_ && _); rewrite ?zlength_cons; lia.
Qed.

Section Tables.
Abbreviation small_ty := (fun t => forall T, zlength (d_ty T t).2.1 <= zlength T.1 + 2 * zlength (mangle_ty t)).
Abbreviation small_comp := (fun c => forall pre T, zlength (d_comp pre T c).2.1 + 1 <= zlength T.1 + 2 * zlength (mangle_comp c)).

Lemma table_tail run ts : Forall (fun t => forall T : tables, zlength (run T t).2.1 <= zlength T.1 + 2 * zlength (mangle_ty t)) ts ->
  forall T, zlength (tail_run run T ts).2.1 <= zlength T.1 + 2 * zlength (concat (map mangle_ty ts)).
Proof.
  induction 1 as [|t ts Ht _ IH]; intros T; [cbn; change (zlength []) with 0; lia|]. cbn [tail_run map concat snd].
  rewrite zlength_app. specialize (Ht T). specialize (IH (run T t).2). lia.
Qed.

Lemma table_inst args pre T : Forall small_ty args -> zlength (d_inst pre T args).2.1 <= zlength T.1 + 2 * zlength (mangle_args args).
Proof.
  intros Hall. rewrite mangle_args_length. destruct args as [|t ts]; [cbn; change (zlength []) with 0; lia|].
  apply Forall_cons_1 in Hall as [Ht Hts]. cbn [inst_run args_run has_args map concat snd].
  rewrite zlength_app. specialize (Ht T). pose proof (table_tail d_arg ts Hts (d_arg T t).2).
  match goal with |- zlength (cand_add ?x ?T).1 <= _ => pose proof (cand_add_length x T) end.
  cbn [arg_run arg_add fst snd] in *. lia.
Qed.

Lemma table_scope cs : Forall small_comp cs -> forall pre T, zlength (d_scope pre T cs).2.1 <= zlength T.1 + 2 * zlength (mangle_comps cs).
Proof.
  unfold mangle_comps. induction 1 as [|c cs Hc _ IH]; intros pre T; [cbn; change (zlength []) with 0; lia|].
  cbn [scope_run map concat snd]. rewrite zlength_app. specialize (Hc (pre ++ lit "::") T).
  specialize (IH ((pre ++ lit "::") ++ concat (d_comp (pre ++ lit "::") T c).1) (d_comp (pre ++ lit "::") T c).2). lia.
Qed.

Lemma table_bound :
  (forall t, small_ty t) /\
  (forall b T, zlength (d_base T b).2.1 + (if is_builtin b then 0 else 1) <= zlength T.1 + 2 * zlength (mangle_base b)) /\
  (forall c, small_comp c).
Proof.
  apply (syntax_ind small_ty
    (fun b => forall T, zlength (d_base T b).2.1 + (if is_builtin b then 0 else 1) <= zlength T.1 + 2 * zlength (mangle_base b)) small_comp).
  - intros qs b Hb T. rewrite ty_run_eq. cbn [mangle_ty snd]. specialize (Hb T). set (a := d_base T b) in *.
    pose proof (cand_adds_length ((if is_builtin b then [] else [concat a.1]) ++ q_cands (concat a.1) (rev qs)) a.2) as H.
    change (adds cand_add ?l ?t) with (cand_adds l t). rewrite zlength_app in H. rewrite zlength_app.
    pose proof (q_cands_length (concat a.1) (rev qs)) as Hq.
    assert (zlength (rev qs) = zlength qs) as Er by (unfold zlength; by rewrite length_rev).
    assert (zlength (q_char <$> qs) = zlength qs) as Ef by (unfold zlength; by rewrite length_fmap).
    pose proof (zlength_nonneg qs). destruct (is_builtin b); change (zlength []) with 0 in *; change (zlength [concat a.1]) with 1 in *; lia.
  - intros c T. change (zlength T.1 + 0 <= zlength T.1 + 2 * 1). lia.
  - intros c T. change (zlength T.1 + 0 <= zlength T.1 + 2 * 2). lia.
  - intros T. change (zlength T.1 + 0 <= zlength T.1 + 2 * 1). lia.
  - intros c cs Hc Hcs T. rewrite base_run_Class. cbn [is_builtin]. destruct (mangle_comp_head c) as (x & l & E & _).
    assert (1 <= zlength (mangle_comp c)) as Hpos by (rewrite E, zlength_cons; pose proof (zlength_nonneg l); lia).
    destruct (match cs with [] => _ | _ => _ end) eqn:Hop; cbn [snd].
    + destruct cs; [|done]. cbn [mangle_base]. lia.
    + specialize (Hc [] T). pose proof (table_scope cs Hcs (concat (d_comp [] T c).1) (d_comp [] T c).2) as Hs.
      unfold mangle_comps in Hs. destruct cs as [|c' cs]; cbn [mangle_base map] in *.
      * change (zlength (concat [])) with 0 in Hs. lia.
      * rewrite zlength_cons, !zlength_app. change (zlength ["E"%char]) with 1. lia.
  - intros id T. cbn [base_run mangle_base snd is_builtin]. unfold mangle_back.
    rewrite zlength_cons. pose proof (zlength_nonneg (seq_text id ++ ["_"%char])). lia.
  - intros id T. cbn [base_run mangle_base snd is_builtin]. unfold mangle_param.
    rewrite zlength_cons. pose proof (zlength_nonneg (seq_text id ++ ["_"%char])). lia.
  - intros id args Hargs T. rewrite base_run_BackInst. cbn [mangle_base snd is_builtin]. set (pre := entry T id).
    rewrite zlength_app. pose proof (table_inst args pre (cand_add pre T) Hargs) as Hi. pose proof (cand_add_length pre T).
    unfold mangle_args, mangle_back in *. rewrite zlength_cons, zlength_app. change (zlength ["_"%char]) with 1.
    pose proof (zlength_nonneg (seq_text id)). lia.
  - intros id args cs Hargs Hcs T. rewrite base_run_Under. cbn [mangle_base snd is_builtin]. set (pre := entry T id).
    rewrite zlength_cons, !zlength_app. pose proof (table_inst args pre (cand_add pre T) Hargs) as Hi. pose proof (cand_add_length pre T).
    pose proof (table_scope cs Hcs (pre ++ concat (d_inst pre (cand_add pre T) args).1) (d_inst pre (cand_add pre T) args).2) as Hs.
    unfold mangle_args, mangle_comps in *. pose proof (zlength_nonneg (mangle_back id)). change (zlength ["E"%char]) with 1. lia.
  - intros x args Hargs pre T. rewrite comp_run_eq. cbn [mangle_comp snd]. rewrite zlength_app.
    pose proof (table_inst args (pre ++ x) (cand_add (pre ++ x) T) Hargs) as Hi. unfold mangle_args in Hi.
    pose proof (cand_add_length (pre ++ x) T). destruct args as [|t ts].
    + cbn [map wrap_args inst_run snd] in *. destruct (sname_head x) as (c & l & -> & _). rewrite zlength_cons.
      pose proof (zlength_nonneg l). change (zlength (@nil ascii)) with 0. lia.
    + pose proof (mangle_args_length (t :: ts)) as Hl. unfold mangle_args in Hl. cbn [has_args] in Hl.
      destruct (sname_head x) as (c & l & -> & _). rewrite zlength_cons. pose proof (zlength_nonneg l). lia.
Qed.
End Tables.

(** ** With the demangler's dictionary, text and form are kept *)
Abbreviation k_ty := (c_ty cand_add entry arg_add param index_of).
Abbreviation k_types n := (c_types (k_ty n)).
Abbreviation k_targs n := (c_targs cand_add entry arg_add param (k_ty n)).
Abbreviation k_comp n := (c_comp cand_add entry arg_add param (k_ty n)).
Abbreviation k_scope n := (c_scope cand_add entry arg_add param (k_ty n)).
Abbreviation k_base n := (c_base cand_add entry arg_add param index_of (k_ty n)).

(** Every id stays within [long]. *)
Definition room (T : tables) (m : bytes) : Prop := zlength T.1 + 2 * zlength m < 2 ^ 61.

Definition good_ty (n : nat) (tok : tables -> ty -> bool) (stok : ty -> bool) : Prop :=
  forall t T, stok t = true -> (ty_depth t < n)%nat -> no_bare_ty (k_ty n T t) = true -> room T (mangle_ty (k_ty n T t)) ->
    concat (d_ty T (k_ty n T t)).1 = ty_text t /\ tok T (k_ty n T t) = true.

Lemma room_step T T' m m' : room T (m ++ m') -> zlength T'.1 <= zlength T.1 + 2 * zlength m -> room T' m'.
Proof. unfold room. rewrite zlength_app. lia. Qed.

Lemma room_l T m m' : room T (m ++ m') -> room T m.
Proof. unfold room. rewrite zlength_app. pose proof (zlength_nonneg m'). lia. Qed.

Lemma k_types_length n r ts : forall T, length (k_types n r T ts) = length ts.
Proof. induction ts as [|t ts IH]; intros T; [done|]. cbn [c_types length]. by rewrite IH. Qed.

(** [next] is the dictionary [r] leaves, where the chunks are the type's. *)
Lemma types_kept n tok stok r next : good_ty n tok stok ->
  (forall T t, r T t = ((d_ty T t).1, next T t) /\ (next T t).1 = (d_ty T t).2.1) -> forall ts T,
  forallb stok ts = true -> Forall (fun t => ty_depth t < n)%nat ts -> forallb no_bare_ty (k_types n r T ts) = true ->
  room T (concat (map mangle_ty (k_types n r T ts))) ->
  concat (tail_run r T (k_types n r T ts)).1 = tail_text ts /\ types_ok next tok T (k_types n r T ts) = true.
Proof.
  intros Hty Hr. induction ts as [|t ts IH]; intros T Hs Hd Hb Hroom; [done|].
  cbn [forallb c_types map concat] in *. apply andb_true_iff in Hs as [Hs1 Hs2], Hb as [Hb1 Hb2].
  apply Forall_cons_1 in Hd as [Hd1 Hd2]. destruct (Hty t T Hs1 Hd1 Hb1 (room_l _ _ _ Hroom)) as [E1 O1].
  destruct (Hr T (k_ty n T t)) as [Er En]. rewrite Er in *. cbn [snd] in *.
  destruct (IH (next T (k_ty n T t)) Hs2 Hd2 Hb2) as [E2 O2].
  { eapply room_step; [exact Hroom|]. rewrite En. apply table_bound. }
  cbn [tail_run types_ok]. rewrite Er. cbn [fst snd]. rewrite O1, O2. split; [|done].
  unfold tail_text in *. cbn [map concat]. by rewrite concat_app, E1, E2, <- app_assoc.
Qed.

Lemma args_text_cons t ts : args_text (t :: ts) = lit "<" ++ ty_text t ++ tail_text ts ++ lit ">".
Proof. unfold args_text, tail_text. cbn [map wrap_text]. by rewrite map_map. Qed.

Lemma inst_kept n : good_ty n ty_ok source_ty -> forall args pre T,
  forallb source_ty args = true -> (length args <=? MAX_COMPONENTS)%nat = true ->
  Forall (fun t => ty_depth t < n)%nat args -> forallb no_bare_ty (k_targs n T args) = true ->
  room T (mangle_args (k_targs n T args)) ->
  concat (d_inst pre T (k_targs n T args)).1 = args_text args /\ args_ok ty_ok T (k_targs n T args) = true.
Proof.
  intros Hty args pre T Hs Hl Hd Hb Hr.
  assert (room T (concat (map mangle_ty (k_targs n T args)))) as Hr'.
  { revert Hr. unfold room. rewrite mangle_args_length. destruct (has_args _); lia. }
  destruct (types_kept n _ _ d_arg arg_table Hty (fun _ _ => conj eq_refl eq_refl) args T Hs Hd Hb Hr') as [E O].
  unfold args_ok, c_targs in *. rewrite k_types_length, Hl, O. split; [|done].
  destruct args as [|t ts]; [done|]. cbn [c_types inst_run args_run tail_run fst concat] in *.
  rewrite !concat_app, args_text_cons. unfold tail_text in *. cbn [map concat] in *. rewrite concat_app in E.
  rewrite <- app_assoc in E. apply app_inv_head in E. rewrite (app_assoc (concat (d_arg T (k_ty n T t)).1)), E.
  rewrite <- app_assoc. cbn [concat]. by rewrite app_nil_r.
Qed.

Lemma has_args_kept n T args : has_args (k_targs n T args) = has_args args.
Proof. by destruct args. Qed.

Lemma table_of_inst pre T args : zlength (d_inst pre T args).2.1 <= zlength T.1 + 2 * zlength (mangle_args args).
Proof. apply table_inst, Forall_forall. intros t _. apply table_bound. Qed.

Lemma table_of_comp pre T c : zlength (d_comp pre T c).2.1 <= zlength T.1 + 2 * zlength (mangle_comp c).
Proof. pose proof (proj2 (proj2 table_bound) c pre T). cbn beta in *. lia. Qed.

Lemma room_args x args T : room T (mangle_comp (Comp x args)) -> room (cand_add (x) T) (mangle_args args).
Proof.
  unfold room. cbn [mangle_comp]. fold (mangle_args args). rewrite zlength_app. pose proof (cand_add_length x T).
  destruct (sname_head x) as (c & l & -> & _). rewrite zlength_cons. pose proof (zlength_nonneg l). lia.
Qed.

Section Level_kept.
Context {n : nat} (Hty : good_ty n ty_ok source_ty).

Lemma comp_kept c pre T :
  source_comp c = true -> (comp_depth c <= n)%nat -> no_bare_comp (k_comp n pre T c) = true ->
  room T (mangle_comp (k_comp n pre T c)) ->
  concat (d_comp pre T (k_comp n pre T c)).1 = comp_text c /\ comp_ok pre T (k_comp n pre T c) = true.
Proof.
  destruct c as [x args]. cbn [source_comp]. intros [[Hx Hs]%andb_true_iff Hl]%andb_true_iff Hd%comp_args_depth Hb Hr.
  unfold c_comp in *. cbn [c_name c_args no_bare_comp] in *.
  destruct (inst_kept n Hty args (pre ++ x) (cand_add (pre ++ x) T) Hs Hl Hd Hb) as [E O].
  { revert Hr. unfold room. cbn [mangle_comp]. fold (mangle_args (k_targs n (cand_add (pre ++ x) T) args)).
    rewrite zlength_app. pose proof (cand_add_length (pre ++ x) T).
    destruct (sname_head x) as (c & l & -> & _). rewrite zlength_cons. pose proof (zlength_nonneg l). lia. }
  rewrite comp_run_eq. cbn [fst comp_ok concat comp_text]. rewrite Hx, O, E. done.
Qed.

Lemma scope_kept cs : forall pre T,
  forallb source_comp cs = true -> Forall (fun c => comp_depth c <= n)%nat cs ->
  forallb no_bare_comp (k_scope n pre T cs) = true -> room T (mangle_comps (k_scope n pre T cs)) ->
  concat (d_scope pre T (k_scope n pre T cs)).1 = scope_text cs /\ scope_ok comp_ok pre T (k_scope n pre T cs) = true.
Proof.
  unfold mangle_comps. induction cs as [|c cs IH]; intros pre T Hs Hd Hb Hr; [done|].
  cbn [forallb c_scope map concat] in *. apply andb_true_iff in Hs as [Hs1 Hs2], Hb as [Hb1 Hb2].
  apply Forall_cons_1 in Hd as [Hd1 Hd2]. set (p := pre ++ lit "::") in *.
  destruct (comp_kept c p T Hs1 Hd1 Hb1 (room_l _ _ _ Hr)) as [E1 O1].
  destruct (IH (p ++ concat (d_comp p T (k_comp n p T c)).1) (d_comp p T (k_comp n p T c)).2 Hs2 Hd2 Hb2) as [E2 O2].
  { eapply room_step; [exact Hr | apply table_of_comp]. }
  cbn [scope_run fst scope_ok]. fold p. rewrite O1, O2. split; [|done].
  unfold scope_text in *. cbn [map concat]. by rewrite concat_app, E2, E1, <- app_assoc.
Qed.

Lemma turns_kept cs : forall pre T, turns (k_scope n pre T cs) = turns cs.
Proof.
  unfold turns. induction cs as [|c cs IH]; intros pre T; [done|]. cbn [c_scope sum_list_with]. rewrite IH.
  unfold c_comp. cbn [c_args]. by rewrite has_args_kept.
Qed.

Lemma index_of_Some x T id : index_of x T = Some id -> exists k, id = id_of k /\ T.1 !! k = Some x.
Proof using Type. unfold index_of. intros ([k y] & (H & -> & _)%list_find_Some & ->)%fmap_Some. by exists k. Qed.

(** What [longest] finds, and what it leaves *)
Lemma longest_spec T cs : forall pre c id args rest,
  source_comp c = true -> forallb source_comp cs = true ->
  (comp_depth c <= n)%nat -> Forall (fun c => comp_depth c <= n)%nat cs ->
  longest index_of T pre c cs = Some (id, args, rest) ->
  exists k p, id = id_of k /\ T.1 !! k = Some p /\ p <> [] /\
    pre ++ comp_text c ++ scope_text cs = p ++ args_text args ++ scope_text rest /\
    (forallb source_ty args = true /\ (length args <=? MAX_COMPONENTS)%nat = true /\ Forall (fun t => ty_depth t < n)%nat args) /\
    (forallb source_comp rest = true /\ Forall (fun c => comp_depth c <= n)%nat rest) /\
    (1 + (if has_args args then 1 else 0) + turns rest <= turns (c :: cs))%nat.
Proof using Type.
  assert (forall cs pre c id args rest,
    source_comp c = true -> forallb source_comp cs = true ->
    (comp_depth c <= n)%nat -> Forall (fun c => comp_depth c <= n)%nat cs ->
    match index_of (pre ++ comp_text c) T with
    | Some id => Some (id, [], cs)
    | None => if has_args (c_args c) then (fun id => (id, c_args c, cs)) <$> index_of (pre ++ c_name c) T else None
    end = Some (id, args, rest) ->
    exists k p, id = id_of k /\ T.1 !! k = Some p /\ p <> [] /\
      pre ++ comp_text c ++ scope_text cs = p ++ args_text args ++ scope_text rest /\
      (forallb source_ty args = true /\ (length args <=? MAX_COMPONENTS)%nat = true /\ Forall (fun t => ty_depth t < n)%nat args) /\
      (forallb source_comp rest = true /\ Forall (fun c => comp_depth c <= n)%nat rest) /\
      (1 + (if has_args args then 1 else 0) + turns rest <= turns (c :: cs))%nat) as Hhere.
  { clear. intros cs pre [x args0] id args rest Hc Hcs Hd Hds.
    pose proof Hc as Hc'. cbn [source_comp] in Hc'.
    apply andb_true_iff in Hc' as [[[Hx _]%bool_decide_eq_true Hs]%andb_true_iff Hl].
    pose proof (comp_args_depth _ _ Hd) as Hda. cbn [c_name c_args comp_text].
    change (turns (Comp x args0 :: cs)) with ((if has_args args0 then 2 else 1) + turns cs)%nat.
    destruct (index_of (pre ++ x ++ _) T) as [id'|] eqn:E.
    - apply index_of_Some in E as (k & -> & Hk). intros [= <- <- <-]. exists k, (pre ++ x ++ args_text args0).
      split; [done|]. split; [done|]. split; [by intros [_ [? _]%app_nil]%app_nil|].
      split; [cbn; by rewrite <- !app_assoc|]. split; [done|]. split; [done|].
      cbn [has_args]. destruct (has_args args0); lia.
    - destruct (has_args args0) eqn:Ha; [|done]. intros (id' & E2 & [= -> -> ->])%fmap_Some.
      apply index_of_Some in E2 as (k & -> & Hk). exists k, (pre ++ x). rewrite Ha.
      split; [done|]. split; [done|]. split; [by intros [_ ?]%app_nil|].
      split; [unfold args_text; by rewrite <- !app_assoc|]. split; [done|]. split; [done | lia]. }
  induction cs as [|c' cs IH]; intros pre c id args rest Hc Hcs Hd Hds H; cbn [longest] in H; [by eapply Hhere|].
  destruct (longest index_of T (pre ++ comp_text c ++ lit "::") c' cs) as [[[id' args'] rest']|] eqn:E; [|by eapply Hhere].
  injection H as <- <- <-. pose proof Hcs as Hcs'. cbn [forallb] in Hcs'. apply andb_true_iff in Hcs' as [Hc' Hcs'].
  apply Forall_cons_1 in Hds as [Hd' Hds].
  destruct (IH _ _ _ _ _ Hc' Hcs' Hd' Hds E) as (k & p & -> & Hk & Hp & Ht & Ha & Hr & Hn).
  exists k, p. split_and!; try done; try apply Ha; try apply Hr.
  - rewrite <- Ht. unfold scope_text. cbn [map concat]. by rewrite <- !app_assoc.
  - unfold turns in *. cbn [sum_list_with] in *. lia.
Qed.

Lemma entry_index T k (p : bytes) : T.1 !! k = Some p -> entry T (id_of k) = p.
Proof using Type. intros H. unfold entry, nth_text. by rewrite id_of_index, Nat2Z.id, H. Qed.

Lemma back_kept T k p m : T.1 !! k = Some p -> p <> [] -> room T m -> in_table T.1 (id_of k) = true.
Proof using Type.
  intros Hk Hp Hr. unfold in_table. fold (entry T (id_of k)). apply bool_decide_eq_true. rewrite (entry_index _ _ _ Hk). split; [|done].
  apply id_of_wf. apply lookup_lt_Some in Hk. unfold room, zlength, LONG_MAX in *. lia.
Qed.

Lemma under_kept T k p args rest c cs :
  T.1 !! k = Some p -> p <> [] ->
  comp_text c ++ scope_text cs = p ++ args_text args ++ scope_text rest ->
  forallb source_ty args = true -> (length args <=? MAX_COMPONENTS)%nat = true -> Forall (fun t => ty_depth t < n)%nat args ->
  forallb source_comp rest = true -> Forall (fun c => comp_depth c <= n)%nat rest ->
  (1 + (if has_args args then 1 else 0) + turns rest <= MAX_COMPONENTS)%nat -> has_args args = true \/ rest <> [] ->
  let pre := entry T (id_of k) in let d := cand_add pre T in
  let args' := k_targs n d args in let a := d_inst pre d args' in
  let b' := Under (id_of k) args' (k_scope n (pre ++ concat a.1) a.2 rest) in
  no_bare_base b' = true -> room T (mangle_base b') ->
  concat (d_base T b').1 = comp_text c ++ scope_text cs /\ base_ok T b' = true.
Proof.
  intros Hk Hp Htext Hs Hl Hd Hsr Hdr Ht Hne pre d args' a b' Hb Hr.
  assert (pre = p) as Epre by by apply entry_index.
  subst b'. cbn [no_bare_base] in Hb. apply andb_true_iff in Hb as [Hb1 Hb2].
  assert (room d (mangle_args args' ++ mangle_comps (k_scope n (pre ++ concat a.1) a.2 rest))) as Hr1.
  { revert Hr. unfold room. cbn [mangle_base]. fold (mangle_args args').
    fold (mangle_comps (k_scope n (pre ++ concat a.1) a.2 rest)). rewrite zlength_cons, !zlength_app.
    pose proof (cand_add_length pre T) as Hca. fold d in Hca. pose proof (zlength_nonneg (mangle_back (id_of k))).
    change (zlength ["E"%char]) with 1. lia. }
  destruct (inst_kept n Hty args pre d Hs Hl Hd Hb1 (room_l _ _ _ Hr1)) as [E1 O1]. fold args' in E1, O1. fold a in E1.
  destruct (scope_kept rest (pre ++ concat a.1) a.2 Hsr Hdr Hb2) as [E2 O2].
  { eapply room_step; [exact Hr1 | apply table_of_inst]. }
  rewrite base_run_Under. cbn [fst]. fold pre. fold d. fold a. split.
  - cbn [concat]. rewrite concat_app, E2, E1, Epre, Htext. done.
  - cbn [base_ok]. fold pre. fold d. fold a. rewrite (back_kept T k p _ Hk Hp Hr), O1, O2. cbn [andb].
    unfold turns. cbn [sum_list_with c_args plain_comp has_args]. fold (turns (k_scope n (pre ++ concat a.1) a.2 rest)).
    rewrite turns_kept. unfold args'. rewrite has_args_kept.
    apply andb_true_iff. split; [|apply Nat.leb_le; lia].
    destruct Hne as [->|Hne]; [done|]. apply orb_true_iff. right. apply negb_true_iff, bool_decide_eq_false.
    by destruct rest.
Qed.

Lemma class_kept c cs T :
  source_base (Class c cs) = true -> (base_depth (Class c cs) <= n)%nat ->
  let c' := k_comp n [] T c in
  let b' := Class c' (k_scope n (concat (d_comp [] T c').1) (d_comp [] T c').2 cs) in
  no_bare_base b' = true -> room T (mangle_base b') ->
  concat (d_base T b').1 = comp_text c ++ scope_text cs /\ base_ok T b' = true.
Proof.
  intros Hsrc Hd c' b' Hb Hr. cbn [source_base base_depth] in Hsrc, Hd.
  apply andb_true_iff in Hsrc as [[[Hop Hs]%andb_true_iff Hss]%andb_true_iff Ht].
  apply Nat.max_lub_iff in Hd as [Hd Hds]. apply list_max_le, Forall_map in Hds. subst b'.
  cbn [no_bare_base] in Hb. apply andb_true_iff in Hb as [Hb1 Hb2].
  set (cs' := k_scope n (concat (d_comp [] T c').1) (d_comp [] T c').2 cs) in *.
  assert (room T (mangle_comp c' ++ mangle_comps cs')) as Hr1.
  { revert Hr. unfold room. destruct cs'; cbn [mangle_base]; unfold mangle_comps; [cbn [map concat]; by rewrite app_nil_r|].
    rewrite zlength_cons, !zlength_app. change (zlength ["E"%char]) with 1. lia. }
  destruct (comp_kept c [] T Hs Hd Hb1 (room_l _ _ _ Hr1)) as [E1 O1].
  destruct (scope_kept cs (concat (d_comp [] T c').1) (d_comp [] T c').2 Hss Hds Hb2) as [E2 O2].
  { eapply room_step; [exact Hr1 | apply table_of_comp]. }
  fold c' in E1, O1. fold cs' in E2, O2. rewrite base_run_Class. rewrite <- E1. split.
  - destruct (match cs' with [] => op_like (c_name c') | _ => false end) eqn:Hn; cbn [fst]; [|by rewrite concat_app, E2].
    assert (cs = []) as -> by (destruct cs; [done | by subst cs']). change (scope_text []) with (@nil ascii).
    rewrite app_nil_r, E1. destruct c as [x args]. subst c' cs'. unfold c_comp in *. cbn [c_name c_args c_scope] in *.
    rewrite Hn, andb_true_r in Hop. destruct args as [|t ts]; [|done]. cbn. by rewrite !app_nil_r.
  - cbn [base_ok]. rewrite O1, O2. cbn [andb].
    assert (turns (c' :: cs') = turns (c :: cs)) as ->.
    { unfold turns. cbn [sum_list_with]. fold (turns cs'). fold (turns cs). subst cs'. rewrite turns_kept.
      subst c'. unfold c_comp. cbn [c_args]. by rewrite has_args_kept. }
    rewrite Ht, !andb_true_r. subst c'. unfold c_comp. cbn [c_args c_name]. by rewrite has_args_kept.
Qed.

Lemma base_kept b T :
  source_base b = true -> (base_depth b <= n)%nat -> no_bare_base (k_base n T b) = true -> room T (mangle_base (k_base n T b)) ->
  concat (d_base T (k_base n T b)).1 = base_text b /\ base_ok T (k_base n T b) = true.
Proof.
  destruct b as [c|c| |c cs|id|id|id args|id args cs]; intros Hs Hd Hb Hr; try done.
  1, 2: cbn; by rewrite app_nil_r.
  pose proof (class_kept c cs T Hs Hd) as Hclass. cbn [source_base base_depth] in Hs, Hd.
  apply andb_true_iff in Hs as [[[_ Hs1]%andb_true_iff Hs2]%andb_true_iff Ht%Nat.leb_le].
  apply Nat.max_lub_iff in Hd as [Hd1 Hd2]. apply list_max_le, Forall_map in Hd2.
  unfold c_base in *. change (base_text (Class c cs)) with (comp_text c ++ scope_text cs).
  destruct (longest index_of T [] c cs) as [[[id args] rest]|] eqn:E; [|by apply Hclass].
  destruct (longest_spec T cs [] c id args rest Hs1 Hs2 Hd1 Hd2 E) as (k & p & -> & Hk & Hp & Htx & (Ha1 & Ha2 & Ha3) & [Hr1 Hr2] & Hn).
  cbn [app] in Htx.
  pose proof (fun H => under_kept T k p args rest c cs Hk Hp Htx Ha1 Ha2 Ha3 Hr1 Hr2 ltac:(lia) H) as Hunder.
  destruct args as [|t ts], rest as [|c1 rest].
  - rewrite Htx. cbn [base_run fst concat]. rewrite (entry_index _ _ _ Hk). split; [done|]. by eapply back_kept.
  - apply Hunder; [by right | exact Hb | exact Hr].
  - destruct cs as [|c2 cs]; [done|]. apply Hunder; [by left | exact Hb | exact Hr].
  - apply Hunder; [by left | exact Hb | exact Hr].
Qed.
End Level_kept.

(** *** Types *)
Lemma qual_chunks_cons q qs : concat (qual_chunks (q :: qs)) = concat (qual_chunks qs) ++ lit (q_text q).
Proof. unfold qual_chunks. cbn [fmap list_fmap rev]. apply concat_snoc. Qed.

(** Either an entry, or the base under all the qualifiers that were walked *)
Lemma k_quals_shape T b b' : forall qs w,
  let t' := c_quals index_of T w qs b b' in
  exists qs', qs = quals t' ++ qs' /\
    ((exists k, base_of t' = Back (id_of k) /\ T.1 !! k = Some (ty_text (Ty qs' b))) \/ (qs' = [] /\ base_of t' = b')).
Proof.
  assert (forall w qs id, lookup_ty index_of T w qs b = Some id -> exists k, id = id_of k /\ T.1 !! k = Some (ty_text (Ty qs b))) as Hlook.
  { unfold lookup_ty. intros w qs id. destruct (_ || _); [done|]. apply index_of_Some. }
  induction qs as [|q qs IH]; intros w; cbn [c_quals]; destruct (lookup_ty index_of T w _ b) as [id|] eqn:E.
  - destruct (Hlook _ _ _ E) as (k & -> & Hk). exists []. split; [done|]. left. by exists k.
  - exists []. split; [done|]. by right.
  - destruct (Hlook _ _ _ E) as (k & -> & Hk). exists (q :: qs). split; [done|]. left. by exists k.
  - destruct (IH (negb (q_is_cv q && match qs with q' :: _ => q_is_cv q' | [] => false end))) as (qs' & Hqs & H).
    exists qs'. cbn [quals base_of app]. by rewrite <- Hqs.
Qed.

Lemma refs_ok_app p qs1 qs2 : refs_ok p (qs1 ++ qs2) = true -> refs_ok p qs1 = true.
Proof.
  revert p. induction qs1 as [|q qs1 IH]; intros p; [done|]. cbn [app refs_ok].
  intros [H1 H2]%andb_true_iff. rewrite H1. by eapply IH.
Qed.

Lemma qual_chunks_app qs1 qs2 : concat (qual_chunks (qs1 ++ qs2)) = concat (qual_chunks qs2) ++ concat (qual_chunks qs1).
Proof. unfold qual_chunks. by rewrite fmap_app, rev_app_distr, concat_app. Qed.

Lemma source_text_ne b : source_base b = true -> base_text b <> [].
Proof.
  destruct b as [c|c| |[x args] cs|id|id|id args|id args cs]; try done; cbn [source_base].
  - intros [s Hs]%bool_decide_eq_true. cbn [base_text]. rewrite Hs. cbn [default]. by eapply builtin_text_ne.
  - intros [s Hs]%bool_decide_eq_true. cbn [base_text]. rewrite Hs. cbn [default]. by eapply builtin_D_text_ne.
  - cbn [source_comp]. intros [[[_ [[[Hx _]%bool_decide_eq_true _]%andb_true_iff _]%andb_true_iff]%andb_true_iff _]%andb_true_iff _]%andb_true_iff.
    cbn [base_text comp_text]. by intros [[? _]%app_nil _]%app_nil.
Qed.

Lemma quals_kept T qs b b' w :
  source_ty (Ty qs b) = true ->
  (no_bare_base b' = true -> room T (mangle_base b') -> concat (d_base T b').1 = base_text b /\ base_ok T b' = true) ->
  let t' := c_quals index_of T w qs b b' in
  no_bare_ty t' = true -> room T (mangle_ty t') ->
  concat (d_ty T t').1 = ty_text (Ty qs b) /\ ty_ok T t' = true.
Proof.
  intros Hs Hb' t' Hb Hr. cbn [source_ty] in Hs. apply andb_true_iff in Hs as [Hs Hrefs].
  destruct (k_quals_shape T b b' qs w) as (qs' & Hqs & H). fold t' in Hqs, H.
  destruct t' as [qs0 b0]. cbn [quals base_of no_bare_ty mangle_ty] in *. subst qs.
  assert (room T (mangle_base b0)) as Hr0.
  { revert Hr. unfold room. rewrite zlength_app. pose proof (zlength_nonneg (q_char <$> qs0)). lia. }
  rewrite ty_run_eq. cbn [fst ty_ok ty_text]. rewrite concat_app, qual_chunks_app, (refs_ok_app _ _ _ Hrefs), andb_true_r.
  destruct H as [(k & -> & Hk)|[-> ->]].
  - cbn [ty_text] in Hk. pose proof (source_text_ne b Hs) as Hne. split.
    + cbn [base_run fst concat]. rewrite (entry_index _ _ _ Hk), app_nil_r. by rewrite <- app_assoc.
    + cbn [base_ok]. eapply back_kept; [exact Hk | by intros [? _]%app_nil | exact Hr0].
  - destruct (Hb' Hb Hr0) as [E O]. by rewrite E, O.
Qed.

Lemma k_ty_S n T t : k_ty (S n) T t = c_quals index_of T true (quals t) (base_of t) (k_base n T (base_of t)).
Proof. done. Qed.

Lemma ty_kept n : good_ty n ty_ok source_ty.
Proof.
  induction n as [|n IH]; intros [qs b] T Hs Hd Hb Hr; [lia|]. rewrite k_ty_S in *. cbn [quals base_of ty_depth] in *.
  apply quals_kept; [done | | done | done]. apply base_kept; [done | | lia].
  cbn [source_ty] in Hs. by apply andb_true_iff in Hs as [? _].
Qed.

(** *** Parameters *)
Definition source_param (t : ty) : bool := source_ty t && negb (is_void (base_of t) && bool_decide (quals t = [])).

Lemma k_base_void n T b : is_void (k_base n T b) = true -> is_void b = true.
Proof.
  destruct b as [c|c| |c cs|id|id|id args|id args cs]; try done. unfold c_base.
  destruct (longest index_of T [] c cs) as [[[id args] rest]|]; [|done].
  destruct args, rest; try done; destruct cs; done.
Qed.

Lemma param_kept n : good_ty n param_ok source_param.
Proof.
  intros t T [Hs Hv]%andb_true_iff Hd Hb Hr. destruct (ty_kept n t T Hs Hd Hb Hr) as [E O]. split; [done|].
  unfold param_ok. rewrite O. cbn [andb]. destruct n as [|n]; [lia|]. rewrite k_ty_S.
  destruct (k_quals_shape T (base_of t) (k_base n T (base_of t)) (quals t) true) as (qs' & Hqs & [(k & -> & _)|[-> ->]]); [done|].
  rewrite app_nil_r in Hqs. rewrite <- Hqs. apply negb_true_iff in Hv. apply negb_true_iff.
  destruct (is_void (k_base n T (base_of t))) eqn:Hvoid; [|done]. by rewrite (k_base_void _ _ _ Hvoid) in Hv.
Qed.

(** *** Declarations *)
Definition params_text (ps : params) : bytes :=
  match ps with
  | NoParams => []
  | VoidParams => lit "()"
  | Params t ts => lit "(" ++ ty_text t ++ tail_text ts ++ lit ")"
  end.

Definition ret_text (ret : option ty) : bytes := from_option (fun t => ty_text t ++ lit " ") [] ret.

Definition source_text (e : encoding) : bytes :=
  ret_text (e_ret e) ++ comp_text (e_head e) ++ scope_text (e_tail e) ++ params_text (e_params e).

(** A declaration without back-references *)
Definition source_params (k : nat) (ps : params) : bool :=
  match ps with
  | Params t ts => forallb source_param (t :: ts) && (length (t :: ts) <=? k)%nat
  | _ => true
  end.

Definition source_ret (tmpl : bool) (ret : option ty) (ps : params) : bool :=
  match ret with
  | Some t => tmpl && source_ty t && match ps with NoParams => false | _ => true end
  | None => negb tmpl
  end.

Definition source_ok (e : encoding) : bool :=
  source_base (Class (e_head e) (e_tail e)) &&
  source_ret (base_tmpl (Class (e_head e) (e_tail e))) (e_ret e) (e_params e) &&
  source_params (turns_left (e_ret e)) (e_params e).

Definition no_bare (e : encoding) : bool :=
  no_bare_base (Class (e_head e) (e_tail e)) && from_option no_bare_ty true (e_ret e) &&
  match e_params e with Params t ts => forallb no_bare_ty (t :: ts) | _ => true end.

Abbreviation k_params n := (c_params cand_add entry arg_add param index_of n).
Definition k_encoding (e : encoding) : encoding :=
  c_encoding cand_add entry arg_add param index_of name_table no_tables e.

Lemma scope_tmpl_kept n cs : forall pre T b, scope_tmpl b (k_scope n pre T cs) = scope_tmpl b cs.
Proof.
  induction cs as [|c cs IH]; intros pre T b; [done|]. cbn [c_scope scope_tmpl]. rewrite IH.
  unfold c_comp. cbn [c_args]. by rewrite has_args_kept.
Qed.

Lemma name_table_length c cs : zlength (name_table c cs).1 <= 2 * zlength (mangle_name c cs).
Proof.
  unfold name_table, mangle_name. pose proof (proj1 (proj2 table_bound) (Class c cs) no_tables) as H. cbn [is_builtin] in H.
  change (zlength no_tables.1) with 0 in H. cbn [cand_pop fst]. set (l := (d_base no_tables (Class c cs)).2.1) in *.
  assert (zlength (removelast l) <= zlength l); [|lia]. destruct l as [|x l] using rev_ind; [done|].
  rewrite removelast_last, zlength_app. pose proof (zlength_nonneg [x]). lia.
Qed.

Lemma ret_kept n T tmpl ret ps ps' :
  source_ret tmpl ret ps = true -> (from_option ty_depth 0 ret <= n)%nat ->
  let ret' := k_ty (S n) T <$> ret in
  from_option no_bare_ty true ret' = true -> room T (mangle_ret ret') ->
  (ps' = NoParams -> ps = NoParams) ->
  concat (ret_chunks T ret') = ret_text ret /\ ret_ok T tmpl ret' ps' = true /\ turns_left ret' = turns_left ret.
Proof.
  destruct ret as [t|]; [|done]. cbn [source_ret from_option fmap option_fmap option_map mangle_ret ret_chunks ret_text ret_ok].
  intros [[-> Hs]%andb_true_iff Hps]%andb_true_iff Hd Hb Hr Hps'.
  destruct (ty_kept (S n) t T Hs ltac:(lia) Hb Hr) as [E O]. unfold ty_chunks. rewrite concat_app, E, O.
  split; [cbn [concat]; by rewrite app_nil_r|]. split; [|done]. destruct ps'; [by rewrite (Hps' eq_refl) in Hps|done..].
Qed.

Lemma params_kept n k T ps :
  source_params k ps = true -> (params_depth ps <= n)%nat ->
  match k_params (S n) T ps with Params t ts => forallb no_bare_ty (t :: ts) | _ => true end = true ->
  room T (mangle_params (k_params (S n) T ps)) ->
  concat (param_chunks T (k_params (S n) T ps)) = params_text ps /\ params_ok k T (k_params (S n) T ps) = true.
Proof.
  destruct ps as [| |t ts]; [done..|]. cbn [source_params params_depth c_params mangle_params].
  intros [Hp Hlen]%andb_true_iff Hd Hb Hr. apply list_max_le, Forall_map in Hd.
  destruct (types_kept (S n) _ _ d_ty ty_table (param_kept (S n)) (fun _ _ => conj (surjective_pairing _) eq_refl) (t :: ts) T Hp) as [E O].
  { eapply Forall_impl; [exact Hd|]. cbn. lia. }
  { exact Hb. }
  { exact Hr. }
  cbn [c_types] in E, O. split.
  - cbn [tail_run fst concat param_chunks params_text] in *. unfold tail_text in *. cbn [map concat] in E.
    rewrite <- app_assoc, concat_app in E. apply app_inv_head in E.
    unfold ty_chunks, tail_chunks, ty_table. rewrite !concat_app.
    cbn [concat]. rewrite app_nil_r. f_equal. by rewrite app_assoc, E, <- app_assoc.
  - cbn [types_ok params_ok] in O |- *. rewrite O. cbn [andb length] in *. by rewrite k_types_length.
Qed.

Lemma k_params_none n T ps : k_params n T ps = NoParams -> ps = NoParams.
Proof. by destruct ps. Qed.

(** The compressor with the demangler's dictionary keeps the text, and what it
    writes is well formed. *)
Lemma encoding_kept e :
  source_ok e = true -> no_bare (k_encoding e) = true -> zlength (mangle_encoding (k_encoding e)) < 2 ^ 59 ->
  encoding_ok (k_encoding e) = true /\ print_encoding (k_encoding e) = source_text e.
Proof.
  destruct e as [c cs ret ps]. unfold source_ok, no_bare, k_encoding, c_encoding, encoding_ok, print_encoding, encoding_chunks, source_text, mangle_encoding.
  cbn [e_head e_tail e_ret e_params]. set (n := encoding_depth (Encoding c cs ret ps)).
  set (c' := k_comp (S n) [] no_tables c). set (cs' := k_scope (S n) (concat (d_comp [] no_tables c').1) (d_comp [] no_tables c').2 cs).
  set (T := name_table c' cs'). set (ret' := k_ty (S n) T <$> ret).
  change (from_option (fun t => (d_ty T t).2) T ret') with (ret_table T ret'). set (T' := ret_table T ret').
  intros [[Hs Hret]%andb_true_iff Hp]%andb_true_iff [[Hb Hbr]%andb_true_iff Hbp]%andb_true_iff Hsize.
  rewrite !zlength_app in Hsize. pose proof (zlength_nonneg (mangle_name c' cs')).
  pose proof (zlength_nonneg (mangle_ret ret')). pose proof (zlength_nonneg (mangle_params (k_params (S n) T' ps))).
  assert (encoding_depth (Encoding c cs ret ps) <= n)%nat as Hn by done. unfold encoding_depth in Hn.
  cbn [e_head e_tail e_ret e_params] in Hn. apply Nat.max_lub_iff in Hn as [[Hn1 Hn2]%Nat.max_lub_iff Hn3].
  pose proof (name_table_length c' cs') as Hnt. fold T in Hnt.
  destruct (class_kept (n := S n) (ty_kept (S n)) c cs no_tables Hs ltac:(lia) Hb) as [E O].
  { unfold room. change (zlength no_tables.1) with 0. fold c' cs'. unfold mangle_name in *. lia. }
  fold c' in E, O. fold cs' in E, O. fold (name_chunks c' cs') in E.
  assert (base_tmpl (Class c' cs') = base_tmpl (Class c cs)) as ->.
  { cbn [base_tmpl]. subst cs'. rewrite scope_tmpl_kept. subst c'. unfold c_comp. cbn [c_args]. by rewrite has_args_kept. }
  destruct (ret_kept n T _ ret ps (k_params (S n) T' ps) Hret Hn2 Hbr) as (Er & Or & El);
    [unfold room; fold ret'; lia | apply k_params_none|]. fold ret' in Er, Or, El.
  destruct (params_kept n _ T' ps Hp Hn3 Hbp) as [Ep Op].
  { unfold room. assert (zlength T'.1 <= zlength T.1 + 2 * zlength (mangle_ret ret')); [|lia].
    unfold T', ret_table, mangle_ret. destruct ret' as [t|]; cbn [from_option]; [apply table_bound|]. change (zlength []) with 0. lia. }
  rewrite O, Or, El, Op, !concat_app, Er, E, Ep, !zlength_app, (proj2 (Z.ltb_lt _ _)) by lia.
  split; [done|]. by rewrite <- !app_assoc.
Qed.
