(* ===== verification/CompressionTheorems.v ===== *)
(** * Compressed names are demangled

    Where no candidate is lost, the compressor of [Compression] writes the same
    with the ABI's dictionary and with the demangler's; so the demangler inverts
    the mangling that compilers use. *)
From S2P Require Import Prelude CString Platform VectorStr VectorAux DemState DemQual DemLex DemReaders DemNames DemTypes Demangler DemEval DemLexEval DemSeq Mangling Roundtrip RoundtripTypes RoundtripTheorems Compression.

(** ** The two dictionaries agree *)
Lemma prefix_test x l : existsb (is_prefix x) l = true <-> exists y, y ∈ l /\ x `prefix_of` y.
Proof. rewrite existsb_exists. by setoid_rewrite is_prefix_spec; setoid_rewrite <- list_elem_of_In. Qed.

Lemma list_add_fresh x l : Forall (fun y => ~ x `prefix_of` y) l -> list_add x l = l ++ [x].
Proof.
  intros H. unfold list_add. destruct (existsb (is_prefix x) l) eqn:E; [|done].
  apply prefix_test in E as (y & Hy & Hp). rewrite Forall_forall in H. by destruct (H y Hy).
Qed.

(** What the demangler's run gives when the ABI's lost nothing *)
Definition keeps (ok : bool) (r : list bytes * dict) (s : list bytes * tables) : Prop :=
  r.2.2 = true -> ok = true /\ s = (r.1, r.2.1).

Lemma add_keeps x T ok : (abi_add x (T, ok)).2 = true -> ok = true /\ cand_add x T = (abi_add x (T, ok)).1.
Proof.
  destruct T as [l A]. cbn [abi_add fst snd]. intros [-> Hc%bool_decide_eq_true]%andb_true_iff. split; [done|].
  unfold cand_add. cbn [fst snd]. destruct Hc as [Hx|Hx].
  - rewrite decide_True by done. unfold list_add. destruct (existsb (is_prefix x) l) eqn:E; [done|].
    assert (existsb (is_prefix x) l = true); [|congruence]. apply prefix_test. by exists x.
  - case_decide as Hin; [|by rewrite list_add_fresh]. rewrite Forall_forall in Hx. by destruct (Hx x Hin).
Qed.

Lemma adds_keep xs : forall T ok, (adds abi_add xs (T, ok)).2 = true ->
  ok = true /\ adds cand_add xs T = (adds abi_add xs (T, ok)).1.
Proof.
  induction xs as [|x xs IH]; intros T ok H; [done|].
  change (adds abi_add (x :: xs) (T, ok)) with (adds abi_add xs (abi_add x (T, ok))) in *.
  change (adds cand_add (x :: xs) T) with (adds cand_add xs (cand_add x T)).
  destruct (abi_add x (T, ok)) as [T1 ok1] eqn:E. destruct (IH T1 ok1 H) as [-> IH'].
  pose proof (add_keeps x T ok) as Ha. rewrite E in Ha. destruct (Ha eq_refl) as [-> ->]. done.
Qed.

Section Runs.
Abbreviation keep_ty := (fun t => forall T ok, keeps ok (a_ty (T, ok) t) (d_ty T t)).
Abbreviation keep_comp := (fun c => forall pre T ok, keeps ok (a_comp pre (T, ok) c) (d_comp pre T c)).

Lemma tail_keeps ra rd ts : Forall (fun t => forall T ok, keeps ok (ra (T, ok) t) (rd T t)) ts ->
  forall T ok, keeps ok (tail_run ra (T, ok) ts) (tail_run rd T ts).
Proof.
  induction 1 as [|t ts Ht _ IH]; intros T ok Hf; [done|]. cbn [tail_run fst snd] in *. specialize (Ht T ok).
  destruct (ra (T, ok) t) as [k [T1 ok1]]. cbn [fst snd] in *. destruct (IH T1 ok1 Hf) as [-> E].
  destruct (Ht eq_refl) as [-> ->]. cbn [fst snd]. by rewrite E.
Qed.

Lemma arg_keeps t : keep_ty t -> forall T ok, keeps ok (a_arg (T, ok) t) (d_arg T t).
Proof.
  intros Ht T ok Hf. unfold arg_run in *. cbn [fst snd] in *. destruct (Ht T ok Hf) as [-> ->]. done.
Qed.

Lemma args_keeps args : Forall keep_ty args -> forall T ok, keeps ok (a_args (T, ok) args) (d_args T args).
Proof.
  intros Hall T ok Hf. destruct args as [|t ts]; [done|]. apply Forall_cons_1 in Hall as [Ht Hts].
  cbn [args_run fst snd] in *. pose proof (arg_keeps t Ht T ok) as Ha.
  destruct (a_arg (T, ok) t) as [k [T1 ok1]]. cbn [fst snd] in *.
  destruct (tail_keeps a_arg d_arg ts (Forall_impl _ _ _ Hts arg_keeps) T1 ok1 Hf) as [-> E].
  destruct (Ha eq_refl) as [-> ->]. cbn [fst snd] in *. by rewrite E.
Qed.

Lemma inst_keeps args pre : Forall keep_ty args -> forall T ok, keeps ok (a_inst pre (T, ok) args) (d_inst pre T args).
Proof.
  intros Hall T ok Hf. pose proof (args_keeps args Hall T ok) as Ha. destruct args as [|t ts]; [done|].
  set (args := t :: ts) in *.
  change (a_inst pre (T, ok) args) with (let a := a_args (T, ok) args in (a.1, abi_add (pre ++ concat a.1) a.2)) in *.
  change (d_inst pre T args) with (let a := d_args T args in (a.1, cand_add (pre ++ concat a.1) a.2)).
  destruct (a_args (T, ok) args) as [k [T1 ok1]]. cbn [fst snd] in *.
  apply add_keeps in Hf as [-> Ea]. destruct (Ha eq_refl) as [-> ->]. cbn [fst snd]. by rewrite Ea.
Qed.

Lemma scope_keeps cs : Forall keep_comp cs -> forall pre T ok, keeps ok (a_scope pre (T, ok) cs) (d_scope pre T cs).
Proof.
  induction 1 as [|c cs Hc _ IH]; intros pre T ok Hf; [done|]. cbn [scope_run fst snd] in *. specialize (Hc (pre ++ lit "::") T ok).
  destruct (a_comp (pre ++ lit "::") (T, ok) c) as [k [T1 ok1]]. cbn [fst snd] in *.
  destruct (IH _ T1 ok1 Hf) as [-> E]. destruct (Hc eq_refl) as [-> ->]. cbn [fst snd]. by rewrite E.
Qed.

Lemma runs_agree :
  (forall t, keep_ty t) /\ (forall b T ok, keeps ok (a_base (T, ok) b) (d_base T b)) /\ (forall c, keep_comp c).
Proof.
  apply (syntax_ind keep_ty (fun b => forall T ok, keeps ok (a_base (T, ok) b) (d_base T b)) keep_comp); try done.
  - intros qs b Hb T ok Hf. rewrite !ty_run_eq in *. cbn [fst snd] in *. specialize (Hb T ok).
    destruct (a_base (T, ok) b) as [k [T1 ok1]]. cbn [fst snd] in *. apply adds_keep in Hf as [-> E].
    destruct (Hb eq_refl) as [-> ->]. cbn [fst snd]. by rewrite E.
  - intros c cs Hc Hcs T ok Hf. rewrite !base_run_Class in *.
    destruct (match cs with [] => _ | _ => _ end); [done|]. cbn [fst snd] in *. specialize (Hc [] T ok).
    destruct (a_comp [] (T, ok) c) as [k [T1 ok1]]. cbn [fst snd] in *.
    destruct (scope_keeps cs Hcs _ T1 ok1 Hf) as [-> E]. destruct (Hc eq_refl) as [-> ->]. cbn [fst snd]. by rewrite E.
  - intros id args Hargs T ok Hf. rewrite !base_run_BackInst in *. cbn [fst snd] in *.
    change (abi_get (T, ok) id) with (entry T id) in *.
    pose proof (add_keeps (entry T id) T ok) as Ha. destruct (abi_add (entry T id) (T, ok)) as [T1 ok1].
    destruct (inst_keeps args _ Hargs T1 ok1 Hf) as [-> E]. destruct (Ha eq_refl) as [-> Ea]. cbn [fst] in Ea.
    by rewrite Ea, E.
  - intros id args cs Hargs Hcs T ok Hf. rewrite !base_run_Under in *. cbn [fst snd] in *.
    change (abi_get (T, ok) id) with (entry T id) in *.
    pose proof (add_keeps (entry T id) T ok) as Ha. destruct (abi_add (entry T id) (T, ok)) as [T1 ok1].
    pose proof (inst_keeps args (entry T id) Hargs T1 ok1) as Hi.
    destruct (a_inst (entry T id) (T1, ok1) args) as [k [T2 ok2]]. cbn [fst snd] in *.
    destruct (scope_keeps cs Hcs _ T2 ok2 Hf) as [-> Es]. destruct (Hi eq_refl) as [-> E]. destruct (Ha eq_refl) as [-> Ea].
    cbn [fst] in Ea. rewrite Ea, E. cbn [fst snd] in *. by rewrite Es.
  - intros x args Hargs pre T ok Hf. rewrite !comp_run_eq in *. cbn [fst snd] in *.
    pose proof (add_keeps (pre ++ x) T ok) as Ha. destruct (abi_add (pre ++ x) (T, ok)) as [T1 ok1].
    destruct (inst_keeps args _ Hargs T1 ok1 Hf) as [-> E]. destruct (Ha eq_refl) as [-> Ea]. cbn [fst] in Ea.
    by rewrite Ea, E.
Qed.
End Runs.

(** ** The two compressors agree *)
Abbreviation l_ty := (c_ty abi_add abi_get abi_arg abi_par abi_find).
Abbreviation l_types n := (c_types (l_ty n)).
Abbreviation l_targs n := (c_targs abi_add abi_get abi_arg abi_par (l_ty n)).
Abbreviation l_comp n := (c_comp abi_add abi_get abi_arg abi_par (l_ty n)).
Abbreviation l_scope n := (c_scope abi_add abi_get abi_arg abi_par (l_ty n)).
Abbreviation l_base n := (c_base abi_add abi_get abi_arg abi_par abi_find (l_ty n)).

Lemma ty_keeps t T ok : keeps ok (a_ty (T, ok) t) (d_ty T t).
Proof. apply runs_agree. Qed.
Lemma comp_keeps c pre T ok : keeps ok (a_comp pre (T, ok) c) (d_comp pre T c).
Proof. apply runs_agree. Qed.
Lemma arg_kept t T ok : keeps ok (a_arg (T, ok) t) (d_arg T t).
Proof. apply arg_keeps, runs_agree. Qed.
Lemma insts_kept args pre T ok : keeps ok (a_inst pre (T, ok) args) (d_inst pre T args).
Proof. apply inst_keeps, Forall_forall. intros t _. apply runs_agree. Qed.
Lemma scopes_kept cs pre T ok : keeps ok (a_scope pre (T, ok) cs) (d_scope pre T cs).
Proof. apply scope_keeps, Forall_forall. intros c _. apply runs_agree. Qed.

Definition same_ty (n : nat) (stok : ty -> bool) : Prop :=
  forall t T ok, stok t = true -> (a_ty (T, ok) (l_ty n (T, ok) t)).2.2 = true -> k_ty n T t = l_ty n (T, ok) t.

Section Same.
Context {n : nat}.

(** [ra] and [rd] read a type, in the two dictionaries. *)
Lemma types_same stok ra rd (Hty : same_ty n stok)
    (Hr : forall t T ok, keeps ok (ra (T, ok) t) (rd T t) /\ (ra (T, ok) t).2.2 = (a_ty (T, ok) t).2.2) ts : forall T ok,
  forallb stok ts = true -> (tail_run ra (T, ok) (l_types n ra (T, ok) ts)).2.2 = true ->
  k_types n rd T ts = l_types n ra (T, ok) ts.
Proof using Type.
  induction ts as [|t ts IH]; intros T ok Hs Hf; [done|]. cbn [forallb c_types tail_run snd] in *.
  apply andb_true_iff in Hs as [Hs1 Hs2]. pose proof (Hty t T ok Hs1) as H.
  destruct (Hr (l_ty n (T, ok) t) T ok) as [Hk Hok]. rewrite <- Hok in H.
  destruct (ra (T, ok) (l_ty n (T, ok) t)) as [k [T1 ok1]]. cbn [fst snd] in *.
  pose proof (IH T1 ok1 Hs2 Hf) as E.
  destruct (tail_keeps ra rd _ (proj2 (Forall_forall _ _) (fun t _ T ok => proj1 (Hr t T ok))) T1 ok1 Hf) as [-> _].
  destruct (Hk eq_refl) as [-> Er]. rewrite (H eq_refl), Er. cbn [fst snd]. by rewrite E.
Qed.

Context (Hty : same_ty n source_ty).

(** Arguments, alone and in an instance *)
Lemma targs_same args T ok :
  forallb source_ty args = true -> (tail_run a_arg (T, ok) (l_targs n (T, ok) args)).2.2 = true ->
  k_targs n T args = l_targs n (T, ok) args.
Proof. apply (types_same _ _ _ Hty). intros t T' ok'. split; [apply arg_kept | done]. Qed.

Lemma args_same args T ok :
  forallb source_ty args = true -> (a_args (T, ok) (l_targs n (T, ok) args)).2.2 = true ->
  k_targs n T args = l_targs n (T, ok) args.
Proof. intros Hs Hf. apply targs_same; [done|]. by destruct args as [|t ts]. Qed.

Lemma inst_same pre args T ok :
  forallb source_ty args = true -> (a_inst pre (T, ok) (l_targs n (T, ok) args)).2.2 = true ->
  k_targs n T args = l_targs n (T, ok) args.
Proof.
  intros Hs Hf. apply args_same; [done|]. destruct args as [|t ts]; [done|].
  set (l := l_targs n (T, ok) (t :: ts)) in *.
  change (a_inst pre (T, ok) l) with (let a := a_args (T, ok) l in (a.1, abi_add (pre ++ concat a.1) a.2)) in Hf.
  destruct (a_args (T, ok) l) as [k [T1 ok1]]. cbn [fst snd] in *. by apply add_keeps in Hf as [-> _].
Qed.

Lemma comp_same pre c T ok :
  source_comp c = true -> (a_comp pre (T, ok) (l_comp n pre (T, ok) c)).2.2 = true ->
  k_comp n pre T c = l_comp n pre (T, ok) c.
Proof.
  destruct c as [x args]. unfold c_comp. cbn [source_comp c_name c_args]. rewrite comp_run_eq. cbn [snd].
  intros [[_ Hs]%andb_true_iff _]%andb_true_iff Hf.
  pose proof (add_keeps (pre ++ x) T ok) as Ha. destruct (abi_add (pre ++ x) (T, ok)) as [T1 ok1]. cbn [fst snd] in Ha.
  pose proof (inst_same _ args T1 ok1 Hs Hf) as E. destruct (insts_kept _ _ T1 ok1 Hf) as [-> _].
  destruct (Ha eq_refl) as [-> ->]. by rewrite E.
Qed.

Lemma scope_same cs : forall pre T ok,
  forallb source_comp cs = true -> (a_scope pre (T, ok) (l_scope n pre (T, ok) cs)).2.2 = true ->
  k_scope n pre T cs = l_scope n pre (T, ok) cs.
Proof.
  induction cs as [|c cs IH]; intros pre T ok Hs Hf; [done|]. cbn [forallb c_scope scope_run snd] in *.
  apply andb_true_iff in Hs as [Hs1 Hs2]. set (p := pre ++ lit "::") in *. pose proof (comp_same p c T ok Hs1) as H.
  pose proof (comp_keeps (l_comp n p (T, ok) c) p T ok) as Hk.
  destruct (a_comp p (T, ok) (l_comp n p (T, ok) c)) as [k [T1 ok1]]. cbn [fst snd] in *.
  pose proof (IH _ T1 ok1 Hs2 Hf) as E. destruct (scopes_kept _ _ T1 ok1 Hf) as [-> _]. destruct (Hk eq_refl) as [-> Er].
  rewrite (H eq_refl), Er. cbn [fst snd]. by rewrite E.
Qed.

Lemma longest_same T ok cs : forall pre c, longest abi_find (T, ok) pre c cs = longest index_of T pre c cs.
Proof using Type. induction cs as [|c' cs IH]; intros pre c; cbn [longest]; [done|]. by rewrite IH. Qed.

(** What is left of a name in the dictionary is well formed. *)
Lemma longest_source d cs : forall pre c id args rest,
  source_comp c = true -> forallb source_comp cs = true -> longest abi_find d pre c cs = Some (id, args, rest) ->
  forallb source_ty args = true /\ forallb source_comp rest = true.
Proof using Type.
  assert (forall pre c cs id args rest, source_comp c = true -> forallb source_comp cs = true ->
    match abi_find (pre ++ comp_text c) d with
    | Some id => Some (id, [], cs)
    | None => if has_args (c_args c) then (fun id => (id, c_args c, cs)) <$> abi_find (pre ++ c_name c) d else None
    end = Some (id, args, rest) -> forallb source_ty args = true /\ forallb source_comp rest = true) as Hhere.
  { intros pre [x args0] cs0 id args rest [[_ Hs]%andb_true_iff _]%andb_true_iff Hcs.
    destruct (abi_find _ d); [by intros [= <- <- <-]|]. cbn [c_args]. destruct (has_args args0); [|done].
    by intros (id' & _ & [= <- <- <-])%fmap_Some. }
  induction cs as [|c' cs IH]; intros pre c id args rest Hc Hcs H; cbn [longest] in H; [by eapply Hhere|].
  destruct (longest abi_find d _ c' cs) as [[[id' args'] rest']|] eqn:E; [|by eapply Hhere].
  injection H as <- <- <-. cbn [forallb] in Hcs. apply andb_true_iff in Hcs as [Hc' Hcs']. by eapply IH.
Qed.

Lemma under_same T ok id args rest :
  forallb source_ty args = true -> forallb source_comp rest = true ->
  let pre := entry T id in
  let dl := abi_add pre (T, ok) in let al := a_inst pre dl (l_targs n dl args) in
  let d := cand_add pre T in let a := d_inst pre d (k_targs n d args) in
  (a_scope (pre ++ concat al.1) al.2 (l_scope n (pre ++ concat al.1) al.2 rest)).2.2 = true ->
  k_targs n d args = l_targs n dl args /\
  k_scope n (pre ++ concat a.1) a.2 rest = l_scope n (pre ++ concat al.1) al.2 rest.
Proof.
  intros Hs Hr pre dl al d a Hf. subst dl al d a. pose proof (add_keeps pre T ok) as Ha.
  destruct (abi_add pre (T, ok)) as [T1 ok1]. cbn [fst snd] in Ha.
  pose proof (inst_same pre args T1 ok1 Hs) as Hsame. pose proof (insts_kept (l_targs n (T1, ok1) args) pre T1 ok1) as Hi.
  destruct (a_inst pre (T1, ok1) (l_targs n (T1, ok1) args)) as [k [T2 ok2]]. cbn [fst snd] in *.
  pose proof (scope_same rest _ T2 ok2 Hr Hf) as E. destruct (scopes_kept _ _ T2 ok2 Hf) as [-> _].
  destruct (Hi eq_refl) as [-> Er]. destruct (Ha eq_refl) as [-> ->]. rewrite (Hsame eq_refl). split; [done|].
  rewrite Er. cbn [fst snd]. exact E.
Qed.

Lemma base_same b T ok :
  source_base b = true -> (a_base (T, ok) (l_base n (T, ok) b)).2.2 = true -> k_base n T b = l_base n (T, ok) b.
Proof.
  destruct b as [c|c| |c cs|id|id|id args|id args cs]; try done. cbn [source_base]. unfold c_base.
  intros [[[Hop Hs]%andb_true_iff Hss]%andb_true_iff _]%andb_true_iff Hf.
  pose proof (fun id args rest => longest_source (T, ok) cs [] c id args rest Hs Hss) as Hl.
  rewrite longest_same in *. destruct (longest index_of T [] c cs) as [[[id args] rest]|] eqn:E.
  - destruct (Hl _ _ _ eq_refl) as [Ha Hr]. change (abi_get (T, ok) id) with (entry T id) in *.
    pose proof (under_same T ok id args rest Ha Hr) as H. cbv zeta in H.
    destruct args as [|t ts], rest as [|c1 rest], cs as [|c2 cs]; try done;
      rewrite ?base_run_BackInst, ?base_run_Under in Hf; cbn [snd] in Hf; destruct (H Hf) as [-> E2];
      try done; f_equal; exact E2.
  - rewrite base_run_Class in Hf.
    set (c' := l_comp n [] (T, ok) c) in *.
    destruct (match l_scope n _ _ cs with [] => op_like (c_name c') | _ => false end) eqn:Hn.
    + destruct cs as [|c2 cs]; [|done]. cbn [c_scope] in *. f_equal. subst c'. destruct c as [x args]. unfold c_comp in *.
      cbn [c_args c_name] in *. rewrite Hn, andb_true_r in Hop. by destruct args.
    + cbn [snd] in Hf. pose proof (comp_same [] c T ok Hs) as H. fold c' in H. pose proof (comp_keeps c' [] T ok) as Hk.
      destruct (a_comp [] (T, ok) c') as [k [T1 ok1]]. cbn [fst snd] in *.
      pose proof (scope_same cs _ T1 ok1 Hss Hf) as E2. destruct (scopes_kept _ _ T1 ok1 Hf) as [-> _].
      destruct (Hk eq_refl) as [-> Er]. rewrite (H eq_refl), Er. cbn [fst snd]. by rewrite E2.
Qed.
End Same.

(** The base counts only where no entry was found. *)
Lemma quals_same T ok qs b b1 b2 : forall w,
  (base_of (c_quals abi_find (T, ok) w qs b b2) = b2 -> b1 = b2) ->
  c_quals index_of T w qs b b1 = c_quals abi_find (T, ok) w qs b b2.
Proof.
  induction qs as [|q qs IH]; intros w H; cbn [c_quals] in *;
    change (lookup_ty abi_find (T, ok) w ?x b) with (lookup_ty index_of T w x b) in *;
    destruct (lookup_ty index_of T w _ b); try done.
  - by rewrite H.
  - cbn [base_of] in H. by rewrite IH.
Qed.

Lemma ty_same n : same_ty n source_ty.
Proof.
  induction n as [|n IH]; intros [qs b] T ok Hs Hf; [done|]. cbn [c_ty quals base_of] in *.
  cbn [source_ty] in Hs. apply andb_true_iff in Hs as [Hs _]. apply quals_same. intros Hbase.
  apply (base_same IH); [done|].
  change (l_ty (S n) (T, ok) (Ty qs b))
    with (c_quals abi_find (T, ok) true qs b (l_base n (T, ok) b)) in Hf.
  destruct (c_quals abi_find (T, ok) true qs b (l_base n (T, ok) b)) as [qs' b'] eqn:E. cbn [base_of] in Hbase. subst b'.
  rewrite ty_run_eq in Hf. cbn [snd] in Hf.
  destruct (a_base (T, ok) (l_base n (T, ok) b)) as [k [T1 ok1]]. cbn [fst snd] in *.
  by apply adds_keep in Hf as [-> _].
Qed.

(** *** Declarations *)
Lemma scope_prefix (a b c d : bytes) : a ++ b ++ c ++ d = ((a ++ b) ++ c) ++ d.
Proof. by rewrite <- !app_assoc. Qed.

Lemma scope_run_snoc {D} add get arg par c cs : forall pre (d : D),
  let a := scope_run (comp_run add get arg par) pre d cs in
  let b := comp_run add get arg par ((pre ++ concat a.1) ++ lit "::") a.2 c in
  scope_run (comp_run add get arg par) pre d (cs ++ [c]) = (a.1 ++ lit "::" :: b.1, b.2).
Proof.
  induction cs as [|c' cs IH]; intros pre d.
  - cbn [app scope_run fst snd concat]. by rewrite !app_nil_r.
  - cbn [app scope_run fst snd]. rewrite IH. cbn [fst snd concat]. rewrite concat_app, (scope_prefix pre). do 2 f_equal. cbn [app]. apply app_assoc.
Qed.

Lemma c_scope_snoc {D} add get arg par (cty : D -> ty -> ty) c cs : forall pre d,
  let cs' := c_scope add get arg par cty pre d cs in
  let a := scope_run (comp_run add get arg par) pre d cs' in
  c_scope add get arg par cty pre d (cs ++ [c])
  = cs' ++ [c_comp add get arg par cty ((pre ++ concat a.1) ++ lit "::") a.2 c].
Proof.
  induction cs as [|c' cs IH]; intros pre d; cbn [app c_scope scope_run fst snd concat].
  - by rewrite app_nil_r.
  - rewrite IH. by rewrite concat_app, (scope_prefix pre).
Qed.

(** The function itself *)
Lemma last_same n pre c T ok :
  source_comp c = true ->
  let c' := l_comp n pre (T, ok) c in
  (abi_last pre (T, ok) c').2 = true ->
  ok = true /\ k_comp n pre T c = c' /\ cand_pop (d_comp pre T c').2 = (abi_last pre (T, ok) c').1.
Proof.
  destruct c as [x args]. unfold c_comp, abi_last. cbv zeta. cbn [source_comp c_name c_args].
  intros [[_ Hs]%andb_true_iff _]%andb_true_iff.
  assert (has_args (l_targs n (abi_add (pre ++ x) (T, ok)) args) = has_args args) as -> by by destruct args.
  rewrite comp_run_eq. cbn [snd]. destruct args as [|t ts]; cbn [has_args fst snd].
  - cbn [c_targs c_types inst_run concat snd]. intros [-> Hf%bool_decide_eq_true]%andb_true_iff.
    rewrite app_nil_r in Hf. split; [done|]. split; [done|].
    unfold cand_pop, cand_add. cbn [fst snd]. rewrite list_add_fresh, removelast_last by done. by destruct T.
  - set (args := t :: ts) in *. pose proof (add_keeps (pre ++ x) T ok) as Ha.
    destruct (abi_add (pre ++ x) (T, ok)) as [T1 ok1]. cbn [fst snd] in Ha.
    pose proof (args_same (n := n) (ty_same n) args T1 ok1 Hs) as Hsame.
    set (l := l_targs n (T1, ok1) args) in *.
    pose proof (args_keeps l (proj2 (Forall_forall _ _) (fun t _ => proj1 runs_agree t)) T1 ok1) as Hk.
    assert (d_inst (pre ++ x) T1 l = let a := d_args T1 l in (a.1, cand_add ((pre ++ x) ++ concat a.1) a.2)) as Ei by done.
    destruct (a_args (T1, ok1) l) as [k [T2 ok2]]. cbn [fst snd] in *.
    intros [-> Hf%bool_decide_eq_true]%andb_true_iff. destruct (Hk eq_refl) as [-> Ek]. destruct (Ha eq_refl) as [-> ->].
    split; [done|]. rewrite (Hsame eq_refl), Ei, Ek. split; [done|]. cbn [fst snd].
    unfold cand_pop, cand_add. cbn [fst snd]. rewrite list_add_fresh, removelast_last by (by rewrite <- app_assoc).
    by destruct T2.
Qed.

Lemma name_same n c cs :
  source_base (Class c cs) = true ->
  let c' := l_comp n [] no_dict c in
  let a := a_comp [] no_dict c' in
  let cs' := l_scope n (concat a.1) a.2 cs in
  (abi_start c' cs').2 = true ->
  k_comp n [] no_tables c = c' /\ k_scope n (concat (d_comp [] no_tables c').1) (d_comp [] no_tables c').2 cs = cs' /\
  name_table c' cs' = (abi_start c' cs').1.
Proof.
  cbn [source_base]. intros [[[Hop Hs]%andb_true_iff Hss]%andb_true_iff _]%andb_true_iff.
  destruct cs as [|y cs _] using rev_ind; cbv zeta.
  - intros Hf. destruct (last_same n [] c no_tables true Hs Hf) as (_ & -> & El). split; [done|]. split; [done|].
    unfold name_table. rewrite base_run_Class. cbn [c_scope]. unfold abi_start. cbn [last].
    change (no_tables, true) with no_dict in El. rewrite <- El.
    destruct (op_like (c_name (l_comp n [] no_dict c))) eqn:Hn; [|done]. clear El Hf.
    destruct c as [x [|t ts]]; cbn [c_comp c_name c_args has_args] in *; [done|]. by rewrite Hn in Hop.
  - rewrite forallb_app in Hss. apply andb_true_iff in Hss as [Hss [Hy _]%andb_true_iff].
    rewrite !c_scope_snoc. set (c' := l_comp n [] no_dict c).
    pose proof (comp_same (n := n) (ty_same n) [] c no_tables true Hs) as Hc.
    change (no_tables, true) with no_dict in Hc. fold c' in Hc.
    pose proof (comp_keeps c' [] no_tables true) as Hk. unfold abi_start. change (no_tables, true) with no_dict in *.
    destruct (a_comp [] no_dict c') as [k [T1 ok1]]. cbn [fst snd] in *.
    set (cs' := l_scope n (concat k) (T1, ok1) cs). rewrite last_snoc, removelast_last.
    pose proof (scope_same (n := n) (ty_same n) cs (concat k) T1 ok1 Hss) as Hsc. fold cs' in Hsc.
    pose proof (scopes_kept cs' (concat k) T1 ok1) as Hks.
    destruct (a_scope (concat k) (T1, ok1) cs') as [k2 [T2 ok2]]. cbn [fst snd] in *.
    intros Hf. destruct (last_same n ((concat k ++ concat k2) ++ lit "::") y T2 ok2 Hy Hf) as (-> & Ey & El).
    destruct (Hks eq_refl) as [-> Es]. destruct (Hk eq_refl) as [_ Ec]. specialize (Hc eq_refl). specialize (Hsc eq_refl).
    rewrite Hc, Ec. cbn [fst snd]. rewrite Hsc, Es. cbn [fst snd]. rewrite Ey. split; [done|]. split; [done|].
    unfold name_table. rewrite base_run_Class.
    assert (match cs' ++ [l_comp n ((concat k ++ concat k2) ++ lit "::") (T2, true) y] with [] => op_like (c_name c') | _ => false end = false)
      as -> by by destruct cs'.
    cbn [snd]. rewrite Ec. cbn [fst snd]. rewrite scope_run_snoc. cbn [snd]. rewrite Es. cbn [fst snd]. exact El.
Qed.

Lemma params_same n k ps T ok :
  source_params k ps = true ->
  (params_dict (T, ok) (c_params abi_add abi_get abi_arg abi_par abi_find n (T, ok) ps)).2 = true ->
  ok = true /\ k_params n T ps = c_params abi_add abi_get abi_arg abi_par abi_find n (T, ok) ps.
Proof.
  destruct ps as [| |t ts]; [done..|]. intros [Hs _]%andb_true_iff Hf.
  change ((tail_run a_ty (T, ok) (l_types n a_ty (T, ok) (t :: ts))).2.2 = true) in Hf.
  assert (same_ty n source_param) as Hsame.
  { intros u T' ok' [Hu _]%andb_true_iff. by apply ty_same. }
  assert (forall t T ok, keeps ok (a_ty (T, ok) t) (d_ty T t) /\ (a_ty (T, ok) t).2.2 = (a_ty (T, ok) t).2.2) as Hr
    by (intros; split; [apply ty_keeps | done]).
  pose proof (types_same source_param _ _ Hsame Hr (t :: ts) T ok Hs Hf) as E.
  destruct (tail_keeps a_ty d_ty _ (proj2 (Forall_forall _ _) (fun t _ T ok => ty_keeps t T ok)) T ok Hf) as [-> _]. split; [done|].
  cbn [c_types c_params] in *. by injection E as -> ->.
Qed.

Lemma ret_same n tmpl ret ps T ok :
  source_ret tmpl ret ps = true ->
  let ret' := l_ty n (T, ok) <$> ret in
  (ret_dict (T, ok) ret').2 = true ->
  ok = true /\ k_ty n T <$> ret = ret' /\ ret_table T ret' = (ret_dict (T, ok) ret').1.
Proof.
  destruct ret as [t|]; [|intros _; cbn; by intros ->]. cbn. intros [[_ Hs]%andb_true_iff _]%andb_true_iff Hf.
  destruct (ty_keeps (l_ty n (T, ok) t) T ok Hf) as [-> E]. split; [done|].
  rewrite (ty_same n t T true Hs Hf). split; [done|]. unfold ty_table. by rewrite E.
Qed.

Lemma compress_same e : source_ok e = true -> lossless (compress e) = true -> k_encoding e = compress e.
Proof.
  destruct e as [c cs ret ps]. unfold source_ok, lossless, compress, k_encoding, c_encoding.
  cbn [e_head e_tail e_ret e_params]. set (n := S _). intros [[Hs Hr]%andb_true_iff Hp]%andb_true_iff.
  pose proof (name_same n c cs Hs) as Hname. cbv zeta in Hname.
  set (c' := l_comp n [] no_dict c) in *. set (cs' := l_scope n _ _ cs) in *.
  destruct (abi_start c' cs') as [T ok]. cbn [fst snd] in Hname.
  pose proof (ret_same n _ ret ps T ok Hr) as Hret. cbv zeta in Hret. set (ret' := l_ty n (T, ok) <$> ret) in *.
  change (from_option (fun t => (a_ty (T, ok) t).2) (T, ok) ret') with (ret_dict (T, ok) ret').
  destruct (ret_dict (T, ok) ret') as [T2 ok2]. intros Hf. cbn [fst snd] in Hret.
  destruct (params_same n _ ps T2 ok2 Hp Hf) as [-> Hps]. destruct (Hret eq_refl) as (-> & Er & Et).
  destruct (Hname eq_refl) as (-> & -> & ->). rewrite Er.
  change (from_option (fun t => (d_ty T t).2) T ret') with (ret_table T ret'). by rewrite Et, Hps.
Qed.

Section Theorem_.
Context {P : Platform}.

End Theorem_.

(** ** The theorem at a concrete input *)

(** [ns::Map<int, ns::Key>::merge], of its own class, of instances with other
    arguments and of members of instances *)
Definition source_encoding : encoding :=
  let int_ := Ty [] (Builtin "i") in
  let key := Ty [] (Class (name "ns") [name "Key"]) in
  let map a b := Class (name "ns") [inst "Map" [a; b]] in
  let vec a := inst "Vec" [a] in
  Encoding (name "ns") [inst "Map" [int_; key]; name "merge"] None
    (Params (Ty [QRef; QConst] (map int_ key))
       [Ty [] (map key (Ty [] (map int_ key))); Ty [QPtr] (map key (Ty [] (map int_ key)));
        Ty [] (Class (vec key) [name "iter"]); Ty [] (Class (vec key) [name "iter"; name "foo"]);
        Ty [QPtr; QPtr] (Class (vec int_) [name "iter"; name "foo"]); Ty [QPtr; QConst] (Class (vec int_) [name "iter"; name "foo"])]).

(** [ns::load<ns::Vec<ns::Key>>], with its return type *)
Definition source_function_template : encoding :=
  let key := Ty [] (Class (name "ns") [name "Key"]) in
  let vec a := Class (name "ns") [inst "Vec" [a]] in
  Encoding (name "ns") [inst "load" [Ty [] (vec key)]] (Some (Ty [] (vec key)))
    (Params (Ty [QRef; QConst] (vec key)) [Ty [QPtr] (base_of key); Ty [] (vec (Ty [] (Builtin "i")))]).

Example source_function_template_compressed :
  mangled (compress source_function_template) = lit "_ZN2ns4loadINS_3VecINS_3KeyEEEEES3_RKS3_PS2_NS1_IiEE".
Proof. by vm_compute. Qed.

(** What a compiler writes for the first *)
Example source_compressed :
  mangled (compress source_encoding) =
  lit "_ZN2ns3MapIiNS_3KeyEE5mergeERKS2_NS0_IS1_S2_EEPS5_N3VecIS1_E4iterENS9_3fooEPPNS7_IiE4iter3fooEPKSD_".
Proof. by vm_compute. Qed.

