(* ===== verification/LexTheorems.v ===== *)
(** * What the lexical readers promise

    Numbers and their saturation, back-references by their sequence id, source
    names and what happens when their length is wrong, offsets, and the memory
    image of floating-point literals. *)
From S2P Require Import Prelude CString Platform VectorStr VectorAux DemState DemQual DemLex DemReaders DemNames DemTypes Demangler DemEval DemLexEval DemSeq Mangling Roundtrip.

(** ** Numbers *)
Section Numbers.
Context {P : Platform} {I : Input}.

(** A decimal number, [n] in front for a minus sign, is read as its value,
    saturated at the largest [long] (the [ERANGE] of [strtol] is ignored
    unless the value is 0); the cursor stops behind the last digit and
    nothing is written. *)
Theorem read_number_value i neg v r o q :
  0 <= v -> no_digit r ->
  does (V i (sign_of neg ++ dec_of_nat_Z v ++ r) o q) cpp_demangle_read_number
    (eq ((if neg then -1 else 1) * Z.min v LONG_MAX))
    (V (i + zlength (sign_of neg) + zlength (dec_of_nat_Z v)) r o q).
Proof.
  intros Hv Hr. eapply does_weaken; [by apply does_read_number|]. intros ? <-. apply Z.mul_comm.
Qed.

(** [read_number_as_string] prints the number it reads back in decimal, [-]
    for [n]: parsing and printing are inverse on the range of [long]. *)
Theorem read_number_as_string_roundtrip i neg v r o q :
  never_oom -> 0 < v <= LONG_MAX -> no_digit r ->
  does (V i (sign_of neg ++ dec_of_nat_Z v ++ r) o q) cpp_demangle_read_number_as_string
    (eq (Bytes ((if neg then ["-"%char] else []) ++ dec_of_nat_Z v)))
    (V (i + zlength (sign_of neg) + zlength (dec_of_nat_Z v)) r o q).
Proof.
  intros Hoom Hv Hr. unfold cpp_demangle_read_number_as_string.
  eapply does_eq; [apply does_read_number; [lia | done]|].
  rewrite Z.min_l by lia. eapply (does_bind _ _ _ _ _ (fun p => exists x, p = Some x)).
  { apply does_on_clock. intros n. eexists _, _. split; [by apply malloc_never_oom | eauto]. }
  intros ? [x ->]. apply does_ret. f_equal. unfold fmt_ld. destruct neg; cbn [app].
  - rewrite (proj2 (Z.ltb_lt _ _)) by lia. f_equal. f_equal. lia.
  - rewrite (proj2 (Z.ltb_ge _ _)) by lia. f_equal. lia.
Qed.
End Numbers.

(** ** Back-references *)
Section SeqId.
Context {P : Platform} {I : Input}.
Abbreviation any := (fun _ => True).

(** C33. Back-references: [S_] and [S<id>_] write the entry of the substitution
    table with that number, read in base 36, digits then capital letters
    ([S_] is number 0, [S0_] number 1), and stop behind the ['_'].  Nothing
    but the entry's number decides, however long the id is. *)
Theorem substitution_reads_entry {R : Readers} id i r o q s c b :
  never_oom -> seq_wf id ->
  sees (V i ("S"%char :: seq_text id ++ "_"%char :: r) o q) s ->
  container (subst s) !! Z.to_nat (seq_index id) = Some c -> cval c = Bytes b -> b <> [] ->
  exists s', cpp_demangle_read_subst s = Ok tt s' /\
    sees (V (i + 2 + zlength (seq_text id)) r (o ++ [b]) q) s'.
Proof.
  intros Hoom Hid Hs Hc Hb Hne.
  pose proof (reaches_subst (e := ext0) id i r o q Hid) as Hreach. pose proof (seq_index_nonneg id Hid) as Hidx.
  destruct (Hreach s Hs) as (s1 & Hs1 & [Ht _] & ->).
  replace (i + 2 + zlength (seq_text id)) with (i + 1 + zlength (seq_text id) + 1) by lia.
  eapply (entry_pushed (e := ext0) Hoom VSubst); eauto. by rewrite Ht.
Qed.

(** Template parameters are numbered the same way: [T_] and [T<id>_] write
    the template argument with that number. *)
Theorem template_param_reads_entry id i r o q s c b :
  never_oom -> seq_wf id ->
  sees (V i ("T"%char :: seq_text id ++ "_"%char :: r) o q) s ->
  container (tmpl s) !! Z.to_nat (seq_index id) = Some c -> cval c = Bytes b -> b <> [] ->
  exists s', cpp_demangle_read_tmpl_param s = Ok tt s' /\
    sees (V (i + 2 + zlength (seq_text id)) r (o ++ [b]) q) s'.
Proof.
  intros Hoom Hid Hs Hc Hb Hne.
  pose proof (reaches_tmpl_param (e := ext0) id i r o q Hid) as Hreach. pose proof (seq_index_nonneg id Hid) as Hidx.
  destruct (Hreach s Hs) as (s1 & Hs1 & [_ Ht] & ->).
  replace (i + 2 + zlength (seq_text id)) with (i + 1 + zlength (seq_text id) + 1) by lia.
  eapply (entry_pushed (e := ext0) Hoom VTmpl); eauto. by rewrite Ht.
Qed.
End SeqId.

(** ** Sequence ids that break the reader *)
Section BadSeqId.
Context {P : Platform} {I : Input}.

(** [strtol] on an optional minus sign and digits of base 36. *)
Lemma strtol_seq_signed e (neg : bool) ds r :
  ds <> [] -> Forall (fun d => 0 <= d < 36) ds ->
  strtol e 36 ((if neg then ["-"%char] else []) ++ (seq_digit <$> ds) ++ "_"%char :: r)
  = let v := (if neg then -1 else 1) * seq_value ds in
    if v >? LONG_MAX then (LONG_MAX, true)
    else if v <? LONG_MIN then (LONG_MIN, true) else (v, false).
Proof.
  intros Hne Hds. pose proof (digits_from_seq ds 0 false r Hds) as Hd. fold (seq_value ds) in Hd.
  destruct Hds as [|d ds Hd0 Hds]; [done|]. clear Hds.
  destruct (seq_digit_ok d Hd0) as (_ & Hsp & Hm & Hp & _).
  cbn [fmap list_fmap app] in *. unfold strtol. destruct neg; cbn [app skip_spaces].
  - change (isspace "-") with false. cbv iota. rewrite decide_True by done. by rewrite Hd.
  - rewrite Hsp, (decide_False (P := seq_digit d = "-"%char)) by done.
    rewrite decide_False by done. by rewrite Hd.
Qed.

(** A sequence id at or above the largest [long] makes the increment of its
    index overflow. *)
Theorem seq_id_overflow ds i r o q s get :
  ds <> [] -> Forall (fun d => 0 <= d < 36) ds -> LONG_MAX <= seq_value ds ->
  sees (V i ((seq_digit <$> ds) ++ "_"%char :: r) o q) s ->
  read_seq_id get s = Crash SignedOverflow.
Proof.
  intros Hne Hds Hbig Hs. revert s Hs. change (faults (V i ((seq_digit <$> ds) ++ "_"%char :: r) o q) (read_seq_id get) SignedOverflow).
  unfold read_seq_id. eapply faults_eq; [apply does_peek|]. rewrite decide_False.
  2: { destruct ds as [|d ds]; [done|]. apply Forall_cons_1 in Hds as [Hd _]. apply (seq_digit_ok d Hd). }
  pose proof (strtol_seq_signed strtol_einval false ds r Hne Hds) as E. cbn [app] in E.
  eapply (faults_bind _ _ _ _ (fun x => x.1 = LONG_MAX)).
  { unfold strtol_at_cur. eapply does_eq; [apply does_cur|]. eapply does_eq; [apply does_text|].
    apply does_bind_ret. apply does_ret. rewrite E. cbv zeta. rewrite Z.mul_1_l.
    destruct (Z.gtb_spec (seq_value ds) LONG_MAX); [done|].
    rewrite (proj2 (Z.ltb_ge _ _)) by (unfold LONG_MIN, LONG_MAX in *; lia). cbn [fst]. lia. }
  intros [nth errno] Hn. cbn [fst] in Hn. subst nth.
  eapply (faults_eq _ _ tt); [by apply does_ret|]. rewrite (proj2 (Z.eqb_eq _ _)) by done.
  by intros s Hs.
Qed.

(** [strtol] accepts a sign, the grammar does not: a negative sequence id
    trips the assertion that the index is positive. *)
Theorem seq_id_negative_aborts ds i r o q s get :
  ds <> [] -> Forall (fun d => 0 <= d < 36) ds -> 1 <= seq_value ds ->
  sees (V i ("-"%char :: (seq_digit <$> ds) ++ "_"%char :: r) o q) s ->
  read_seq_id get s = Crash AssertFail.
Proof.
  intros Hne Hds Hpos Hs. revert s Hs.
  change (faults (V i ("-"%char :: (seq_digit <$> ds) ++ "_"%char :: r) o q) (read_seq_id get) AssertFail).
  unfold read_seq_id. eapply faults_eq; [apply does_peek_cons|]. rewrite decide_False by done.
  pose proof (strtol_seq_signed strtol_einval true ds r Hne Hds) as E. cbn [app] in E.
  eapply (faults_bind _ _ _ _ (fun x => x.1 < 0)).
  { unfold strtol_at_cur. eapply does_eq; [apply does_cur|]. eapply does_eq; [apply does_text|].
    apply does_bind_ret. apply does_ret. rewrite E. cbv zeta.
    destruct (Z.gtb_spec (-1 * seq_value ds) LONG_MAX); [unfold LONG_MAX in *; lia|].
    destruct (_ <? LONG_MIN); cbn [fst]; unfold LONG_MIN; lia. }
  intros [nth errno] Hn. cbn [fst] in Hn.
  eapply (faults_eq _ _ tt); [apply does_unit, does_guard_end; by rewrite (proj2 (Z.eqb_neq _ _)) by lia|].
  rewrite (proj2 (Z.eqb_neq nth LONG_MAX)) by (unfold LONG_MAX; lia).
  eapply (faults_eq _ _ (nth + 1)); [by apply does_ret|].
  eapply (faults_eq _ _ tt).
  { apply does_unit, (does_skip_to _ i ("-"%char :: (seq_digit <$> ds)) "_"%char r); [|done].
    constructor; [done|]. apply Forall_fmap. eapply Forall_impl; [exact Hds|]. intros d Hd. cbn.
    apply negb_true_iff, bool_decide_eq_false. apply (seq_digit_ok d Hd). }
  replace (nth + 1 >? 0) with false by (symmetry; rewrite Z.gtb_ltb; apply Z.ltb_ge; lia).
  by intros s Hs.
Qed.
End BadSeqId.

(** ** Source names *)
Section Snames.
Context {P : Platform} {I : Input}.
Abbreviation any := (fun _ => True).

Lemma faults_advance i r o q k :
  zlength r + 1 < k -> faults (V i r o q) (advance k) OutOfBounds.
Proof.
  intros Hk s Hs. pose proof (sees_pos _ _ Hs) as [_ Hl]. cbn in Hl. unfold advance.
  rewrite (sees_cur _ _ Hs). cbn [v_pos]. by rewrite (proj2 (Z.leb_gt _ _)) by lia.
Qed.

Lemma faults_overlong i v r o q :
  never_oom -> no_digit r -> zlength r + 1 < v <= LONG_MAX ->
  faults (V i (dec_of_nat_Z v ++ r) o q) cpp_demangle_read_sname OutOfBounds.
Proof.
  intros Hoom Hr Hv. pose proof (zlength_nonneg r). unfold cpp_demangle_read_sname.
  eapply faults_eq; [apply (does_read_number i false); [lia | done]|].
  cbn [sign_of app]. rewrite Z.min_l, Z.mul_1_r by lia. change (zlength []) with 0. rewrite Z.add_0_r.
  set (j := i + _).
  eapply (faults_eq _ _ tt); [apply does_unit, does_guard_end; by rewrite (proj2 (Z.leb_gt _ _)) by lia|].
  destruct (Z.eqb_spec v 12) as [->|_].
  { apply faults_here. intros s Hs. pose proof (sees_pos _ _ Hs) as [_ Hl]. cbn in Hl.
    unfold memcmp_at_cur. rewrite (sees_cur _ _ Hs). cbn [v_pos].
    change (zlength (lit "_GLOBAL__N_1")) with 12.
    rewrite (proj2 (Z.leb_gt _ (zlength input + 1))) by lia. by rewrite andb_false_r. }
  eapply (faults_eq _ _ false); [by apply does_ret|]. cbv iota.
  eapply (faults_bind _ (V j r (o ++ [ztake v r]) q) _ _ any).
  { eapply does_eq; [apply does_cur|]. eapply does_eq; [apply does_text|].
    apply (does_push_str (e := ext0) Hoom). lia. }
  intros _ _. eapply faults_eq; [apply does_gets_out|].
  intros s Hs. unfold vec_get, vec_lookup. erewrite bind_Ok by reflexivity.
  rewrite bind_assert.
  2: { rewrite (vec_ok_size _ _ (proj1 (sees_out _ _ Hs))). cbn. rewrite zlength_app.
       pose proof (zlength_nonneg o). apply Z.ltb_lt. change (zlength [ztake v r]) with 1. lia. }
  erewrite bind_Ok by reflexivity. cbv beta. cbn [id].
  assert (vector_read_cmd_find (cmd s) READ_TMPL = None) as ->.
  { unfold vector_read_cmd_find. destruct (sees_cmd _ _ Hs) as (_ & _ & ->); done. }
  erewrite bind_Ok by reflexivity.
  apply (faults_advance j r (o ++ [ztake v r]) q); [lia|]. destruct Hs. by constructor.
Qed.

(** A source name whose length fits is copied to the output unchanged and
    skipped whole. *)
Theorem sname_read i x r o q :
  never_oom -> ident x ->
  does (V i (sname x ++ r) o q) cpp_demangle_read_sname any
    (V (i + zlength (sname x)) r (o ++ [x]) q).
Proof. intros Hoom Hx. by apply (does_sname (e := ext0)). Qed.
End Snames.

(** C38. The length of a source name is not checked against the input: for every
    identifier and every length that is more than one too large, demangling
    moves the cursor out of the input. *)
Theorem overlong_name_out_of_bounds {P : Platform} v x n :
  never_oom -> no_digit x -> zlength x + 1 < v <= LONG_MAX ->
  __cxa_demangle_gnu3 (Some (lit "_Z" ++ dec_of_nat_Z v ++ x)) n = Crash OutOfBounds.
Proof.
  intros Hoom Hx Hv. unfold __cxa_demangle_gnu3, demangle_at.
  set (I := (lit "_Z" ++ dec_of_nat_Z v ++ x) : Input).
  pose proof (zlength_nonneg (dec_of_nat_Z v ++ x)). pose proof (zlength_nonneg x).
  assert (zlength I = 2 + zlength (dec_of_nat_Z v ++ x)) as Hlen.
  { unfold I. rewrite zlength_app. done. }
  rewrite (proj2 (Z.ltb_ge _ _)) by lia. rewrite !bool_decide_true by done. cbn [orb negb].
  change (strncmp_eq I (lit "_GLOBAL__I_") 11) with false. rewrite andb_false_r.
  apply (run_faults Hoom 2); [unfold input; lia|].
  replace (zdrop 2 input) with (dec_of_nat_Z v ++ x).
  2: { symmetry. apply (zdrop_app (lit "_Z") (dec_of_nat_Z v ++ x)). }
  pose proof (faults_overlong 2 v x [] false Hoom Hx Hv) as Hf.
  destruct (dec_of_nat_Z_cons v) as (c & l & E & Hc); [lia|]. rewrite E in *. cbn [app] in *.
  unfold demangle_encoding. apply faults_here. unfold cpp_demangle_read_encoding.
  eapply (faults_eq _ _ tt); [by apply does_unit, does_guard_more, digit_not_NUL|].
  eapply faults_eq; [apply does_hash|].
  pose proof (digit_hash c (default NUL (head (l ++ x))) Hc).
  rewrite (switch_below _ 4000) by (done || lia).
  unfold cpp_demangle_read_name.
  eapply (faults_eq _ _ tt); [by apply does_unit, does_guard_more, digit_not_NUL|].
  eapply faults_eq; [apply does_peek_cons|]. cbn [switch].
  rewrite !decide_False by (by apply isdigit_ne).
  unfold read_unscoped_name. eapply faults_eq; [apply does_gets_out|].
  eapply faults_bind; [by apply does_local_vec|]. intros w _.
  eapply faults_eq; [by apply does_out_size|]. apply faults_here.
  unfold cpp_demangle_read_uqname.
  eapply (faults_eq _ _ tt); [by apply does_unit, does_guard_more, digit_not_NUL|].
  eapply faults_eq; [apply does_hash|]. rewrite (switch_below _ 4000) by (done || lia).
  unfold read_uqname_rest. eapply faults_eq; [apply does_peek_cons|]. eapply faults_eq; [apply does_peek1|].
  rewrite bool_decide_false by (by apply isdigit_ne). cbn [andb].
  eapply faults_eq; [apply does_hash|]. rewrite (switch_below _ 4000) by (done || lia).
  by rewrite Hc.
Qed.

(** ** Offsets of thunks *)
Section Offsets.
Context {P : Platform} {I : Input} (Hoom : never_oom).
Abbreviation any := (fun _ => True).

Definition offset_ok (a : bytes) : Prop :=
  a <> [] /\ Forall (fun c => c <> "_"%char) a /\ head a <> Some NUL /\ head a <> Some "n"%char.

Definition offset_text (neg : bool) (a : bytes) : bytes := sign_of neg ++ a ++ ["_"%char].

Definition offset_chunks (neg : bool) (a : bytes) : list bytes :=
  (if neg then [lit "-"] else []) ++ [a; lit " "].

Lemma does_offset_number neg a i r o q :
  offset_ok a ->
  does (V i (offset_text neg a ++ r) o q) cpp_demangle_read_offset_number any
    (V (i + zlength (offset_text neg a)) r (o ++ offset_chunks neg a) q).
Proof.
  intros (Hne & Ha & H0 & Hn). unfold cpp_demangle_read_offset_number, offset_text, offset_chunks.
  pose proof (zlength_pos a Hne).
  assert (Forall (fun c => negb (bool_decide (c = "_"%char)) = true) a) as Hstop.
  { eapply Forall_impl; [exact Ha|]. intros c Hc. cbn. by rewrite bool_decide_false. }
  assert (forall j, 0 <= j -> zdrop j input = a ++ "_"%char :: r -> j + zlength (a ++ "_"%char :: r) = zlength input ->
    forall k o', does (V k ("_"%char :: r) o' q)
      (e ← gets cur; t ← text_at j; cpp_demangle_push_str t (e - j);; DEM_PUSH_STR " ";; advance 1)
      any (V (k + 1) r (o' ++ [a; lit " "]) q) \/ k <> j + zlength a) as Hrest.
  { intros j Hj Hd Hl k o'. destruct (decide (k = j + zlength a)) as [->|]; [left|by right].
    eapply does_eq; [apply does_cur|].
    eapply (does_eq _ _ _ (Bytes (a ++ "_"%char :: r))).
    { unfold text_at. rewrite zlength_app in Hl. pose proof (zlength_nonneg ("_"%char :: r)).
      rewrite (proj2 (Z.leb_le _ _)), (proj2 (Z.leb_le _ _)) by lia. rewrite Hd. by apply does_ret. }
    replace (j + zlength a - j) with (zlength a) by lia.
    eapply does_any; [by apply (does_push_str (e := ext0) Hoom) | intros _]. rewrite ztake_app.
    eapply does_any; [by apply (does_push_lit (e := ext0) Hoom) | intros _].
    replace (o' ++ [a; lit " "]) with ((o' ++ [a]) ++ [lit " "]) by (by rewrite <- app_assoc).
    apply does_advance1. }
  rewrite !zlength_app. change (zlength ["_"%char]) with 1. rewrite <- !app_assoc. cbn [app].
  apply does_known. intros Hi Hl Hd. destruct neg; cbn [sign_of app] in *.
  - change (zlength ["n"%char]) with 1. rewrite zlength_cons in Hl.
    eapply does_any; [by apply does_guard_more | intros _].
    eapply does_eq; [apply does_peek_cons|]. eapply does_eq; [apply does_cur|].
    rewrite bool_decide_true by done.
    eapply does_any; [apply (does_skip_to _ i ("n"%char :: a)); [by constructor | done] | intros _].
    eapply does_any; [by apply (does_push_lit (e := ext0) Hoom) | intros _].
    destruct (Hrest (i + 1) ltac:(lia)
      (zdrop_plus input i ["n"%char] _ Hi Hd ltac:(cbn [app]; rewrite zlength_cons; lia)) ltac:(lia)
      (i + zlength ("n"%char :: a)) (o ++ [lit "-"])) as [Hr|Hbad].
    + rewrite <- app_assoc in Hr. cbn [app] in Hr. rewrite zlength_cons in Hr.
      rewrite zlength_cons. replace (i + (1 + (zlength a + 1))) with (i + (1 + zlength a) + 1) by lia. exact Hr.
    + rewrite zlength_cons in Hbad. lia.
  - change (zlength []) with 0. destruct a as [|c a]; [done|]. cbn [app].
    eapply does_any; [apply does_guard_more; by intros -> | intros _].
    eapply does_eq; [apply does_peek_cons|]. eapply does_eq; [apply does_cur|].
    rewrite bool_decide_false by (by intros ->).
    eapply does_any; [by apply (does_skip_to _ i (c :: a)) | intros _].
    apply does_bind_ret.
    destruct (Hrest i Hi Hd Hl (i + zlength (c :: a)) o) as [Hr|Hbad]; [|lia].
    replace (i + (0 + (zlength (c :: a) + 1))) with (i + zlength (c :: a) + 1) by lia. exact Hr.
Qed.

(** A non-virtual offset is printed with its sign. *)
Theorem nv_offset_printed neg a i r o q :
  offset_ok a ->
  does (V i (offset_text neg a ++ r) o q) cpp_demangle_read_nv_offset any
    (V (i + zlength (offset_text neg a)) r
       (o ++ lit "offset : " :: (if neg then [lit "-"] else []) ++ [a; lit " "]) q).
Proof.
  intros Ha. unfold cpp_demangle_read_nv_offset.
  eapply does_any; [by apply (does_push_lit (e := ext0) Hoom) | intros _].
  pose proof (does_offset_number neg a i r (o ++ [lit "offset : "]) q Ha) as H.
  rewrite <- app_assoc in H. exact H.
Qed.

(** A virtual offset that is written as the ABI wants is never accepted: the
    reader returns failure exactly when its second number was read. *)
Theorem v_offset_always_fails neg1 a1 neg2 a2 i r o q s :
  offset_ok a1 -> offset_ok a2 ->
  sees (V i (offset_text neg1 a1 ++ offset_text neg2 a2 ++ r) o q) s ->
  exists s', cpp_demangle_read_v_offset s = Fail s'.
Proof.
  intros H1 H2 Hs.
  assert (fails (V i (offset_text neg1 a1 ++ offset_text neg2 a2 ++ r) o q) cpp_demangle_read_v_offset) as Hf.
  { unfold cpp_demangle_read_v_offset.
    eapply fails_bind; [by apply (does_push_lit (e := ext0) Hoom) | intros _ _].
    eapply fails_bind; [by apply does_offset_number | intros _ _].
    eapply fails_bind; [by apply (does_push_lit (e := ext0) Hoom) | intros _ _].
    eapply fails_eq; [eapply does_status; by apply does_offset_number|]. apply fails_failed. }
  destruct (Hf s Hs) as (s' & _ & E & _). by exists s'.
Qed.
End Offsets.

(** ** Floating-point literals *)

(** The hexadecimal text of bytes, most significant first, as the ABI writes
    it. *)
Definition hex_digit (d : Z) : ascii := ascii_of_N (Z.to_N (if d <? 10 then 48 + d else 87 + d)).
Definition hex_of (bs : list Z) : bytes := concat ((fun b => [hex_digit (b / 16); hex_digit (b mod 16)]) <$> bs).
Definition is_byte (b : Z) : Prop := 0 <= b <= 255.

Lemma hex_digit_ok d : 0 <= d < 16 -> hex_to_dec (hex_digit d) = d.
Proof.
  intros Hd. assert (d ∈ seqZ 0 16) as Hin by (apply elem_of_seqZ; lia).
  clear Hd. revert d Hin. apply Forall_forall.
  let l := eval vm_compute in (seqZ 0 16) in change (seqZ 0 16) with l.
  repeat (apply Forall_cons_2; [by vm_compute|]). apply Forall_nil_2.
Qed.

Lemma hex_of_snoc bs b : hex_of (bs ++ [b]) = hex_of bs ++ [hex_digit (b / 16); hex_digit (b mod 16)].
Proof. unfold hex_of. rewrite fmap_app, concat_app. done. Qed.

Lemma decode_pairs_hex bs : Forall is_byte bs -> decode_pairs (rev (hex_of bs)) = Some (rev bs).
Proof.
  induction bs as [|b bs IH] using rev_ind; intros HF; [done|].
  apply Forall_app in HF as [HF [Hb _]%Forall_cons_1]. red in Hb.
  rewrite hex_of_snoc, rev_app_distr, rev_unit. cbn [rev app decode_pairs].
  pose proof (Z.mod_pos_bound b 16 ltac:(lia)).
  assert (0 <= b / 16 < 16) by (split; [apply Z.div_pos | apply Z.div_lt_upper_bound]; lia).
  rewrite !hex_digit_ok by lia.
  replace (b mod 16 + b / 16 * 16) with b by (pose proof (Z.div_mod b 16); lia).
  rewrite (proj2 (Z.ltb_ge b 0)) by lia.
  destruct (Z.gtb_spec b 255); [lia|]. by rewrite IH.
Qed.

Lemma hex_of_length bs : zlength (hex_of bs) = 2 * zlength bs.
Proof.
  induction bs as [|b bs IH]; [done|]. unfold hex_of in *. cbn [fmap list_fmap concat].
  rewrite zlength_app, IH, !zlength_cons. change (zlength (@nil ascii)) with 0. lia.
Qed.

(** The hexadecimal image of a floating-point value is decoded to the object's
    memory on a little-endian machine: the bytes reversed, the rest of the
    object zero. *)
Theorem decode_image_hex bytes_size bs :
  bs <> [] -> Forall is_byte bs -> zlength bs <= bytes_size ->
  decode_image bytes_size (hex_of bs)
  = Some (rev bs ++ replicate (Z.to_nat (bytes_size - zlength bs)) 0).
Proof.
  intros Hne HF Hsize. unfold decode_image. rewrite hex_of_length, decode_pairs_hex by done.
  pose proof (zlength_pos bs Hne).
  rewrite (proj2 (Z.eqb_neq _ _)) by lia.
  replace (2 * zlength bs mod 2) with 0 by (rewrite Z.mul_comm; symmetry; apply Z_mod_mult).
  replace (2 * zlength bs / 2) with (zlength bs) by (rewrite Z.mul_comm; symmetry; by apply Z_div_mult).
  destruct (Z.gtb_spec (zlength bs) bytes_size); [lia|]. cbn [orb negb Z.eqb].
  assert (zlength (rev bs) = zlength bs) as -> by (unfold zlength; by rewrite length_rev). done.
Qed.

Lemma decode_pairs_bytes r l : decode_pairs r = Some l -> Forall is_byte l /\ 2 * zlength l <= zlength r.
Proof.
  remember (length r) as n eqn:Hn. revert r l Hn.
  induction n as [n IH] using lt_wf_ind. intros r l -> H.
  destruct r as [|lo [|hi r]]; [by injection H as <-; split | by injection H as <-; split; [|vm_compute]|].
  cbn [decode_pairs] in H. destruct (_ || _) eqn:Hb; [done|].
  apply orb_false_elim in Hb as [H0%Z.ltb_ge H1]. rewrite Z.gtb_ltb in H1. apply Z.ltb_ge in H1.
  destruct (decode_pairs r) as [l'|] eqn:E; [|done]. injection H as <-.
  destruct (IH (length r) ltac:(cbn; lia) r l' eq_refl E) as [HF Hl].
  rewrite !zlength_cons. split; [by constructor | lia].
Qed.

(** Whatever the text of the literal, a decoded image is exactly the object's
    size and made of bytes: the decoder never writes outside the object. *)
Theorem decode_image_bounds bytes_size p image :
  decode_image bytes_size p = Some image ->
  zlength image = bytes_size /\ Forall is_byte image.
Proof.
  unfold decode_image. destruct (_ || _) eqn:Hc; [done|].
  apply orb_false_elim in Hc as [[H0 H1]%orb_false_elim H2]. rewrite Z.gtb_ltb in H2. apply Z.ltb_ge in H2.
  destruct (decode_pairs (rev p)) as [l|] eqn:E; [|done]. intros [= <-].
  destruct (decode_pairs_bytes _ _ E) as [HF Hl].
  assert (zlength (rev p) = zlength p) as Hrev by (unfold zlength; by rewrite length_rev).
  assert (zlength l <= bytes_size).
  { rewrite Hrev in Hl. pose proof (Z.div_mod (zlength p) 2). pose proof (Z.mod_pos_bound (zlength p) 2). lia. }
  split.
  - rewrite zlength_app. unfold zlength at 2. rewrite length_replicate. lia.
  - apply Forall_app. split; [done|]. apply Forall_replicate. red. lia.
Qed.

(** ** Witnesses *)
Lemma read_number_value_witness :
  does (I := lit "n12_") (V 0 (lit "n12_") [] false) (@cpp_demangle_read_number plain_platform (lit "n12_")) (eq (-12)) (V 3 (lit "_") [] false).
Proof.
  refine (@read_number_value plain_platform (lit "n12_") 0 true 12 (lit "_") [] false _ _); [lia|done].
Defined.

Lemma read_number_as_string_roundtrip_witness :
  does (I := lit "n12_") (V 0 (lit "n12_") [] false) (@cpp_demangle_read_number_as_string plain_platform (lit "n12_"))
    (eq (Bytes (lit "-12"))) (V 3 (lit "_") [] false).
Proof.
  refine (@read_number_as_string_roundtrip plain_platform (lit "n12_") 0 true 12 (lit "_") [] false _ _ _);
    [apply plain_never_oom | by vm_compute | done].
Defined.

Lemma sname_read_witness :
  does (I := lit "3abcv") (V 0 (lit "3abcv") [] false) (@cpp_demangle_read_sname plain_platform (lit "3abcv"))
    (fun _ => True) (V 4 (lit "v") [lit "abc"] false).
Proof.
  refine (@sname_read plain_platform (lit "3abcv") 0 (lit "abc") (lit "v") [] false _ _);
    [apply plain_never_oom | by split_and!].
Defined.

Lemma overlong_name_out_of_bounds_witness :
  @__cxa_demangle_gnu3 plain_platform (Some (lit "_Z9f")) 0%nat = Crash OutOfBounds.
Proof.
  apply (@overlong_name_out_of_bounds plain_platform 9 (lit "f") 0%nat);
    [apply plain_never_oom | done | by vm_compute].
Defined.

Lemma nv_offset_printed_witness :
  does (I := lit "n16_1f") (V 0 (lit "n16_1f") [] false) (@cpp_demangle_read_nv_offset plain_platform (lit "n16_1f"))
    (fun _ => True) (V 4 (lit "1f") [lit "offset : "; lit "-"; lit "16"; lit " "] false).
Proof.
  refine (@nv_offset_printed plain_platform (lit "n16_1f") _ true (lit "16") 0 (lit "1f") [] false _);
    [apply plain_never_oom | split_and!; by repeat constructor].
Defined.

Lemma decode_image_hex_witness :
  decode_image 8 (lit "4008000000000000") = Some [0; 0; 0; 0; 0; 0; 8; 64].
Proof.
  refine (decode_image_hex 8 [64; 8; 0; 0; 0; 0; 0; 0] _ _ _); [done| |done].
  repeat (apply Forall_cons_2; [red; lia|]). apply Forall_nil_2.
Defined.

Lemma decode_image_bounds_witness :
  zlength [56; 64; 0; 0] = 4 /\ Forall is_byte [56; 64; 0; 0].
Proof. apply (decode_image_bounds 4 (lit "4038") [56; 64; 0; 0]). by vm_compute. Defined.

(** A state with one entry in each table, reading from the start. *)
Definition table_state : cpp_demangle_data :=
  set_subst (VectorStr 8 [Cell 90 (Bytes (lit "a")); Cell 91 (Bytes (lit "bc"))])
    (set_tmpl (VectorStr 8 [Cell 92 (Bytes (lit "int"))]) (fresh_data 0)).

Lemma table_state_sees (I : Input) : sees (V 0 input [] false) table_state.
Proof.
  destruct (@fresh_sees I 0) as []; [pose proof (zlength_nonneg (@input I)); lia|]. rewrite zdrop_0 in *.
  constructor; try done.
  exists ([lit "a"; lit "bc"], [lit "int"]). by split_and!.
Qed.

Lemma substitution_reads_entry_witness : exists s',
  @cpp_demangle_read_subst plain_platform (lit "S0_v") (@readers plain_platform (lit "S0_v") 0) table_state = Ok tt s' /\
  sees (I := lit "S0_v") (V 3 (lit "v") [lit "bc"] false) s'.
Proof.
  refine (@substitution_reads_entry plain_platform (lit "S0_v") _ (Some [0]) 0 (lit "v") [] false table_state
    (Cell 91 (Bytes (lit "bc"))) (lit "bc") _ _ _ _ _ _); try done.
  - split_and!; [done | | done]. repeat constructor; lia.
  - apply table_state_sees.
Defined.

Lemma template_param_reads_entry_witness : exists s',
  @cpp_demangle_read_tmpl_param plain_platform (lit "T_v") table_state = Ok tt s' /\
  sees (I := lit "T_v") (V 2 (lit "v") [lit "int"] false) s'.
Proof.
  refine (@template_param_reads_entry plain_platform (lit "T_v") None 0 (lit "v") [] false table_state
    (Cell 92 (Bytes (lit "int"))) (lit "int") _ _ _ _ _ _); try done.
  apply table_state_sees.
Defined.

Lemma v_offset_always_fails_witness : exists s',
  @cpp_demangle_read_v_offset plain_platform (lit "0_n12_1f") (fresh_data 0) = Fail s'.
Proof.
  refine (@v_offset_always_fails plain_platform (lit "0_n12_1f") _ false (lit "0") true (lit "12") 0 (lit "1f") [] false _ _ _ _).
  - apply plain_never_oom.
  - split_and!; by repeat constructor.
  - split_and!; by repeat constructor.
  - by eapply sees_forget, (@fresh_sees (lit "0_n12_1f") 0).
Defined.

Lemma seq_id_overflow_witness :
  @read_seq_id plain_platform (lit "1ZZZZZZZZZZZZ_") (fun _ => mret tt) (fresh_data 0) = Crash SignedOverflow.
Proof.
  refine (@seq_id_overflow plain_platform (lit "1ZZZZZZZZZZZZ_") (1 :: replicate 12 35) 0 [] [] false (fresh_data 0) _ _ _ _ _).
  - done.
  - repeat (apply Forall_cons_2; [lia|]). apply Forall_nil_2.
  - by vm_compute.
  - by eapply sees_forget, (@fresh_sees (lit "1ZZZZZZZZZZZZ_") 0).
Defined.

Lemma seq_id_negative_aborts_witness :
  @read_seq_id plain_platform (lit "-5_") (fun _ => mret tt) (fresh_data 0) = Crash AssertFail.
Proof.
  refine (@seq_id_negative_aborts plain_platform (lit "-5_") [5] 0 [] [] false (fresh_data 0) _ _ _ _ _).
  - done.
  - repeat (apply Forall_cons_2; [lia|]). apply Forall_nil_2.
  - by vm_compute.
  - by eapply sees_forget, (@fresh_sees (lit "-5_") 0).
Defined.
