(* ===== verification/PathTheorems.v ===== *)
(** * Operator names, and runs that surprise

    Every operator code of the ABI that the reader knows is printed with its
    symbol; the tables of codes are unambiguous.  Then complete runs: the
    [_GLOBAL__I_] form, and short inputs on which the code reads outside its
    input, aborts, or returns another name than the one mangled. *)
From S2P Require Import Prelude CString Platform VectorStr VectorAux DemState DemQual DemLex DemReaders DemNames DemTypes Demangler DemEval DemLexEval DemSeq Mangling Roundtrip.

(** The operators whose printed name is [operator] and a symbol, by their
    two-letter code (Itanium C++ ABI 5.1.5). *)
Abbreviation code x y sym := (x%char, y%char, sym%string).

Definition abi_operators : list (ascii * ascii * string) :=
  [code "a" "a" "&&"; code "a" "d" "&"; code "a" "n" "&"; code "a" "N" "&="; code "a" "S" "=";
   code "c" "l" "()"; code "c" "m" ","; code "c" "o" "~"; code "d" "e" "*"; code "d" "v" "/";
   code "d" "V" "/="; code "e" "o" "^"; code "e" "O" "^="; code "e" "q" "=="; code "g" "e" ">=";
   code "g" "t" ">"; code "i" "x" "[]"; code "l" "e" "<="; code "l" "s" "<<"; code "l" "S" "<<=";
   code "l" "t" "<"; code "m" "i" "-"; code "m" "I" "-="; code "m" "l" "*"; code "m" "L" "*=";
   code "m" "m" "--"; code "n" "e" "!="; code "n" "g" "-"; code "n" "t" "!"; code "o" "o" "||";
   code "o" "r" "|"; code "o" "R" "|="; code "p" "l" "+"; code "p" "L" "+="; code "p" "m" "->*";
   code "p" "p" "++"; code "p" "s" "+"; code "p" "t" "->"; code "q" "u" "?"; code "r" "m" "%";
   code "r" "M" "%="; code "r" "s" ">>"; code "r" "S" ">>="].

Section Operators.
Context {P : Platform} {I : Input} {R : Readers}.
Abbreviation any := (fun _ => True).

Lemma does_operator i x y r o q name :
  never_oom -> x <> NUL -> lit name <> [] ->
  switch (SIMPLE_HASH x y) (uqname_ops_1 ++ uqname_ops_2 ++ uqname_ops_3) read_uqname_rest
    = (DEM_PUSH_STR name;; advance 2) ->
  does (V i (x :: y :: r) o q) cpp_demangle_read_uqname any (V (i + 2) r (o ++ [lit name]) q).
Proof.
  intros Hoom Hx Hne Hsw. unfold cpp_demangle_read_uqname.
  eapply does_any; [by apply does_guard_more | intros _].
  eapply (does_eq _ _ _ (SIMPLE_HASH x y)); [apply (does_hash i x (y :: r))|]. rewrite Hsw.
  eapply does_any; [by apply (does_push_lit (e := ext0) Hoom) | intros _].
  apply (does_advance i [x; y] r).
Qed.

(** Operator names: each of these 43 codes is read as its operator, written
    after the word [operator], and exactly the two letters are consumed. *)
Theorem operator_names x y sym i r o q :
  never_oom -> (x, y, sym) ∈ abi_operators ->
  does (V i (x :: y :: r) o q) cpp_demangle_read_uqname any
    (V (i + 2) r (o ++ [lit ("operator" +:+ sym)]) q).
Proof.
  intros Hoom Hin.
  assert (Forall (fun '(x, y, sym) =>
    x <> NUL /\ lit ("operator" +:+ sym) <> [] /\
    switch (SIMPLE_HASH x y) (uqname_ops_1 ++ uqname_ops_2 ++ uqname_ops_3) read_uqname_rest
      = (DEM_PUSH_STR ("operator" +:+ sym);; advance 2)) abi_operators) as HF.
  { unfold abi_operators. repeat (apply Forall_cons_2; [by split_and!|]). apply Forall_nil_2. }
  rewrite Forall_forall in HF. destruct (HF _ Hin) as (Hx & Hne & Hsw).
  by apply does_operator.
Qed.

(** The labels of each of the big switches are pairwise different numbers,
    the constructors and destructors and the special names included: no case
    hides another. *)
Theorem switch_labels_distinct :
  NoDup ((uqname_ops_1 ++ uqname_ops_2 ++ uqname_ops_3).*1
         ++ [H "C" "1"; H "C" "2"; H "C" "3"; H "D" "0"; H "D" "1"; H "D" "2"]) /\
  NoDup ((expression_ops_1 ++ expression_ops_2 ++ expression_ops_3).*1).
Proof. split; apply (bool_decide_unpack _); vm_compute; exact Logic.I. Qed.
End Operators.

(** ** Global constructors *)
Section GlobalCtor.
Context {P : Platform} (Hoom : never_oom).

Lemma does_empty_substr {I : Input} i r q :
  does (V i r [] q) (vec_substr_or_fail VOutput 0) (eq (Uninit, 0)) (V i r [] q).
Proof.
  intros s Hs. unfold vec_substr_or_fail, vec_substr. rewrite bind_assoc. run1.
  assert (size (output s) = 0) as Hsz by (by rewrite (vec_ok_size _ _ (proj1 (sees_out _ _ Hs)))).
  rewrite Hsz. erewrite bind_Ok.
  2: { unfold on_clock, vector_str_substr. change (size_t (0 - 1) <? 0) with false.
       change (size_t (size_t (0 - 1) + 1) <=? 0) with true.
       unfold malloc, mbind, comp_bind. by rewrite Hoom. }
  eexists _, _. split; [done|]. split; [done|]. by apply sees_step.
Qed.

(** An empty component is refused as a substitution candidate. *)
Lemma fails_empty_component {I : Input} i r o q w :
  vec_ok w [] -> fails (V i r o q) (push_component w Uninit 0).
Proof.
  intros Hw. unfold push_component. eapply (fails_bind _ _ _ _ (fun v => vec_ok v [[]])).
  { unfold local_push. eapply (does_bind _ _ _ _ _ (fun r => r.1 = true /\ vec_ok r.2 [[]])).
    - apply does_on_clock. intros k.
      destruct (vector_str_push_ok w [] Uninit 0 [] k Hw) as (b & v' & n' & E & _ & Hv & Hb); [by left|].
      rewrite (Hb Hoom) in *. by eexists _, _.
    - intros [b v'] [Hb Hv]. cbn in Hb, Hv. subst. by apply does_ret. }
  intros v' Hv'. apply fails_here. unfold cpp_demangle_push_subst_v.
  eapply (fails_eq _ _ None); [|apply fails_failed]. apply does_on_clock. intros k.
  destruct (vector_str_get_flat_ok v' [[]] k Hv') as (x & n' & E & _ & _ & Hnil & _).
  eexists _, _. split; [exact E|]. by rewrite Hnil.
Qed.

(** No name starts with [_G]: the reader of unscoped names reads nothing. *)
Lemma fails_underscore_name {I : Input} {R : Readers} i r q :
  fails (V i ("_"%char :: "G"%char :: r) [] q) cpp_demangle_read_name.
Proof.
  unfold cpp_demangle_read_name.
  eapply fails_bind; [by apply does_guard_more | intros _ _].
  eapply fails_eq; [apply does_peek_cons|]. cbn [switch]. rewrite !decide_False by done.
  unfold read_unscoped_name. eapply fails_eq; [apply does_gets_out|].
  eapply fails_bind; [by apply does_local_vec|]. intros w Hw.
  eapply fails_eq; [by apply does_out_size|].
  eapply (fails_bind _ _ _ _ (fun _ => True)).
  { unfold cpp_demangle_read_uqname. eapply does_any; [by apply does_guard_more | intros _].
    eapply does_eq; [apply does_hash|]. rewrite switch_miss by done.
    unfold read_uqname_rest. eapply does_eq; [apply does_peek_cons|]. eapply does_eq; [apply does_peek1|].
    rewrite bool_decide_false by done. cbn [andb]. eapply does_eq; [apply does_hash|].
    rewrite switch_miss by done. change (ELFTC_ISDIGIT "_") with false. by apply does_ret. }
  intros _ _. eapply fails_eq; [apply does_empty_substr|]. cbv beta iota.
  change (0 >? 8) with false. eapply fails_eq; [by apply does_ret|]. cbv iota.
  apply fails_here. by apply fails_empty_component.
Qed.

(** The [_GLOBAL__I_] form, for which the code has a branch that would print
    [global constructors keyed to ...], always yields NULL: the branch is
    behind the test for [_Z], which such a string fails. *)
Theorem global_constructor_never_demangled suffix n :
  exists n', __cxa_demangle_gnu3 (Some (lit "_GLOBAL__I_" ++ suffix)) n = Ok None n'.
Proof.
  unfold __cxa_demangle_gnu3, demangle_at. set (I := (lit "_GLOBAL__I_" ++ suffix) : Input).
  pose proof (zlength_nonneg suffix).
  assert (zlength I = 11 + zlength suffix) as Hlen by (unfold I; rewrite zlength_app; done).
  rewrite (bool_decide_false (I !! 1%nat = Some "Z"%char)) by done. rewrite orb_true_r.
  apply (run_fails Hoom 0); [unfold input; lia|]. rewrite zdrop_0. unfold input, I. cbn [lit app String.list_ascii_of_string].
  set (r := "G"%char :: _). unfold demangle_type. apply fails_here. unfold cpp_demangle_read_type.
  eapply fails_eq; [apply does_gets_out|]. eapply fails_eq; [by apply does_ret|].
  eapply fails_bind.
  { apply (does_on_clock _ _ (fun x => exists v, x = Some v)). intros k.
    destruct (vector_type_qualifier_init_ok k) as (x & n' & E & _ & Hs & Hx).
    destruct (Hs Hoom) as [v ->]. eexists _, _. split; [done|]. eauto. }
  intros ? (v & ->). eapply fails_eq; [by apply does_out_size|]. change (zlength []) with 0.
  apply fails_here. cbn [read_type_loop]. eapply fails_eq; [apply does_peek_cons|].
  eapply fails_bind; [apply does_if_false; [by intros [?|[?|?]] | apply does_set_ref]|]. intros _ _.
  change (type_qualifier_of "_") with (@None type_qualifier).
  rewrite !decide_False by done. unfold read_type_core.
  change (builtin_type "_") with (@None string). cbn [switch]. rewrite !decide_False by done.
  apply fails_here. apply fails_underscore_name.
Qed.
End GlobalCtor.

(** ** The join of two empty vectors *)

(** Joining two empty vectors gives a vector without room, and growing asserts
    that there is some: the next push aborts, whatever is pushed.  A local
    name in a function with an empty nested name gets there. *)
Theorem empty_join_aborts {P : Platform} dst org n :
  never_oom -> size dst = 0 -> size org = 0 ->
  exists v n', vector_str_push_vector dst org n = Ok (true, v) n' /\
    forall str len k, vector_str_push v str len k = Crash AssertFail.
Proof.
  intros Hoom Hd Ho.
  assert (forall v, size v = 0 -> container v = []) as Hnil.
  { intros [c [|x l]]; [done|]. unfold size. cbn [container]. rewrite zlength_cons.
    pose proof (zlength_nonneg l). lia. }
  unfold vector_str_push_vector. rewrite Hd, Ho, (Hnil dst Hd), (Hnil org Ho).
  rewrite (bind_Ok _ _ _ _ _ (malloc_never_oom _ _ Hoom)). eexists _, _. by split.
Qed.

(** ** Which candidates are entered *)

(** A new type is entered in the table of substitution candidates exactly when
    it is no prefix of an entry, not when it is no entry: so with parameters
    of classes [abc] and [ab] the second gets no number, and a reference to
    it fails. *)
Theorem candidate_lost_to_prefix {P : Platform} ss b s :
  never_oom -> vec_ok (subst s) ss -> b <> [] ->
  exists s', vec_add_new VSubst (Some (Bytes b)) (zlength b) s = Ok tt s' /\
    ((exists x, x ∈ ss /\ b `prefix_of` x) -> vec_ok (subst s') ss) /\
    (~ (exists x, x ∈ ss /\ b `prefix_of` x) -> vec_ok (subst s') (ss ++ [b])).
Proof.
  intros Hoom Hv Hb. unfold vec_add_new. rewrite (bind_Ok _ _ _ (subst s) s) by done.
  erewrite bind_Ok; [|unfold on_clock; by rewrite (vector_str_find_ok _ ss)].
  assert (existsb (is_prefix b) ss = true <-> exists x, x ∈ ss /\ b `prefix_of` x) as Hex.
  { rewrite existsb_exists. by setoid_rewrite is_prefix_spec; setoid_rewrite <- list_elem_of_In. }
  destruct (existsb _ _).
  - cbn. eexists. split; [done|]. split; [done|]. intros []. by apply Hex.
  - cbn [Z.eqb]. unfold vec_push. rewrite (bind_Ok _ _ _ (subst s) (set_clock (clock s) s)) by done.
    destruct (vector_str_push_ok (subst s) ss (Bytes b) (zlength b) b (clock s) Hv)
      as (ok & v' & n' & E & _ & Hv' & Hok).
    { right. split; [by apply zlength_pos|]. eexists. split; [done|]. symmetry. apply ztake_all. lia. }
    rewrite (Hok Hoom) in *. erewrite bind_Ok; [|unfold on_clock; cbn [clock set_clock]; by rewrite E].
    cbn. eexists. split; [done|]. split; [|done]. by intros ?%Hex.
Qed.

(** ** The codes of the operators *)
Definition is_letter (c : ascii) : bool :=
  ((65 <=? schar c) && (schar c <=? 90)) || ((97 <=? schar c) && (schar c <=? 122)).

Lemma schar_inj a b : schar a = schar b -> a = b.
Proof.
  unfold schar, uchar. intros E. rewrite <- (ascii_N_embedding a), <- (ascii_N_embedding b).
  pose proof (N_ascii_bounded a). pose proof (N_ascii_bounded b). f_equal. apply N2Z.inj.
  destruct (Z.ltb_spec (Z.of_N (N_of_ascii a)) 128), (Z.ltb_spec (Z.of_N (N_of_ascii b)) 128); lia.
Qed.

(** [SIMPLE_HASH] tells two pairs apart when both end in a letter, and so every
    pair that is an operator code; with a digit it does not: [m3], which is no
    operator, is taken for [ls]. *)
Theorem hash_injective_on_letters a b c d :
  is_letter b = true -> is_letter d = true ->
  SIMPLE_HASH a b = SIMPLE_HASH c d -> a = c /\ b = d.
Proof.
  unfold is_letter, SIMPLE_HASH. rewrite !orb_true_iff, !andb_true_iff, !Z.leb_le.
  intros Hb Hd E. split; apply schar_inj; lia.
Qed.

(** ** Short inputs, complete runs *)
Definition demangle_plain (x : string) : outcome nat (option mem) :=
  @__cxa_demangle_gnu3 plain_platform (Some (lit x)) 0%nat.

(** What the run returns, or how it goes wrong. *)
Definition answer (x : string) : crash + option bytes :=
  match demangle_plain x with
  | Ok (Some (Bytes s)) _ => inr (Some s)
  | Ok None _ => inr None
  | Crash c => inl c
  | _ => inl UninitRead
  end.

(** The parameter types of a local name's function are read up to an ['E'] or
    the terminator, and the cursor is then moved on in both cases: a name that
    ends after a parameter, of whatever built-in type, is read beyond its
    terminator. *)
Theorem local_name_reads_past_end c :
  is_Some (builtin_type c) -> answer ("_ZZ1f" +:+ String c EmptyString) = inl OutOfBounds.
Proof.
  intros Hc. destruct c as [[] [] [] [] [] [] [] []]; try (by destruct Hc); vm_compute; reflexivity.
Qed.

(** ** Witnesses *)
Lemma operator_names_witness :
  does (I := lit "lsRSoi") (V 0 (lit "lsRSoi") [] false)
    (@cpp_demangle_read_uqname plain_platform (lit "lsRSoi") (@readers plain_platform (lit "lsRSoi") 0))
    (fun _ => True) (V 2 (lit "RSoi") [lit "operator<<"] false).
Proof.
  refine (@operator_names plain_platform (lit "lsRSoi") _ "l"%char "s"%char "<<" 0 (lit "RSoi") [] false _ _).
  - apply plain_never_oom.
  - by apply (bool_decide_unpack _).
Defined.

Lemma global_constructor_never_demangled_witness :
  exists n', @__cxa_demangle_gnu3 plain_platform (Some (lit "_GLOBAL__I_foo")) 0%nat = Ok None n' /\
  is_cpp_mangled_gnu3 (lit "_GLOBAL__I_foo") = true.
Proof.
  destruct (@global_constructor_never_demangled plain_platform plain_never_oom (lit "foo") 0%nat) as [n' E].
  exists n'. split; [exact E | reflexivity].
Defined.

Lemma empty_join_aborts_witness :
  (exists v n', @vector_str_push_vector plain_platform fresh_vec fresh_vec 0%nat = Ok (true, v) n' /\
     forall str len k, @vector_str_push plain_platform v str len k = Crash AssertFail) /\
  answer "_ZZNEv" = inl AssertFail.
Proof.
  split; [|vm_compute; reflexivity].
  apply (@empty_join_aborts plain_platform fresh_vec fresh_vec 0%nat plain_never_oom); reflexivity.
Defined.

Lemma candidate_lost_to_prefix_witness :
  (exists s', @vec_add_new plain_platform VSubst (Some (Bytes (lit "ab"))) 2
       (set_subst (VectorStr 8 [Cell 9 (Bytes (lit "abc"))]) (fresh_data 0)) = Ok tt s' /\
     vec_ok (subst s') [lit "abc"]) /\
  answer "_Z1f3abc2abS0_" = inr None /\
  answer "_Z1f2ab3abcS0_" = inr (Some (lit "f(ab, abc, abc)")).
Proof.
  split; [|split; vm_compute; reflexivity].
  destruct (@candidate_lost_to_prefix plain_platform [lit "abc"] (lit "ab")
    (set_subst (VectorStr 8 [Cell 9 (Bytes (lit "abc"))]) (fresh_data 0))) as (s' & E & H & _);
    [apply plain_never_oom | by split_and! | done |].
  exists s'. split; [exact E|]. apply H. exists (lit "abc"). split; [apply list_elem_of_here | by exists (lit "c")].
Defined.

Lemma hash_injective_on_letters_witness :
  ("l"%char = "l"%char /\ "s"%char = "s"%char) /\
  SIMPLE_HASH "m" "3" = SIMPLE_HASH "l" "s" /\ answer "_Zm3v" = inr (Some (lit "operator<<()")).
Proof.
  split; [|split; vm_compute; reflexivity].
  apply (hash_injective_on_letters "l" "s" "l" "s"); reflexivity.
Defined.

Lemma local_name_reads_past_end_witness : answer "_ZZ1fi" = inl OutOfBounds.
Proof. apply (local_name_reads_past_end "i"%char). by eexists. Defined.
