(* ===== verification/TestCases.v ===== *)
(** * The repository's own test cases

    Cases of [src/test/demangle_cases.inc], by the line they stand on, run on
    the model: the active ones, which the demangler passes, and a part of
    those that are commented out there with the wrong text that "was returned"
    or with "got error".  The development reproduces both, so the model is
    the program also where the program is wrong; the last section has minimal
    inputs for what goes wrong. *)
From S2P Require Import Prelude CString Platform VectorStr VectorAux DemState Demangler.

(** What a run returns; [None] for anything but a text *)
Definition demangled (s : string) : option bytes :=
  match @__cxa_demangle_gnu3 plain_platform (Some (lit s)) 0%nat with
  | Ok (Some (Bytes b)) _ => Some b
  | _ => None
  end.

Definition no_text (s : string) : bool :=
  match @__cxa_demangle_gnu3 plain_platform (Some (lit s)) 0%nat with Ok None _ => true | _ => false end.

Definition returns (c : Z * string * string) : bool := bool_decide (demangled c.1.2 = Some (lit c.2)).

(** ** Cases that pass *)
Definition active_cases : list (Z * string * string) := [
  (2, "_Z1A"%string, "A"%string);
  (11, "_ZN1SgtEi"%string, "S::operator>(int)"%string);
  (86, "_ZNSt12_Vector_baseIPKcSaIS1_EED2Ev"%string, "std::_Vector_base<char const*, std::allocator<char const*>>::~_Vector_base()"%string);
  (248, "_ZSt10unexpectedv"%string, "std::unexpected()"%string);
  (581, "_ZNKSt11logic_error4whatEv"%string, "std::logic_error::what() const"%string);
  (591, "_ZNSs4_Rep10_M_disposeERKSaIcE"%string, "std::string::_Rep::_M_dispose(std::allocator<char> const&)"%string);
  (655, "_Znwm"%string, "operator new(unsigned long)"%string);
  (976, "_ZTSSt11logic_error"%string, "typeinfo name for std::logic_error"%string);
  (980, "_ZTSN10__cxxabiv120__si_class_type_infoE"%string, "typeinfo name for __cxxabiv1::__si_class_type_info"%string);
  (983, "_ZTSPKc"%string, "typeinfo name for char const*"%string);
  (985, "_ZTSc"%string, "typeinfo name for char"%string);
  (986, "_ZTSv"%string, "typeinfo name for void"%string);
  (997, "_ZTISt12length_error"%string, "typeinfo for std::length_error"%string);
  (998, "_ZTVSt12length_error"%string, "vtable for std::length_error"%string);
  (1001, "_ZTIN9__gnu_cxx24__concurrence_lock_errorE"%string, "typeinfo for __gnu_cxx::__concurrence_lock_error"%string);
  (1002, "_ZTVN9__gnu_cxx24__concurrence_lock_errorE"%string, "vtable for __gnu_cxx::__concurrence_lock_error"%string);
  (1020, "_ZTIPKc"%string, "typeinfo for char const*"%string);
  (1022, "_ZTIc"%string, "typeinfo for char"%string);
  (1023, "_ZTIv"%string, "typeinfo for void"%string);
  (2213, "_ZNK12_GLOBAL__N_115WindowsHostInfo15useDriverDriverEv"%string, "(anonymous namespace)::WindowsHostInfo::useDriverDriver() const"%string);
  (2919, "_ZN5clang26ASTDeserializationListenerD0Ev"%string, "clang::ASTDeserializationListener::~ASTDeserializationListener()"%string);
  (3820, "_ZN5clang9ASTWriter14getSelectorRefENS_8SelectorE"%string, "clang::ASTWriter::getSelectorRef(clang::Selector)"%string);
  (4609, "_ZN12_GLOBAL__N_111CallRethrow4EmitERN5clang7CodeGen15CodeGenFunctionEb"%string, "(anonymous namespace)::CallRethrow::Emit(clang::CodeGen::CodeGenFunction&, bool)"%string);
  (5820, "_ZN5clang7CodeGen11CodeGenTBAA7getCharEv"%string, "clang::CodeGen::CodeGenTBAA::getChar()"%string);
  (6367, "_ZN5clang6Parser32isTokenEqualOrMistypedEqualEqualEj"%string, "clang::Parser::isTokenEqualOrMistypedEqualEqual(unsigned int)"%string);
  (7130, "_ZNK5clang13CXXRecordDecl20hasTrivialDestructorEv"%string, "clang::CXXRecordDecl::hasTrivialDestructor() const"%string);
  (8749, "_ZN5clang4Sema17BuildDecltypeTypeEPNS_4ExprENS_14SourceLocationE"%string, "clang::Sema::BuildDecltypeType(clang::Expr*, clang::SourceLocation)"%string);
  (9689, "_ZN4llvm10FoldingSetIN5clang4ento15CompoundValDataEED1Ev"%string, "llvm::FoldingSet<clang::ento::CompoundValData>::~FoldingSet()"%string);
  (10415, "_ZNK5clang4ento19CXXBaseObjectRegion12dumpToStreamERN4llvm11raw_ostreamE"%string, "clang::ento::CXXBaseObjectRegion::dumpToStream(llvm::raw_ostream&) const"%string);
  (10974, "_ZN5clang15LocationContextD1Ev"%string, "clang::LocationContext::~LocationContext()"%string);
  (12187, "_ZNK5clang8UsedAttr5cloneERNS_10ASTContextE"%string, "clang::UsedAttr::clone(clang::ASTContext&) const"%string);
  (12579, "_ZNK5clang7TagDecl16getInnerLocStartEv"%string, "clang::TagDecl::getInnerLocStart() const"%string);
  (13025, "_ZN5clang20FunctionTemplateDecl16getCanonicalDeclEv"%string, "clang::FunctionTemplateDecl::getCanonicalDecl()"%string);
  (13675, "_ZN5clang4Stmt8childrenEv"%string, "clang::Stmt::children()"%string);
  (16304, "_ZNK4llvm17X86TargetLowering14createFastISelERNS_20FunctionLoweringInfoE"%string, "llvm::X86TargetLowering::createFastISel(llvm::FunctionLoweringInfo&) const"%string);
  (16780, "_ZN4llvm3X869GR64ClassD0Ev"%string, "llvm::X86::GR64Class::~GR64Class()"%string);
  (17325, "_ZN4llvm3ARM8SPRClassD0Ev"%string, "llvm::ARM::SPRClass::~SPRClass()"%string);
  (18104, "_ZN4llvm15Thumb1InstrInfoC2ERKNS_12ARMSubtargetE"%string, "llvm::Thumb1InstrInfo::Thumb1InstrInfo(llvm::ARMSubtarget const&)"%string);
  (18620, "_ZN4llvm16DAGTypeLegalizer17SplitVecRes_SETCCEPNS_6SDNodeERNS_7SDValueES4_"%string, "llvm::DAGTypeLegalizer::SplitVecRes_SETCC(llvm::SDNode*, llvm::SDValue&, llvm::SDValue&)"%string);
  (19460, "_ZN4llvm16SelectionDAGISel20runOnMachineFunctionERNS_15MachineFunctionE"%string, "llvm::SelectionDAGISel::runOnMachineFunction(llvm::MachineFunction&)"%string);
  (22202, "_ZN4llvm26MMIAddrLabelMapCallbackPtrD1Ev"%string, "llvm::MMIAddrLabelMapCallbackPtr::~MMIAddrLabelMapCallbackPtr()"%string);
  (23074, "_ZNK4llvm11SlotIndexes16getAnalysisUsageERNS_13AnalysisUsageE"%string, "llvm::SlotIndexes::getAnalysisUsage(llvm::AnalysisUsage&) const"%string);
  (24386, "_ZN4llvm15callDefaultCtorIN12_GLOBAL__N_111ReassociateEEEPNS_4PassEv"%string, "llvm::Pass* llvm::callDefaultCtor<(anonymous namespace)::Reassociate>()"%string);
  (25900, "_ZNK4llvm6DIType5printERNS_11raw_ostreamE"%string, "llvm::DIType::print(llvm::raw_ostream&) const"%string);
  (27612, "_ZNK4llvm10BasicBlock10getContextEv"%string, "llvm::BasicBlock::getContext() const"%string);
  (29038, "_ZNK4llvm15UnreachableInst10clone_implEv"%string, "llvm::UnreachableInst::clone_impl() const"%string);
  (29992, "_ZN4llvm13PMDataManager15getOnTheFlyPassEPNS_4PassEPKvRNS_8FunctionE"%string, "llvm::PMDataManager::getOnTheFlyPass(llvm::Pass*, void const*, llvm::Function&)"%string);
  (30627, "_ZNK4llvm3EVT22isExtended128BitVectorEv"%string, "llvm::EVT::isExtended128BitVector() const"%string);
  (31198, "_ZN4llvm16MCObjectStreamerD0Ev"%string, "llvm::MCObjectStreamer::~MCObjectStreamer()"%string);
  (31622, "_ZN4llvm5APInt25tcSetLeastSignificantBitsEPyjj"%string, "llvm::APInt::tcSetLeastSignificantBits(unsigned long long*, unsigned int, unsigned int)"%string);
  (32039, "_ZN12_GLOBAL__N_115MemoryBufferMemD0Ev"%string, "(anonymous namespace)::MemoryBufferMem::~MemoryBufferMem()"%string);
  (33686, "_ZTSN4llvm2cl11opt_storageINS_14PassDebugLevelELb0ELb0EEE"%string, "typeinfo name for llvm::cl::opt_storage<llvm::PassDebugLevel, false, false>"%string);
  (34008, "_ZTVN5clang4sema14BlockScopeInfoE"%string, "vtable for clang::sema::BlockScopeInfo"%string);
  (34334, "_ZTVN5clang13PragmaHandlerE"%string, "vtable for clang::PragmaHandler"%string);
  (34669, "_ZTVN4llvm24ScheduleHazardRecognizerE"%string, "vtable for llvm::ScheduleHazardRecognizer"%string);
  (34967, "_ZTIN12_GLOBAL__N_113BBPassManagerE"%string, "typeinfo for (anonymous namespace)::BBPassManager"%string);
  (35312, "_ZTVN4llvm10FoldingSetIN5clang4ento18BugReporterVisitorEEE"%string, "vtable for llvm::FoldingSet<clang::ento::BugReporterVisitor>"%string);
  (35704, "_ZGVZN5clang22getClangRepositoryPathEvE13SVNRepository"%string, "guard variable for clang::getClangRepositoryPath()::SVNRepository"%string);
  (35711, "_ZN12_GLOBAL__N_13DAH2IDE"%string, "(anonymous namespace)::DAH::ID"%string);
  (36045, "_ZN4llvm19NoExcessFPPrecisionE"%string, "llvm::NoExcessFPPrecision"%string);
  (36137, "_ZNSsixEm"%string, "std::string::operator[](unsigned long)"%string);
  (36171, "_ZdlPvRKSt9nothrow_t"%string, "operator delete(void*, std::nothrow_t const&)"%string);
  (36180, "_ZL4NaNU"%string, "NaNU"%string);
  (36394, "_ZN4llvm3X86L26SEGMENT_REGSuperRegClassesE"%string, "llvm::X86::SEGMENT_REGSuperRegClasses"%string);
  (36692, "_ZN4llvm12_GLOBAL__N_1L14RSI_SubRegsSetE"%string, "llvm::(anonymous namespace)::RSI_SubRegsSet"%string);
  (36990, "_ZN4llvm12_GLOBAL__N_1L12Q15_OverlapsE"%string, "llvm::(anonymous namespace)::Q15_Overlaps"%string);
  (37543, "_ZL15NumShrunkToBool"%string, "NumShrunkToBool"%string);
  (37841, "_ZN4llvmL14OperandInfo260E"%string, "llvm::OperandInfo260"%string);
  (38139, "_ZL11NumSTRD2STM"%string, "NumSTRD2STM"%string);
  (38437, "_ZL17nObjCAtDefsFields"%string, "nObjCAtDefsFields"%string);
  (38735, "_ZL18NamedGroupedTimers"%string, "NamedGroupedTimers"%string);
  (38984, "_ZNKO1X1hEv"%string, "X::h() const &&"%string);
  (39463, "_ZTIU4_farrVKPi"%string, "typeinfo for int* const volatile restrict _far"%string);
  (39929, "_ZNKR4llvm8OptionalINS_11MCFixupKindEEdeEv"%string, "llvm::Optional<llvm::MCFixupKind>::operator*() const &"%string);
  (40478, "_ZNSdC1Ev"%string, "std::basic_iostream<char, std::char_traits<char>>::basic_iostream()"%string);
  (40479, "_ZNSiC1Ev"%string, "std::basic_istream<char, std::char_traits<char>>::basic_istream()"%string);
  (40480, "_ZNSoC1Ev"%string, "std::basic_ostream<char, std::char_traits<char>>::basic_ostream()"%string)
].

Lemma active_cases_pass : forallb returns active_cases = true.
Proof. by vm_compute. Qed.

(** ** Cases with a wrong text

    The line, the mangled name, and the text that "was returned". *)
Definition wrong_cases : list (Z * string * string) := [
  (13, "_ZrsI1QEiT_i"%string, "operator>>(<Q>, int, Q, int)"%string);
  (1111, "_ZNSt6vectorISt4pairISsSsESaIS1_EED2Ev"%string, "std::vector<std::pair<std::string, std::string>, std::allocator<std::string>>::~string()"%string);
  (2988, "_ZN5clang9ASTReader23ReadNestedNameSpecifierERKN4llvm11SmallVectorIyLj64EEERj"%string, "clang::ASTReader::ReadNestedNameSpecifier(llvm::SmallVector<unsigned long long, 64> const&, unsigned int&)"%string);
  (3216, "_ZN5clang9ASTReader11ReadAPFloatERKN4llvm11SmallVectorIyLj64EEERj"%string, "clang::ASTReader::ReadAPFloat(llvm::SmallVector<unsigned long long, 64> const&, unsigned int&)"%string);
  (3289, "_ZThn40_N5clang9ASTReaderD1Ev"%string, "virtual function non-virtual override offset : -40 clang::ASTReader::~ASTReader()"%string);
  (6808, "_ZN4llvm11SmallVectorItLj128EEC2EjRKt"%string, "llvm::SmallVector<unsigned short, 128>::SmallVector(unsigned int, unsigned short const&)"%string);
  (16469, "_ZN4llvm11SmallVectorIiLj8EEC2EjRKi"%string, "llvm::SmallVector<int, 8>::SmallVector(unsigned int, int const&)"%string);
  (17847, "_ZN4llvm12ARMSubtargetC1ERKSsS2_b"%string, "llvm::ARMSubtarget::ARMSubtarget(std::string const&, std::string const, bool)"%string);
  (21213, "_ZN4llvm15IntervalMapImpl8NodeBaseISt4pairINS_9SlotIndexES3_EjLj9EEC2Ev"%string, "llvm::IntervalMapImpl::NodeBase<std::pair<llvm::SlotIndex, llvm::SlotIndex>, unsigned int, 9>::NodeBase()"%string);
  (22386, "_ZN4llvm15SparseBitVectorILj128EE5resetEj"%string, "llvm::SparseBitVector<128>::reset(unsigned int)"%string);
  (23249, "_ZN4llvm11SmallVectorIfLj16EEC2EjRKf"%string, "llvm::SmallVector<float, 16>::SmallVector(unsigned int, float const&)"%string);
  (24803, "_ZN4llvm11SmallVectorIPNS_5ValueELj8EEC2EjRKS2_"%string, "llvm::SmallVector<llvm::Value*, 8>::SmallVector(unsigned int, llvm::Value* const&)"%string);
  (25498, "_ZThn32_N12_GLOBAL__N_114BasicCallGraph7destroyEv"%string, "virtual function non-virtual override offset : -32 (anonymous namespace)::BasicCallGraph::destroy()"%string);
  (26569, "_ZThn32_N12_GLOBAL__N_14NoAA14addEscapingUseERN4llvm3UseE"%string, "virtual function non-virtual override offset : -32 (anonymous namespace)::NoAA::addEscapingUse(llvm::Use&)"%string);
  (30125, "_ZThn32_N4llvm13FPPassManagerD0Ev"%string, "virtual function non-virtual override offset : -32 llvm::FPPassManager::~FPPassManager()"%string);
  (30264, "_ZThn432_N4llvm15PassManagerImplD0Ev"%string, "virtual function non-virtual override offset : -432 llvm::PassManagerImpl::~PassManagerImpl()"%string);
  (39220, "_ZN6test231fERA10_A5_VKPv"%string, "test23::f(void* const volatile [5] [10]&)"%string);
  (40267, "_Z3fooILi79EEbU7_ExtIntIXT_EEi"%string, "bool foo<79>(<79> _ExtInt, int)"%string)
].

Lemma wrong_cases_reproduced : forallb returns wrong_cases = true.
Proof. by vm_compute. Qed.

(** ** Cases that fail *)
Definition failing_cases : list (Z * string) := [
  (7, "_Z4testI1A1BET0_T_S3_"%string);
  (847, "_ZZ30_dyld_image_containing_addressE8__func__"%string);
  (1342, "_ZN4llvm15SmallVectorImplIPKcE6insertIPS2_EES5_S5_T_S6_"%string);
  (22153, "_ZSt9sort_heapIPPN4llvm17MachineBasicBlockEEvT_S4_"%string);
  (27888, "_ZN4llvm12ConstantExpr12getCompareTyEtPNS_8ConstantES2_"%string);
  (38801, "_ZN5Casts8implicitILj4EEEvPN9enable_ifIXcoT_EvE4typeE"%string);
  (39280, "_Z2f3IJiEEvDpPKT_"%string);
  (39575, "_ZN5test11aIsEEDTcl3foocvT__EEES1_"%string);
  (39740, "_ZN5test73fA1IiEEDTcmtlNS_1AELi1ELi2EEcvT__EES2_"%string);
  (39900, "_Z1iIJEEPDwiDpT_EFivES3_"%string);
  (40086, "_Z2tfIZUb_E1SEiv"%string);
  (40252, "_Z1h1XIJZ1fIiEDaOT_E1AZ1gIdEDaS2_E1BEE"%string)
].

Lemma failing_cases_reproduced : forallb (fun c => no_text c.2) failing_cases = true.
Proof. by vm_compute. Qed.

(** ** Minimal inputs *)

(** The qualifiers next to the base of a parameter of a function type are lost. *)
Lemma parameter_qualifier_lost :
  demangled "_Z1fPFvPKcE" = Some (lit "f(void (" ++ ["*"%char] ++ lit ")(char" ++ ["*"%char] ++ lit "))").
Proof. by vm_compute. Qed.

(** The qualifiers of an instance of a substituted template are written in
    front of its arguments, *)
Lemma qualifier_before_arguments :
  demangled "_Z1f3fooIiEPS_IcE" = Some (lit "f(foo<int>, foo*<char>)").
Proof. by vm_compute. Qed.

(** and its candidate is the arguments alone. *)
Lemma instance_candidate_lost :
  demangled "_Z1f3fooIiES_IcES1_" = Some (lit "f(foo<int>, foo<char>, <char>)").
Proof. by vm_compute. Qed.

(** The abbreviations of [std] become candidates. *)
Lemma abbreviation_is_candidate :
  demangled "_Z1fSs3KeyS_" = Some (lit "f(std::string, Key, std::string)").
Proof. by vm_compute. Qed.

(** Template arguments are kept in one table for the whole name: the first
    parameter of a member template is the first argument of its class, *)
Lemma flat_template_arguments :
  demangled "_ZN3MapIiE3getIcEET_v" = Some (lit "int Map<int>::get<char>()").
Proof. by vm_compute. Qed.

(** and an argument whose text starts an earlier one is not entered, so that
    the parameters behind it have no argument. *)
Lemma template_argument_lost :
  no_text "_Z1fIPiiEvT0_" = true /\ demangled "_Z1fIiPiEvT0_" = Some (lit "void f<int, int" ++ ["*"%char] ++ lit ">(int" ++ ["*"%char] ++ lit ")").
Proof. by vm_compute. Qed.

(** The last source name may have been freed with the text it was part of: a
    constructor behind a flattened type reads it. *)
Lemma dangling_source_name :
  @__cxa_demangle_gnu3 plain_platform (Some (lit "_ZTC1A0_NC1E")) 0%nat = Crash UseAfterFree.
Proof. by vm_compute. Qed.

(** A type that writes nothing leaves its text without a terminator, and a
    qualifier in front of it measures that text. *)
Lemma empty_type_text_unterminated :
  @__cxa_demangle_gnu3 plain_platform (Some (lit "KNE")) 0%nat = Crash UninitRead.
Proof. by vm_compute. Qed.
