(* ===== verification/CxaDemangleTheorems.v ===== *)
(** * What __cxa_demangle promises

    The buffer, its size and the status of every call that respects the
    interface, and the round trip through the mangling of [Roundtrip]. *)
From S2P Require Import Prelude CString Platform Demangler DemTotal DemFuel DemTheorems Mangling Roundtrip RoundtripTypes RoundtripTheorems CxaDemangle.

Section Theorems.
Context {P : Platform}.

(** The caller's side: a buffer comes with a size it really has. *)
Definition buffer_ok (buf n : option Z) : Prop :=
  match buf with
  | None => True
  | Some size => exists claimed, n = Some claimed /\ claimed <= size
  end.

Definition wants {A} (p : option A) (v : Z) : option Z := (fun _ => v) <$> p.

(** A string [s] delivered: whole, in a buffer with room for its NUL. *)
Definition delivered (s : bytes) (n status : option Z) (r : demangled) : Prop :=
  exists size, d_buf r = Some (s, size) /\ zlength s < size /\
    d_n r = wants n (zlength s) /\ d_status r = wants status 0.

Definition nothing (code : Z) (n status : option Z) (r : demangled) : Prop :=
  d_buf r = None /\ d_n r = n /\ d_status r = wants status code.

Lemma gnu3_shape org k :
  match __cxa_demangle_gnu3 org k with
  | Ok None _ | Crash _ => True
  | Ok (Some m) _ => good_string m
  | Fail _ | NoFuel => False
  end.
Proof.
  destruct org as [org|]; [|done]. cbn [__cxa_demangle_gnu3].
  pose proof (demangle_at_good (recursion_fuel org) org k) as Hg.
  pose proof (demangle_at_no_fail (recursion_fuel org) org k) as Hf.
  assert ((length org + 2 <= recursion_fuel org)%nat) as Ht by (unfold recursion_fuel; lia).
  pose proof (demangle_at_fuel org _ k Ht) as Hn.
  destruct (demangle_at _ _ k) as [[m|] k'|k'| |]; try done; [by apply Hg | by destruct (Hf k')].
Qed.

Lemma store_string_ok s size k : zlength s < size -> store_string s size k = Ok (s, size) k.
Proof. intros H. unfold store_string. by rewrite (proj2 (Z.ltb_ge _ _)) by lia. Qed.

(** What follows the demangler, for a result [s]. *)
Lemma deliver org buf n status k s k' :
  buffer_ok buf n -> __cxa_demangle_gnu3 org k = Ok (Some (Bytes s)) k' ->
  exists r k'', __cxa_demangle org buf n status k = Ok r k'' /\
    (delivered s n status r \/
     nothing (-1) n status r /\ malloc_ok k' (zlength s + 1) = false).
Proof.
  intros Hb E. unfold __cxa_demangle. rewrite (bind_Ok _ _ _ _ _ E). cbn [read_cstr].
  rewrite bind_ret. cbv zeta.
  assert (forall f : option Z -> comp nat demangled,
    (realloc (zlength s + 1) ≫= f) k'
    = f (if malloc_ok k' (zlength s + 1) then Some (zlength s + 1) else None) (S k')) as Hre.
  { intros f. unfold realloc, malloc, mbind, comp_bind. by destruct (malloc_ok _ _). }
  assert (forall size, zlength s < size -> exists r, (b ← store_string s size;
    mret (Demangled (Some b) (match n with Some _ => Some (zlength s) | None => None end)
      (match status with Some _ => Some 0 | None => None end))) =  r /\
    forall k, exists d, r k = Ok d k /\ delivered s n status d) as Hst.
  { intros size Hs. eexists. split; [reflexivity|]. intros j. eexists. split.
    - rewrite (bind_Ok _ _ _ _ _ (store_string_ok s size j Hs)). reflexivity.
    - exists size. cbn. split_and!; try done; by (destruct n || destruct status). }
  assert (exists r k'', (buf ← realloc (zlength s + 1);
      match buf with
      | Some size => b ← store_string s size;
          mret (Demangled (Some b) (match n with Some _ => Some (zlength s) | None => None end)
            (match status with Some _ => Some 0 | None => None end))
      | None => mret (Demangled None n (match status with Some _ => Some (-1) | None => None end))
      end) k' = Ok r k'' /\
    (delivered s n status r \/ nothing (-1) n status r /\ malloc_ok k' (zlength s + 1) = false)) as Hgrow.
  { rewrite Hre. destruct (malloc_ok _ _) eqn:Hm.
    - destruct (Hst (zlength s + 1) ltac:(lia)) as (? & <- & Hr). destruct (Hr (S k')) as (d & -> & Hd). eauto.
    - eexists _, _. split; [reflexivity|]. right. split; [|done]. by destruct status. }
  destruct buf as [size|]; [|exact Hgrow].
  destruct Hb as (claimed & -> & Hc). destruct (Z.ltb_spec claimed (zlength s + 1)); [exact Hgrow|].
  rewrite bind_ret. destruct (Hst size ltac:(lia)) as (? & <- & Hr).
  destruct (Hr k') as (d & -> & Hd). eauto.
Qed.

Lemma cxa_demangle_shape org buf n status k :
  buffer_ok buf n ->
  match __cxa_demangle_gnu3 org k with
  | Ok (Some m) k' => exists s r k'', m = Bytes s /\
      __cxa_demangle org buf n status k = Ok r k'' /\
      (delivered s n status r \/
       nothing (-1) n status r /\ malloc_ok k' (zlength s + 1) = false)
  | Ok None k' => exists r, __cxa_demangle org buf n status k = Ok r k' /\ nothing (-2) n status r
  | Crash c => __cxa_demangle org buf n status k = Crash c
  | Fail _ | NoFuel => False
  end.
Proof.
  intros Hb. pose proof (gnu3_shape org k) as Hs.
  destruct (__cxa_demangle_gnu3 org k) as [[m|] k'|k'|c|] eqn:E; try done.
  - destruct Hs as (s & -> & _). destruct (deliver org buf n status k s k' Hb E) as (r & k'' & ? & ?).
    by exists s, r, k''.
  - unfold __cxa_demangle. rewrite (bind_Ok _ _ _ _ _ E). eexists. split; [reflexivity|]. by destruct status.
  - unfold __cxa_demangle. by rewrite (bind_Crash _ _ _ _ E).
Qed.



(** A buffer without its size ([n] NULL) is not rejected, as the
    interface asks for, with status -3: the size is read through the null
    pointer, for every name that can be demangled. *)
Theorem cxa_demangle_null_size org size status k m k' :
  __cxa_demangle_gnu3 org k = Ok (Some m) k' ->
  __cxa_demangle org (Some size) None status k = Crash NullDeref.
Proof.
  intros E. pose proof (gnu3_shape org k) as H. rewrite E in H. destruct H as (s & -> & _).
  unfold __cxa_demangle. by rewrite (bind_Ok _ _ _ _ _ E).
Qed.
End Theorems.



Lemma cxa_demangle_null_size_witness :
  @__cxa_demangle plain_platform (Some (lit "_Z1fv")) (Some 10) None (Some 7) 0%nat = Crash NullDeref.
Proof.
  eapply (@cxa_demangle_null_size plain_platform (Some (lit "_Z1fv")) 10 (Some 7) 0%nat).
  vm_compute. reflexivity.
Defined.
