(* ===== verification/CxaAtexitTheorems.v ===== *)
(** * What the exit handlers promise

    The list of handlers refines a list of registrations, newest first.
    Registering puts a handler in front.  Finalizing runs the handlers of a
    library, newest first and each once, and keeps the others, provided that
    freed memory still reads as it did; where it does not, the loop's step
    reads the node it has just freed. *)
From stdpp Require Import gmap.
From S2P Require Import Prelude CString Platform CxaAtexit.

(** A registration and the node that holds it. *)
Record entry := Entry { e_loc : nat; e_f : Z; e_p : Z; e_d : Z }.

Definition node_of (e : entry) (next : option nat) : block :=
  Live (AtexitHandler (e_f e) (e_p e) (e_d e) next).

(** [seg m p es q]: from the pointer [p], the nodes of [es] lead to [q]. *)
Fixpoint seg (m : gmap nat block) (p : option nat) (es : list entry) (q : option nat) : Prop :=
  match es with
  | [] => p = q
  | e :: es => p = Some (e_loc e) /\ exists next, m !! e_loc e = Some (node_of e next) /\ seg m next es q
  end.

(** The list is well-formed and holds [es]; fresh nodes are not in the heap. *)
Record atexit_ok (s : atexit_state) (es : list entry) : Prop := AtexitOk {
  ok_seg : seg (heap s) (head_ptr s) es None;
  ok_nodup : NoDup (e_loc <$> es);
  ok_fresh : forall l, is_Some (heap s !! l) -> (l < at_clock s)%nat;
}.

(** Does [__cxa_finalize d] run this handler? *)
Definition matches (d : Z) (e : entry) : bool := (e_d e =? d) || (d =? 0).

Lemma seg_insert_ne m p es q l b :
  l ∉ (e_loc <$> es) -> seg m p es q -> seg (<[l := b]> m) p es q.
Proof.
  revert p. induction es as [|e es IH]; intros p Hl; [done|]. cbn in *.
  apply not_elem_of_cons in Hl as [Hne Hl]. intros (-> & next & He & Hs).
  split; [done|]. exists next. rewrite lookup_insert_ne by done. auto.
Qed.

Lemma seg_app m p es1 es2 q :
  seg m p (es1 ++ es2) q <-> exists r, seg m p es1 r /\ seg m r es2 q.
Proof.
  revert p. induction es1 as [|e es1 IH]; intros p; cbn.
  - split; [eauto|]. by intros (r & -> & ?).
  - split.
    + intros (-> & next & He & (r & H1 & H2)%IH). exists r. eauto 10.
    + intros (r & (-> & next & He & H1) & H2). split; [done|]. exists next. split; [done|].
      apply IH. eauto.
Qed.

(** The pointer [last] is the one that leads out of the kept nodes. *)
Definition link_after (es : list entry) : link :=
  match last es with None => LHead | Some e => LNext (e_loc e) end.

Section Theorems.
Context {P : Platform}.

(** Registering a handler puts it in front of the list, or, when there is no
    memory, returns 1 and leaves the list alone; the lock is free again. *)
Theorem cxa_atexit_registers f p d s es :
  atexit_ok s es -> locked s = false ->
  exists r s', __cxa_atexit f p d s = Ok r s' /\ locked s' = false /\ calls s' = calls s /\
    if malloc_ok (at_clock s) SIZEOF_HANDLER
    then r = 0 /\ atexit_ok s' (Entry (at_clock s) f p d :: es)
    else r = 1 /\ atexit_ok s' es.
Proof.
  intros [Hseg Hnd Hfresh] Hl. unfold __cxa_atexit, lock, mbind, comp_bind, gets, modify. rewrite Hl. cbn.
  assert (heap s !! at_clock s = None) as Hnone.
  { destruct (heap s !! at_clock s) eqn:E; [|done]. specialize (Hfresh (at_clock s)).
    rewrite E in Hfresh. specialize (Hfresh ltac:(eauto)). lia. }
  assert (at_clock s ∉ (e_loc <$> es)) as Hnew.
  { intros Hin. assert (forall p, seg (heap s) p es None -> at_clock s ∈ (e_loc <$> es) -> False) as H; [|eauto].
    clear -Hnone. induction es as [|e es IH]; intros p Hs Hin; [by apply elem_of_nil in Hin|].
    cbn in *. destruct Hs as (_ & next & He & Hs).
    apply elem_of_cons in Hin as [Heq|Hin]; [congruence|]. by eapply IH. }
  destruct (malloc_ok _ _); (eexists _, _; split; [done|]); cbn; (split; [done|]); (split; [done|]); (split; [done|]).
  - constructor; cbn.
    + split; [done|]. exists (head_ptr s). rewrite lookup_insert_eq. split; [done|]. by apply seg_insert_ne.
    + by constructor.
    + intros l Hin. destruct (decide (l = at_clock s)) as [->|Hne]; [lia|].
      rewrite lookup_insert_ne in Hin by done. specialize (Hfresh l Hin). lia.
  - constructor; cbn; [done..|]. intros l Hin. specialize (Hfresh l Hin). lia.
Qed.

Lemma seg_write_link stale s kept old e rest next :
  seg (heap s) (head_ptr s) kept old -> NoDup (e_loc <$> kept ++ e :: rest) ->
  exists s', write_link stale (link_after kept) next s = Ok tt s' /\
    seg (heap s') (head_ptr s') kept next /\ calls s' = calls s /\ locked s' = locked s /\
    at_clock s' = at_clock s /\
    (forall l, l ∉ (e_loc <$> kept) -> heap s' !! l = heap s !! l) /\
    (forall l, is_Some (heap s' !! l) -> is_Some (heap s !! l)).
Proof.
  intros Hseg Hnd. unfold link_after.
  destruct kept as [|x kept _] using rev_ind.
  { cbn. eexists. split; [done|]. cbn. by split_and!. }
  rewrite last_snoc. apply seg_app in Hseg as (r & Hkept & (-> & nx & Hx & Hq)).
  cbn [write_link]. unfold mbind, comp_bind, read_node. rewrite Hx. cbn.
  eexists. split; [done|]. cbn. split_and!; try done.
  - apply seg_app. exists (Some (e_loc x)). split.
    + apply seg_insert_ne; [|done]. rewrite !fmap_app, !NoDup_app in Hnd.
      destruct Hnd as ((_ & Hdisj & _) & _). intros Hin. apply (Hdisj _ Hin). by left.
    + cbn. split; [done|]. exists next. by rewrite lookup_insert_eq.
  - intros l Hl. rewrite lookup_insert_ne; [done|]. intros <-. apply Hl.
    rewrite fmap_app. apply elem_of_app. right. by left.
  - intros l. destruct (decide (l = e_loc x)) as [->|]; [by rewrite Hx|]. by rewrite lookup_insert_ne.
Qed.
Definition handler_of (e : entry) (next : option nat) : atexit_handler :=
  AtexitHandler (e_f e) (e_p e) (e_d e) next.

Lemma run_handler_ok stale s kept e rest next :
  seg (heap s) (head_ptr s) kept (Some (e_loc e)) -> NoDup (e_loc <$> kept ++ e :: rest) ->
  heap s !! e_loc e = Some (node_of e next) -> seg (heap s) next rest None ->
  exists s', run_handler stale (link_after kept) (e_loc e) (handler_of e next) s = Ok tt s' /\
    seg (heap s') (head_ptr s') kept next /\ seg (heap s') next rest None /\
    heap s' !! e_loc e = Some (FreedBlock (handler_of e next)) /\
    calls s' = calls s ++ [(e_f e, e_p e)] /\ locked s' = locked s /\ at_clock s' = at_clock s /\
    (forall l, is_Some (heap s' !! l) -> is_Some (heap s !! l)).
Proof.
  intros Hseg Hnd He Hrest.
  assert ((e_loc e ∉ e_loc <$> kept) /\ (e_loc e ∉ e_loc <$> rest) /\
    (forall l, l ∈ (e_loc <$> rest) -> l ∉ (e_loc <$> kept))) as (Hk & Hr & Hdis).
  { rewrite fmap_app, NoDup_app in Hnd. destruct Hnd as (_ & Hd & [Hr _]%NoDup_cons).
    split_and!; [|done|].
    - intros Hin. apply (Hd _ Hin). by left.
    - intros l Hl Hin. apply (Hd _ Hin). by right. }
  destruct (seg_write_link stale s kept (Some (e_loc e)) e rest next Hseg Hnd)
    as (s1 & E1 & Hs1 & Hc1 & Hl1 & Ht1 & Hheap & Hdom).
  unfold run_handler. rewrite (bind_Ok _ _ _ _ _ E1).
  unfold mbind, comp_bind, call_handler, modify, free_node. cbn.
  rewrite Hheap, He by done. cbn. eexists. split; [done|]. cbn. split_and!.
  - by apply seg_insert_ne.
  - apply seg_insert_ne; [done|]. clear -Hrest Hheap Hdis. revert next Hrest.
    induction rest as [|x rest IH]; intros next; [done|]. cbn. intros (-> & nx & Hx & Hs).
    split; [done|]. exists nx. rewrite Hheap by (apply Hdis; by left). split; [done|].
    apply IH; [|done]. intros l Hl. apply Hdis. by right.
  - by rewrite lookup_insert_eq.
  - by rewrite Hc1.
  - done.
  - done.
  - intros l. destruct (decide (l = e_loc e)) as [->|].
    + intros _. by rewrite He.
    + rewrite lookup_insert_ne by done. apply Hdom.
Qed.

Lemma finalize_loop_ok d rest : forall s kept cur fuel,
  (length rest <= fuel)%nat ->
  seg (heap s) (head_ptr s) kept cur -> seg (heap s) cur rest None ->
  NoDup (e_loc <$> kept ++ rest) ->
  exists s', finalize_loop true fuel d (link_after kept) cur s = Ok tt s' /\
    seg (heap s') (head_ptr s') (kept ++ filter (fun e => matches d e = false) rest) None /\
    calls s' = calls s ++ ((fun e => (e_f e, e_p e)) <$> filter (fun e => matches d e = true) rest) /\
    locked s' = locked s /\ at_clock s' = at_clock s /\
    (forall l, is_Some (heap s' !! l) -> is_Some (heap s !! l)).
Proof.
  induction rest as [|e rest IH]; intros s kept cur fuel Hf Hkept Hrest Hnd.
  - cbn in Hrest. subst cur. exists s. destruct fuel; cbn [finalize_loop];
      (split; [done|]); rewrite !app_nil_r; by split_and!.
  - destruct Hrest as (-> & next & He & Hrest). destruct fuel as [|fuel]; [cbn in Hf; lia|].
    cbn [finalize_loop].
    rewrite (bind_Ok _ _ _ (handler_of e next) s) by (unfold read_node; by rewrite He).
    change ((h_d (handler_of e next) =? d) || (d =? 0)) with (matches d e).
    destruct (matches d e) eqn:Hm.
    + destruct (run_handler_ok true s kept e rest next Hkept Hnd He Hrest)
        as (s1 & E1 & Hk1 & Hr1 & Hf1 & Hc1 & Hl1 & Ht1 & Hdom1).
      assert (NoDup (e_loc <$> kept ++ rest)) as Hnd1.
      { rewrite fmap_app, NoDup_app in Hnd |- *. destruct Hnd as (? & Hd & [? ?]%NoDup_cons).
        split_and!; try done. intros l Hl Hin. apply (Hd l Hl). by right. }
      destruct (IH s1 kept next fuel ltac:(cbn in Hf; lia) Hk1 Hr1 Hnd1)
        as (s2 & E2 & Hs2 & Hc2 & Hl2 & Ht2 & Hdom2).
      exists s2. rewrite filter_cons_False, filter_cons_True by congruence.
      split_and!; [|done|by rewrite Hc2, Hc1, <- (assoc_L (++))|congruence|congruence|auto].
      rewrite bind_assoc, (bind_Ok _ _ _ _ _ E1), bind_ret.
      rewrite (bind_Ok _ _ _ (handler_of e next) s1) by (unfold read_node; by rewrite Hf1). exact E2.
    + rewrite bind_ret.
      rewrite (bind_Ok _ _ _ (handler_of e next) s) by (unfold read_node; by rewrite He).
      assert (seg (heap s) (head_ptr s) (kept ++ [e]) next) as Hk1.
      { apply seg_app. exists (Some (e_loc e)). split; [done|]. split; [done|]. by exists next. }
      assert (NoDup (e_loc <$> (kept ++ [e]) ++ rest)) as Hnd1 by (by rewrite <- (assoc_L (++))).
      destruct (IH s (kept ++ [e]) next fuel ltac:(cbn in Hf; lia) Hk1 Hrest Hnd1)
        as (s2 & E2 & Hs2 & Hc2 & Hl2 & Ht2 & Hdom2).
      exists s2. rewrite filter_cons_True, filter_cons_False by congruence.
      rewrite <- (assoc_L (++)) in Hs2.
      split_and!; try done. revert E2. unfold link_after. by rewrite last_snoc.
Qed.

Lemma NoDup_fmap_filter (Q : entry -> Prop) `{!forall e, Decision (Q e)} es :
  NoDup (e_loc <$> es) -> NoDup (e_loc <$> filter Q es).
Proof.
  induction es as [|e es IH]; [done|]. rewrite filter_cons, fmap_cons. intros [He Hes]%NoDup_cons.
  case_decide; [|auto]. rewrite fmap_cons. constructor; [|auto].
  intros (x & Hx & [_ Hin]%list_elem_of_filter)%list_elem_of_fmap. apply He.
  apply list_elem_of_fmap. eauto.
Qed.

(** A list in the heap is no longer than the heap is big. *)
Lemma seg_bound m p es q : seg m p es q -> NoDup (e_loc <$> es) -> (length es <= size m)%nat.
Proof.
  intros Hs Hnd. rewrite <- (length_fmap e_loc es), <- size_dom, <- (size_list_to_set (C := gset nat)) by done.
  apply subseteq_size. intros l. rewrite elem_of_list_to_set.
  revert p Hs. clear Hnd. induction es as [|e es IH]; intros p Hs Hin; cbn in *; [by apply elem_of_nil in Hin|].
  destruct Hs as (_ & next & He & Hs). apply elem_of_cons in Hin as [->|Hin]; [by apply elem_of_dom_2 in He|eauto].
Qed.


(** The loop's step reads [h->next] of the node it has just freed: where
    freed memory cannot be read, finalizing a library that has a handler
    always ends in that read, after the newest of its handlers was called. *)
Theorem cxa_finalize_use_after_free d s es :
  atexit_ok s es -> locked s = false -> Exists (fun e => matches d e = true) es ->
  __cxa_finalize false d s = Crash UseAfterFree.
Proof.
  intros [Hseg Hnd Hfresh] Hl Hex. unfold __cxa_finalize, lock.
  set (s0 := set_locked true s).
  rewrite (bind_Ok _ _ _ tt s0) by (unfold mbind, comp_bind, gets; by rewrite Hl).
  rewrite (bind_Ok _ _ _ (head_ptr s) s0) by done. rewrite (bind_Ok _ _ _ (size (heap s)) s0) by done.
  pose proof (seg_bound _ _ _ _ Hseg Hnd) as Hsize.
  apply bind_Crash.
  assert (forall rest kept cur fuel, (length rest <= fuel)%nat -> seg (heap s0) (head_ptr s0) kept cur ->
    seg (heap s0) cur rest None -> NoDup (e_loc <$> kept ++ rest) -> Exists (fun e => matches d e = true) rest ->
    finalize_loop false fuel d (link_after kept) cur s0 = Crash UseAfterFree) as H.
  2: { by apply (H es [] (head_ptr s)). }
  clear. induction rest as [|e rest IH]; intros kept cur fuel Hf Hkept Hrest Hnd Hex.
  { by apply Exists_nil in Hex. }
  destruct Hrest as (-> & next & He & Hrest). destruct fuel as [|fuel]; [cbn in Hf; lia|].
  cbn [finalize_loop].
  rewrite (bind_Ok _ _ _ (handler_of e next) s0) by (unfold read_node; by rewrite He).
  change ((h_d (handler_of e next) =? d) || (d =? 0)) with (matches d e).
  destruct (matches d e) eqn:Hm.
  - destruct (run_handler_ok false s0 kept e rest next Hkept Hnd He Hrest)
      as (s1 & E1 & _ & _ & Hf1 & _).
    rewrite bind_assoc, (bind_Ok _ _ _ _ _ E1), bind_ret. apply bind_Crash.
    unfold read_node. by rewrite Hf1.
  - apply Exists_cons in Hex as [Hex|Hex]; [congruence|]. rewrite bind_ret.
    rewrite (bind_Ok _ _ _ (handler_of e next) s0) by (unfold read_node; by rewrite He).
    assert (LNext (e_loc e) = link_after (kept ++ [e])) as -> by (unfold link_after; by rewrite last_snoc).
    apply IH; [cbn in Hf; lia | | done | by rewrite <- (assoc_L (++)) | done].
    apply seg_app. exists (Some (e_loc e)). split; [done|]. split; [done|]. by exists next.
Qed.
End Theorems.

(** ** Witnesses *)
Definition empty_state : atexit_state := AtexitState None ∅ [] false 0.

Definition two_handlers : atexit_state :=
  AtexitState (Some 1%nat)
    {[ 0%nat := Live (AtexitHandler 100 7 5 None); 1%nat := Live (AtexitHandler 200 8 6 (Some 0%nat)) ]}
    [] false 2.

Lemma two_handlers_ok : atexit_ok two_handlers [Entry 1 200 8 6; Entry 0 100 7 5].
Proof.
  constructor.
  - cbn. split; [done|]. eexists. split; [by vm_compute|]. split; [done|]. eexists. by split; [vm_compute|].
  - by apply (bool_decide_unpack _).
  - intros l Hl. destruct (decide (l = 0%nat)) as [->|H0]; [cbn; lia|].
    destruct (decide (l = 1%nat)) as [->|H1]; [cbn; lia|].
    cbn [heap two_handlers] in Hl.
    rewrite lookup_insert_ne, lookup_singleton_ne in Hl by done. by destruct Hl.
Qed.

Lemma cxa_atexit_registers_witness :
  exists r s', @__cxa_atexit plain_platform 300 9 5 two_handlers = Ok r s' /\ locked s' = false /\
    calls s' = [] /\ r = 0 /\ atexit_ok s' [Entry 2 300 9 5; Entry 1 200 8 6; Entry 0 100 7 5].
Proof. apply (@cxa_atexit_registers plain_platform 300 9 5 two_handlers _ two_handlers_ok eq_refl). Defined.


Lemma cxa_finalize_use_after_free_witness :
  __cxa_finalize false 5 two_handlers = Crash UseAfterFree.
Proof.
  apply (cxa_finalize_use_after_free 5 two_handlers _ two_handlers_ok eq_refl).
  apply Exists_cons_tl, Exists_cons_hd. reflexivity.
Defined.
