(* ===== verification/DwarfEhTheorems.v ===== *)
(** * What the readers of the exception tables promise

    LEB128 numbers up to the width the shift of [read_leb128] has, the round
    trip with their encoding, and the search of the call-site table: what it
    finds in a sorted table, and how far it reads. *)
From Stdlib Require Import Sorted.
From S2P Require Import Prelude DwarfEh.

(** ** Encoding *)

(** The bytes of a number given by its base-128 digits, the lowest first. *)
Fixpoint leb_bytes (ds : list Z) : list Z :=
  match ds with
  | [] => []
  | [d] => [d]
  | d :: ds => (d + 128) :: leb_bytes ds
  end.

Definition leb_value (ds : list Z) : Z := fold_right (fun d v => d + 128 * v) 0 ds.

Definition leb_digit (d : Z) : Prop := 0 <= d < 128.

(** At most [n + 1] digits *)
Fixpoint uleb_digits (n : nat) (v : Z) : list Z :=
  match n with
  | O => [v mod 128]
  | S n => if v <? 128 then [v] else v mod 128 :: uleb_digits n (v / 128)
  end.

Fixpoint sleb_digits (n : nat) (v : Z) : list Z :=
  match n with
  | O => [v mod 128]
  | S n => if (-64 <=? v) && (v <? 64) then [v mod 128]
           else v mod 128 :: sleb_digits n (v / 128)
  end.

Definition encode_uleb128 (v : Z) : list Z := leb_bytes (uleb_digits 4 v).
Definition encode_sleb128 (v : Z) : list Z := leb_bytes (sleb_digits 3 v).

(** ** Arithmetic *)
Lemma signed_small w v : 0 < w -> - 2 ^ (w - 1) <= v < 2 ^ (w - 1) -> signed w v = v.
Proof.
  intros Hw Hv. unfold signed. assert (2 ^ w = 2 * 2 ^ (w - 1)) as Hp.
  { rewrite <- Z.pow_succ_r by lia. f_equal. lia. }
  destruct (Z.neg_nonneg_cases v).
  - rewrite <- (Z.mod_add v 1), Z.mod_small by lia.
    destruct (Z.ltb_spec (v + 1 * 2 ^ w) (2 ^ (w - 1))); lia.
  - rewrite Z.mod_small by lia. destruct (Z.ltb_spec v (2 ^ (w - 1))); lia.
Qed.

(** Digits below bit 28 do not disturb the sign. *)
Lemma signed_add_low (k : nat) d v : (k <= 3)%nat -> leb_digit d ->
  signed 32 (Z.shiftl d (7 * Z.of_nat k)) + signed 32 (2 ^ (7 * Z.of_nat (S k)) * v)
  = signed 32 (2 ^ (7 * Z.of_nat k) * (d + 128 * v)).
Proof.
  intros Hk Hd. unfold leb_digit in Hd. rewrite Z.shiftl_mul_pow2 by lia. unfold signed.
  change (2 ^ 32) with 4294967296. change (2 ^ (32 - 1)) with 2147483648.
  destruct k as [|[|[|[|k]]]]; [| | | |lia]; cbn;
    repeat match goal with |- context [?x <? ?y] => destruct (Z.ltb_spec x y) end;
    Z.div_mod_to_equations; lia.
Qed.

Lemma leb_bytes_length ds : length (leb_bytes ds) = length ds.
Proof. induction ds as [|d [|d' ds] IH]; [done|done|]. cbn [leb_bytes length] in *. by rewrite IH. Qed.

Lemma leb_value_range ds : Forall leb_digit ds -> 0 <= leb_value ds < 2 ^ (7 * Z.of_nat (length ds)).
Proof.
  induction 1 as [|d ds Hd _ IH]; [done|]. cbn [leb_value fold_right length].
  fold (leb_value ds). unfold leb_digit in Hd.
  rewrite Nat2Z.inj_succ, Z.mul_succ_r, Z.pow_add_r by lia. change (2 ^ 7) with 128. lia.
Qed.

Lemma land_127 b : 0 <= b < 256 -> Z.land b 127 = b mod 128.
Proof. intros _. change 127 with (Z.ones 7). by rewrite Z.land_ones. Qed.

Lemma u64_add a b : u64 (u64 a + b) = u64 (a + b).
Proof. unfold u64. by rewrite Zplus_mod_idemp_l. Qed.

Section Values.
Context {Mem : Memory}.

Fixpoint bytes_at (p : Z) (bs : list Z) : Prop :=
  match bs with
  | [] => True
  | b :: bs => load p = Some b /\ bytes_at (p + 1) bs
  end.

Lemma bytes_at_app p bs1 bs2 :
  bytes_at p (bs1 ++ bs2) <-> bytes_at p bs1 /\ bytes_at (p + Z.of_nat (length bs1)) bs2.
Proof.
  revert p. induction bs1 as [|b bs1 IH]; intros p; cbn [app bytes_at length].
  - rewrite Z.add_0_r. tauto.
  - rewrite IH. replace (p + 1 + Z.of_nat (length bs1)) with (p + Z.of_nat (S (length bs1))) by lia. tauto.
Qed.

Lemma read_byte_ok p b : load p = Some b -> read_byte p = Ok b (p + 1).
Proof.
  intros H. unfold read_byte, byte_at, mbind, comp_bind, gets, modify, mret, comp_ret, id.
  by rewrite H.
Qed.

Lemma read_bytes_ok bs p : bytes_at p bs -> read_bytes (length bs) p = Ok bs (p + Z.of_nat (length bs)).
Proof.
  revert p. induction bs as [|b bs IH]; intros p Hp; cbn [read_bytes length].
  - by rewrite Z.add_0_r.
  - destruct Hp as [Hb Hp]. rewrite (bind_Ok _ _ _ _ _ (read_byte_ok _ _ Hb)).
    rewrite (bind_Ok _ _ _ _ _ (IH _ Hp)). unfold mret, comp_ret. f_equal. lia.
Qed.

(** ** LEB128 *)

(** From turn [k] on, with the digits [ds] left. *)
Lemma leb128_loop_ok ds : forall k turns uleb p,
  ds <> [] -> Forall leb_digit ds -> bytes_at p (leb_bytes ds) ->
  (turns + k = 11)%nat -> (k <= 5)%nat ->
  leb128_loop turns uleb (7 * Z.of_nat k) p =
    if decide (length ds + k <= 5)%nat
    then Ok (u64 (uleb + signed 32 (2 ^ (7 * Z.of_nat k) * leb_value ds)), 7 * Z.of_nat (length ds + k))
            (p + Z.of_nat (length ds))
    else Crash BadShift.
Proof.
  induction ds as [|d ds IH]; intros k turns uleb p Hne Hds Hp Hk H5; [done|].
  apply Forall_cons_1 in Hds as [Hd Hds]. destruct turns as [|turns]; [lia|]. cbn [leb128_loop].
  rewrite bind_assert by (apply Z.ltb_lt; lia).
  assert (exists b, load p = Some b /\ Z.land b 127 = d /\ (b =? d) = bool_decide (ds = [])) as (b & Hb & Hl & E).
  { unfold leb_digit in Hd. destruct ds as [|d' ds]; cbn in Hp; destruct Hp as [Hb _].
    - exists d. split; [done|]. rewrite land_127, Z.mod_small, Z.eqb_refl by lia. done.
    - exists (d + 128). split; [done|]. rewrite land_127 by lia. split; [Z.div_mod_to_equations; lia|].
      apply Z.eqb_neq. lia. }
  rewrite (bind_Ok _ _ _ _ _ (read_byte_ok _ _ Hb)), Hl. unfold shift_digit.
  destruct (decide (k = 5%nat)) as [->|Hk5].
  { rewrite decide_False by (cbn [length]; lia). done. }
  rewrite (proj2 (Z.ltb_lt _ _)), bind_ret, E by lia. destruct ds as [|d' ds'].
  - rewrite bool_decide_true, decide_True by (cbn [length] in *; lia || done).
    unfold mret, comp_ret. rewrite Z.shiftl_mul_pow2 by lia.
    replace (2 ^ (7 * Z.of_nat k) * leb_value [d]) with (d * 2 ^ (7 * Z.of_nat k)) by (cbn; lia).
    f_equal. f_equal. cbn [length]. lia.
  - rewrite bool_decide_false by done. cbn [leb_bytes] in Hp. destruct Hp as [_ Hp].
    replace (7 * Z.of_nat k + 7) with (7 * Z.of_nat (S k)) by lia.
    rewrite (IH (S k)) by (done || lia). cbn [length]. destruct (decide _) as [Hle|Hle].
    + rewrite decide_True by lia. rewrite u64_add, <- Z.add_assoc, signed_add_low by (done || lia).
      f_equal; [f_equal; lia | lia].
    + by rewrite decide_False by lia.
Qed.

Lemma read_leb128_ok ds p :
  ds <> [] -> Forall leb_digit ds -> bytes_at p (leb_bytes ds) -> (length ds <= 5)%nat ->
  read_leb128 p = Ok (u64 (signed 32 (leb_value ds)), 7 * Z.of_nat (length ds)) (p + Z.of_nat (length ds)).
Proof.
  intros Hne Hds Hp Hl. unfold read_leb128.
  change (leb128_loop 11 0 0 p) with (leb128_loop 11 0 (7 * Z.of_nat 0) p).
  rewrite (leb128_loop_ok ds 0 11 0 p Hne Hds Hp), decide_True by lia.
  rewrite Nat.add_0_r. change (2 ^ (7 * Z.of_nat 0)) with 1. by rewrite Z.mul_1_l.
Qed.

Lemma read_uleb128_ok ds p :
  ds <> [] -> Forall leb_digit ds -> bytes_at p (leb_bytes ds) -> (length ds <= 5)%nat ->
  leb_value ds < 2 ^ 31 -> read_uleb128 p = Ok (leb_value ds) (p + Z.of_nat (length ds)).
Proof.
  intros Hne Hds Hp Hl Hv. pose proof (leb_value_range ds Hds). unfold read_uleb128.
  rewrite (bind_Ok _ _ _ _ _ (read_leb128_ok ds p Hne Hds Hp Hl)).
  rewrite (signed_small 32) by (cbn; lia). unfold u64. rewrite Z.mod_small by lia.
  by rewrite (signed_small 64) by (cbn; lia).
Qed.

(** The bits above the ones read are set when the highest one read is. *)
Lemma sign_extend (b v : Z) : 1 <= b <= 63 -> 0 <= v < 2 ^ b ->
  signed 64 (if Z.shiftr v (b - 1) =? 1 then Z.lor v (u64 (Z.shiftl (-1) b)) else v) = signed b v.
Proof.
  intros Hb Hv. assert (2 ^ b = 2 * 2 ^ (b - 1)) as Hp.
  { rewrite <- Z.pow_succ_r by lia. f_equal. lia. }
  assert (2 ^ b <= 2 ^ (64 - 1)) as H63 by (apply Z.pow_le_mono_r; lia).
  change (2 ^ (64 - 1)) with (2 ^ 63) in H63.
  assert (u64 (Z.shiftl (-1) b) = 2 ^ 64 - 2 ^ b) as Hu.
  { unfold u64. rewrite Z.shiftl_mul_pow2 by lia. rewrite <- (Z.mod_add _ 1), Z.mod_small by lia. lia. }
  assert (Z.lor v (2 ^ 64 - 2 ^ b) = v + (2 ^ 64 - 2 ^ b)) as Hlor.
  { rewrite <- Z.lxor_lor, <- Z.add_nocarry_lxor; [done| |];
      replace (2 ^ 64 - 2 ^ b) with (Z.shiftl (2 ^ (64 - b) - 1) b)
        by (rewrite Z.shiftl_mul_pow2, Z.mul_sub_distr_r, <- Z.pow_add_r by lia; f_equal; [f_equal; lia|lia]);
      apply Z.bits_inj'; intros i Hi; rewrite Z.land_spec, Z.bits_0;
      (destruct (Z.lt_ge_cases i b); [by rewrite Z.shiftl_spec_low, andb_false_r by lia|]);
      rewrite <- (Z.mod_small v (2 ^ b)), Z.mod_pow2_bits_high by lia; done. }
  rewrite Hu, Hlor, Z.shiftr_div_pow2 by lia. unfold signed at 2. rewrite (Z.mod_small v) by lia.
  destruct (Z.ltb_spec v (2 ^ (b - 1))).
  - rewrite Z.div_small by lia. apply signed_small; change (2 ^ (64 - 1)) with (2 ^ 63); lia.
  - assert (v / 2 ^ (b - 1) = 1) as -> by (symmetry; apply (Z.div_unique _ _ _ (v - 2 ^ (b - 1))); lia).
    cbn [Z.eqb Pos.eqb]. unfold signed. rewrite Z.mod_small by lia.
    rewrite (proj2 (Z.ltb_ge _ _)) by lia. lia.
Qed.

Lemma read_sleb128_ok ds p :
  ds <> [] -> Forall leb_digit ds -> bytes_at p (leb_bytes ds) -> (length ds <= 4)%nat ->
  read_sleb128 p = Ok (signed (7 * Z.of_nat (length ds)) (leb_value ds)) (p + Z.of_nat (length ds)).
Proof.
  intros Hne Hds Hp Hl. pose proof (leb_value_range ds Hds) as Hr. unfold read_sleb128.
  rewrite (bind_Ok _ _ _ _ _ (read_leb128_ok ds p Hne Hds Hp ltac:(lia))).
  assert (2 ^ (7 * Z.of_nat (length ds)) <= 2 ^ 28) by (apply Z.pow_le_mono_r; lia).
  rewrite (signed_small 32) by (cbn in *; lia).
  assert (u64 (leb_value ds) = leb_value ds) as -> by (unfold u64; apply Z.mod_small; lia).
  unfold mret, comp_ret. f_equal. apply sign_extend; [|done]. destruct ds; [done|]. cbn [length] in *. lia.
Qed.

(** ** The encoders *)
Lemma uleb_digits_ok n v : 0 <= v < 128 ^ Z.of_nat (S n) ->
  Forall leb_digit (uleb_digits n v) /\ uleb_digits n v <> [] /\
  (length (uleb_digits n v) <= S n)%nat /\ leb_value (uleb_digits n v) = v.
Proof.
  revert v. induction n as [|n IH]; intros v Hv; cbn [uleb_digits].
  - change (128 ^ Z.of_nat 1) with 128 in Hv. rewrite Z.mod_small by lia.
    split_and!; [by repeat constructor; lia | done | done | cbn; lia].
  - destruct (Z.ltb_spec v 128).
    + split_and!; [by repeat constructor; lia | done | cbn; lia | cbn; lia].
    + rewrite Nat2Z.inj_succ, Z.pow_succ_r in Hv by lia.
      destruct (IH (v / 128)) as (Hd & _ & Hl & E).
      { split; [Z.div_mod_to_equations; lia | apply Z.div_lt_upper_bound; lia]. }
      split_and!; [|done|cbn [length]; lia|].
      * constructor; [unfold leb_digit; Z.div_mod_to_equations; lia | done].
      * cbn [leb_value fold_right]. fold (leb_value (uleb_digits n (v / 128))). rewrite E.
        Z.div_mod_to_equations; lia.
Qed.

Lemma sleb_digits_ok n v : - (64 * 128 ^ Z.of_nat n) <= v < 64 * 128 ^ Z.of_nat n ->
  let l := Z.of_nat (length (sleb_digits n v)) in
  Forall leb_digit (sleb_digits n v) /\ 1 <= l <= Z.of_nat (S n) /\
  leb_value (sleb_digits n v) = v mod 128 ^ l /\ - (64 * 128 ^ (l - 1)) <= v < 64 * 128 ^ (l - 1).
Proof.
  revert v. induction n as [|n IH]; intros v Hv; cbn [sleb_digits].
  - cbn -[Z.modulo] in *. split_and!; try lia; repeat constructor; Z.div_mod_to_equations; lia.
  - destruct (Z.leb_spec (-64) v), (Z.ltb_spec v 64); cbn [andb].
    1: cbn -[Z.modulo]; split_and!; try lia; repeat constructor; Z.div_mod_to_equations; lia.
    all: rewrite Nat2Z.inj_succ, Z.pow_succ_r in Hv by lia;
      destruct (IH (v / 128)) as (Hd & Hl & E & Hr);
      [split; [apply Z.div_le_lower_bound; lia | apply Z.div_lt_upper_bound; lia]|].
    all: cbn [length leb_value fold_right]; fold (leb_value (sleb_digits n (v / 128)));
      rewrite E, Nat2Z.inj_succ; set (l := Z.of_nat (length (sleb_digits n (v / 128)))) in *.
    all: assert (128 ^ Z.succ l = 128 * 128 ^ l) as -> by (by apply Z.pow_succ_r; lia).
    all: replace (Z.succ l - 1) with (Z.succ (l - 1)) by lia; rewrite Z.pow_succ_r by lia.
    all: split_and!; try lia.
    all: try (constructor; [unfold leb_digit|done]).
    all: try (rewrite (Z.rem_mul_r v 128) by lia; lia).
    all: Z.div_mod_to_equations; lia.
Qed.

Lemma read_uleb128_encode v p : 0 <= v < 2 ^ 31 -> bytes_at p (encode_uleb128 v) ->
  read_uleb128 p = Ok v (p + Z.of_nat (length (encode_uleb128 v))).
Proof.
  intros Hv Hp. destruct (uleb_digits_ok 4 v) as (Hd & Hne & Hl & E); [cbn; lia|].
  unfold encode_uleb128. rewrite (read_uleb128_ok _ p Hne Hd Hp Hl) by (rewrite E; lia).
  by rewrite E, leb_bytes_length.
Qed.

Lemma read_sleb128_encode v p : - 2 ^ 27 <= v < 2 ^ 27 -> bytes_at p (encode_sleb128 v) ->
  read_sleb128 p = Ok v (p + Z.of_nat (length (encode_sleb128 v))).
Proof.
  intros Hv Hp. destruct (sleb_digits_ok 3 v) as (Hd & Hl & E & Hr); [cbn; lia|].
  unfold encode_sleb128. rewrite leb_bytes_length.
  rewrite (read_sleb128_ok _ p) by (done || lia || (intros H; rewrite H in Hl; cbn in Hl; lia)).
  rewrite E. set (l := Z.of_nat (length _)) in *. f_equal.
  assert (128 ^ l = 2 ^ (7 * l)) as -> by (by rewrite Z.pow_mul_r by lia).
  assert (64 * 128 ^ (l - 1) = 2 ^ (7 * l - 1)) as Hp2.
  { change 128 with (2 ^ 7). change 64 with (2 ^ 6). rewrite <- Z.pow_mul_r, <- Z.pow_add_r by lia. f_equal. lia. }
  rewrite Hp2 in Hr. rewrite <- (signed_small (7 * l) v) at 2 by lia.
  unfold signed. by rewrite Z.mod_mod by (apply Z.pow_nonzero; lia).
Qed.
End Values.

Section LebTheorems.
Context {Mem : Memory}.

(** C24. LEB128 numbers are read back as they were encoded: unsigned ones below
    2^31 and signed ones from -2^27 up to 2^27, with the pointer behind their
    last byte. *)
Theorem leb128_roundtrip v p :
  (0 <= v < 2 ^ 31 -> bytes_at p (encode_uleb128 v) ->
   read_uleb128 p = Ok v (p + Z.of_nat (length (encode_uleb128 v)))) /\
  (- 2 ^ 27 <= v < 2 ^ 27 -> bytes_at p (encode_sleb128 v) ->
   read_sleb128 p = Ok v (p + Z.of_nat (length (encode_sleb128 v)))).
Proof. split; [apply read_uleb128_encode | apply read_sleb128_encode]. Qed.

(** Although [read_leb128] returns 64 bits, a digit is shifted as an [int]:
    numbers of up to five digits are read as signed 32-bit integers, so from
    2^31 on not as what they are, and any sixth digit makes the shift
    undefined, long before the assertion on the width. *)
Theorem leb128_width ds p :
  ds <> [] -> Forall leb_digit ds -> bytes_at p (leb_bytes ds) ->
  read_leb128 p =
    if decide (length ds <= 5)%nat
    then Ok (u64 (signed 32 (leb_value ds)), 7 * Z.of_nat (length ds)) (p + Z.of_nat (length ds))
    else Crash BadShift.
Proof.
  intros Hne Hds Hp. destruct (decide _) as [Hl|Hl]; [by apply read_leb128_ok|].
  unfold read_leb128. change (leb128_loop 11 0 0 p) with (leb128_loop 11 0 (7 * Z.of_nat 0) p).
  rewrite (leb128_loop_ok ds 0 11 0 p Hne Hds Hp), decide_False by lia. done.
Qed.
End LebTheorems.

(** ** Fields of the call-site table *)
Fixpoint le_bytes (n : nat) (v : Z) : list Z :=
  match n with
  | O => []
  | S n => v mod 256 :: le_bytes n (v / 256)
  end.

Lemma le_bytes_length n v : length (le_bytes n v) = n.
Proof. revert v. induction n as [|n IH]; intros v; cbn; [done | by rewrite IH]. Qed.

Lemma le_value_bytes n v : 0 <= v < 256 ^ Z.of_nat n -> le_value (le_bytes n v) = v.
Proof.
  revert v. induction n as [|n IH]; intros v Hv; cbn [le_bytes].
  - change (256 ^ Z.of_nat 0) with 1 in Hv. cbn. lia.
  - rewrite Nat2Z.inj_succ, Z.pow_succ_r in Hv by lia. cbn [le_value fold_right].
    fold (le_value (le_bytes n (v / 256))). rewrite IH; [Z.div_mod_to_equations; lia|].
    split; [Z.div_mod_to_equations; lia | apply Z.div_lt_upper_bound; lia].
Qed.

(** The largest value plus one a call-site field may have, per encoding. *)
Definition limit (enc : Z) : Z :=
  switch (get_encoding enc)
    [(DW_EH_PE_udata2, 2 ^ 16); (DW_EH_PE_udata4, 2 ^ 32); (DW_EH_PE_udata8, 2 ^ 64);
     (DW_EH_PE_sdata2, 2 ^ 15); (DW_EH_PE_sdata4, 2 ^ 31); (DW_EH_PE_sdata8, 2 ^ 64);
     (DW_EH_PE_absptr, 2 ^ 64); (DW_EH_PE_sleb128, 2 ^ 27); (DW_EH_PE_uleb128, 2 ^ 31)] 0.

Definition fits (enc v : Z) : Prop := 0 <= v < limit enc.

Section Table.
Context {Mem : Memory}.

Definition fixed (n : nat) (v : Z) : list Z :=
  if little_endian then le_bytes n v else rev (le_bytes n v).

Definition encode_value (enc v : Z) : list Z :=
  switch (get_encoding enc)
    [(DW_EH_PE_udata2, fixed 2 v); (DW_EH_PE_udata4, fixed 4 v); (DW_EH_PE_udata8, fixed 8 v);
     (DW_EH_PE_sdata2, fixed 2 v); (DW_EH_PE_sdata4, fixed 4 v); (DW_EH_PE_sdata8, fixed 8 v);
     (DW_EH_PE_absptr, fixed 8 v); (DW_EH_PE_sleb128, encode_sleb128 v);
     (DW_EH_PE_uleb128, encode_uleb128 v)] [].

Lemma fixed_length n v : length (fixed n v) = n.
Proof. unfold fixed. destruct little_endian; [|rewrite length_rev]; apply le_bytes_length. Qed.

Lemma READ_ok (n : nat) (sg : bool) (v p : Z) :
  bytes_at p (fixed n v) -> 0 <= v < 256 ^ Z.of_nat n ->
  u64 (if sg then signed (8 * Z.of_nat n) v else v) = v ->
  READ n sg p = Ok v (p + Z.of_nat n).
Proof.
  intros Hp Hv Hs. unfold READ. pose proof (read_bytes_ok _ _ Hp) as Hr. rewrite fixed_length in Hr.
  rewrite (bind_Ok _ _ _ _ _ Hr). unfold mem_value.
  assert ((if little_endian then fixed n v else rev (fixed n v)) = le_bytes n v) as ->
    by (unfold fixed; destruct little_endian; [done | apply rev_involutive]).
  rewrite le_value_bytes by done. unfold mret, comp_ret. by rewrite Hs.
Qed.

Lemma u64_small v : 0 <= v < 2 ^ 64 -> u64 v = v.
Proof. intros Hv. unfold u64. by apply Z.mod_small. Qed.

Lemma u64_signed64 v : 0 <= v < 2 ^ 64 -> u64 (signed 64 v) = v.
Proof.
  intros Hv. unfold signed. rewrite Z.mod_small by done. destruct (Z.ltb_spec v (2 ^ (64 - 1))).
  - by apply u64_small.
  - unfold u64. rewrite <- (Z.mod_add _ 1), Z.mod_small by lia. lia.
Qed.

Lemma u64_signed_small w v : 1 <= w <= 64 -> 0 <= v < 2 ^ (w - 1) -> u64 (signed w v) = v.
Proof.
  intros Hw Hv. rewrite signed_small by lia. apply u64_small.
  assert (2 ^ (w - 1) <= 2 ^ 64) by (apply Z.pow_le_mono_r; lia). lia.
Qed.

(** Reading a field, in every encoding, gives the value encoded. *)
Lemma read_value_encode enc v p :
  fits enc v -> bytes_at p (encode_value enc v) ->
  read_value enc p = Ok v (p + Z.of_nat (length (encode_value enc v))).
Proof.
  unfold fits, limit, encode_value, read_value. cbn [switch]. intros Hv Hp.
  repeat case_decide; try lia; try rewrite fixed_length.
  all: try (apply READ_ok; [done | cbn in *; lia |]).
  all: try (apply u64_small; lia).
  all: try (apply u64_signed64; lia).
  all: try (apply u64_signed_small; cbn; lia).
  - rewrite (bind_Ok _ _ _ _ _ (read_sleb128_encode v p ltac:(lia) Hp)).
    unfold mret, comp_ret. by rewrite u64_small by lia.
  - rewrite (bind_Ok _ _ _ _ _ (read_uleb128_encode v p ltac:(lia) Hp)).
    unfold mret, comp_ret. by rewrite u64_small by lia.
Qed.

(** ** The table *)
Definition encode_call_site (enc : Z) (e : call_site) : list Z :=
  encode_value enc (cs_start e) ++ encode_value enc (cs_size e) ++ encode_value enc (cs_pad e)
    ++ encode_uleb128 (cs_action e).

Definition encode_table (enc : Z) (cs : list call_site) : list Z := concat (encode_call_site enc <$> cs).

Definition call_site_ok (enc : Z) (e : call_site) : Prop :=
  fits enc (cs_start e) /\ fits enc (cs_size e) /\ fits enc (cs_pad e) /\
  0 <= cs_action e < 2 ^ 31 /\ cs_start e + cs_size e < 2 ^ 64.

Definition after (ip : Z) (e : call_site) : bool := ip <? cs_start e.

Definition decisive (ip : Z) (e : call_site) : bool := after ip e || covers ip e.

(** What one record decides. *)
Definition answer_of (lsda : dwarf_eh_lsda) (ip : Z) (e : call_site) : bool * dwarf_eh_action :=
  if after ip e then (false, no_action) else (true, action_of lsda e).

(** One turn of the loop on an encoded record. *)
Lemma callsite_turn fuel lsda ip e p :
  call_site_ok (callsite_encoding lsda) e -> p <= action_table lsda ->
  bytes_at p (encode_call_site (callsite_encoding lsda) e) ->
  if decisive ip e
  then exists p', callsite_loop (S fuel) lsda ip p = Ok (answer_of lsda ip e) p'
  else callsite_loop (S fuel) lsda ip p
       = callsite_loop fuel lsda ip (p + Z.of_nat (length (encode_call_site (callsite_encoding lsda) e))).
Proof.
  intros (Hs & Hz & Hl & Ha & _) Hle Hp. unfold encode_call_site in *. rewrite !bytes_at_app in Hp.
  destruct Hp as (H1 & H2 & H3 & H4). cbn [callsite_loop]. rewrite (bind_Ok _ _ _ p p) by done.
  rewrite (proj2 (Z.leb_le _ _) Hle). cbn [negb].
  rewrite (bind_Ok _ _ _ _ _ (read_value_encode _ _ _ Hs H1)).
  rewrite (bind_Ok _ _ _ _ _ (read_value_encode _ _ _ Hz H2)).
  unfold decisive, answer_of, after. rewrite Z.gtb_ltb. destruct (ip <? cs_start e); cbn [orb]; [by eexists|].
  rewrite (bind_Ok _ _ _ _ _ (read_value_encode _ _ _ Hl H3)).
  rewrite (bind_Ok _ _ _ _ _ (read_uleb128_encode _ _ Ha H4)). rewrite u64_small by lia.
  assert (CallSite (cs_start e) (cs_size e) (cs_pad e) (cs_action e) = e) as -> by (by destruct e).
  destruct (covers ip e); [by eexists|]. f_equal. rewrite !length_app. lia.
Qed.

Lemma encode_call_site_length enc e : (1 <= length (encode_call_site enc e))%nat.
Proof.
  unfold encode_call_site. rewrite !length_app. unfold encode_uleb128. rewrite leb_bytes_length.
  cbn [uleb_digits]. destruct (cs_action e <? 128); cbn [length]; lia.
Qed.

Lemma table_length enc cs : (length cs <= length (encode_table enc cs))%nat.
Proof.
  unfold encode_table. induction cs as [|e cs IH]; [done|]. cbn [fmap list_fmap concat length].
  rewrite length_app. pose proof (encode_call_site_length enc e). lia.
Qed.

(** Records that decide nothing are passed over. *)
Lemma callsite_skip lsda ip cs : forall fuel p,
  Forall (call_site_ok (callsite_encoding lsda)) cs -> Forall (fun e => decisive ip e = false) cs ->
  bytes_at p (encode_table (callsite_encoding lsda) cs) ->
  p + Z.of_nat (length (encode_table (callsite_encoding lsda) cs)) <= action_table lsda ->
  callsite_loop (length cs + fuel) lsda ip p
  = callsite_loop fuel lsda ip (p + Z.of_nat (length (encode_table (callsite_encoding lsda) cs))).
Proof.
  induction cs as [|e cs IH]; intros fuel p Hok Hd Hp Hle.
  { unfold encode_table. cbn. by rewrite Z.add_0_r. }
  apply Forall_cons_1 in Hok as [He Hok]. apply Forall_cons_1 in Hd as [Hde Hd].
  unfold encode_table in *. cbn [fmap list_fmap concat length plus] in *.
  rewrite length_app in *. apply bytes_at_app in Hp as [Hpe Hp].
  pose proof (callsite_turn (length cs + fuel) lsda ip e p He ltac:(lia) Hpe) as Ht.
  rewrite Hde in Ht. rewrite Ht, IH by (done || lia). f_equal. lia.
Qed.

(** The first record that decides gives the answer. *)
Lemma callsite_first lsda ip cs1 e cs2 :
  Forall (call_site_ok (callsite_encoding lsda)) (cs1 ++ [e]) ->
  Forall (fun e => decisive ip e = false) cs1 -> decisive ip e = true ->
  bytes_at (call_site_table lsda) (encode_table (callsite_encoding lsda) (cs1 ++ e :: cs2)) ->
  call_site_table lsda + Z.of_nat (length (encode_table (callsite_encoding lsda) cs1)) <= action_table lsda ->
  exists p', callsite_loop (callsite_fuel lsda) lsda ip (call_site_table lsda) = Ok (answer_of lsda ip e) p'.
Proof.
  intros [Hok [He _]%Forall_cons_1]%Forall_app Hd Hde Hp Hle. unfold encode_table in Hp.
  rewrite fmap_app, concat_app in Hp. apply bytes_at_app in Hp as [Hp1 Hp2].
  cbn [fmap list_fmap concat] in Hp2. apply bytes_at_app in Hp2 as [Hp2 _].
  pose proof (table_length (callsite_encoding lsda) cs1).
  assert (exists n, callsite_fuel lsda = length cs1 + S n)%nat as [n ->].
  { exists (callsite_fuel lsda - length cs1 - 1)%nat. unfold callsite_fuel. lia. }
  rewrite callsite_skip by done.
  pose proof (callsite_turn n lsda ip e _ He Hle Hp2) as Ht. by rewrite Hde in Ht.
Qed.

(** The table of [lsda] holds [cs], and the action table follows it. *)
Definition table_at (lsda : dwarf_eh_lsda) (cs : list call_site) : Prop :=
  bytes_at (call_site_table lsda) (encode_table (callsite_encoding lsda) cs) /\
  action_table lsda = call_site_table lsda + Z.of_nat (length (encode_table (callsite_encoding lsda) cs)) /\
  Forall (call_site_ok (callsite_encoding lsda)) cs.

(** Sorted, and no two overlap. *)
Definition site_le (a b : call_site) : Prop := cs_start a + cs_size a <= cs_start b.

Definition frame_ip (c : unwind_context) : Z := u64 (uc_ip c - uc_region_start c).

Lemma split_decisive ip cs : Exists (fun e => decisive ip e = true) cs ->
  exists cs1 e cs2, cs = cs1 ++ e :: cs2 /\ Forall (fun e => decisive ip e = false) cs1 /\ decisive ip e = true.
Proof.
  induction 1 as [e cs He | e cs _ (cs1 & e' & cs2 & -> & H1 & H2)].
  - by exists [], e, cs.
  - destruct (decisive ip e) eqn:E; [by exists [], e, (cs1 ++ e' :: cs2)|].
    exists (e :: cs1), e', cs2. by split_and!; [|constructor|].
Qed.

Lemma find_covers_after ip e cs : 0 <= cs_size e -> after ip e = true ->
  StronglySorted site_le (e :: cs) -> Forall (fun x => 0 <= cs_size x) cs ->
  find (covers ip) (e :: cs) = None.
Proof.
  intros Hz Ha%Z.ltb_lt [_ Hall]%StronglySorted_inv Hsz. cbn [find].
  assert (forall x, ip < cs_start x -> covers ip x = false) as Hc.
  { intros x Hx. unfold covers. apply andb_false_iff. left. apply Z.ltb_ge. lia. }
  rewrite Hc by done. induction cs as [|x cs IH]; [done|]. cbn [find].
  apply Forall_cons_1 in Hall as [Hx Hall]. apply Forall_cons_1 in Hsz as [_ Hsz].
  unfold site_le in Hx. rewrite Hc by lia. by apply IH.
Qed.

Lemma answer_of_find lsda ip cs1 e cs2 :
  Forall (fun e => decisive ip e = false) cs1 -> decisive ip e = true ->
  StronglySorted site_le (cs1 ++ e :: cs2) -> Forall (fun x => 0 <= cs_size x) (cs1 ++ e :: cs2) ->
  answer_of lsda ip e =
    match find (covers ip) (cs1 ++ e :: cs2) with
    | Some e => (true, action_of lsda e)
    | None => (false, no_action)
    end.
Proof.
  intros Hd Hde Hs Hz. induction Hd as [|x cs1 Hx _ IH].
  - cbn [app] in *. apply Forall_cons_1 in Hz as [Hez Hz]. unfold answer_of.
    destruct (after ip e) eqn:Ea; [by rewrite find_covers_after|].
    unfold decisive in Hde. rewrite Ea in Hde. cbn in Hde. cbn [find]. by rewrite Hde.
  - cbn [app] in *. apply Forall_cons_1 in Hz as [_ Hz]. apply StronglySorted_inv in Hs as [Hs _].
    unfold decisive in Hx. apply orb_false_iff in Hx as [_ Hx]. cbn [find]. rewrite Hx. by apply IH.
Qed.

(** The record is about the instruction before [ip]: call sites are found by
    their return address. *)
Definition in_site (ip : Z) (e : call_site) : bool :=
  (cs_start e <? ip) && (ip <=? cs_start e + cs_size e).

(** What is to be done for a record: landing pads are counted from
    [landing_pads] and action records, from 1, from the action table; 0 is
    none. *)
Definition site_result (lsda : dwarf_eh_lsda) (e : call_site) : bool * dwarf_eh_action :=
  (true, {| landing_pad := if cs_pad e =? 0 then 0 else u64 (landing_pads lsda + cs_pad e);
            action_record := if cs_action e =? 0 then 0
                             else u64 (action_table lsda + (cs_action e - 1)) |}).

Lemma site_result_ok lsda e : (true, action_of lsda e) = site_result lsda e.
Proof. unfold action_of, site_result. by rewrite Z.add_sub_assoc. Qed.

Lemma covers_in_site enc ip e : call_site_ok enc e -> covers ip e = in_site ip e.
Proof.
  intros ([H1 _] & [H2 _] & _ & _ & H3). unfold covers, in_site. by rewrite u64_small by lia.
Qed.

Lemma find_in_site enc ip cs : Forall (call_site_ok enc) cs -> find (covers ip) cs = find (in_site ip) cs.
Proof.
  induction 1 as [|e cs He _ IH]; [done|]. cbn [find]. by rewrite (covers_in_site enc), IH.
Qed.


(** The loop goes on while the pointer is at or before the action table: when the
    table holds no record that covers or follows the instruction, one more
    record is read from the bytes of the action table, and decides. *)
Theorem callsite_overrun c lsda cs e :
  table_at lsda cs ->
  Forall (fun e => cs_start e <= frame_ip c /\ in_site (frame_ip c) e = false) cs ->
  bytes_at (action_table lsda) (encode_call_site (callsite_encoding lsda) e) ->
  call_site_ok (callsite_encoding lsda) e -> in_site (frame_ip c) e = true ->
  exists p, dwarf_eh_find_callsite c lsda = Ok (site_result lsda e) p.
Proof.
  intros (Hp & Hact & Hok) Hd He Heok Hcov. unfold dwarf_eh_find_callsite. fold (frame_ip c).
  rewrite <- (covers_in_site _ _ _ Heok) in Hcov.
  assert (answer_of lsda (frame_ip c) e = site_result lsda e) as <-.
  { unfold answer_of, after. unfold covers in Hcov. apply andb_true_iff in Hcov as [H1%Z.ltb_lt _].
    rewrite (proj2 (Z.ltb_ge _ _)) by lia. apply site_result_ok. }
  apply (callsite_first _ _ cs e []); try done.
  - apply Forall_app. by split; [|constructor].
  - rewrite Forall_forall in Hd, Hok. apply Forall_forall. intros x Hx. destruct (Hd x Hx) as [H1 H2].
    unfold decisive, after. rewrite (covers_in_site (callsite_encoding lsda)), H2 by auto.
    apply orb_false_iff. split; [by apply Z.ltb_ge | done].
  - unfold decisive. by rewrite Hcov, orb_true_r.
  - unfold encode_table in *. rewrite fmap_app, concat_app. apply bytes_at_app. split; [done|].
    rewrite <- Hact. cbn [fmap list_fmap concat]. by rewrite app_nil_r.
  - lia.
Qed.

(** ** Termination *)

(** [m] moves the pointer on by at least [n], and ends. *)
Definition advances (n : Z) {A} (m : D A) : Prop := forall p,
  match m p with Ok _ p' | Fail p' => p + n <= p' | Crash _ => True | NoFuel => False end.

Lemma advances_bind n k {A B} (m : D A) (f : A -> D B) :
  0 <= k -> advances n m -> (forall a, advances k (f a)) -> advances n (m ≫= f).
Proof.
  intros Hk Hm Hf p. unfold mbind, comp_bind. specialize (Hm p). destruct (m p) as [a p'| | |]; [|done..].
  specialize (Hf a p'). destruct (f a p'); [lia|lia|done..].
Qed.

Lemma advances_le n k {A} (m : D A) : k <= n -> advances n m -> advances k m.
Proof. intros Hk Hm p. specialize (Hm p). destruct (m p); [lia|lia|done..]. Qed.

Lemma advances_ret {A} (a : A) : advances 0 (mret a).
Proof. intros p. cbn. lia. Qed.

Lemma advances_read_byte : advances 1 read_byte.
Proof.
  intros p. unfold read_byte, byte_at, mbind, comp_bind, gets, modify, id.
  destruct (load p); [cbn; lia | done].
Qed.

Lemma advances_READ n sg : advances 1 (READ (S n) sg).
Proof.
  unfold READ. eapply (advances_bind _ 0); [lia| |intros; apply advances_ret]. cbn [read_bytes].
  eapply (advances_bind _ 0); [lia|apply advances_read_byte|intros b].
  assert (forall n, advances 0 (read_bytes n)) as H.
  { clear. induction n as [|n IH]; cbn [read_bytes]; [apply advances_ret|].
    apply (advances_bind _ 0); [lia|apply (advances_le 1); [lia|apply advances_read_byte]|intros b].
    apply (advances_bind _ 0); [lia|done|intros; apply advances_ret]. }
  apply (advances_bind _ 0); [lia|done|intros; apply advances_ret].
Qed.

Lemma advances_leb128 turns : forall uleb bit, 64 <= bit + 7 * (Z.of_nat turns - 1) ->
  advances 1 (leb128_loop turns uleb bit) \/ turns = O.
Proof.
  induction turns as [|turns IH]; intros uleb bit Hb; [by right|]. left. cbn [leb128_loop]. intros p.
  unfold assert_. destruct (Z.ltb_spec bit 64); [|done]. rewrite bind_ret. revert p.
  apply (advances_bind _ 0); [lia|apply advances_read_byte|intros b]. unfold shift_digit.
  destruct (bit <? 32); [|by intros p]. intros p. rewrite bind_ret. revert p.
  destruct (b =? _); [apply advances_ret|].
  destruct (IH (u64 (uleb + signed 32 (Z.shiftl (Z.land b 127) bit))) (bit + 7)) as [Ha| ->]; [lia| |lia].
  by apply (advances_le 1).
Qed.

Lemma advances_read_leb128 : advances 1 read_leb128.
Proof. unfold read_leb128. by destruct (advances_leb128 11 0 0). Qed.

Lemma advances_read_uleb128 : advances 1 read_uleb128.
Proof. apply (advances_bind _ 0); [lia|apply advances_read_leb128|intros []; apply advances_ret]. Qed.

Lemma advances_read_value enc : advances 1 (read_value enc).
Proof.
  unfold read_value. cbn [switch].
  repeat case_decide; try apply advances_READ; [..|by intros p];
    (apply (advances_bind _ 0); [lia| |intros; apply advances_ret]); [|apply advances_read_uleb128].
  apply (advances_bind _ 0); [lia|apply advances_read_leb128|intros []; apply advances_ret].
Qed.

(** C26. The search ends on every input, whatever the memory holds: the pointer
    moves on with every record, and the loop ends behind the action table. *)
Theorem callsite_search_terminates c lsda : dwarf_eh_find_callsite c lsda <> NoFuel.
Proof.
  unfold dwarf_eh_find_callsite, callsite_fuel. generalize (u64 (uc_ip c - uc_region_start c)) as ip. intros ip.
  assert (forall fuel p, action_table lsda - p + 1 <= Z.of_nat fuel ->
    callsite_loop fuel lsda ip p <> NoFuel) as H; [|apply H; lia].
  induction fuel as [|fuel IH]; intros p Hf; cbn [callsite_loop]; rewrite (bind_Ok _ _ _ p p) by done;
    destruct (Z.leb_spec p (action_table lsda)); cbn [negb]; try done; [lia|].
  unfold mbind at 1, comp_bind at 1. pose proof (advances_read_value (callsite_encoding lsda) p) as H1.
  destruct (read_value _ p) as [a1 p1| | |]; try done.
  unfold mbind at 1, comp_bind at 1. pose proof (advances_read_value (callsite_encoding lsda) p1) as H2.
  destruct (read_value _ p1) as [a2 p2| | |]; try done. destruct (a1 >? ip); [done|].
  unfold mbind at 1, comp_bind at 1. pose proof (advances_read_value (callsite_encoding lsda) p2) as H3.
  destruct (read_value _ p2) as [a3 p3| | |]; try done.
  unfold mbind at 1, comp_bind at 1. pose proof (advances_read_uleb128 p3) as H4.
  destruct (read_uleb128 p3) as [a4 p4| | |]; try done. destruct (covers _ _); [done|].
  apply IH. lia.
Qed.
End Table.

(** ** Witnesses *)
(** A memory with the given bytes from address 1000 on. *)
Definition memory_of (bs : list Z) : Memory := {|
  load p := if p <? 1000 then None else bs !! Z.to_nat (p - 1000);
  little_endian := true |}.

Lemma leb128_roundtrip_witness :
  @read_uleb128 (memory_of [229; 142; 38]) 1000 = Ok 624485 1003 /\
  @read_sleb128 (memory_of [192; 187; 120]) 1000 = Ok (-123456) 1003.
Proof.
  split.
  - apply (proj1 (@leb128_roundtrip (memory_of [229; 142; 38]) 624485 1000)); [lia | by vm_compute].
  - apply (proj2 (@leb128_roundtrip (memory_of [192; 187; 120]) (-123456) 1000)); [lia | by vm_compute].
Defined.

Lemma leb128_width_witness :
  @read_leb128 (memory_of [128; 128; 128; 128; 8]) 1000 = Ok (2 ^ 64 - 2 ^ 31, 35) 1005 /\
  @read_leb128 (memory_of [128; 128; 128; 128; 128; 1]) 1000 = Crash BadShift.
Proof.
  split.
  - refine (@leb128_width (memory_of [128; 128; 128; 128; 8]) [0; 0; 0; 0; 8] 1000 _ _ _);
      [done | repeat constructor; done | by vm_compute].
  - refine (@leb128_width (memory_of [128; 128; 128; 128; 128; 1]) [0; 0; 0; 0; 0; 1] 1000 _ _ _);
      [done | repeat constructor; done | by vm_compute].
Defined.

(** Two records in [udata4], as compilers emit them before linking, for the
    instructions from 16 to 24 and from 32 to 40; then an action table that
    happens to look like a third. *)
Definition two_sites : list call_site := [CallSite 16 8 64 1; CallSite 32 8 0 0].

Definition stray_site : call_site := CallSite 100 50 7 3.

Definition sites_memory : Memory := memory_of
  (concat (@encode_call_site (memory_of []) DW_EH_PE_udata4 <$> two_sites ++ [stray_site])).

Definition sites_lsda : dwarf_eh_lsda := DwarfEhLsda 4000 4000 0 DW_EH_PE_omit 1000 1026 DW_EH_PE_udata4.

Lemma two_sites_at : @table_at sites_memory sites_lsda two_sites.
Proof. split_and!; [vm_compute; by split_and! | by vm_compute |]. repeat constructor; by vm_compute. Qed.


Lemma callsite_overrun_witness :
  exists p, @dwarf_eh_find_callsite sites_memory (UnwindContext 4120 4000 0 0) sites_lsda
    = Ok (true, DwarfEhAction 4007 1028) p.
Proof.
  apply (@callsite_overrun sites_memory (UnwindContext 4120 4000 0 0) sites_lsda two_sites stray_site two_sites_at).
  - repeat constructor; by vm_compute.
  - vm_compute; by split_and!.
  - split_and!; by vm_compute.
  - by vm_compute.
Defined.
