(* ===== verification/GuardTheorems.v ===== *)
(** * What the guards of static initialisation promise

    For both layouts, any number of threads and any interleaving of their
    accesses: the lock is held by one thread at a time, constructors do not
    overlap, at most one of them ends normally, and a thread that is told that
    the object is initialised finds it so.  Then the assertion of the
    double-word guard, which is evaluated after the lock has been released. *)
From S2P Require Import Prelude Guard.

Lemma upd_same {A} t (a : A) f : upd t a f t = a.
Proof. unfold upd. by rewrite decide_True. Qed.

Lemma upd_other {A} t (a : A) f x : x <> t -> upd t a f x = f x.
Proof. intros. unfold upd. by rewrite decide_False. Qed.

(** What the proofs need of the layouts. *)
Record layout_ok (l : layout) : Prop := {
  ok_locked : locked l <> 0;
  ok_initialised : initialised l <> 0;
  ok_distinct : locked l <> initialised l;
  ok_read_0 : is_initialised l 0 = false;
  ok_read_locked : is_initialised l (locked l) = false;
  ok_read_initialised : is_initialised l (initialised l) = true;
  ok_byte_0 : first_byte (l_little l) (l_bits l) 0 = 0;
  ok_byte : first_byte (l_little l) (l_bits l) (initialised l) <> 0;
}.

Lemma layouts_ok : Forall layout_ok (single_layouts ++ double_layouts).
Proof. repeat constructor; by vm_compute. Qed.

Lemma single_layout_ok l : l ∈ single_layouts -> layout_ok l.
Proof.
  intros Hl. pose proof layouts_ok as H. rewrite Forall_forall in H. apply H.
  apply elem_of_app. by left.
Qed.

Lemma double_layout_ok l : l ∈ double_layouts -> layout_ok l.
Proof.
  intros Hl. pose proof layouts_ok as H. rewrite Forall_forall in H. apply H.
  apply elem_of_app. by right.
Qed.

(** Splitting the threads into the one that moves and the others. *)
Ltac threads t x := destruct (decide (x = t)) as [->|?];
  [rewrite ?upd_same in * | rewrite ?upd_other in * by done].

(** ** The single-word guard *)
Module SingleSafe.
Import Single.

Section Safe.
Context (l : layout) (Hl : layout_ok l).

(** What the word says for a thread at [p]. *)
Definition pc_ok (v : Z) (n : nat) (p : pc) : Prop :=
  match p with
  | Ctor | Unlock false => v = locked l /\ n = 0%nat
  | Unlock true => v = locked l /\ n = 1%nat
  | Use => v = initialised l
  | Failed => False
  | _ => True
  end.

Record inv (s : state) : Prop := {
  inv_pc : forall t, pc_ok (val s) (inits s) (pcs s t);
  inv_one : forall t t', holds (pcs s t) = true -> holds (pcs s t') = true -> t = t';
  inv_val : (val s = 0 /\ inits s = 0%nat) \/ (val s = initialised l /\ inits s = 1%nat)
            \/ (val s = locked l /\ exists t, holds (pcs s t) = true);
}.

Lemma s_inv_free s t : inv s -> val s <> locked l -> holds (pcs s t) = false.
Proof.
  intros Hs Hv. pose proof (inv_pc s Hs t) as Hp. destruct (pcs s t) as [| | | | |[]| | |]; cbn in *; tauto.
Qed.

(** A step that leaves the word, the count and who holds the lock. *)
Lemma s_inv_goto s t p :
  inv s -> holds p = holds (pcs s t) -> pc_ok (val s) (inits s) p ->
  inv (State (val s) (upd t p (pcs s)) (inits s)).
Proof.
  intros Hs Hp Hok. constructor; cbn.
  - intros x. threads t x; [done | apply Hs].
  - intros x y Hx Hy. apply (inv_one s Hs); [threads t x | threads t y]; congruence.
  - destruct (inv_val s Hs) as [?|[?|[? [x Hx]]]]; [by left | right; by left |].
    right; right. split; [done|]. exists x. threads t x; congruence.
Qed.

(** A step of the holder, which keeps the lock or stores a new word. *)
Lemma s_inv_held s t p v n :
  inv s -> holds (pcs s t) = true -> pc_ok v n p -> (forall q, holds q = false -> pc_ok (val s) (inits s) q -> pc_ok v n q) ->
  (v = 0 /\ n = 0%nat \/ v = initialised l /\ n = 1%nat \/ v = locked l /\ holds p = true) ->
  inv (State v (upd t p (pcs s)) n).
Proof.
  intros Hs Ht Hp Hq Hv.
  assert (forall x, x <> t -> holds (pcs s x) = false) as Hfree.
  { intros x Hx. destruct (holds (pcs s x)) eqn:E; [|done]. destruct Hx. by apply (inv_one s Hs). }
  constructor; cbn.
  - intros x. threads t x; [done|]. apply Hq; [by apply Hfree | apply Hs].
  - intros x y Hx Hy. threads t x; threads t y; rewrite ?Hfree in * by done; done.
  - destruct Hv as [?|[?|[? ?]]]; [by left | right; by left |]. right; right. split; [done|].
    exists t. by rewrite upd_same.
Qed.

Lemma s_inv_step t c s : inv s -> inv (step l t c s).
Proof.
  intros Hs. pose proof (inv_pc s Hs t) as Hp. unfold step. destruct (pcs s t) as [| | | | |b| | |] eqn:E; cbn in Hp.
  - by apply s_inv_goto; rewrite ?E.
  - destruct (is_initialised l (val s)) eqn:Ei; apply s_inv_goto; rewrite ?E; try done. cbn.
    destruct (inv_val s Hs) as [[Hv _]|[[Hv _]|[Hv _]]]; [|done|]; rewrite Hv in Ei;
      [rewrite (ok_read_0 l Hl) in Ei | rewrite (ok_read_locked l Hl) in Ei]; done.
  - unfold try_lock, compare_exchange. destruct (Z.eqb_spec (val s) 0) as [Hv|Hv]; cbn [andb].
    + destruct (is_spurious c); cbn [negb].
      { rewrite Hv, (proj2 (Z.eqb_neq 0 _)) by (apply not_eq_sym, Hl). rewrite <- Hv. by apply s_inv_goto; rewrite ?E. }
      assert (forall x, holds (pcs s x) = false) as Hf.
      { intros x. apply s_inv_free; [done|]. rewrite Hv. apply not_eq_sym, Hl. }
      assert (inits s = 0%nat) as Hn.
      { destruct (inv_val s Hs) as [[_ Hn]|[[Hi _]|[Hi _]]]; [done|..]; rewrite Hv in Hi; symmetry in Hi; by apply Hl in Hi. }
      constructor; cbn.
      * intros x. threads t x; [done|]. pose proof (inv_pc s Hs x) as Hx. pose proof (Hf x) as Hfx.
        destruct (pcs s x) as [| | | | |[]| | |]; cbn in *; try done.
        rewrite Hv in Hx. symmetry in Hx. by apply Hl in Hx.
      * intros x y Hx Hy. threads t x; threads t y; rewrite ?Hf in *; done.
      * right; right. split; [done|]. exists t. by rewrite upd_same.
    + destruct (Z.eqb_spec (val s) (initialised l)); by apply s_inv_goto; rewrite ?E.
  - by apply s_inv_goto; rewrite ?E.
  - destruct Hp, c; [|..|by apply s_inv_goto; rewrite ?E];
      (apply s_inv_held; [done | by rewrite E | cbn; split; [tauto|lia] | intros [| | | | |[]| | |]; cbn; (done || tauto) | right; by right]).
  - apply s_inv_held; [done | by rewrite E | done | |].
    + intros [| | | | |[]| | |]; cbn; try done. intros _ Hu. exfalso. apply (ok_distinct l Hl). destruct b; destruct Hp; congruence.
    + destruct b; cbn; [right; left | left]; tauto.
  - assert (unlock_assertion l = true) as ->; [|by apply s_inv_goto; rewrite ?E].
    unfold unlock_assertion. by rewrite (proj2 (Z.eqb_neq _ _) (ok_byte l Hl)).
  - by apply s_inv_goto; rewrite ?E.
  - done.
Qed.

Lemma s_inv_reachable s : reachable l s -> inv s.
Proof.
  induction 1 as [|t c s _ IH]; [|by apply s_inv_step].
  constructor; cbn; [done | done | by left].
Qed.
End Safe.
End SingleSafe.

(** C10. The single-word guard, on every target: at most one thread is between
    an acquire that returned 1 and the end of its release or abort; at most
    one constructor ends normally; a thread whose acquire returned 0 finds the
    object constructed, with no constructor running; the assertion of [unlock]
    never fails; and a locked guard has a holder. *)
Theorem single_guard_safe l s :
  l ∈ single_layouts -> Single.reachable l s ->
  (forall t t', Single.holds (Single.pcs s t) = true -> Single.holds (Single.pcs s t') = true -> t = t') /\
  (Single.inits s <= 1)%nat /\
  (forall t, Single.pcs s t = Single.Use ->
     Single.inits s = 1%nat /\ forall t', Single.holds (Single.pcs s t') = false) /\
  (forall t, Single.pcs s t <> Single.Failed) /\
  (Single.val s = locked l -> exists t, Single.holds (Single.pcs s t) = true).
Proof.
  intros Hl%single_layout_ok Hs%SingleSafe.s_inv_reachable; [|done].
  pose proof (ok_distinct l Hl) as Hd. pose proof (ok_initialised l Hl). pose proof (ok_locked l Hl).
  split; [apply Hs|]. split_and!.
  - destruct (SingleSafe.inv_val l s Hs) as [[_ ->]|[[_ ->]|[_ [t Ht]]]]; [lia|lia|].
    pose proof (SingleSafe.inv_pc l s Hs t) as Hp.
    destruct (Single.pcs s t) as [| | | | |[]| | |]; cbn in *; try done; lia.
  - intros t Ht. pose proof (SingleSafe.inv_pc l s Hs t) as Hp. rewrite Ht in Hp. cbn in Hp. split.
    + destruct (SingleSafe.inv_val l s Hs) as [[? _]|[[_ ?]|[? _]]]; congruence.
    + intros t'. apply (SingleSafe.s_inv_free l); [done | congruence].
  - intros t Ht. pose proof (SingleSafe.inv_pc l s Hs t) as Hp. by rewrite Ht in Hp.
  - intros Hv. destruct (SingleSafe.inv_val l s Hs) as [[? _]|[[? _]|[_ ?]]]; congruence.
Qed.

(** ** The double-word guard *)
Module DoubleSafe.
Import Double.

Section Safe.
Context (l : layout) (Hl : layout_ok l).

(** What the init word and the count say for a thread at [p]. *)
Definition pc_ok (v : Z) (n : nat) (p : pc) : Prop :=
  match p with
  | Use | GiveBack | StoreLock true | Assert true => v = initialised l
  | Ctor | StoreInit false | StoreLock false => v = 0 /\ n = 0%nat
  | StoreInit true => v = 0 /\ n = 1%nat
  | Failed true => False
  | _ => True
  end.

Record inv (s : state) : Prop := {
  inv_pc : forall t, pc_ok (init_word s) (inits s) (pcs s t);
  inv_one : forall t t', holds (pcs s t) = true -> holds (pcs s t') = true -> t = t';
  inv_locked : forall t, holds (pcs s t) = true -> lock_word s = locked l;
  inv_lock : lock_word s = 0 \/ exists t, holds (pcs s t) = true;
  inv_init : (init_word s = initialised l /\ inits s = 1%nat) \/
             (init_word s = 0 /\ (inits s = 0%nat \/ inits s = 1%nat /\ exists t, pcs s t = StoreInit true));
}.

Lemma d_inv_free s t : inv s -> lock_word s = 0 -> holds (pcs s t) = false.
Proof.
  intros Hs Hv. destruct (holds _) eqn:E; [|done]. apply (inv_locked s Hs) in E.
  by destruct (ok_locked l Hl); congruence.
Qed.

Lemma inv_others s t x : inv s -> holds (pcs s t) = true -> x <> t -> holds (pcs s x) = false.
Proof. intros Hs Ht Hx. destruct (holds (pcs s x)) eqn:E; [|done]. destruct Hx. by apply (inv_one s Hs). Qed.

(** A step that touches neither word, nor who holds the lock. *)
Lemma d_inv_goto s t p :
  inv s -> holds p = holds (pcs s t) -> pcs s t <> StoreInit true -> pc_ok (init_word s) (inits s) p ->
  inv (State (init_word s) (lock_word s) (upd t p (pcs s)) (inits s)).
Proof.
  intros Hs Hp Hne Hok. constructor; cbn.
  - intros x. threads t x; [done | apply Hs].
  - intros x y Hx Hy. apply (inv_one s Hs); [threads t x | threads t y]; congruence.
  - intros x Hx. apply (inv_locked s Hs x). threads t x; congruence.
  - destruct (inv_lock s Hs) as [?|[x Hx]]; [by left|]. right. exists x. threads t x; congruence.
  - destruct (inv_init s Hs) as [?|[Hv [?|[Hn [x Hx]]]]]; [by left | by right; auto|].
    right. split; [done|]. right. split; [done|]. exists x. threads t x; congruence.
Qed.

(** A step of the holder, which stores to the init word or lets the
    constructor end, and keeps the lock. *)
Lemma d_inv_held s t p v n :
  inv s -> holds (pcs s t) = true -> holds p = true -> pc_ok v n p ->
  (forall q, holds q = false -> pc_ok (init_word s) (inits s) q -> pc_ok v n q) ->
  (v = initialised l /\ n = 1%nat) \/ (v = 0 /\ (n = 0%nat \/ n = 1%nat /\ p = StoreInit true)) ->
  inv (State v (lock_word s) (upd t p (pcs s)) n).
Proof.
  intros Hs Ht Hp Hok Hq Hv. constructor; cbn.
  - intros x. threads t x; [done|]. apply Hq; [by apply (inv_others s t) | apply Hs].
  - intros x y Hx Hy. threads t x; threads t y; rewrite ?(inv_others s t) in * by done; done.
  - intros _ _. by apply (inv_locked s Hs t).
  - right. exists t. by rewrite upd_same.
  - destruct Hv as [?|[? [?|[? ->]]]]; [by left | by right; auto |].
    right. split; [done|]. right. split; [done|]. exists t. by rewrite upd_same.
Qed.

(** The holder stores 0 to the lock word. *)
Lemma inv_release s t p :
  inv s -> holds (pcs s t) = true -> pcs s t <> StoreInit true -> holds p = false ->
  pc_ok (init_word s) (inits s) p ->
  inv (State (init_word s) 0 (upd t p (pcs s)) (inits s)).
Proof.
  intros Hs Ht Hne Hp Hok.
  assert (forall x, holds (upd t p (pcs s) x) = false) as Hf.
  { intros x. threads t x; [done|]. by apply (inv_others s t). }
  constructor; cbn.
  - intros x. threads t x; [done | apply Hs].
  - intros x y Hx. by rewrite Hf in Hx.
  - intros x Hx. by rewrite Hf in Hx.
  - by left.
  - destruct (inv_init s Hs) as [?|[Hv [?|[Hn [x Hx]]]]]; [by left | by right; auto |].
    destruct (decide (x = t)) as [->|Hxt]; [done|].
    pose proof (inv_others s t x Hs Ht Hxt) as Ho. by rewrite Hx in Ho.
Qed.

(** A thread takes the free lock. *)
Lemma inv_take s t :
  inv s -> lock_word s = 0 -> inv (State (init_word s) (locked l) (upd t Recheck (pcs s)) (inits s)).
Proof.
  intros Hs H0. assert (forall x, holds (pcs s x) = false) as Hf by (intros; by apply d_inv_free).
  constructor; cbn.
  - intros x. threads t x; [done | apply Hs].
  - intros x y Hx Hy. threads t x; threads t y; rewrite ?Hf in *; done.
  - done.
  - right. exists t. by rewrite upd_same.
  - destruct (inv_init s Hs) as [?|[Hv [?|[Hn [x Hx]]]]]; [by left | by right; auto |].
    pose proof (Hf x) as Ho. by rewrite Hx in Ho.
Qed.

(** With the lock held elsewhere than at the store, no constructor has ended
    unless the init word says so. *)
Lemma inv_count s t : inv s -> holds (pcs s t) = true -> pcs s t <> StoreInit true ->
  init_word s = 0 -> inits s = 0%nat.
Proof.
  intros Hs Ht Hne Hv. destruct (inv_init s Hs) as [[Hi _]|[_ [?|[_ [x Hx]]]]]; [|done|].
  - rewrite Hv in Hi. symmetry in Hi. by apply Hl in Hi.
  - destruct (decide (x = t)) as [->|Hxt]; [done|].
    pose proof (inv_others s t x Hs Ht Hxt) as Ho. by rewrite Hx in Ho.
Qed.

Lemma inv_read s : inv s ->
  if is_initialised l (init_word s) then init_word s = initialised l else init_word s = 0.
Proof.
  intros Hs. destruct (inv_init s Hs) as [[-> _]|[-> _]];
    [by rewrite (ok_read_initialised l Hl) | by rewrite (ok_read_0 l Hl)].
Qed.

Lemma d_inv_step t c s : inv s -> inv (step l t c s).
Proof.
  intros Hs. pose proof (inv_pc s Hs t) as Hp. pose proof (inv_read s Hs) as Hr.
  unfold step. destruct (pcs s t) as [| | | | | | |b|b|b| |b] eqn:E; cbn in Hp.
  - by apply d_inv_goto; rewrite ?E.
  - destruct (is_initialised _ _); by apply d_inv_goto; rewrite ?E.
  - unfold compare_exchange. destruct (Z.eqb_spec (lock_word s) 0) as [H0|]; cbn [andb].
    + destruct (is_spurious c); cbn [negb]; [by apply d_inv_goto; rewrite ?E | by apply inv_take].
    + by apply d_inv_goto; rewrite ?E.
  - destruct (is_initialised _ _); apply d_inv_goto; rewrite ?E; try done.
    split; [done|]. by apply (inv_count s t); rewrite ?E.
  - by apply inv_release; rewrite ?E.
  - by apply d_inv_goto; rewrite ?E.
  - destruct Hp, c; [|..|by apply d_inv_goto; rewrite ?E];
      (apply d_inv_held; [done | by rewrite E | done | cbn; lia | | right; auto]);
      intros [| | | | | | |[]|[]|[]| |[]]; cbn; done || tauto.
  - destruct b, Hp as [Hv Hn]; apply d_inv_held; rewrite ?E; try done; cbn; try auto;
      intros [| | | | | | |[]|[]|[]| |[]]; cbn; try done; intros _ Hi; rewrite Hv in Hi; symmetry in Hi; by apply Hl in Hi.
  - apply inv_release; rewrite ?E; try done. by destruct b.
  - destruct (unlock_assertion l b (init_word s)) eqn:Ea; apply d_inv_goto; rewrite ?E; try done.
    destruct b; [|done]. unfold unlock_assertion in Ea. rewrite Hp in Ea.
    by rewrite (proj2 (Z.eqb_neq _ _) (ok_byte l Hl)) in Ea.
  - by apply d_inv_goto; rewrite ?E.
  - done.
Qed.

Lemma d_inv_reachable s : reachable l s -> inv s.
Proof.
  induction 1 as [|t c s _ IH]; [|by apply d_inv_step].
  constructor; cbn; [done | done | done | by left | by right; auto].
Qed.
End Safe.
End DoubleSafe.


(** Thread 0's constructor throws; after it has released the lock, and before
    it evaluates its assertion, thread 1 runs the constructor to its end. *)
Definition abort_race : list (nat * choice) :=
  replicate 4 (0%nat, Go) ++ [(0%nat, Throw); (0%nat, Go); (0%nat, Go)]
  ++ replicate 6 (1%nat, Go) ++ [(0%nat, Go)].

(** The assertion after [__cxa_guard_abort] is evaluated when the lock has been
    released: on every target with the double-word guard, two threads can
    make it fail, although each did what it may. *)
Theorem double_abort_assertion_race l :
  l ∈ double_layouts -> exists s, Double.reachable l s /\ Double.pcs s 0%nat = Double.Failed false.
Proof.
  intros Hl. exists (Double.run l abort_race Double.init). split.
  - unfold Double.run. assert (forall sched s, Double.reachable l s ->
      Double.reachable l (fold_left (fun s tc => Double.step l tc.1 tc.2 s) sched s)) as H.
    { induction sched as [|[t c] sched IH]; intros s Hs; [done|]. apply IH. by constructor. }
    apply H. constructor.
  - repeat (apply elem_of_cons in Hl as [->|Hl]; [by vm_compute|]). by apply elem_of_nil in Hl.
Qed.

(** ** Witnesses *)
Lemma single_guard_safe_witness :
  let l := Layout 64 63 0 true in
  let s := Single.run l (replicate 3 (0%nat, Go) ++ replicate 3 (1%nat, Go)) Single.init in
  Single.pcs s 0%nat = Single.Ctor /\ Single.pcs s 1%nat = Single.Yield /\ (Single.inits s <= 1)%nat.
Proof.
  split; [reflexivity|]. split; [reflexivity|].
  apply (single_guard_safe (Layout 64 63 0 true)); [by apply (bool_decide_unpack _)|].
  repeat (apply Single.reachable_step). apply Single.reachable_init.
Defined.


Lemma double_abort_assertion_race_witness :
  exists s, Double.reachable (Layout 32 0 24 false) s /\ Double.pcs s 0%nat = Double.Failed false.
Proof. apply (double_abort_assertion_race (Layout 32 0 24 false)). by apply (bool_decide_unpack _). Defined.
