(* ===== verification/TypeInfoTheorems.v ===== *)
(** * What casts and catch clauses promise

    Upcasts and dynamic casts find a subobject of the class sought, at its
    address, exactly when the object has one; pointer handlers follow the
    rules of qualification conversions.  Then what they accept although the
    language does not. *)
From S2P Require Import Prelude TypeInfo.

(** ** Induction over a type with everything below it *)
Section Induction.
Context (P : type_info -> Prop).
Context (Hplain : forall a n k, k = Fundamental \/ k = Array \/ k = Function \/ k = Enum \/ k = Class_ ->
  P (TypeInfo a n k)).
Context (Hsi : forall a n b, P b -> P (TypeInfo a n (SiClass b))).
Context (Hvmi : forall a n f bs, Forall (fun b => P b.1) bs -> P (TypeInfo a n (VmiClass f bs))).
Context (Hptr : forall a n f t, P t -> P (TypeInfo a n (Pointer f t))).
Context (Hmem : forall a n f t c, P t -> P c -> P (TypeInfo a n (PointerToMember f t c))).

Fixpoint type_info_induction (t : type_info) : P t :=
  match t with
  | TypeInfo a n k =>
      match k return P (TypeInfo a n k) with
      | SiClass b => Hsi a n b (type_info_induction b)
      | VmiClass f bs => Hvmi a n f bs
          ((fix go (bs : list (type_info * Z)) : Forall (fun b => P b.1) bs :=
              match bs with
              | [] => Forall_nil_2 _
              | b :: bs => Forall_cons_2 _ b bs
                             (let '(t, o) as b := b return P b.1 in type_info_induction t) (go bs)
              end) bs)
      | Pointer f t => Hptr a n f t (type_info_induction t)
      | PointerToMember f t c => Hmem a n f t c (type_info_induction t) (type_info_induction c)
      | Fundamental => Hplain a n Fundamental ltac:(auto)
      | Array => Hplain a n Array ltac:(auto)
      | Function => Hplain a n Function ltac:(auto)
      | Enum => Hplain a n Enum ltac:(auto)
      | Class_ => Hplain a n Class_ ltac:(auto)
      end
  end.
End Induction.

Section Subobjects.
Context {W : Words}.

(** Where the base described by [ofl] of the object at [p] is. *)
Definition base_at (ofl p : Z) : option Z :=
  if isVirtual ofl then
    vtable ← word_at p; o ← word_at (vtable + offset ofl); Some (p + o)
  else Some (p + offset ofl).

(** The object of type [t] at [p] has a subobject of type [u] at [q]. *)
Inductive subobject : type_info -> Z -> type_info -> Z -> Prop :=
  | sub_whole t p : subobject t p t p
  | sub_single a n b p u q :
      subobject b p u q -> subobject (TypeInfo a n (SiClass b)) p u q
  | sub_base a n f bs b ofl p p' u q :
      (b, ofl) ∈ bs -> base_at ofl p = Some p' -> subobject b p' u q ->
      subobject (TypeInfo a n (VmiClass f bs)) p u q.

(** Every subobject is of a class and has a readable vtable for its virtual
    bases. *)
Definition object_ok (t : type_info) (p : Z) : Prop :=
  forall u q, subobject t p u q -> is_class u = true /\
    match ti_dyn u with VmiClass _ bs => Forall (fun b => is_Some (base_at b.2 q)) bs | _ => True end.

Lemma base_address_ok {S} ofl p p' (s : S) : base_at ofl p = Some p' -> base_address ofl p s = Ok p' s.
Proof.
  unfold base_at, base_address. destruct (isVirtual ofl); [|by intros [= <-]].
  unfold deref. destruct (word_at p) as [v|]; [|done]. cbn. rewrite bind_ret.
  destruct (word_at (v + offset ofl)) as [o|]; [|done]. cbn. by intros [= <-].
Qed.

(** The loop over the bases, on its own. *)
Fixpoint upcast_loop (target : Z) (bases : list (type_info * Z)) : comp Z bool :=
  match bases with
  | [] => mret false
  | (b, ofl) :: bases =>
      obj ← gets id;
      cast ← base_address ofl obj;
      '(found, cast) ← with_local cast
        (if ti_addr b =? target then mret true else __do_upcast b target);
      if (found : bool) then modify (fun _ => cast);; mret true else upcast_loop target bases
  end.

Lemma upcast_vmi a n f bs target :
  __do_upcast (TypeInfo a n (VmiClass f bs)) target
  = if a =? target then mret true else upcast_loop target bs.
Proof.
  cbn [__do_upcast]. destruct (a =? target); [done|].
  induction bs as [|[b ofl] bs IH]; [done|]. cbn [upcast_loop]. by rewrite <- IH.
Qed.

(** What an upcast answers: an address of a subobject of the class sought, or
    that there is none, and then the pointer is as it was. *)
Definition upcast_answer (t : type_info) (target p : Z) (o : outcome Z bool) : Prop :=
  match o with
  | Ok true q => exists u, subobject t p u q /\ ti_addr u = target
  | Ok false q => q = p /\ forall u q', subobject t p u q' -> ti_addr u <> target
  | _ => False
  end.

Lemma object_ok_base a n f bs b ofl p p' :
  object_ok (TypeInfo a n (VmiClass f bs)) p -> (b, ofl) ∈ bs -> base_at ofl p = Some p' -> object_ok b p'.
Proof. intros H Hin Hb u q Hu. apply H. by eapply sub_base. Qed.

Lemma upcast_answer_loop a n f target p bs rest :
  Forall (fun b => forall p, object_ok b.1 p -> upcast_answer b.1 target p (__do_upcast b.1 target p)) bs ->
  object_ok (TypeInfo a n (VmiClass f (rest ++ bs))) p ->
  match upcast_loop target bs p with
  | Ok true q => exists b ofl p' u, (b, ofl) ∈ bs /\ base_at ofl p = Some p' /\ subobject b p' u q /\ ti_addr u = target
  | Ok false q => q = p /\ forall b ofl p' u q', (b, ofl) ∈ bs -> base_at ofl p = Some p' ->
                    subobject b p' u q' -> ti_addr u <> target
  | _ => False
  end.
Proof.
  intros Hbs. revert rest. induction Hbs as [|[b ofl] bs Hb _ IH]; intros rest Hok.
  { split; [done|]. by intros ????? ?%elem_of_nil. }
  pose proof (Hok _ _ (sub_whole _ _)) as [_ Hr]. cbn in Hr. rewrite Forall_forall in Hr.
  destruct (Hr (b, ofl)) as [p' Hp']; [apply elem_of_app; right; apply elem_of_cons; by left|]. cbn in Hp'.
  assert (object_ok b p') as Hokb.
  { eapply (object_ok_base a n f); [exact Hok | apply elem_of_app; right; apply elem_of_cons; by left | done]. }
  specialize (Hb p' Hokb). cbn [fst] in Hb. cbn [upcast_loop]. rewrite (bind_Ok _ _ _ p p) by done.
  rewrite (bind_Ok _ _ _ p' p) by (by apply base_address_ok).
  set (m := if ti_addr b =? target then mret true else __do_upcast b target).
  assert (upcast_answer b target p' (m p')) as Ha.
  { unfold m. destruct (Z.eqb_spec (ti_addr b) target); [|done]. exists b. by split; [constructor|]. }
  unfold with_local. unfold mbind at 1, comp_bind at 1.
  destruct (m p') as [[] q| | |]; cbn in Ha; try done.
  - destruct Ha as (u & Hu & Ht). cbn. exists b, ofl, p', u. split_and!; try done. apply elem_of_cons. by left.
  - destruct Ha as [-> Ha]. specialize (IH (rest ++ [(b, ofl)])).
    rewrite <- (assoc_L (++)) in IH. specialize (IH Hok).
    destruct (upcast_loop target bs p) as [[] q| | |]; try done.
    + destruct IH as (b' & o' & p'' & u & Hin & H1 & H2 & H3). exists b', o', p'', u.
      split_and!; try done. apply elem_of_cons. by right.
    + destruct IH as [-> IH]. split; [done|]. intros b' o' p'' u q' [[= -> ->]|Hin]%elem_of_cons H1 H2.
      * rewrite Hp' in H1. injection H1 as <-. by eapply Ha.
      * by eapply IH.
Qed.

Lemma upcast_finds target t : forall p, object_ok t p -> upcast_answer t target p (__do_upcast t target p).
Proof.
  induction t as [a n k Hk | a n b IH | a n f bs IH | a n f t _ | a n f t c _ _] using type_info_induction; intros p Hok;
    pose proof (Hok _ _ (sub_whole _ _)) as [Hc _].
  - destruct Hk as [->|[->|[->|[->| ->]]]]; try done. cbn. destruct (Z.eqb_spec a target).
    + eexists. split; [constructor|done].
    + split; [done|]. intros u q Hu. inversion Hu; subst. done.
  - cbn. destruct (Z.eqb_spec a target); [eexists; split; [constructor|done]|].
    assert (object_ok b p) as Hb by (intros u q Hu; apply Hok; by constructor).
    specialize (IH p Hb). destruct (__do_upcast b target p) as [[] q| | |]; try done.
    + destruct IH as (u & Hu & Ht). exists u. by split; [constructor|].
    + destruct IH as [-> IH]. split; [done|]. intros u q' Hu. inversion Hu; subst; [done|by eapply IH].
  - rewrite upcast_vmi. destruct (Z.eqb_spec a target); [eexists; split; [constructor|done]|].
    pose proof (upcast_answer_loop a n f target p bs []) as Hl. specialize (Hl IH Hok).
    destruct (upcast_loop target bs p) as [[] q| | |]; try done.
    + destruct Hl as (b & ofl & p' & u & Hin & H1 & H2 & H3). exists u. by split; [eapply sub_base|].
    + destruct Hl as [-> Hl]. split; [done|]. intros u q' Hu.
      inversion Hu as [| |? ? ? ? b ofl ? p' ? ? Hin H1 H2]; subst; [done|]. by eapply Hl.
  - done.
  - done.
Qed.

(** C28. Upcasts: for a thrown object (or one whose base is sought) with readable
    vtables, [__do_upcast] answers true exactly when the object has a subobject
    of the class sought, and then the pointer is adjusted to such a subobject;
    otherwise the pointer is left alone. *)
Theorem upcast_finds_subobject t target p :
  object_ok t p ->
  exists b q, __do_upcast t target p = Ok b q /\
    (b = true <-> exists u q', subobject t p u q' /\ ti_addr u = target) /\
    (b = true -> exists u, subobject t p u q /\ ti_addr u = target) /\
    (b = false -> q = p).
Proof.
  intros Hok. pose proof (upcast_finds target t p Hok) as H.
  destruct (__do_upcast t target p) as [[] q| | |]; cbn in H; try done; eexists _, _; (split; [done|]).
  - destruct H as (u & Hu & Ht). split_and!; [|by eauto|done]. split; eauto.
  - destruct H as [-> H]. split_and!; [|done|done]. split; [done|]. intros (u & q' & Hu & Ht).
    by destruct (H u q' Hu).
Qed.

Lemma cast_to_finds other t : forall p, object_ok t p ->
  exists r, cast_to t p other tt = Ok r tt /\
    ((exists u, subobject t p u r /\ ti_addr u = other) \/
     (r = 0 /\ forall u q, subobject t p u q -> ti_addr u <> other)).
Proof.
  induction t as [a n k Hk | a n b IH | a n f bs IH | a n f t _ | a n f t c _ _] using type_info_induction; intros p Hok;
    pose proof (Hok _ _ (sub_whole _ _)) as [Hc _]; try done.
  - destruct Hk as [->|[->|[->|[->| ->]]]]; try done. cbn. destruct (Z.eqb_spec a other); (eexists; split; [done|]).
    + left. eexists. split; [constructor|done].
    + right. split; [done|]. intros u q Hu. inversion Hu; subst. done.
  - cbn. destruct (Z.eqb_spec a other); [eexists; split; [done|]; left; eexists; split; [constructor|done]|].
    destruct (IH p) as (r & E & Hr); [intros u q Hu; apply Hok; by constructor|].
    exists r. split; [exact E|]. destruct Hr as [(u & Hu & Ht)|[Hr Hn]].
    + left. exists u. by split; [constructor|].
    + right. split; [done|]. intros u q Hu. inversion Hu; subst; [done|by eapply Hn].
  - pose proof (upcast_finds other _ p Hok) as H. cbn [cast_to]. unfold with_local, mbind, comp_bind.
    destruct (__do_upcast _ other p) as [[] q| | |]; cbn in H; try done; (eexists; split; [done|]).
    + by left.
    + right. by destruct H.
Qed.

(** C20. [dynamic_cast]: whatever subobject it starts from, the result is the address
    of a subobject of the class sought within the complete object, and NULL
    when the complete object has none. *)
Theorem dynamic_cast_finds type_at sub src dst hint vtable off header complete :
  word_at sub = Some vtable ->
  word_at (vtable - 16) = Some off -> word_at (vtable - 8) = Some header ->
  type_at header = Some complete -> object_ok complete (sub + off) ->
  exists r, __dynamic_cast type_at sub src dst hint tt = Ok r tt /\
    ((exists u, subobject complete (sub + off) u r /\ ti_addr u = dst) \/
     (r = 0 /\ forall u q, subobject complete (sub + off) u q -> ti_addr u <> dst)).
Proof.
  intros H1 H2 H3 H4 Hok. destruct (cast_to_finds dst complete _ Hok) as (r & E & Hr).
  exists r. split; [|done]. unfold __dynamic_cast, deref. rewrite H1, bind_ret.
  change (vtable - SIZEOF_VTABLE_HEADER) with (vtable - 16). rewrite H2, bind_ret.
  replace (vtable - 16 + 8) with (vtable - 8) by lia. by rewrite H3, bind_ret, H4.
Qed.

(** ** Access is not looked at *)

(** The same type with all its bases private. *)
Fixpoint private_bases (t : type_info) : type_info :=
  match t with
  | TypeInfo a n k =>
      TypeInfo a n
        match k with
        | SiClass b => SiClass (private_bases b)
        | VmiClass f bs => VmiClass f ((fun b => let '(t, ofl) := b in (private_bases t, Z.ldiff ofl __public_mask)) <$> bs)
        | k => k
        end
  end.

Lemma private_addr t : ti_addr (private_bases t) = ti_addr t.
Proof. by destruct t. Qed.

Lemma private_base_address {S} ofl obj :
  base_address (S := S) (Z.ldiff ofl __public_mask) obj = base_address ofl obj.
Proof.
  unfold base_address. assert (isVirtual (Z.ldiff ofl __public_mask) = isVirtual ofl) as ->.
  { unfold isVirtual, flags. do 2 f_equal. apply Z.bits_inj'. intros i Hi.
    rewrite !Z.land_spec, Z.ldiff_spec. change (Z.shiftl 1 __offset_shift - 1) with (Z.ones 8).
    destruct (decide (i = 0)) as [->|]; [cbn; by rewrite andb_true_r|].
    rewrite (Z.bits_above_log2 __virtual_mask i) by (unfold __virtual_mask; cbn; lia). by rewrite !andb_false_r. }
  assert (offset (Z.ldiff ofl __public_mask) = offset ofl) as ->; [|done].
  unfold offset. apply Z.bits_inj'. intros i Hi. rewrite !Z.shiftr_spec, Z.ldiff_spec by done.
  rewrite (Z.bits_above_log2 __public_mask) by (unfold __public_mask, __offset_shift; cbn; lia). by rewrite andb_true_r.
Qed.

(** Whether a base is public is recorded by the compiler and never asked: an
    upcast, and so a catch clause or a [dynamic_cast], treats private bases as
    public ones. *)
Theorem upcast_ignores_access t target p :
  __do_upcast (private_bases t) target p = __do_upcast t target p.
Proof.
  revert p. induction t as [a n k Hk | a n b IH | a n f bs IH | a n f t _ | a n f t c _ _] using type_info_induction;
    intros p; try done.
  - by destruct Hk as [->|[->|[->|[->| ->]]]].
  - cbn. destruct (a =? target); [done | apply IH].
  - cbn [private_bases]. rewrite !upcast_vmi. destruct (a =? target); [done|].
    revert p. induction IH as [|[b ofl] bs Hb _ IHbs]; intros p; [done|]. cbn [fmap list_fmap upcast_loop].
    rewrite private_addr. unfold mbind, comp_bind, gets, id. rewrite private_base_address.
    destruct (base_address ofl p p) as [c s| | |]; [|done..].
    unfold with_local. destruct (ti_addr b =? target); [done|]. cbn [fst] in Hb. rewrite Hb.
    destruct (__do_upcast b target c) as [[] q| | |]; [done| |done..]. apply IHbs.
Qed.
End Subobjects.

(** ** Pointer handlers *)
Section Pointers.
Context {W : Words} (typeid_void : type_info).

(** A pointer to a pointer ... to [leaf], with the qualifiers of what each
    points at, the outermost first. *)
Fixpoint pointer_chain (t : type_info) (cvs : list Z) (leaf : type_info) : Prop :=
  match cvs with
  | [] => t = leaf
  | cv :: cvs => exists a n t', t = TypeInfo a n (Pointer cv t') /\ pointer_chain t' cvs leaf
  end.

(** How a program's [type_info] objects are laid out: one object per address,
    one object per pointer type, and [void] has a name of its own. *)
Record program (own : type_info -> Prop) : Prop := {
  own_addr : forall t u, own t -> own u -> ti_addr t = ti_addr u -> t = u;
  own_pointer : forall t u cv x, own t -> own u -> ti_dyn t = Pointer cv x -> ti_dyn u = Pointer cv x -> t = u;
  own_void : forall t, own t -> ti_eq t typeid_void = false;
  own_pointee : forall t cv x, own t -> ti_dyn t = Pointer cv x -> own x;
}.

(** The rule of the language: a pointer converts to one with as many
    qualifiers or more at each level, and where a level differs, all levels
    above it are const in the target. *)
Definition qualification_conversion (from to : list Z) : Prop :=
  Forall2 (fun e h => Z.ldiff e h = 0) from to /\
  forall i j e h h', (j < i)%nat -> from !! i = Some e -> to !! i = Some h -> e <> h ->
    to !! j = Some h' -> Z.land h' __const_mask <> 0.

Lemma qualification_refl cvs : qualification_conversion cvs cvs.
Proof.
  split; [|by intros ????? _ -> [= <-]].
  induction cvs; constructor; [apply Z.ldiff_diag | done].
Qed.

Lemma qualification_cons e h from to :
  qualification_conversion (e :: from) (h :: to) <->
  Z.ldiff e h = 0 /\ if Z.land h __const_mask =? 0 then from = to else qualification_conversion from to.
Proof.
  split.
  - intros [[H1 H2]%Forall2_cons_1 H3]. split; [done|]. destruct (Z.eqb_spec (Z.land h __const_mask) 0) as [Hc|Hc].
    + apply list_eq_same_length with (length from); [symmetry; by eapply Forall2_length | done |].
      intros i x y _ Hx Hy. destruct (decide (x = y)) as [|Hxy]; [done|].
      by destruct (H3 (S i) O x y h ltac:(lia) Hx Hy Hxy eq_refl).
    + split; [done|]. intros i j x y h' Hij Hx Hy Hne Hj. by apply (H3 (S i) (S j) x y h' ltac:(lia)).
  - intros [H1 H2]. destruct (Z.eqb_spec (Z.land h __const_mask) 0) as [Hc|Hc].
    + subst to. split; [constructor; [done | apply qualification_refl]|].
      intros [|i] j x y h' Hij Hx Hy Hne; [lia|]. cbn in *. congruence.
    + destruct H2 as [H2 H3]. split; [by constructor|].
      intros [|i] [|j] x y h' Hij Hx Hy Hne Hj; cbn in *; [lia|lia|congruence|].
      by apply (H3 i j x y h' ltac:(lia)).
Qed.

Lemma chain_own own t cvs leaf : program own -> own t -> pointer_chain t cvs leaf -> own leaf.
Proof.
  intros Hp. revert t. induction cvs as [|cv cvs IH]; cbn; intros t Ht; [by intros <-|].
  intros (a & n & t' & -> & Hc). by apply (IH t'); [exact (own_pointee own Hp _ cv t' Ht eq_refl)|].
Qed.

Lemma chain_unique own t u cvs leaf :
  program own -> own t -> own u -> pointer_chain t cvs leaf -> pointer_chain u cvs leaf -> t = u.
Proof.
  intros Hp. revert t u. induction cvs as [|cv cvs IH]; cbn; intros t u Ht Hu; [by intros -> ->|].
  intros (a & n & t' & -> & Ht') (b & m & u' & -> & Hu').
  assert (t' = u') as ->.
  { apply IH; try done; [exact (own_pointee own Hp _ cv t' Ht eq_refl) | exact (own_pointee own Hp _ cv u' Hu eq_refl)]. }
  exact (own_pointer own Hp _ _ cv u' Ht Hu eq_refl eq_refl).
Qed.

Lemma chain_inj t cvs cvs' leaf :
  length cvs = length cvs' -> pointer_chain t cvs leaf -> pointer_chain t cvs' leaf -> cvs = cvs'.
Proof.
  revert t cvs'. induction cvs as [|cv cvs IH]; intros t [|cv' cvs'] Hl; cbn; try done.
  intros (a & n & t' & -> & Hc) (b & m & u & [= -> -> -> ->] & Hc'). f_equal. apply (IH u); [|done|done].
  by injection Hl.
Qed.

Lemma catch_chain own leaf p : program own -> forall to from t u outer,
  own t -> own u -> pointer_chain t to leaf -> pointer_chain u from leaf -> length to = length from ->
  outer = 0 \/ outer = 1 ->
  exists b, __do_catch typeid_void t u outer p = Ok b p /\
    (b = true <-> if outer =? 0 then from = to else qualification_conversion from to).
Proof.
  intros Hp. induction to as [|h to IH]; intros [|e from] t u outer Ht Hu Hct Hcu Hl Ho; try done.
  { cbn in Hct, Hcu. subst t u. exists true. split.
    - destruct leaf as [a n k]. destruct k; cbn; by rewrite Z.eqb_refl.
    - split; [|done]. intros _. destruct (outer =? 0); [done | apply qualification_refl]. }
  assert (ti_addr u = ti_addr t <-> e :: from = h :: to) as Haddr.
  { split.
    - intros E. assert (u = t) as -> by (by eapply (own_addr own Hp)). by eapply chain_inj.
    - intros E. rewrite E in Hcu. f_equal. by eapply chain_unique. }
  destruct Hct as (a & n & t' & -> & Hct). destruct Hcu as (b & m & u' & -> & Hcu).
  cbn [__do_catch ti_addr ti_dyn] in *. destruct (Z.eqb_spec b a) as [E|E].
  { exists true. split; [done|]. split; [|done]. intros _. apply Haddr in E. rewrite E.
    destruct (outer =? 0); [done | apply qualification_refl]. }
  assert (e :: from <> h :: to) as Hne by (by intros ?%Haddr). destruct Ho as [-> | ->]; cbn [Z.land Z.eqb].
  { by exists false. }
  change (Z.land 1 1 =? 0) with false. cbv iota.
  destruct (Z.eqb_spec (Z.ldiff e h) 0) as [Hd|Hd]; cbn [negb].
  2: { exists false. split; [done|]. split; [done|]. intros [? _]%qualification_cons. by destruct Hd. }
  pose proof (own_pointee own Hp _ _ _ Ht eq_refl) as Ht'. pose proof (own_pointee own Hp _ _ _ Hu eq_refl) as Hu'.
  rewrite (own_void own Hp t' Ht').
  destruct (IH from t' u' (if Z.land h __const_mask =? 0 then Z.ldiff 1 1 else 1) Ht' Hu' Hct Hcu) as (r & Er & Hr).
  { by injection Hl. }
  { destruct (Z.land h __const_mask =? 0); [by left | by right]. }
  exists r. split; [exact Er|]. change (1 =? 0) with false. cbv iota. rewrite Hr, qualification_cons.
  destruct (Z.land h __const_mask =? 0); cbn; [|by split; [|intros [_ ?]]].
  split; [by split|by intros [_ ?]].
Qed.

(** C22. Handlers for pointers: a pointer, of any number of levels, is caught by a
    handler for a pointer of as many levels to the same type exactly when the
    language has a qualification conversion from the one to the other. *)
Theorem catch_qualification own leaf to from t u p :
  program own -> own t -> own u ->
  pointer_chain t to leaf -> pointer_chain u from leaf -> length to = length from ->
  exists b, __do_catch typeid_void t u 1 p = Ok b p /\ (b = true <-> qualification_conversion from to).
Proof.
  intros Hp Ht Hu Hct Hcu Hl.
  destruct (catch_chain own leaf p Hp to from t u 1) as (b & E & Hb); try done; [by right|]. by exists b.
Qed.

Lemma catch_same t outer p : __do_catch typeid_void t t outer p = Ok true p.
Proof. destruct t as [a n []]; cbn [__do_catch ti_addr]; by rewrite Z.eqb_refl. Qed.

(** What handlers accept beyond the language: a handler for a pointer to a
    member catches plain pointers, since only the thrown type is asked whether
    it is a pointer; and a handler for [Base *const *] catches a [Derived **],
    and adjusts the outer pointer as if it pointed at the object, since the
    number of levels is not counted. *)
Theorem catch_too_wide a n f t c a' n' g b d b' d' p :
  a' <> a -> ti_addr b' <> ti_addr d' ->
  ti_eq t typeid_void = false -> ti_eq b' typeid_void = false -> ti_eq b typeid_void = false ->
  ti_dyn b' = Pointer g b -> ti_dyn d' = Pointer g d -> is_class b = true -> ti_addr b <> ti_addr d ->
  __do_catch typeid_void (TypeInfo a n (PointerToMember f t c)) (TypeInfo a' n' (Pointer f t)) 1 p = Ok true p /\
  __do_catch typeid_void (TypeInfo a n (Pointer __const_mask b')) (TypeInfo a' n' (Pointer 0 d')) 1 p
  = __do_upcast d (ti_addr b) p.
Proof.
  intros Ha Hb' Ht Hvb' Hvb Eb' Ed' Hc Hbd. cbn [__do_catch ti_addr ti_dyn].
  rewrite (proj2 (Z.eqb_neq a' a) Ha). change (Z.land 1 1 =? 0) with false. cbv iota. split.
  - rewrite Z.ldiff_diag, Ht. cbn [Z.eqb negb]. apply catch_same.
  - change (Z.land __const_mask __const_mask =? 0) with false. change (Z.ldiff 0 __const_mask =? 0) with true.
    cbn [negb]. rewrite Hvb'. destruct b' as [ba bn bk]. cbn in Eb', Hb'. subst bk. cbn [__do_catch].
    rewrite (proj2 (Z.eqb_neq _ _)) by (by apply not_eq_sym). rewrite Ed'.
    change (Z.land 1 1 =? 0) with false. cbv iota. rewrite Z.ldiff_diag, Hvb. cbn [Z.eqb negb].
    destruct b as [xa xn []]; try done; cbn [__do_catch ti_addr] in *; by rewrite (proj2 (Z.eqb_neq _ _) Hbd).
Qed.
End Pointers.

(** ** Witnesses *)
Definition no_words : Words := {| word_at _ := None |}.

Definition ti_void : type_info := TypeInfo 1 101 Fundamental.
Definition ti_int : type_info := TypeInfo 2 102 Fundamental.
Definition ti_A : type_info := TypeInfo 3 103 Class_.
Definition ti_B : type_info := TypeInfo 4 104 Class_.

(** [struct D : public A, private B], with [B] at offset 8; and
    [struct V : virtual A], with the offset of [A] at -24 in its vtable. *)
Definition ti_D : type_info := TypeInfo 5 105 (VmiClass 0 [(ti_A, 2); (ti_B, 8 * 256)]).
Definition ti_V : type_info := TypeInfo 6 106 (VmiClass 0 [(ti_A, -24 * 256 + 3)]).

(** An object of type [V] at 1000: its vtable is at 5000, its [A] at 1016. *)
Definition v_words : Words := {|
  word_at p := match p with
    | 1000 | 1016 => Some 5000
    | 4976 => Some 16 | 4984 => Some (-16) | 4992 => Some 6
    | _ => None end |}.

Lemma subobject_class_inv {W : Words} a n p u q :
  subobject (TypeInfo a n Class_) p u q -> u = TypeInfo a n Class_ /\ q = p.
Proof. intros H. by inversion H; subst. Qed.

Lemma v_object_ok : @object_ok v_words ti_V 1000.
Proof.
  intros u q Hu. unfold ti_V in Hu. inversion Hu as [| |? ? ? ? b ofl ? p' ? ? Hin Hb Hs]; subst.
  { split; [done|]. constructor; [|done]. by exists 1016. }
  apply list_elem_of_singleton in Hin as [= -> ->]. by apply subobject_class_inv in Hs as [-> ->].
Qed.

Lemma d_object_ok p : @object_ok no_words ti_D p.
Proof.
  intros u q Hu. unfold ti_D in Hu. inversion Hu as [| |? ? ? ? b ofl ? p' ? ? Hin Hb Hs]; subst.
  { split; [done|]. repeat constructor; by eexists. }
  apply elem_of_cons in Hin as [[= -> ->]|[[= -> ->]|[]%elem_of_nil]%elem_of_cons];
    by apply subobject_class_inv in Hs as [-> ->].
Qed.

Lemma upcast_finds_subobject_witness :
  @__do_upcast v_words ti_V 3 1000 = Ok true 1016 /\ @__do_upcast v_words ti_V 4 1000 = Ok false 1000 /\
  exists u, @subobject v_words ti_V 1000 u 1016 /\ ti_addr u = 3.
Proof.
  split; [reflexivity|]. split; [reflexivity|].
  destruct (@upcast_finds_subobject v_words ti_V 3 1000 v_object_ok) as (b & q & E & _ & Ht & _).
  assert (b = true /\ q = 1016) as [-> ->] by (vm_compute in E; by injection E as <- <-).
  by apply Ht.
Defined.

(** From the [A] part of the object back to the whole. *)
Lemma dynamic_cast_finds_witness :
  exists r, @__dynamic_cast v_words (fun a => if a =? 6 then Some ti_V else None) 1016 3 6 (-1) tt = Ok r tt /\ r = 1000.
Proof.
  destruct (@dynamic_cast_finds v_words (fun a => if a =? 6 then Some ti_V else None) 1016 3 6 (-1) 5000 (-16) 6 ti_V
    eq_refl eq_refl eq_refl eq_refl v_object_ok) as (r & E & _).
  exists r. split; [exact E|]. vm_compute in E. by injection E as <-.
Defined.

Definition ti_ppA (cv1 cv2 : Z) : type_info := TypeInfo (20 + cv1 * 2 + cv2) 200 (Pointer cv1 (TypeInfo (30 + cv2) 201 (Pointer cv2 ti_int))).

Definition own_pp (t : type_info) : Prop :=
  t = ti_int \/ (exists cv, (cv = 0 \/ cv = 1) /\ t = TypeInfo (30 + cv) 201 (Pointer cv ti_int)) \/
  exists cv1 cv2, (cv1 = 0 \/ cv1 = 1) /\ (cv2 = 0 \/ cv2 = 1) /\ t = ti_ppA cv1 cv2.

Lemma own_pp_program : program ti_void own_pp.
Proof.
  constructor.
  - intros t u [->|[(c & [-> | ->] & ->)|(c1 & c2 & [-> | ->] & [-> | ->] & ->)]]
      [->|[(d & [-> | ->] & ->)|(d1 & d2 & [-> | ->] & [-> | ->] & ->)]]; by vm_compute.
  - intros t u cv x [->|[(c & [-> | ->] & ->)|(c1 & c2 & [-> | ->] & [-> | ->] & ->)]]
      [->|[(d & [-> | ->] & ->)|(d1 & d2 & [-> | ->] & [-> | ->] & ->)]];
      vm_compute; congruence.
  - intros t [->|[(c & [-> | ->] & ->)|(c1 & c2 & [-> | ->] & [-> | ->] & ->)]]; reflexivity.
  - intros t cv x [->|[(c & Hc & ->)|(c1 & c2 & Hc1 & Hc2 & ->)]]; cbn; [done| |]; intros [= <- <-].
    + by left.
    + right; left. by exists c2.
Qed.

(** [int **] is not caught as [const int **], and is as [const int *const *]. *)
Lemma catch_qualification_witness :
  @__do_catch no_words ti_void (ti_ppA 0 1) (ti_ppA 0 0) 1 0 = Ok false 0 /\
  @__do_catch no_words ti_void (ti_ppA 1 1) (ti_ppA 0 0) 1 0 = Ok true 0 /\
  qualification_conversion [0; 0] [1; 1].
Proof.
  split; [reflexivity|]. split; [reflexivity|].
  destruct (@catch_qualification no_words ti_void own_pp ti_int [1; 1] [0; 0] (ti_ppA 1 1) (ti_ppA 0 0) 0)
    as (b & E & Hb); [apply own_pp_program | | | | | done |].
  1,2: right; right; eexists _, _; split_and!; [..|done]; auto.
  1,2: unfold ti_ppA; cbn; by eexists _, _, _; split; [|eexists _, _, _].
  vm_compute in E. injection E as <-. by apply Hb.
Defined.

Lemma catch_too_wide_witness :
  @__do_catch no_words ti_void (TypeInfo 50 150 (PointerToMember 0 ti_int ti_A)) (TypeInfo 51 151 (Pointer 0 ti_int)) 1 7
  = Ok true 7 /\
  @__do_catch no_words ti_void (TypeInfo 50 150 (Pointer 1 (TypeInfo 60 160 (Pointer 0 ti_B))))
    (TypeInfo 51 151 (Pointer 0 (TypeInfo 61 161 (Pointer 0 ti_D)))) 1 7 = Ok true 15.
Proof.
  apply (@catch_too_wide no_words ti_void 50 150 0 ti_int ti_A 51 151 0 ti_B ti_D
    (TypeInfo 60 160 (Pointer 0 ti_B)) (TypeInfo 61 161 (Pointer 0 ti_D)) 7); done.
Defined.
