(* ===== verification/ExnTheorems.v ===== *)
(** * Exceptions are handled, counted and destroyed as the protocol says

    The functions of [Exception] refine [ExnSpec]; what follows for every
    sequence of calls of compiled code, by any number of threads; and what
    happens outside the protocol. *)
From S2P Require Import Prelude ExnState ExnHandlers ExnAlloc Exception ExnSpec ExnSpecLemmas ExnRefine ExnSim.

(** ** Calls as compiled code makes them *)
Definition in_unwinder (r : ending) : word :=
  match r with Unwinding e => e | Returned => NULL end.

Definition object_of (e : block) : word := Ptr e sizeof_cxa_exception.

Definition run {L : Linked} (c : call) : comp runtime word :=
  match c with
  | Allocate t n => __cxa_allocate_exception t n
  | Free t e => __cxa_free_exception t (object_of e);; mret NULL
  | Throw t e ti d => r ← __cxa_throw t (object_of e) ti d; mret (in_unwinder r)
  | RethrowPtr t p => r ← __cxa_rethrow_primary_exception t (object_of p); mret (in_unwinder r)
  | BeginCatch t e => __cxa_begin_catch t (Ptr e (offsetof unwindHeader))
  | EndCatch t => __cxa_end_catch t;; mret NULL
  | Rethrow t => r ← __cxa_rethrow t; mret (in_unwinder r)
  | CurrentPtr t => __cxa_current_primary_exception t
  | CopyPtr p => __cxa_increment_exception_refcount (object_of p);; mret NULL
  | DropPtr t p => __cxa_decrement_exception_refcount t (object_of p);; mret NULL
  | Uncaught t => n ← uncaught_exceptions t; mret (Int n)
  end.

Definition allocates (c : call) : bool :=
  match c with Allocate _ _ | RethrowPtr _ _ => true | _ => false end.

(** When the process starts, with these threads *)
Definition started (ts : list tid) : runtime := foldr (fun t => with_thread t new_thread) initial ts.
Definition spec_started (ts : list tid) : spec := foldr (fun t => set_stack t []) (Spec ∅ ∅ []) ts.

(** What a call may come to. *)
Definition as_specified (c : call) (σ : spec) (o : outcome runtime word) : Prop :=
  match o with
  | Ok r s' => answers c r σ /\ rel s' (next c r σ) /\ Inv (next c r σ)
  | Fail s' => allocates c = true /\ rel s' σ
  | Crash e => allocates c = true /\ e = Terminate
  | NoFuel => False
  end.

Section Refinement.
Context {L : Linked}.
Hypothesis pthreads : fakeTLS = false.
Hypothesis destructors_return : forall f, destructor_throws f = false.
Hypothesis unwinder_takes : forall again e s, unwind again e s = None.

Lemma ok_specified c σ {A} (m : comp runtime A) (f : A -> word) s (Q : A -> runtime -> Prop) :
  ok m s Q -> Inv σ -> legal c σ -> (forall a s', Q a s' -> answers c (f a) σ /\ rel s' (next c (f a) σ)) ->
  as_specified c σ ((m ≫= fun a => mret (f a)) s).
Proof.
  intros Hm HI Hl HQ. destruct (ok_run _ _ _ Hm) as (a & s' & E & Ha).
  rewrite (bind_Ok _ _ _ _ _ E). destruct (HQ _ _ Ha) as [H1 H2].
  split; [done|]. split; [done|]. by apply next_Inv.
Qed.

Lemma bind_ret_r {A} (m : comp runtime A) s : (m ≫= fun a => mret a) s = m s.
Proof. unfold mbind, comp_bind. by destruct (m s). Qed.

Lemma allocate_specified t n s σ : rel s σ -> Inv σ -> legal (Allocate t n) σ ->
  as_specified (Allocate t n) σ (run (Allocate t n) s).
Proof using pthreads destructors_return unwinder_takes.
  intros Hr HI [Ht Hn]. cbn [run]. unfold __cxa_allocate_exception.
  rewrite size_t_small by (unfold SIZE_MOD in *; change sizeof_cxa_exception with 128 in *; lia).
  pose proof (alloc_or_die_ok pthreads t (n + sizeof_cxa_exception) s σ Hr HI Ht) as Ha.
  destruct (alloc_or_die t _ s) as [b s'|s'|c|] eqn:E; [|by rewrite (bind_Fail _ _ _ _ E)
    |by rewrite (bind_Crash _ _ _ _ E)|done].
  rewrite (bind_Ok _ _ _ _ _ E). cbn. pose proof (proj1 (proj2 Ha)).
  split; [by exists b|]. split; [eapply new_raw; [exact Ha|done|lia]|by apply raw_Inv].
Qed.

Lemma rethrow_ptr_specified t p s σ : rel s σ -> Inv σ -> legal (RethrowPtr t p) σ ->
  as_specified (RethrowPtr t p) σ (run (RethrowPtr t p) s).
Proof using pthreads destructors_return unwinder_takes.
  intros Hr HI Hl. pose proof Hl as ([st Hst] & Hp & Hroom%Z.ltb_lt & Hf%Z.ltb_lt). cbn [run].
  destruct (has_handles_Some _ _ Hp) as (th & h & d & Hp'). rewrite (stack_of_Some _ _ _ Hst) in Hroom.
  pose proof (rethrow_primary_ok pthreads unwinder_takes t p st th h d s σ Hr HI Hst Hroom Hp' Hf) as Ha.
  change (object_of p) with (Ptr p sizeof_cxa_exception).
  destruct (__cxa_rethrow_primary_exception t _ s) as [r s'|s'|c|] eqn:E; [|by rewrite (bind_Fail _ _ _ _ E)
    |by rewrite (bind_Crash _ _ _ _ E)|done].
  rewrite (bind_Ok _ _ _ _ _ E). destruct Ha as (b & -> & Hnone & Hr').
  assert (answers (RethrowPtr t p) (Ptr b (offsetof unwindHeader)) σ) as Hans by by exists b.
  split; [done|]. split; [|by apply next_Inv]. cbn. by rewrite (stack_of_Some _ _ _ Hst).
Qed.

Lemma uncaught_ok t st s σ : rel s σ -> Inv σ -> stacks σ !! t = Some st ->
  ok (uncaught_exceptions t) s (fun n s' => n = zlength (flying st) /\ s' = s).
Proof using pthreads.
  intros Hr HI Hst. destruct (rel_threads _ _ _ _ Hr _ _ Hst) as (th & Hth & Hfor & Hunc & _).
  unfold uncaught_exceptions. apply ok_bind. eapply ok_thread_info; [done..|]. apply ok_bind.
  eapply ok_read_info; [done|]. rewrite Hunc. apply ok_ret. split; [|done].
  pose proof (flying_length st). pose proof (inv_room _ _ HI _ _ Hst). unfold INT_MAX in *.
  by rewrite (proj2 (Z.ltb_lt _ _)) by lia.
Qed.

Lemma call_specified c s σ : rel s σ -> Inv σ -> legal c σ -> as_specified c σ (run c s).
Proof using pthreads destructors_return unwinder_takes.
  intros Hr HI Hl. pose proof Hl as Hl'. destruct c as [t n|t e|t e ti d|t p|t e|t|t|t|p|t p|t]; cbn [legal] in Hl; cbn [run].
  - by apply allocate_specified.
  - apply (ok_specified _ _ _ (fun _ => NULL) s (fun _ s' => rel s' (note (Released e) (forget e σ)))); [|done..|done].
    by apply free_raw_ok; [..|apply Hl].
  - destruct Hl as ([st Hst] & He & Hroom%Z.ltb_lt & Hd). eapply ok_specified; [|done|done|].
    { eapply (throw_ok pthreads unwinder_takes t e ti d st); [done..|]. by rewrite (stack_of_Some _ _ _ Hst) in Hroom. }
    cbn. intros a s' (-> & Hr' & _). by rewrite (stack_of_Some _ _ _ Hst).
  - by apply rethrow_ptr_specified.
  - apply stack_head in Hl as [st Hst]. rewrite <- (bind_ret_r (__cxa_begin_catch t _)).
    eapply ok_specified; [by eapply (begin_catch_ok pthreads)|done|done|].
    cbn. intros a s' Hr'. by rewrite (stack_of_Some _ _ _ Hst).
  - destruct Hl as [[e st'] E]. unfold stack_of in E. destruct (stacks σ !! t) as [st|] eqn:Hst; [|done].
    eapply (ok_specified _ _ _ (fun _ => NULL)); [by eapply (end_catch_ok pthreads destructors_return)|done|done|].
    cbn. intros _ s' Hr'. rewrite (stack_of_Some _ _ _ Hst). cbn in E. by rewrite E.
  - destruct Hl as [Hroom%Z.ltb_lt Hc]. destruct (current (stack_of t σ)) as [e|] eqn:E; [|done].
    destruct (stack_of_current _ _ _ E) as (st & Hst & Ec). rewrite (stack_of_Some _ _ _ Hst) in *.
    eapply ok_specified; [by eapply (rethrow_ok pthreads unwinder_takes)|done|done|].
    cbn. intros a s' [-> Hr']. by rewrite (stack_of_Some _ _ _ Hst), Ec.
  - destruct Hl as [[st Hst] Hroom]. rewrite (stack_of_Some _ _ _ Hst) in Hroom.
    rewrite <- (bind_ret_r (__cxa_current_primary_exception t)).
    eapply ok_specified; [eapply (current_primary_ok pthreads); [done..|]|done|done|].
    + intros e Ec. by rewrite Ec in Hroom.
    + cbn. intros a s' Hr'. rewrite (stack_of_Some _ _ _ Hst). by destruct (current st).
  - destruct Hl as [Hp Hf%Z.ltb_lt]. destruct (has_handles_Some _ _ Hp) as (th & h & d & Hp').
    eapply (ok_specified _ _ _ (fun _ => NULL)); [by eapply increment_ok|done|done|].
    cbn. intros _ s' [Hr' _]. split; [done|]. by eapply rel_gain.
  - destruct Hl as [Ht Hp]. destruct (has_handles_Some _ _ Hp) as (th & h & d & Hp').
    eapply (ok_specified _ _ _ (fun _ => NULL)); [by eapply (decrement_ok destructors_return)|done|done|]. done.
  - destruct Hl as [st Hst].
    eapply (ok_specified _ _ _ Int s (fun n s' => n = zlength (flying st) /\ s' = s)); [by apply uncaught_ok with σ|done|done|].
    cbn. intros n s' [-> ->]. by rewrite (stack_of_Some _ _ _ Hst).
Qed.
End Refinement.

(** ** The start *)
Lemma initial_mem b : mem initial !! b = match b with
  | Emergency i => if (i <? EMERGENCY_BUFFERS)%nat then Some (zeroed EMERGENCY_SIZE) else None
  | _ => None
  end.
Proof.
  assert (forall b, b ∉ (list_to_set (C := gset block) (Emergency <$> seq 0 EMERGENCY_BUFFERS)) -> mem initial !! b = None) as Hout.
  { intros b' Hb. cbn [mem initial]. apply not_elem_of_list_to_map_1. intros Hin. apply Hb.
    rewrite elem_of_list_to_set. apply list_elem_of_fmap. apply list_elem_of_fmap in Hin as ([b0 c] & -> & Hin).
    apply list_elem_of_fmap in Hin as (i & [= -> ->] & Hi). by exists i. }
  assert (forall n, Emergency n ∉ (list_to_set (C := gset block) (Emergency <$> seq 0 EMERGENCY_BUFFERS)) <-> ~ (n < EMERGENCY_BUFFERS)%nat) as Hem.
  { intros n. rewrite elem_of_list_to_set, list_elem_of_fmap. setoid_rewrite elem_of_seq.
    split; [intros H Hn; apply H; exists n; split; [done|lia]|intros H (m & [= <-] & Hm); lia]. }
  destruct b as [n|i|n].
  - apply Hout. rewrite elem_of_list_to_set, list_elem_of_fmap. by intros (? & ? & _).
  - destruct (Nat.ltb_spec i EMERGENCY_BUFFERS) as [Hi|Hi]; [|apply Hout, Hem; lia].
    unfold EMERGENCY_BUFFERS in Hi. do 16 (destruct i as [|i]; [reflexivity|]). lia.
  - apply Hout. rewrite elem_of_list_to_set, list_elem_of_fmap. by intros (? & ? & _).
Qed.

Lemma initial_tidy : tidy initial.
Proof.
  split; try done.
  - intros n [c Hc]. by rewrite initial_mem in Hc.
  - intros i Hi. rewrite initial_mem. apply lookup_lt_Some in Hi. cbn [buffer_allocated initial] in Hi.
    rewrite length_replicate in Hi. by rewrite (proj2 (Nat.ltb_lt _ _)).
Qed.

Lemma initial_dead b : live_block b initial = None.
Proof.
  unfold live_block. rewrite initial_mem. destruct b; try done. cbn [buffer_allocated initial].
  destruct (replicate EMERGENCY_BUFFERS false !! i) as [x|] eqn:E; [|done].
  by apply lookup_replicate in E as [-> _].
Qed.

Lemma initial_rel : rel initial (Spec ∅ ∅ []).
Proof.
  split; cbn [stacks live log]; [done|done| |by intros b ?%not_elem_of_nil|done|apply initial_tidy].
  intros b c. by rewrite initial_dead.
Qed.

Lemma initial_Inv : Inv (Spec ∅ ∅ []).
Proof. by split. Qed.

Lemma rel_thread_start t s σ : rel s σ -> rel (with_thread t new_thread s) (set_stack t [] σ) \/ live σ <> ∅.
Proof.
  intros [Hth Hbl Hdom Hex Hlog []]. destruct (decide (live σ = ∅)) as [Hl|]; [left|by right]. split; try done.
  - intros t' st. cbn. rewrite lookup_insert_Some. intros [[<- <-]|[Hne H]].
    + exists new_thread. split; [apply lookup_insert_eq|done].
    + destruct (Hth _ _ H) as (th & ? & ?). exists th. split; [|done]. cbn. by rewrite lookup_insert_ne by congruence.
  - intros b k Hk. cbn in Hk. by rewrite Hl in Hk.
Qed.

Lemma started_rel ts : rel (started ts) (spec_started ts) /\ Inv (spec_started ts) /\
  live (spec_started ts) = ∅ /\ (forall t st, stacks (spec_started ts) !! t = Some st -> st = []).
Proof.
  induction ts as [|t ts (Hr & HI & Hl & Hs)]; cbn [started spec_started foldr].
  { split; [apply initial_rel|]. split; [apply initial_Inv|]. done. }
  fold (started ts) (spec_started ts). split_and!.
  - by destruct (rel_thread_start t _ _ Hr).
  - apply set_stack_Inv; [done..|]. intros e. unfold stack_of.
    destruct (stacks (spec_started ts) !! t) as [st|] eqn:E; [|done]. by rewrite (Hs _ _ E).
  - done.
  - intros t' st. cbn. rewrite lookup_insert_Some. intros [[_ <-]|[_ H]]; [done|]. by eapply Hs.
Qed.

(** ** Runs *)

(** The fields the functions of Exception rely on from one call to the next.
    Everything else, the object included, may be written by the program, the
    unwinder and the personality function; before the throw, only the
    object. *)
Definition relied_on (o : Z) : bool :=
  existsb (fun f => o =? offsetof f) [referenceCount; exceptionDestructor; nextException; handlerCount; unwindHeader].
Definition others_write (k : option kind) (o : Z) : bool :=
  match k with
  | None => false
  | Some Raw => sizeof_cxa_exception <=? o
  | Some _ => negb (relied_on o)
  end.

(** Calls made so far, latest first; a call that waits for an emergency
    buffer is made again. *)
Inductive reachable {L : Linked} (ts : list tid) : runtime -> spec -> list call -> Prop :=
  | at_start : reachable ts (started ts) (spec_started ts) []
  | returns s σ h c r s' :
      reachable ts s σ h -> legal c σ -> run c s = Ok r s' -> reachable ts s' (next c r σ) (c :: h)
  | waits s σ h c s' :
      reachable ts s σ h -> legal c σ -> run c s = Fail s' -> reachable ts s' σ h
  | scribbles s σ h b o w c :
      reachable ts s σ h -> live_block b s = Some c -> others_write (live σ !! b) o = true ->
      reachable ts (put b (write o w c) s) σ h.

(** Destructions and throws of [e] that have a destructor to run *)
Definition destroys (e : block) (v : event) : bool :=
  match v with Destroyed _ p => bool_decide (p = object_of e) | _ => false end.
Definition throws_object (e : block) (c : call) : bool :=
  match c with Throw _ e' _ (Fn _) => bool_decide (e' = e) | _ => false end.

Definition destructions (e : block) (l : list event) : nat := length (filter (fun v => destroys e v = true) l).
Definition throws (e : block) (h : list call) : nat := length (filter (fun c => throws_object e c = true) h).
Definition has_object (e : block) (σ : spec) : nat :=
  match live σ !! e with Some (Primary _ _ (Fn _)) => 1 | _ => 0 end.

(** No exception in flight or handled, no [exception_ptr] left, nothing
    allocated but not thrown *)
Definition quiet (σ : spec) : Prop :=
  (forall t st, stacks σ !! t = Some st -> st = []) /\
  (forall p, has_handles p σ = false) /\ (forall e, live σ !! e <> Some Raw).

Lemma quiet_nothing_live σ : Inv σ -> quiet σ -> forall e, live σ !! e = None.
Proof.
  intros HI (Hst & Hh & Hraw) e. destruct (live σ !! e) as [k|] eqn:He; [|done]. exfalso.
  assert (forall e k, live σ !! e = Some k -> thrower k = None) as Hnt.
  { intros e' k' He'. destruct (thrower k') as [t|] eqn:Ht; [|done].
    destruct (stack_of_elem _ _ _ (inv_thrown _ _ HI _ _ _ He' Ht)) as (st & Hs & Hin).
    rewrite (Hst _ _ Hs) in Hin. by apply not_elem_of_nil in Hin. }
  destruct k as [|th h d|t p]; [by destruct (Hraw e)| |by pose proof (Hnt _ _ He)].
  pose proof (Hnt _ _ He) as Ht. cbn in Ht. subst th.
  destruct (inv_owned _ _ HI _ _ _ _ He) as [Ho _]. specialize (Ho ltac:(done)).
  rewrite (owners_primary _ _ _ _ _ He) in Ho.
  assert (h = 0%nat) as -> by (specialize (Hh e); unfold has_handles in Hh; rewrite He in Hh; by destruct h).
  cbn in Ho. unfold dependents in Ho. assert (filter (fun x => depends e (snd x)) (live σ) = ∅) as Hnone.
  { apply map_empty. intros x. apply map_lookup_filter_None. right. intros k Hk Hd.
    destruct k as [| |t p]; try done. by pose proof (Hnt _ _ Hk). }
  rewrite Hnone, map_size_empty in Ho. lia.
Qed.

(** Balance of destructions and objects *)
Lemma destructions_cons e v l : destructions e (v :: l) = ((if destroys e v then 1 else 0) + destructions e l)%nat.
Proof. unfold destructions. rewrite filter_cons. by destruct (destroys e v). Qed.

Lemma destructions_app e l1 l2 : destructions e (l1 ++ l2) = (destructions e l1 + destructions e l2)%nat.
Proof. unfold destructions. by rewrite filter_app, length_app. Qed.

Lemma throws_cons e c h : throws e (c :: h) = ((if throws_object e c then 1 else 0) + throws e h)%nat.
Proof. unfold throws. rewrite filter_cons. by destruct (throws_object e c). Qed.

Definition balance (e : block) (σ : spec) : nat := (destructions e (log σ) + has_object e σ)%nat.

Lemma destructions_event e d p :
  destructions e (destroy_event d p) = (if decide (p = e) then match d with Fn _ => 1 | _ => 0 end else 0)%nat.
Proof.
  destruct d as [| |f]; cbn [destroy_event]; [by case_decide|by case_decide|].
  rewrite destructions_cons. cbn. destruct (decide (p = e)) as [->|Hne]; [by rewrite bool_decide_true|].
  rewrite bool_decide_false; [done|]. unfold object_of. congruence.
Qed.

Lemma balance_collect e p σ : balance e (collect p σ) = balance e σ.
Proof.
  unfold collect. destruct (live σ !! p) as [[|th h d|]|] eqn:Hp; try done. case_match; [|done].
  unfold balance, has_object. cbn [log live]. rewrite destructions_cons, destructions_app, destructions_event. cbn.
  destruct (decide (p = e)) as [->|Hne].
  - rewrite lookup_delete_eq, Hp. destruct d; lia.
  - by rewrite lookup_delete_ne.
Qed.

Lemma balance_kind e p th h th' h' d σ :
  live σ !! p = Some (Primary th h d) -> balance e (set_kind p (Primary th' h' d) σ) = balance e σ.
Proof.
  intros Hp. unfold balance, has_object. cbn. destruct (decide (p = e)) as [->|Hne].
  - by rewrite lookup_insert_eq, Hp.
  - by rewrite lookup_insert_ne.
Qed.

Lemma balance_note e b σ : balance e (note (Released b) σ) = balance e σ.
Proof. unfold balance, note, has_object. cbn [log live]. by rewrite destructions_cons. Qed.

(** Forgetting or adding something that has no object *)
Lemma balance_forget e b σ :
  (forall th h d, live σ !! b <> Some (Primary th h d)) -> balance e (forget b σ) = balance e σ.
Proof.
  intros Hb. unfold balance, has_object. cbn [log live set_kind forget]. destruct (decide (b = e)) as [->|Hne].
  - rewrite lookup_delete_eq. destruct (live σ !! e) as [[|th h d|]|]; try done. by destruct (Hb th h d).
  - by rewrite lookup_delete_ne.
Qed.

Lemma balance_new e b k σ :
  (forall th h d, live σ !! b <> Some (Primary th h d)) ->
  balance e (set_kind b k σ)
  = (balance e σ + match k with Primary _ _ (Fn _) => if decide (b = e) then 1 else 0 | _ => 0 end)%nat.
Proof.
  intros Hb. unfold balance, has_object. cbn [log live set_kind forget]. destruct (decide (b = e)) as [->|Hne].
  - rewrite lookup_insert_eq.
    assert (match live σ !! e with Some (Primary _ _ (Fn _)) => 1 | _ => 0 end = 0)%nat as ->.
    { destruct (live σ !! e) as [[|th h d|]|]; try done. by destruct (Hb th h d). }
    destruct k as [|? ? []|]; rewrite ?decide_True by done; lia.
  - rewrite lookup_insert_ne by done. destruct k as [|? ? []|]; rewrite ?decide_False by done; lia.
Qed.

Lemma balance_let_go e b σ : balance e (let_go b σ) = balance e σ.
Proof.
  unfold let_go. destruct (live σ !! b) as [[|th h d|t p]|] eqn:Hb; try done.
  - rewrite balance_collect. by eapply balance_kind.
  - rewrite balance_note, balance_collect. apply balance_forget. congruence.
Qed.

Lemma balance_next e c r σ :
  legal c σ -> answers c r σ -> balance e (next c r σ) = (balance e σ + if throws_object e c then 1 else 0)%nat.
Proof.
  intros Hl Ha. rewrite (Nat.add_comm (balance e σ)).
  destruct c as [t n|t b|t b ti d|t p|t b|t|t|t|p|t p|t]; cbn [legal answers next throws_object] in *.
  - destruct Ha as (b & -> & Hb). rewrite balance_new by (intros; congruence). lia.
  - rewrite balance_note. apply balance_forget. intros. destruct Hl as [_ Hl]. congruence.
  - destruct Hl as (_ & Hb & _). change (balance e (set_stack ?t ?st ?σ')) with (balance e σ').
    rewrite balance_new by (intros; congruence). destruct d; try lia.
    rewrite (bool_decide_decide (b = e)). case_decide; lia.
  - destruct Ha as (b & -> & Hb). change (balance e (set_stack ?t ?st ?σ')) with (balance e σ').
    rewrite balance_new by (intros; congruence). lia.
  - done.
  - destruct (end_handler (stack_of t σ)) as [[b st]|]; [|done]. case_decide; [done|].
    rewrite balance_let_go. done.
  - by destruct (current (stack_of t σ)).
  - destruct (current (stack_of t σ)) as [b|]; [|done]. unfold add_handle.
    destruct (live σ !! primary_of (live σ) b) as [[|th h d|]|] eqn:Hp; try done. by eapply balance_kind.
  - unfold add_handle. destruct (live σ !! p) as [[|th h d|]|] eqn:Hp; try done. by eapply balance_kind.
  - unfold drop_handle. destruct (live σ !! p) as [[|th h d|]|] eqn:Hp; try done.
    rewrite balance_collect. by eapply balance_kind.
  - done.
Qed.

(** ** The theorems *)
Section Theorems.
Context {L : Linked}.
Hypothesis pthreads : fakeTLS = false.
Hypothesis destructors_return : forall f, destructor_throws f = false.
Hypothesis unwinder_takes : forall again e s, unwind again e s = None.

Lemma relied_on_ne f o : relied_on o = false ->
  f ∈ [referenceCount; exceptionDestructor; nextException; handlerCount; unwindHeader] -> offsetof f <> o.
Proof.
  intros H Hf E. assert (relied_on o = true) as E'; [|congruence]. apply existsb_exists. exists f.
  split; [by apply list_elem_of_In|by apply Z.eqb_eq].
Qed.

Lemma scribble_rel b o w c s σ :
  rel s σ -> live_block b s = Some c -> others_write (live σ !! b) o = true -> rel (put b (write o w c) s) σ.
Proof.
  intros Hr Hc Ho. destruct (live σ !! b) as [k|] eqn:Hk; [|done].
  destruct (rel_blocks _ _ _ _ Hr _ _ Hk) as (c' & Hc' & Hf & Hd).
  assert (c' = c) as -> by congruence.
  assert (forall f, f ∈ [referenceCount; exceptionDestructor; nextException; handlerCount; unwindHeader] ->
    words (write o w c) (offsetof f) = words c (offsetof f)) as Hsame.
  { intros f Hfe. cbn [words write]. rewrite (proj2 (Z.eqb_neq _ _)); [done|]. destruct k as [|th h d|t p].
    - apply Z.leb_le in Ho. change sizeof_cxa_exception with 128 in Ho. destruct f; cbn; lia.
    - apply negb_true_iff in Ho. by apply relied_on_ne.
    - apply negb_true_iff in Ho. by apply relied_on_ne. }
  eapply (rel_block [] None None b c _ s σ σ k); try done.
  - apply Hsame. by repeat first [by left|right].
  - by apply not_elem_of_nil.
  - split; [done|]. destruct k as [|th h d|t p].
    + intros o' Ho'. cbn [words write]. apply Z.leb_le in Ho. rewrite (proj2 (Z.eqb_neq _ _)) by lia. by apply Hd.
    + rewrite !Hsame by (by repeat first [by left|right]). done.
    + change primaryException with referenceCount in *. rewrite !Hsame by (by repeat first [by left|right]). done.
Qed.

Lemma reachable_rel ts s σ h :
  reachable ts s σ h -> rel s σ /\ Inv σ /\ forall e, (balance e σ = throws e h)%nat.
Proof using pthreads destructors_return unwinder_takes.
  induction 1 as [|s σ h c r s' _ (Hr & HI & Hb) Hl E|s σ h c s' _ (Hr & HI & Hb) Hl E|s σ h b o w c _ (Hr & HI & Hb) Hc Ho].
  - destruct (started_rel ts) as (? & ? & Hlive & _). split_and!; [done..|].
    assert (log (spec_started ts) = []) as Hlog by (clear; by induction ts).
    intros e. unfold balance, has_object. by rewrite Hlive, lookup_empty, Hlog.
  - pose proof (call_specified pthreads destructors_return unwinder_takes c s σ Hr HI Hl) as Hc.
    rewrite E in Hc. destruct Hc as (Ha & Hr' & HI'). split_and!; [done..|].
    intros e. rewrite balance_next, throws_cons, Hb by done. lia.
  - pose proof (call_specified pthreads destructors_return unwinder_takes c s σ Hr HI Hl) as Hc.
    rewrite E in Hc. by destruct Hc.
  - split_and!; [by apply scribble_rel|done..].
Qed.

(** C1. Refinement: after any sequence of calls that compiled code makes,
    by any threads in any interleaving, with anything written to the objects
    and to the unwinder's fields in between, the next call does in the
    runtime's memory what the protocol says: the list of caught exceptions, the handler
    counts with their sign, the number of uncaught exceptions, the reference
    counts and the blocks of memory are those of the protocol's new state, and
    the answer is the one it promises.  It reads and writes nothing that was
    freed and fails no assertion; only a call that allocates may wait for an
    emergency buffer, or terminate the program for lack of memory. *)
Theorem calls_refine_protocol ts s σ h c :
  reachable ts s σ h -> legal c σ -> as_specified c σ (run c s).
Proof using pthreads destructors_return unwinder_takes.
  intros Hr Hl. destruct (reachable_rel _ _ _ _ Hr) as (? & ? & _).
  by apply call_specified.
Qed.

(** C5. Every thrown object is destroyed exactly once: the destructor
    calls of an object and the objects still alive make up its throws, at any
    point of any run. *)
Theorem objects_destroyed_once ts s σ h e :
  reachable ts s σ h -> (destructions e (trace s) + has_object e σ = throws e h)%nat.
Proof using pthreads destructors_return unwinder_takes.
  intros Hr. destruct (reachable_rel _ _ _ _ Hr) as (Hrel & _ & Hb).
  rewrite (rel_log _ _ _ _ Hrel). apply Hb.
Qed.

(** C15. Nothing leaks: when no exception is in flight or handled and no
    [exception_ptr] is left, all the memory of exceptions, emergency buffers
    included, is free again, and every object thrown has been destroyed. *)
Theorem exceptions_freed ts s σ h :
  reachable ts s σ h -> quiet σ ->
  (forall b, live_block b s = None) /\ (forall e, destructions e (trace s) = throws e h).
Proof using pthreads destructors_return unwinder_takes.
  intros Hr Hq. destruct (reachable_rel _ _ _ _ Hr) as (Hrel & HI & Hb).
  pose proof (quiet_nothing_live _ HI Hq) as Hnone. split.
  - intros b. destruct (live_block b s) as [c|] eqn:E; [|done].
    destruct (rel_dom _ _ _ _ Hrel _ _ E) as [[k Hk]|?%not_elem_of_nil]; [|done]. by rewrite Hnone in Hk.
  - intros e. rewrite (rel_log _ _ _ _ Hrel), <- Hb. unfold balance, has_object. rewrite Hnone. lia.
Qed.

(** Throwing the current exception again with [throw;] while it is
    already in flight again stops the process: a destructor that runs while
    the exception leaves its handler, and that itself uses [throw;] inside a
    try block, is not supported. *)
Theorem rethrow_in_flight_aborts ts s σ h t st e :
  reachable ts s σ h -> stacks σ !! t = Some st -> current st = Some e -> Flying e ∈ st ->
  run (Rethrow t) s = Crash AssertFail.
Proof using pthreads destructors_return unwinder_takes.
  intros Hre Hst Hcur Hf. destruct (reachable_rel _ _ _ _ Hre) as (Hr & HI & _).
  pose proof (current_ids _ _ Hcur) as He.
  destruct (rel_thrown _ _ _ _ _ _ _ _ Hr HI Hst He) as (k & c & cls & Hk & Ht & Hc & Hd & Hfit & _ & _ & Hn).
  destruct (rel_threads _ _ _ _ Hr _ _ Hst) as (th & Hth & Hforeign & Hunc & Hchain).
  pose proof (chain_head _ _ _ (inv_wf _ _ HI _ _ Hst) Hchain) as Hhead. rewrite Hcur in Hhead.
  pose proof (activations_pos _ _ (current_elem _ _ Hcur)) as Hpos.
  assert (handler_count e st < 0) as Hneg by (unfold handler_count; rewrite decide_True by done; lia).
  cbn [run]. apply bind_Crash. unfold __cxa_rethrow.
  assert (thread_info t s = Ok (Some (Some t)) s) as E1 by (unfold thread_info; by rewrite pthreads, Hth).
  rewrite (bind_Ok _ _ _ _ _ E1). assert (read_info (Some (Some t)) s = Ok th s) as E2 by (cbn; by rewrite Hth).
  rewrite (bind_Ok _ _ _ _ _ E2), Hhead, Hforeign. cbv zeta. rewrite decide_False by done.
  assert (get_int (Ptr e 0) handlerCount s = Ok (handler_count e st) s) as E3.
  { destruct (ok_run (get_int (Ptr e 0) handlerCount) s (fun n s' => n = handler_count e st /\ s' = s))
      as (? & ? & -> & -> & ->); [|done]. by eapply ok_get_int. }
  rewrite (bind_Ok _ _ _ _ _ E3). apply bind_Crash. unfold assert_.
  by rewrite (proj2 (Z.ltb_ge _ _)) by lia.
Qed.
End Theorems.

(** ** The theorems at concrete inputs *)

(** A program with enough memory *)
Definition plain_linked : Linked := {|
  calloc_ok _ _ := true;
  fakeTLS := false;
  destructor_throws _ := false;
  unwind _ _ _ := None;
  user_unexpected _ _ := mret true;
|}.

(** Making calls in a row, in the runtime and in the protocol, as long as they
    are legal and return *)
Fixpoint make {L : Linked} (cs : list call) (s : runtime) (σ : spec) (h : list call) : option (runtime * spec * list call) :=
  match cs with
  | [] => Some (s, σ, h)
  | c :: cs =>
      if decide (legal c σ) then
        match run c s with
        | Ok r s' => make cs s' (next c r σ) (c :: h)
        | _ => None
        end
      else None
  end.

Definition calls_of {L : Linked} (ts : list tid) (cs : list call) : option (runtime * spec * list call) :=
  make cs (started ts) (spec_started ts) [].

Lemma calls_reachable {L : Linked} ts cs s σ h : calls_of ts cs = Some (s, σ, h) -> reachable ts s σ h.
Proof.
  unfold calls_of. generalize (at_start ts). generalize (started ts) (spec_started ts) (@nil call).
  induction cs as [|c cs IH]; intros s0 σ0 h0 Hr; cbn [make]; [by intros [= <- <- <-]|].
  destruct (decide (legal c σ0)) as [Hl|]; [|done]. destruct (run c s0) as [r s1| | |] eqn:E; try done.
  apply IH. by eapply returns.
Qed.

(** An exception is thrown by thread 0, caught, kept in an [exception_ptr],
    rethrown out of its handler and caught again; thread 1 throws the
    [exception_ptr]; the last owner is the handler of thread 1. *)
Definition example_calls : list call :=
  [Allocate 0 8; Throw 0 (Heap 0) (Int 7) (Fn (User 0)); BeginCatch 0 (Heap 0); CurrentPtr 0; Rethrow 0;
   EndCatch 0; BeginCatch 0 (Heap 0); EndCatch 0; RethrowPtr 1 (Heap 0); DropPtr 0 (Heap 0);
   BeginCatch 1 (Heap 1); Uncaught 1; EndCatch 1].

Example example_runs :
  (fun x => (x.1.2.(live), x.1.1.(trace))) <$> @calls_of plain_linked [0; 1]%nat example_calls
  = Some (∅, [Released (Heap 1); Released (Heap 0); Destroyed (User 0) (Ptr (Heap 0) 128)]).
Proof. vm_compute. reflexivity. Qed.

Definition after {L : Linked} (ts : list tid) (cs : list call) : runtime * spec * list call :=
  default (initial, Spec ∅ ∅ [], []) (calls_of ts cs).

Lemma after_reachable {L : Linked} ts cs :
  is_Some (calls_of ts cs) -> reachable ts (after ts cs).1.1 (after ts cs).1.2 (after ts cs).2.
Proof.
  intros [[[s σ] h] E]. unfold after. rewrite E. by eapply calls_reachable.
Qed.

(** The example, stopped while the exception leaves its handler *)
Lemma calls_refine_protocol_witness :
  let x := @after plain_linked [0; 1]%nat (take 5 example_calls) in
  legal (EndCatch 0) x.1.2 /\ as_specified (EndCatch 0) x.1.2 (@run plain_linked (EndCatch 0) x.1.1).
Proof.
  intros x. assert (legal (EndCatch 0) x.1.2) as Hl by (apply (bool_decide_unpack _); vm_compute; exact Logic.I).
  split; [exact Hl|].
  apply (@calls_refine_protocol plain_linked eq_refl (fun _ => eq_refl) (fun _ _ _ => eq_refl) [0; 1]%nat x.1.1 x.1.2 x.2);
    [|exact Hl].
  apply (@after_reachable plain_linked). vm_compute. by eexists.
Defined.

Lemma objects_destroyed_once_witness :
  let x := @after plain_linked [0; 1]%nat example_calls in
  (destructions (Heap 0) (trace x.1.1) + has_object (Heap 0) x.1.2 = throws (Heap 0) x.2)%nat /\
  throws (Heap 0) x.2 = 1%nat.
Proof.
  intros x. split; [|by vm_compute].
  apply (@objects_destroyed_once plain_linked eq_refl (fun _ => eq_refl) (fun _ _ _ => eq_refl) [0; 1]%nat x.1.1 x.1.2 x.2).
  apply (@after_reachable plain_linked). vm_compute. by eexists.
Defined.

Lemma example_quiet : quiet (@after plain_linked [0; 1]%nat example_calls).1.2.
Proof.
  assert ((@after plain_linked [0; 1]%nat example_calls).1.2.(live) = ∅) as Hl by (by vm_compute).
  split; [|split].
  - intros t st. assert ((@after plain_linked [0; 1]%nat example_calls).1.2.(stacks) = {[ 0%nat := []; 1%nat := [] ]}) as ->
      by (by vm_compute).
    rewrite lookup_insert_Some, lookup_singleton_Some. intros [[_ <-]|[_ [_ <-]]]; done.
  - intros p. unfold has_handles. by rewrite Hl, lookup_empty.
  - intros e. by rewrite Hl, lookup_empty.
Qed.

Lemma exceptions_freed_witness :
  let x := @after plain_linked [0; 1]%nat example_calls in
  (forall b, live_block b x.1.1 = None) /\ (forall e, destructions e (trace x.1.1) = throws e x.2).
Proof.
  intros x.
  apply (@exceptions_freed plain_linked eq_refl (fun _ => eq_refl) (fun _ _ _ => eq_refl) [0; 1]%nat x.1.1 x.1.2 x.2).
  - apply (@after_reachable plain_linked). vm_compute. by eexists.
  - apply example_quiet.
Defined.

(** While the exception is in flight again, a destructor uses [throw;]. *)
Lemma rethrow_in_flight_aborts_witness :
  @run plain_linked (Rethrow 0) (@after plain_linked [0; 1]%nat (take 5 example_calls)).1.1 = Crash AssertFail.
Proof.
  set (x := @after plain_linked [0; 1]%nat (take 5 example_calls)).
  apply (@rethrow_in_flight_aborts plain_linked eq_refl (fun _ => eq_refl) (fun _ _ _ => eq_refl)
    [0; 1]%nat x.1.1 x.1.2 x.2 0%nat [Flying (Heap 0); Handling (Heap 0)] (Heap 0)).
  - apply (@after_reachable plain_linked). vm_compute. by eexists.
  - by vm_compute.
  - done.
  - left.
Defined.
