(* ===== verification/ExnEdges.v ===== *)
(** * At the edges of the protocol

    Handlers of [terminate], exceptions of other languages, and runs in which
    the runtime does not do what it means to. *)
From S2P Require Import Prelude ExnState ExnHandlers ExnAlloc Exception ExnSpec ExnSpecLemmas ExnRefine ExnSim ExnTheorems.

Section Edges.
Context {L : Linked}.
Hypothesis pthreads : fakeTLS = false.

(** ** Terminate and unexpected handlers *)

(** [set_terminate] and [set_unexpected] answer the handler that
    [get_terminate] and [get_unexpected] gave before, and install the new
    one, in a thread without handlers of its own. *)
Theorem set_get_handlers t th s h :
  infos s !! Some t = Some th -> terminateHandler th = NULL -> unexpectedHandler th = NULL ->
  thread_local_handlers s = false ->
  (exists s', std_set_terminate t h s = Ok (g_terminate s) s' /\
     get_terminate t s = Ok (g_terminate s) s /\ get_terminate t s' = Ok h s' /\
     get_unexpected t s' = get_unexpected t (set_g_terminate h s)) /\
  (exists s', std_set_unexpected t h s = Ok (g_unexpected s) s' /\
     get_unexpected t s = Ok (g_unexpected s) s /\ get_unexpected t s' = Ok h s').
Proof using pthreads.
  intros Hi Ht Hu Hl. unfold std_set_terminate, std_set_unexpected, get_terminate, get_unexpected, thread_info, mbind, comp_bind, gets.
  rewrite Hl, pthreads. unfold modify, mret, comp_ret. split; eexists; (split; [done|]); cbn.
  - rewrite Hi. cbn. rewrite Hi, Ht. done.
  - rewrite Hi. cbn. rewrite Hi, Hu. done.
Qed.

(** The thread-local handlers of the [pathscale] extension are not:
    [set_terminate] keeps the information of the thread that called it first
    in a static variable, and a second thread replaces the first one's
    handler instead of its own. *)
Theorem second_thread_sets_first_handler t1 t2 th1 th2 s f1 f2 :
  t1 <> t2 -> infos s !! Some t1 = Some th1 -> infos s !! Some t2 = Some th2 ->
  statics s In_set_terminate = None ->
  exists s1 s2,
    pathscale_set_terminate t1 f1 s = Ok (terminateHandler th1) s1 /\
    pathscale_set_terminate t2 f2 s1 = Ok f1 s2 /\
    infos s2 !! Some t1 = Some (set_terminateHandler f2 th1) /\
    infos s2 !! Some t2 = Some th2.
Proof using pthreads.
  intros Hne H1 H2 Hs.
  unfold pathscale_set_terminate, static_info, update_info, read_info, mbind, comp_bind, modify, mret, comp_ret.
  rewrite Hs. unfold thread_info. rewrite pthreads. repeat (rewrite H1; cbn).
  eexists _, _. split; [done|]. cbn. rewrite decide_True by done. cbn [infos set_infos]. repeat (rewrite lookup_insert_eq; cbn).
  split; [done|]. cbn. rewrite lookup_insert_eq, !lookup_insert_ne by congruence. done.
Qed.

(** ** Exceptions of other languages *)

(** A foreign exception: a header that is not C++'s, with the cleanup [f] *)
Definition foreign (e : block) (f : word) (s : runtime) : Prop :=
  exists c cls, live_block e s = Some c /\ sizeof_Unwind_Exception <= block_size c /\
    words c exception_class_ = Int cls /\ isCXXException cls = false /\
    words c exception_cleanup_ = f.

Lemma foreign_class e f s Q :
  foreign e f s -> (forall cls, isCXXException cls = false -> Q cls s) -> ok (class_of (Ptr e 0)) s Q.
Proof.
  intros (c & cls & Hc & Hs & Hcls & Hx & Hf) HQ. apply ok_bind.
  change (shift (Ptr e 0) exception_class_) with (Ptr e exception_class_).
  eapply ok_load; [done| |rewrite Hcls; by apply HQ].
  unfold sizeof_Unwind_Exception, exception_class_ in *. lia.
Qed.

Lemma foreign_begin t e f th s Q :
  foreign e f s -> infos s !! Some t = Some th -> caughtExceptions th = NULL ->
  Q (Ptr e sizeof_Unwind_Exception) (with_thread t (set_foreign caught (set_caught (Ptr e 0) th))
      (with_thread t (set_caught (Ptr e 0) th) s)) ->
  ok (__cxa_begin_catch t (Ptr e 0)) s Q.
Proof using pthreads.
  intros He Hi Hc HQ. unfold __cxa_begin_catch. apply ok_bind. eapply ok_thread_info; [done..|].
  apply ok_bind. eapply foreign_class; [done|]. intros cls ->. apply ok_bind. eapply ok_read_info; [done|].
  rewrite decide_True by done. apply ok_bind. eapply ok_update_info; [done|].
  apply ok_bind. eapply ok_update_info; [apply lookup_insert_eq|]. apply ok_ret. exact HQ.
Qed.

Lemma foreign_end t e n th s Q :
  foreign e (Fn (User n)) s -> infos s !! Some t = Some th -> caughtExceptions th = Ptr e 0 ->
  foreign_exception_state th <> none ->
  (forall s', infos s' !! Some t = Some (set_foreign none (set_caught NULL th)) ->
     trace s' = (match foreign_exception_state th with
       | rethrown => trace s
       | _ => Foreign_cleanup (User n) (Ptr e 0) :: trace s
       end) -> Q tt s') ->
  ok (__cxa_end_catch t) s Q.
Proof using pthreads.
  intros (c & cls & Hc & Hs & Hcls & Hx & Hf) Hi Hcaught Hst HQ. unfold __cxa_end_catch.
  apply ok_bind. eapply ok_thread_info_fast; [done..|]. apply ok_bind. eapply ok_read_info; [done|].
  rewrite Hcaught. cbv zeta. apply ok_bind, ok_assert; [done|].
  destruct (foreign_exception_state th) eqn:E; [done|..]; apply ok_bind.
  - unfold call_cleanup. apply ok_bind. eapply ok_load; [done| |].
    { unfold sizeof_Unwind_Exception, exception_cleanup_ in *. lia. }
    change (0 + exception_cleanup_) with exception_cleanup_. rewrite Hf, decide_False by done.
    apply ok_modify. apply ok_bind. eapply ok_update_info; [done|].
    eapply ok_update_info; [apply lookup_insert_eq|]. apply HQ; [apply lookup_insert_eq|done].
  - apply ok_ret. apply ok_bind. eapply ok_update_info; [done|].
    eapply ok_update_info; [apply lookup_insert_eq|]. apply HQ; [apply lookup_insert_eq|done].
Qed.

Hypothesis unwinder_takes : forall again e s, unwind again e s = None.

(** C31. A foreign exception in [catch (...)]: its handler gets the
    address behind the header, and leaving the handler asks the foreign
    runtime to clean up, once; rethrown out of the handler, it is left to
    whoever catches it next.  The thread is then as it was. *)
Theorem foreign_exception_handled t e n th s :
  foreign e (Fn (User n)) s -> infos s !! Some t = Some th -> caughtExceptions th = NULL ->
  ok (p ← __cxa_begin_catch t (Ptr e 0); __cxa_end_catch t;; mret p) s (fun p s' =>
    p = Ptr e sizeof_Unwind_Exception /\ trace s' = Foreign_cleanup (User n) (Ptr e 0) :: trace s /\
    infos s' !! Some t = Some (set_foreign none th)) /\
  ok (__cxa_begin_catch t (Ptr e 0);; r ← __cxa_rethrow t; __cxa_end_catch t;; mret r) s (fun r s' =>
    r = Unwinding (Ptr e 0) /\ trace s' = trace s /\ infos s' !! Some t = Some (set_foreign none th)).
Proof using pthreads unwinder_takes.
  intros He Hi Hc.
  assert (set_foreign none (set_caught NULL (set_foreign caught (set_caught (Ptr e 0) th))) = set_foreign none th) as Hback.
  { destruct th. cbn in *. by subst. }
  split; apply ok_bind; (eapply foreign_begin; [done..|]).
  - apply ok_bind. eapply foreign_end; [exact He|apply lookup_insert_eq|done|done|].
    intros s' Hi' Ht. apply ok_ret. split; [done|]. split; [by rewrite Ht|by rewrite Hi', Hback].
  - apply ok_bind. unfold __cxa_rethrow. apply ok_bind. eapply ok_thread_info; [done|apply lookup_insert_eq|].
    apply ok_bind. eapply ok_read_info; [apply lookup_insert_eq|]. cbn [caughtExceptions set_foreign set_caught].
    cbv zeta. rewrite decide_False by done. cbn [foreign_exception_state].
    apply ok_bind. eapply ok_update_info; [apply lookup_insert_eq|].
    unfold enter_unwinder. apply ok_bind, ok_gets. rewrite unwinder_takes. apply ok_ret.
    apply ok_bind. eapply foreign_end; [exact He|apply lookup_insert_eq|done|done|].
    intros s' Hi' Ht. apply ok_ret. split; [done|]. split; [by rewrite Ht|by rewrite Hi', <- Hback].
Qed.

(** A second foreign exception cannot be handled inside the handler of a first. *)
Lemma foreign_nested_terminates t e f th s :
  foreign e f s -> infos s !! Some t = Some th -> caughtExceptions th <> NULL -> tidy s ->
  __cxa_begin_catch t (Ptr e 0) s = Crash Terminate.
Proof using pthreads.
  intros He Hi Hc Ht. unfold __cxa_begin_catch.
  assert (thread_info t s = Ok (Some (Some t)) s) as E1 by (unfold thread_info; by rewrite pthreads, Hi).
  rewrite (bind_Ok _ _ _ _ _ E1).
  destruct (ok_run (class_of (Ptr e 0)) s (fun cls s' => isCXXException cls = false /\ s' = s)) as (cls & ? & E2 & Hx & ->).
  { by eapply foreign_class. }
  rewrite (bind_Ok _ _ _ _ _ E2), Hx.
  assert (read_info (Some (Some t)) s = Ok th s) as E3 by (cbn; by rewrite Hi).
  rewrite (bind_Ok _ _ _ _ _ E3), decide_False by done. by eapply terminate_stops.
Qed.
End Edges.

(** ** Runs that go wrong *)

(** A foreign exception, as small as they come *)
Definition alien : contents := write exception_cleanup_ (Fn (User 9)) (write exception_class_ (Int 1) (zeroed 32)).
Definition with_alien (s : runtime) : runtime := put (Alien 0) alien s.

(** A C++ exception thrown and caught inside the handler of a foreign
    exception makes the runtime forget that the outer exception is foreign:
    when the outer handler ends, the foreign header is taken for a C++ one,
    and a counter behind its end is changed. *)
Theorem cxx_inside_foreign_corrupts :
  (@__cxa_begin_catch plain_linked 0 (Ptr (Alien 0) 0);;
   p ← @__cxa_allocate_exception plain_linked 0 8;
   @__cxa_throw plain_linked 0 p (Int 7) NULL;;
   @__cxa_begin_catch plain_linked 0 (shift p (- sizeof_Unwind_Exception));;
   @__cxa_end_catch plain_linked 0;;
   @__cxa_end_catch plain_linked 0) (with_alien (started [0%nat])) = Crash OutOfBounds.
Proof. vm_compute. reflexivity. Qed.

(** An exception thrown again from an [exception_ptr] has a type,
    for [__cxa_current_exception_type], read from the wrong place of the
    original: an object of type 7 comes back without one. *)
Theorem rethrown_pointer_loses_type :
  exists s, (p ← @__cxa_allocate_exception plain_linked 0 8;
   @__cxa_throw plain_linked 0 p (Int 7) NULL;;
   @__cxa_begin_catch plain_linked 0 (shift p (- sizeof_Unwind_Exception));;
   before ← @__cxa_current_exception_type plain_linked 0;
   q ← @__cxa_current_primary_exception plain_linked 0;
   @__cxa_end_catch plain_linked 0;;
   r ← @__cxa_rethrow_primary_exception plain_linked 0 q;
   @__cxa_begin_catch plain_linked 0 (in_unwinder r);;
   after ← @__cxa_current_exception_type plain_linked 0;
   mret (before, after)) (started [0%nat])
  = Ok (Int 7, NULL) s.
Proof. eexists. vm_compute. reflexivity. Qed.

(** No memory but the emergency buffers *)
Definition starved : Linked := {|
  calloc_ok _ _ := false;
  fakeTLS := false;
  destructor_throws _ := false;
  unwind _ _ _ := None;
  user_unexpected _ _ := mret true;
|}.

Definition throw_and_handle (t : tid) : comp runtime unit :=
  p ← @__cxa_allocate_exception starved t 8;
  @__cxa_throw starved t p (Int 7) NULL;;
  @__cxa_begin_catch starved t (shift p (- sizeof_Unwind_Exception));;
  @__cxa_end_catch starved t.

(** The quota of four emergency buffers per thread is for life: a
    thread that has thrown and handled four exceptions without memory, and
    holds no buffer, is terminated at its fifth, with all sixteen free. *)
Theorem emergency_quota_is_for_life :
  exists s, (throw_and_handle 0;; throw_and_handle 0;; throw_and_handle 0;; throw_and_handle 0) (started [0%nat]) = Ok tt s /\
    buffer_allocated s = replicate EMERGENCY_BUFFERS false /\
    throw_and_handle 0 s = Crash Terminate.
Proof. eexists. split; [vm_compute; reflexivity|]. split; vm_compute; reflexivity. Qed.

(** A thread that ends inside a handler frees the exception it is
    handling whoever else owns it: an [exception_ptr] to it, in another
    thread, is left dangling. *)
Theorem thread_end_ignores_owners :
  (p ← @__cxa_allocate_exception plain_linked 0 8;
   @__cxa_throw plain_linked 0 p (Int 7) NULL;;
   @__cxa_begin_catch plain_linked 0 (shift p (- sizeof_Unwind_Exception));;
   q ← @__cxa_current_primary_exception plain_linked 0;
   @thread_cleanup plain_linked 0 (Some (Some 0%nat));;
   @__cxa_decrement_exception_refcount plain_linked 1 q) (started [0; 1]%nat) = Crash UseAfterFree.
Proof. vm_compute. reflexivity. Qed.

(** ** The theorems at concrete inputs *)
Lemma set_get_handlers_witness :
  exists s', @std_set_terminate plain_linked 0 (Fn (User 3)) (started [0%nat]) = Ok (Fn Terminate_with_diagnostics) s' /\
    @get_terminate plain_linked 0 s' = Ok (Fn (User 3)) s'.
Proof.
  destruct (@set_get_handlers plain_linked eq_refl 0%nat new_thread (started [0%nat]) (Fn (User 3))
    eq_refl eq_refl eq_refl eq_refl) as [(s' & H1 & _ & H2 & _) _].
  by exists s'.
Defined.

Lemma second_thread_sets_first_handler_witness :
  exists s1 s2,
    @pathscale_set_terminate plain_linked 0 (Fn (User 1)) (started [0; 1]%nat) = Ok NULL s1 /\
    @pathscale_set_terminate plain_linked 1 (Fn (User 2)) s1 = Ok (Fn (User 1)) s2 /\
    infos s2 !! Some 0%nat = Some (set_terminateHandler (Fn (User 2)) new_thread) /\
    infos s2 !! Some 1%nat = Some new_thread.
Proof.
  exact (@second_thread_sets_first_handler plain_linked eq_refl 0%nat 1%nat new_thread new_thread (started [0; 1]%nat)
    (Fn (User 1)) (Fn (User 2)) ltac:(done) eq_refl eq_refl eq_refl).
Defined.

Lemma foreign_exception_handled_witness :
  ok (p ← @__cxa_begin_catch plain_linked 0 (Ptr (Alien 0) 0); @__cxa_end_catch plain_linked 0;; mret p)
    (with_alien (started [0%nat])) (fun p s' =>
    p = Ptr (Alien 0) 32 /\ trace s' = [Foreign_cleanup (User 9) (Ptr (Alien 0) 0)] /\
    infos s' !! Some 0%nat = Some new_thread).
Proof.
  refine (proj1 (@foreign_exception_handled plain_linked eq_refl (fun _ _ _ => eq_refl) 0%nat (Alien 0) 9%nat
    new_thread (with_alien (started [0%nat])) _ eq_refl eq_refl)).
  exists alien, 1. vm_compute. split; [reflexivity|]. split; [discriminate|]. done.
Defined.
