(* ===== verification/PersonalityTheorems.v ===== *)
(** * What the personality function promises

    A frame's chain of action records is decided in order, by the first
    handler whose type fits; the object a handler gets is the right base of
    the one thrown; phase 2 enters the handler phase 1 found. *)
From S2P Require Import Prelude DwarfEh DwarfEhTheorems TypeInfo TypeInfoTheorems ExnState ExnHandlers ExnAlloc Exception ExnSpec ExnRefine Personality ExnTheorems.

#[global] Open Scope Z_scope.

(** ** Chains of action records *)
Section Chains.
Context {Mem : Memory}.

(** The records from address [p] on have the filters [fs]; the displacement
    counts from its own position, and is 0 in the last record. *)
Inductive chain_at : Z -> list Z -> Prop :=
  | chain_end : chain_at 0 []
  | chain_record p f d fs :
      p <> 0 -> - 2 ^ 27 <= f < 2 ^ 27 -> - 2 ^ 27 <= d < 2 ^ 27 ->
      bytes_at p (encode_sleb128 f ++ encode_sleb128 d) ->
      chain_at (if d =? 0 then 0 else u64 (p + Z.of_nat (length (encode_sleb128 f)) + d)) fs ->
      chain_at p (f :: fs).
End Chains.

(** Handlers and cleanups in order: the first filter above 0 whose test
    succeeds; without one, a cleanup if there is a filter 0. *)
Fixpoint first_handler {S} (answer : Z -> option S) (fs : list Z) : option (Z * S) :=
  match fs with
  | [] => None
  | f :: fs =>
      match (if 0 <? f then answer f else None) with
      | Some s => Some (f, s)
      | None => first_handler answer fs
      end
  end.

Section Personality.
Context {L : Linked} {Mem : Memory} {W : Words} {A : AddressSpace}.

Lemma with_local_ok {S T B} v (m : comp T B) a v' (s : S) : m v = Ok a v' -> with_local v m s = Ok (a, v') s.
Proof. intros H. unfold with_local. by rewrite H. Qed.

Lemma read_action_ok p f d s :
  - 2 ^ 27 <= f < 2 ^ 27 -> - 2 ^ 27 <= d < 2 ^ 27 -> bytes_at p (encode_sleb128 f ++ encode_sleb128 d) ->
  read_action p s = Ok (f, if d =? 0 then 0 else u64 (p + Z.of_nat (length (encode_sleb128 f)) + d)) s.
Proof.
  intros Hf Hd [Hp1 Hp2]%bytes_at_app. unfold read_action.
  rewrite (bind_Ok _ _ _ _ _ (with_local_ok _ _ _ _ s (read_sleb128_encode f p Hf Hp1))). cbn beta iota.
  rewrite (bind_Ok _ _ _ _ _ (with_local_ok _ _ _ _ s (read_sleb128_encode d _ Hd Hp2))). cbn beta iota.
  rewrite !(signed_small 32) by (cbn; lia). done.
Qed.

Lemma action_loop_record fuel context lsda ex own p f d s found selector :
  p <> 0 -> - 2 ^ 27 <= f < 2 ^ 27 -> - 2 ^ 27 <= d < 2 ^ 27 -> bytes_at p (encode_sleb128 f ++ encode_sleb128 d) ->
  action_loop (S fuel) context lsda ex own p found selector s
  = (x ← check_filter fuel context lsda ex own found selector f;
     match x with
     | Stop h selector => mret (h, selector)
     | Go found selector => action_loop fuel context lsda ex own
         (if d =? 0 then 0 else u64 (p + Z.of_nat (length (encode_sleb128 f)) + d)) found selector
     end) s.
Proof.
  intros Hp Hf Hd Hb. cbn [action_loop]. rewrite (proj2 (Z.eqb_neq _ _)) by done.
  rewrite (bind_Ok _ _ _ _ _ (read_action_ok p f d s Hf Hd Hb)). done.
Qed.

(** What testing the filter [f] in the state [s] does: [answer f] is the state
    after a match. *)
Definition tests (context : unwind_context) (lsda : dwarf_eh_lsda) (ex own : word) (s : runtime)
    (answer : Z -> option runtime) (f : Z) : Prop :=
  0 <= f /\ (0 < f -> exists type,
    get_type_info_entry context lsda f s = Ok type s /\
    check_type_signature ex type own s = match answer f with Some s' => Ok true s' | None => Ok false s end).

Definition decided (answer : Z -> option runtime) (fs : list Z) (found : handler_type) (s : runtime) : outcome runtime (handler_type * Z) :=
  match first_handler answer fs with
  | Some (f, s') => Ok (handler_catch, u64 f) s'
  | None => Ok (if decide (0 ∈ fs) then handler_cleanup else found, 0) s
  end.

Lemma action_loop_decided context lsda ex own s answer fs : forall fuel p found,
  chain_at p fs -> Forall (tests context lsda ex own s answer) fs -> (length fs <= fuel)%nat ->
  action_loop fuel context lsda ex own p found 0 s = decided answer fs found s.
Proof.
  induction fs as [|f fs IH]; intros fuel p found Hc Ht Hfuel.
  - inversion Hc; subst. destruct fuel; cbn; (rewrite decide_False; [done|apply not_elem_of_nil]).
  - inversion Hc as [|? ? d ? Hp Hf Hd Hb Hrest]; subst. destruct fuel as [|fuel]; [cbn in Hfuel; lia|].
    apply Forall_cons_1 in Ht as [[Hf0 Hf1] Ht]. cbn [length] in Hfuel.
    rewrite (action_loop_record _ _ _ _ _ p f d) by done. unfold check_filter, decided. cbn [first_handler].
    destruct (Z.ltb_spec 0 f) as [Hpos|Hle].
    + destruct (Hf1 Hpos) as (type & He & Hs). rewrite bind_assoc, (bind_Ok _ _ _ _ _ He), bind_assoc.
      destruct (answer f) as [s'|]; rewrite (bind_Ok _ _ _ _ _ Hs), bind_ret; [done|].
      rewrite IH by (done || lia). unfold decided. destruct (first_handler answer fs) as [[? ?]|]; [done|].
      by rewrite (decide_ext (0 ∈ f :: fs) (0 ∈ fs)) by (rewrite elem_of_cons; split; [intros [?|?]; [lia|done]|by right]).
    + assert (f = 0) as -> by lia. cbn [Z.ltb Z.compare andb Z.eqb]. rewrite bind_ret.
      rewrite IH by (done || lia). unfold decided. destruct (first_handler answer fs) as [[? ?]|]; [done|].
      rewrite (decide_True (P := 0 ∈ 0 :: fs)) by left. by destruct (decide (0 ∈ fs)).
Qed.

(** C11. The chain of action records of a call site is decided as the ABI
    has it, for chains of handlers and cleanups of any length: the first
    handler, in the order of the records, whose type fits stops the search,
    with its filter as the selector and nothing changed by the tests before;
    without one, a cleanup is found when a record asks for it; the search
    ends after at most as many turns as there are records. *)
Theorem action_chain_decided fuel context lsda ex own s answer p fs :
  chain_at p fs -> Forall (tests context lsda ex own s answer) fs -> (length fs <= fuel)%nat ->
  check_action_record fuel context lsda p ex own 0 s
  = if p =? 0 then Ok (handler_cleanup, 0) s else decided answer fs handler_none s.
Proof.
  intros Hc Ht Hf. unfold check_action_record. destruct (p =? 0); [done|]. by apply action_loop_decided.
Qed.

(** A record whose displacement leads back to itself is read for ever. *)
Lemma cyclic_chain_never_decided fuel context lsda ex own p s selector found :
  p <> 0 -> 0 <= p < 2 ^ 64 -> bytes_at p (encode_sleb128 0 ++ encode_sleb128 (-1)) ->
  action_loop fuel context lsda ex own p found selector s = NoFuel.
Proof.
  intros Hp Hr Hb. revert found selector. induction fuel as [|fuel IH]; intros found selector.
  { cbn. by rewrite (proj2 (Z.eqb_neq _ _)). }
  rewrite (action_loop_record _ _ _ _ _ p 0 (-1)) by (done || lia).
  unfold check_filter. cbn [Z.ltb Z.compare andb Z.eqb]. rewrite bind_ret.
  replace (u64 (p + Z.of_nat (length (encode_sleb128 0)) + -1)) with p; [apply IH|].
  change (Z.of_nat (length (encode_sleb128 0))) with 1. unfold u64. rewrite Z.mod_small by lia. lia.
Qed.

(** ** Comparing types *)

(** An exception [ex] of type [ext] with its object, or the pointer that was
    thrown, at [p]; [own] has the field [adjustedPtr] to set. *)
Definition thrown_as (s : runtime) (ex : block) (ext : type_info) (p : Z) (own : block) : Prop :=
  exists c a co, live_block ex s = Some c /\ header_fits c /\ words c (offsetof exceptionType) = Int a /\
    type_at a = Some ext /\ live_block own s = Some co /\ header_fits co /\
    (if __is_pointer_p ext then word_at (addr_of ex + sizeof_cxa_exception) = Some p
     else p = addr_of ex + sizeof_cxa_exception).

(** The state with the adjusted pointer *)
Definition adjusted (own : block) (q : Z) (s : runtime) : runtime :=
  match live_block own s with
  | Some c => put own (write (offsetof adjustedPtr) (Int q) c) s
  | None => s
  end.

Lemma set_adjusted own q co s :
  live_block own s = Some co -> header_fits co ->
  set_ (Ptr own 0) adjustedPtr (Int q) s = Ok tt (adjusted own q s).
Proof.
  intros Hc Hf. destruct (ok_run (set_ (Ptr own 0) adjustedPtr (Int q)) s (fun _ s' => s' = adjusted own q s))
    as ([] & ? & -> & ->); [|done]. eapply ok_set; [done..|]. unfold adjusted. by rewrite Hc.
Qed.

(** The comparison up to where the types are looked at *)
Lemma check_type_start s ex ext p own type :
  thrown_as s ex ext p own ->
  check_type_signature (Ptr ex 0) type (Ptr own 0) s
  = (if type =? 0 then set_ (Ptr own 0) adjustedPtr (Int p);; mret true
     else
       type ← type_info_at (Int type);
       if ti_eq type ext then set_ (Ptr own 0) adjustedPtr (Int p);; mret true
       else
         '(b, q) ← with_local p (__do_catch typeid_void type ext 1);
         if (b : bool) then set_ (Ptr own 0) adjustedPtr (Int q);; mret true else mret false) s.
Proof.
  intros (c & a & co & Hc & Hf & Ha & Hat & Hco & Hfo & Hp).
  unfold check_type_signature. rewrite decide_False by done. cbv zeta.
  assert (get (Ptr ex 0) exceptionType s = Ok (Int a) s) as E1.
  { destruct (ok_run (get (Ptr ex 0) exceptionType) s (fun w s' => w = Int a /\ s' = s)) as (? & ? & -> & -> & ->); [|done].
    by eapply ok_get. }
  rewrite (bind_Ok _ _ _ _ _ E1).
  assert (type_info_at (Int a) s = Ok ext s) as E2 by (cbn; by rewrite Hat).
  rewrite (bind_Ok _ _ _ _ _ E2).
  assert ((if __is_pointer_p ext then deref (address (shift (Ptr ex 0) sizeof_cxa_exception))
           else mret (address (shift (Ptr ex 0) sizeof_cxa_exception))) s = Ok p s) as E3.
  { cbn [shift address]. rewrite Z.add_0_l. destruct (__is_pointer_p ext).
    - unfold deref. by rewrite Hp.
    - by rewrite Hp. }
  by rewrite (bind_Ok _ _ _ _ _ E3).
Qed.

(** C12. A catch clause compared with a thrown class object: [catch (...)]
    (type 0) and a handler of the same type get the object itself; a handler
    of another class type matches exactly when the object has a base
    subobject of that class, and then the handler's pointer is the address of
    such a subobject; otherwise nothing changes. *)
Theorem catch_matches_base s ex ext p own type :
  thrown_as s ex ext p own -> __is_pointer_p ext = false ->
  object_ok ext p ->
  check_type_signature (Ptr ex 0) 0 (Ptr own 0) s = Ok true (adjusted own p s) /\
  (type <> 0 -> forall t, type_at type = Some t -> is_class t = true ->
    if ti_eq t ext then check_type_signature (Ptr ex 0) type (Ptr own 0) s = Ok true (adjusted own p s)
    else
      (exists u q, subobject ext p u q /\ ti_addr u = ti_addr t /\
         check_type_signature (Ptr ex 0) type (Ptr own 0) s = Ok true (adjusted own q s)) \/
      ((forall u q, subobject ext p u q -> ti_addr u <> ti_addr t) /\
         check_type_signature (Ptr ex 0) type (Ptr own 0) s = Ok false s)).
Proof.
  intros Ht Hnp Hok. pose proof Ht as (c & a & co & _ & _ & _ & _ & Hco & Hfo & _).
  rewrite (check_type_start _ _ _ _ _ _ Ht). cbn [Z.eqb]. split.
  { by rewrite (bind_Ok _ _ _ _ _ (set_adjusted own p co s Hco Hfo)). }
  intros Hne t Hat Hcl. rewrite (check_type_start _ _ _ _ _ _ Ht), (proj2 (Z.eqb_neq _ _)) by done.
  assert (type_info_at (Int type) s = Ok t s) as E by (cbn; by rewrite Hat).
  rewrite !(bind_Ok _ _ _ _ _ E). destruct (ti_eq t ext).
  { by rewrite (bind_Ok _ _ _ _ _ (set_adjusted own p co s Hco Hfo)). }
  pose proof (upcast_finds (ti_addr t) ext p Hok) as Hup.
  assert (upcast_answer ext (ti_addr t) p (__do_catch typeid_void t ext 1 p)) as Hc.
  { destruct t as [at_ nt k]. cbn [ti_addr] in *. destruct k; try done; cbn [__do_catch];
      (destruct (Z.eqb_spec at_ (ti_addr ext)) as [->|]; [exists ext; by split; [constructor|]|exact Hup]). }
  destruct (__do_catch typeid_void t ext 1 p) as [[] q| | |] eqn:Ed; try done.
  - destruct Hc as (u & Hu & Hau). left. exists u, q. split; [done|]. split; [done|].
    rewrite (bind_Ok _ _ _ _ _ (with_local_ok _ _ _ _ s Ed)). cbn beta iota.
    by rewrite (bind_Ok _ _ _ _ _ (set_adjusted own q co s Hco Hfo)).
  - destruct Hc as [-> Hn]. right. split; [done|].
    by rewrite (bind_Ok _ _ _ _ _ (with_local_ok _ _ _ _ s Ed)).
Qed.

(** ** The two phases *)

(** The header of an exception in flight: a C++ class, and its primary if it
    is a dependent one. *)
Definition flying_header (c : contents) : Prop :=
  header_fits c /\
  (words c (offsetof unwindHeader) = Int exception_class \/
   words c (offsetof unwindHeader) = Int dependent_exception_class /\
   exists p, words c (offsetof primaryException) = p).

Lemma real_of_header e c s :
  live_block e s = Some c -> flying_header c ->
  exists r, realExceptionFromException (Ptr e 0) s = Ok r s /\
    forall c' s', live_block e s' = Some c' -> header_fits c' ->
      words c' (offsetof unwindHeader) = words c (offsetof unwindHeader) ->
      words c' (offsetof primaryException) = words c (offsetof primaryException) ->
      realExceptionFromException (Ptr e 0) s' = Ok r s'.
Proof.
  intros Hc [Hf Hw].
  assert (exists r, forall c' s', live_block e s' = Some c' -> header_fits c' ->
      words c' (offsetof unwindHeader) = words c (offsetof unwindHeader) ->
      words c' (offsetof primaryException) = words c (offsetof primaryException) ->
      realExceptionFromException (Ptr e 0) s' = Ok r s') as [r Hr].
  { destruct Hw as [Hw|[Hw [p Hp]]].
    - exists (Ptr e 0). intros c' s' Hc' Hf' H1 H2.
      destruct (ok_run (realExceptionFromException (Ptr e 0)) s' (fun r s1 => r = Ptr e 0 /\ s1 = s')) as (? & ? & -> & -> & ->); [|done].
      apply ok_bind. eapply ok_class_of_header; [done..|by rewrite H1|]. done.
    - exists (shift p (- sizeof_cxa_exception)). intros c' s' Hc' Hf' H1 H2.
      destruct (ok_run (realExceptionFromException (Ptr e 0)) s'
        (fun r s1 => r = shift p (- sizeof_cxa_exception) /\ s1 = s')) as (? & ? & -> & -> & ->); [|done].
      apply ok_bind. eapply ok_class_of_header; [done..|by rewrite H1|].
      change (negb (isDependentException dependent_exception_class)) with false. cbv iota.
      apply ok_bind. eapply ok_get; [done..|]. rewrite H2, Hp. done. }
  exists r. split; [by apply (Hr c)|done].
Qed.

(** What phase 1 keeps in the header for phase 2. *)
Definition kept (action : dwarf_eh_action) (lsda_addr f : Z) (c : contents) : contents :=
  write (offsetof actionRecord) (Int (action_record action)) (write (offsetof languageSpecificData) (Int lsda_addr)
    (write (offsetof catchTemp) (Int (landing_pad action)) (write (offsetof handlerSwitchValue) (Int f) c))).

Lemma signed_selector f : - 2 ^ 31 <= f < 2 ^ 31 -> signed 32 (u64 f) = f.
Proof.
  intros Hf. unfold signed, u64. change (2 ^ 64) with (2 ^ 32 * 2 ^ 32). rewrite Z.rem_mul_r by done.
  rewrite Z.mul_comm, Z_mod_plus_full, Z.mod_mod by done. fold (signed 32 f). apply signed_small; cbn; lia.
Qed.

Lemma search_keeps fuel t cls e s c1 context lsda_addr lsda action realEx f s1 :
  isCXXException cls = true -> lsda_addr <> 0 ->
  realExceptionFromException (Ptr e 0) s = Ok realEx s ->
  find_action context lsda_addr s = Ok (lsda, (true, action)) s ->
  check_action_record fuel context lsda (action_record action) realEx (Ptr e 0) 0 s = Ok (handler_catch, u64 f) s1 ->
  - 2 ^ 31 <= f < 2 ^ 31 -> live_block e s1 = Some c1 -> header_fits c1 ->
  ok (__gxx_personality_v0 fuel t 1 _UA_SEARCH_PHASE cls (Ptr e 96) context lsda_addr) s
    (fun v s2 => v = Reason _URC_HANDLER_FOUND /\ live_block e s2 = Some (kept action lsda_addr f c1)).
Proof.
  intros Hcls Hl Hreal Hfind Hcheck Hf Hc1 Hf1.
  unfold __gxx_personality_v0. rewrite Hcls. cbn [Z.eqb Pos.eqb negb]. cbv zeta.
  change (exceptionFromPointer (Ptr e 96)) with (Ptr e 0). apply ok_bind. unfold ok at 1. rewrite Hreal.
  rewrite (proj2 (Z.eqb_neq _ _)) by done. change (has_flag _UA_SEARCH_PHASE _UA_SEARCH_PHASE) with true. cbv iota.
  apply ok_bind. unfold ok at 1. rewrite Hfind. cbn beta iota zeta. cbn [negb].
  apply ok_bind. unfold ok at 1. rewrite Hcheck. cbn beta iota zeta. rewrite signed_selector by done.
  apply ok_bind. rewrite decide_False by done. apply ok_bind.
  unfold saveLandingPad. rewrite decide_False by done. apply ok_bind.
  eapply ok_set; [exact Hc1|done|]. eapply ok_set; [by eapply live_put|done|].
  apply ok_bind. eapply ok_set; [eapply live_put; by eapply live_put|done|].
  eapply ok_set; [do 2 eapply live_put; by eapply live_put|done|].
  apply ok_ret. split; [done|]. do 3 eapply live_put. by eapply live_put.
Qed.

Lemma handler_frame_enters fuel t cls e s c1 context lsda_addr action realEx f :
  isCXXException cls = true -> lsda_addr <> 0 -> landing_pad action <> 0 ->
  realExceptionFromException (Ptr e 0) s = Ok realEx s ->
  header_fits c1 -> live_block e s = Some (kept action lsda_addr f c1) ->
  ok (__gxx_personality_v0 fuel t 1 (_UA_CLEANUP_PHASE + _UA_HANDLER_FRAME) cls (Ptr e 96) context lsda_addr) s
    (fun v s' => v = Install (landing_pad action) (Ptr e 96) (u64 f) /\
      live_block e s' = Some (write (offsetof handlerSwitchValue) (Int 0)
        (write (offsetof catchTemp) NULL (kept action lsda_addr f c1)))).
Proof.
  intros Hcls Hl Hpad Hreal Hf1 Hc2. set (c2 := kept action lsda_addr f c1) in *.
  unfold __gxx_personality_v0. rewrite Hcls. cbn [Z.eqb Pos.eqb negb]. cbv zeta.
  change (exceptionFromPointer (Ptr e 96)) with (Ptr e 0). apply ok_bind. unfold ok at 1. rewrite Hreal.
  rewrite (proj2 (Z.eqb_neq _ _)) by done.
  change (has_flag (_UA_CLEANUP_PHASE + _UA_HANDLER_FRAME) _UA_SEARCH_PHASE) with false.
  change (has_flag (_UA_CLEANUP_PHASE + _UA_HANDLER_FRAME) _UA_HANDLER_FRAME) with true. cbn [negb]. cbv iota.
  apply ok_bind. eapply ok_get; [exact Hc2|done|].
  change (words c2 (offsetof catchTemp)) with (Int (landing_pad action)).
  rewrite decide_False by (intros [= H]; done). apply ok_bind. unfold loadLandingPad. rewrite decide_False by done.
  apply ok_bind. eapply (ok_get_int _ _ _ _ f); [exact Hc2|done|done|].
  apply ok_bind. eapply (ok_get_int _ _ _ _ (landing_pad action)); [exact Hc2|done|done|]. apply ok_ret.
  apply ok_bind. eapply ok_set; [exact Hc2|done|].
  apply ok_bind. eapply ok_set; [by eapply live_put|done|]. apply ok_ret. split; [done|].
  eapply live_put. by eapply live_put.
Qed.

(** C14. The two phases agree: when phase 1 finds a handler in a frame,
    the call with the handler's frame in phase 2 enters the landing pad of
    that call site with the exception and the handler's selector in the
    registers, without reading the tables again, and forgets what was kept. *)
Theorem phases_agree fuel fuel' t cls e s c context context' lsda_addr lsda action realEx f s1 c1 :
  isCXXException cls = true -> lsda_addr <> 0 ->
  live_block e s = Some c -> flying_header c ->
  realExceptionFromException (Ptr e 0) s = Ok realEx s ->
  find_action context lsda_addr s = Ok (lsda, (true, action)) s -> landing_pad action <> 0 ->
  check_action_record fuel context lsda (action_record action) realEx (Ptr e 0) 0 s = Ok (handler_catch, u64 f) s1 ->
  - 2 ^ 31 <= f < 2 ^ 31 ->
  live_block e s1 = Some c1 -> header_fits c1 ->
  words c1 (offsetof unwindHeader) = words c (offsetof unwindHeader) ->
  words c1 (offsetof primaryException) = words c (offsetof primaryException) ->
  exists s2 s3 c3,
    __gxx_personality_v0 fuel t 1 _UA_SEARCH_PHASE cls (Ptr e 96) context lsda_addr s
      = Ok (Reason _URC_HANDLER_FOUND) s2 /\
    __gxx_personality_v0 fuel' t 1 (_UA_CLEANUP_PHASE + _UA_HANDLER_FRAME) cls (Ptr e 96) context' lsda_addr s2
      = Ok (Install (landing_pad action) (Ptr e 96) (u64 f)) s3 /\
    live_block e s3 = Some c3 /\ words c3 (offsetof catchTemp) = NULL /\
    words c3 (offsetof adjustedPtr) = words c1 (offsetof adjustedPtr).
Proof.
  intros Hcls Hl Hc Hh Hreal Hfind Hpad Hcheck Hf Hc1 Hf1 Hw1 Hw2.
  destruct (real_of_header e c s Hc Hh) as (r & Hr1 & Hr). assert (r = realEx) as -> by congruence.
  destruct (ok_run _ _ _ (search_keeps fuel t cls e s c1 context lsda_addr lsda action realEx f s1
    Hcls Hl Hreal Hfind Hcheck Hf Hc1 Hf1)) as (v & s2 & E2 & -> & Hc2).
  destruct (ok_run _ _ _ (handler_frame_enters fuel' t cls e s2 c1 context' lsda_addr action realEx f
    Hcls Hl Hpad (Hr _ s2 Hc2 Hf1 Hw1 Hw2) Hf1 Hc2)) as (v & s3 & E3 & -> & Hc3).
  exists s2, s3. eexists. split; [done|]. split; [done|]. split; [exact Hc3|]. done.
Qed.

(** C30. An exception that leaves a frame where nothing covers the call (a
    [noexcept] function, a destructor run during unwinding) is stopped there:
    phase 1 claims a handler, nothing is written down, and phase 2 calls
    [terminate]. *)
Theorem uncovered_call_terminates fuel t cls e s c th context lsda_addr lsda action realEx :
  fakeTLS = false -> infos s !! Some t = Some th -> tidy s ->
  isCXXException cls = true -> lsda_addr <> 0 ->
  live_block e s = Some c -> header_fits c -> words c (offsetof catchTemp) = NULL ->
  realExceptionFromException (Ptr e 0) s = Ok realEx s ->
  find_action context lsda_addr s = Ok (lsda, (false, action)) s ->
  __gxx_personality_v0 fuel t 1 _UA_SEARCH_PHASE cls (Ptr e 96) context lsda_addr s
    = Ok (Reason _URC_HANDLER_FOUND) s /\
  __gxx_personality_v0 fuel t 1 (_UA_CLEANUP_PHASE + _UA_HANDLER_FRAME) cls (Ptr e 96) context lsda_addr s
    = Crash Terminate.
Proof.
  intros Hpt Hi Htidy Hcls Hl Hc Hf Htemp Hreal Hfind. unfold __gxx_personality_v0. rewrite Hcls.
  cbn [Z.eqb Pos.eqb negb]. cbv zeta. change (exceptionFromPointer (Ptr e 96)) with (Ptr e 0).
  rewrite !(bind_Ok _ _ _ _ _ Hreal), (proj2 (Z.eqb_neq _ _)) by done. split.
  - change (has_flag _UA_SEARCH_PHASE _UA_SEARCH_PHASE) with true. cbv iota.
    unfold search_phase. by rewrite (bind_Ok _ _ _ _ _ Hfind).
  - change (has_flag (_UA_CLEANUP_PHASE + _UA_HANDLER_FRAME) _UA_SEARCH_PHASE) with false.
    change (has_flag (_UA_CLEANUP_PHASE + _UA_HANDLER_FRAME) _UA_HANDLER_FRAME) with true. cbn [negb]. cbv iota.
    unfold handler_frame. assert (get (Ptr e 0) catchTemp s = Ok NULL s) as E.
    { destruct (ok_run (get (Ptr e 0) catchTemp) s (fun w s' => w = NULL /\ s' = s)) as (? & ? & -> & -> & ->); [|done].
      by eapply ok_get. }
    rewrite (bind_Ok _ _ _ _ _ E), decide_True by done. destruct Htidy as [_ _ _ _ [Hg Hs]].
    unfold terminate, terminate_calls, static_info, mbind, comp_bind. rewrite Hs. unfold thread_info.
    rewrite Hpt, Hi. unfold read_info. cbn. rewrite Hi.
    destruct (decide (terminateHandler th = NULL)); cbn; by rewrite decide_False.
Qed.

(** A foreign exception: only [catch (...)] and cleanups see it. *)
Lemma foreign_only_catch_all type own s :
  check_type_signature NULL type own s = Ok (type =? 0) s.
Proof. done. Qed.
End Personality.

(** ** The theorems at concrete inputs *)

(** A frame with [catch (int)] and [catch (A)] around a call: the header, a
    call-site record, two action records, two types *)
Definition table : list Z :=
  [255; 3; 18; 1; 4;  0; 16; 8; 1;  2; 1; 1; 0;  2; 0; 0; 0;  3; 0; 0; 0].

Definition frame_memory : Memory := {|
  DwarfEh.load p := if 1000 <=? p then table !! Z.to_nat (p - 1000) else None;
  little_endian := true;
|}.

Definition frame : unwind_context := UnwindContext 5005 5000 0 0.

Definition program_types : AddressSpace := {|
  addr_of b := match b with Heap n => 100000 + 1000 * Z.of_nat n | _ => 0 end;
  type_at a := match a with 2 => Some ti_int | 3 => Some ti_A | 5 => Some ti_D | _ => None end;
  typeid_void := ti_void;
|}.

(** A [D], which has a base [A], has been thrown. *)
Definition thrown_D : runtime := (@after plain_linked [0%nat] [Allocate 0 8; Throw 0 (Heap 0) (Int 5) NULL]).1.1.

Definition frame_lsda : dwarf_eh_lsda := DwarfEhLsda 5000 5000 1021 3 1005 1009 1.

Lemma frame_action : @find_action frame_memory frame 1000 thrown_D = Ok (frame_lsda, (true, DwarfEhAction 5008 1009)) thrown_D.
Proof. vm_compute. reflexivity. Qed.

Definition D_answer (f : Z) : option runtime :=
  match f with 1 => Some (adjusted (Heap 0) 100128 thrown_D) | _ => None end.

Lemma D_tests : Forall (@tests frame_memory no_words program_types frame frame_lsda (Ptr (Heap 0) 0) (Ptr (Heap 0) 0) thrown_D D_answer) [2; 1].
Proof.
  apply Forall_cons_2; [|apply Forall_cons_2; [|apply Forall_nil_2]]; (split; [done|]); intros _.
  - exists 2. split; vm_compute; reflexivity.
  - exists 3. split; vm_compute; reflexivity.
Qed.

Lemma frame_chain : @chain_at frame_memory 1009 [2; 1].
Proof.
  eapply (chain_record _ _ 1); [done|done|done|vm_compute; done|].
  eapply (chain_record _ _ 0); [by vm_compute|done|done|vm_compute; done|].
  vm_compute. apply chain_end.
Qed.

Lemma action_chain_decided_witness :
  @check_action_record frame_memory no_words program_types 2 frame frame_lsda 1009 (Ptr (Heap 0) 0) (Ptr (Heap 0) 0) 0 thrown_D
  = Ok (handler_catch, 1) (adjusted (Heap 0) 100128 thrown_D).
Proof.
  rewrite (@action_chain_decided frame_memory no_words program_types 2 frame frame_lsda (Ptr (Heap 0) 0) (Ptr (Heap 0) 0)
    thrown_D D_answer 1009 [2; 1] frame_chain D_tests ltac:(cbn; lia)).
  reflexivity.
Defined.

Lemma D_thrown_as : @thrown_as no_words program_types thrown_D (Heap 0) ti_D 100128 (Heap 0).
Proof.
  unfold thrown_as. assert (exists c, live_block (Heap 0) thrown_D = Some c /\ header_fits c /\
    words c (offsetof exceptionType) = Int 5) as (c & H1 & H2 & H3).
  { eexists. split; [vm_compute; reflexivity|]. split; [vm_compute; discriminate|vm_compute; reflexivity]. }
  exists c, 5, c. by split_and!.
Qed.

Lemma catch_matches_base_witness :
  @check_type_signature no_words program_types (Ptr (Heap 0) 0) 0 (Ptr (Heap 0) 0) thrown_D
    = Ok true (adjusted (Heap 0) 100128 thrown_D).
Proof.
  exact (proj1 (@catch_matches_base no_words program_types thrown_D (Heap 0) ti_D 100128 (Heap 0) 3
    D_thrown_as eq_refl (d_object_ok 100128))).
Defined.

Lemma phases_agree_witness :
  exists s2 s3,
    @__gxx_personality_v0 plain_linked frame_memory no_words program_types 2 0 1 _UA_SEARCH_PHASE exception_class
        (Ptr (Heap 0) 96) frame 1000 thrown_D = Ok (Reason _URC_HANDLER_FOUND) s2 /\
    @__gxx_personality_v0 plain_linked frame_memory no_words program_types 0 0 1 (_UA_CLEANUP_PHASE + _UA_HANDLER_FRAME)
        exception_class (Ptr (Heap 0) 96) frame 1000 s2 = Ok (Install 5008 (Ptr (Heap 0) 96) 1) s3.
Proof.
  assert (exists c, live_block (Heap 0) thrown_D = Some c /\ flying_header c /\
    live_block (Heap 0) (adjusted (Heap 0) 100128 thrown_D) = Some (write (offsetof adjustedPtr) (Int 100128) c)) as (c & H1 & H2 & H3).
  { eexists. split; [vm_compute; reflexivity|]. split; [split; [vm_compute; discriminate|left; vm_compute; reflexivity]|].
    vm_compute. reflexivity. }
  destruct (@phases_agree plain_linked frame_memory no_words program_types 2 0 0 exception_class (Heap 0) thrown_D c
    frame frame 1000 frame_lsda (DwarfEhAction 5008 1009) (Ptr (Heap 0) 0) 1 (adjusted (Heap 0) 100128 thrown_D)
    (write (offsetof adjustedPtr) (Int 100128) c)) as (s2 & s3 & c3 & E2 & E3 & _);
    [done|done|exact H1|exact H2|vm_compute; reflexivity|exact frame_action|done|vm_compute; reflexivity|done|exact H3|
     apply H2|done|done|].
  by exists s2, s3.
Defined.

(** The same frame, for an instruction no record covers *)
Definition uncovered : unwind_context := UnwindContext 5500 5000 0 0.

Lemma uncovered_call_terminates_witness :
  @__gxx_personality_v0 plain_linked frame_memory no_words program_types 0 0 1 (_UA_CLEANUP_PHASE + _UA_HANDLER_FRAME)
    exception_class (Ptr (Heap 0) 96) uncovered 1000 thrown_D = Crash Terminate.
Proof.
  assert (exists c, live_block (Heap 0) thrown_D = Some c /\ header_fits c /\ words c (offsetof catchTemp) = NULL)
    as (c & H1 & H2 & H3).
  { eexists. split; [vm_compute; reflexivity|]. split; [vm_compute; discriminate|vm_compute; reflexivity]. }
  refine (proj2 (@uncovered_call_terminates plain_linked frame_memory no_words program_types 0 0 exception_class (Heap 0) thrown_D c
    (set_uncaught 1 new_thread) uncovered 1000 frame_lsda no_action (Ptr (Heap 0) 0) eq_refl _ _ eq_refl _ H1 H2 H3 _ _)).
  - vm_compute. reflexivity.
  - exact (rel_tidy _ _ _ _ (proj1 (reachable_rel (L := plain_linked) eq_refl (fun _ => eq_refl) (fun _ _ _ => eq_refl) _ _ _ _
      (@after_reachable plain_linked [0%nat] [Allocate 0 8; Throw 0 (Heap 0) (Int 5) NULL] ltac:(vm_compute; by eexists))))).
  - done.
  - vm_compute. reflexivity.
  - vm_compute. reflexivity.
Defined.
