(* ===== verification/PersonalityProtocol.v ===== *)
(** * The personality function within the protocol

    Between the calls of Exception the unwinder calls the personality function,
    which writes to the header of the exception in flight.  It writes only
    what no call relies on, so the runs of ExnTheorems may have calls of it
    anywhere. *)
From S2P Require Import Prelude DwarfEh TypeInfo ExnState ExnHandlers ExnAlloc Exception Personality ExnSpec ExnSpecLemmas ExnRefine ExnTheorems TypeInfoTheorems DwarfEhTheorems PersonalityTheorems.

#[global] Open Scope Z_scope.

(** The fields it writes *)
Definition cache : list field := [adjustedPtr; handlerSwitchValue; catchTemp; languageSpecificData; actionRecord].

(** A write to one of them, in the exception [e] *)
Definition caches (e : block) (s s' : runtime) : Prop :=
  exists f w c, f ∈ cache /\ live_block e s = Some c /\ s' = put e (write (offsetof f) w c) s.

Definition cached (e : block) : runtime -> runtime -> Prop := rtc (caches e).

(** A computation that, whatever else it does, leaves such a state *)
Definition writes (e : block) {B} (m : comp runtime B) : Prop := forall s,
  match m s with Ok _ s' | Fail s' => cached e s s' | _ => True end.

Section Writes.
Context {L : Linked} {M : Memory} {W : Words} {A : AddressSpace}.
Context (e : block).

Lemma writes_bind {B C} (m : comp runtime B) (f : B -> comp runtime C) :
  writes e m -> (forall b, writes e (f b)) -> writes e (m ≫= f).
Proof.
  intros Hm Hf s. unfold mbind, comp_bind. specialize (Hm s). destruct (m s) as [b s'|s'|c|]; try done.
  specialize (Hf b s'). destruct (f b s'); try done; by etrans.
Qed.

Lemma writes_ret {B} (b : B) : writes e (mret b).
Proof. intros s. constructor. Qed.
Lemma writes_crashed {B} c : writes e (crashed (A := B) c).
Proof. by intros s. Qed.
Lemma writes_no_fuel {B} : writes e (no_fuel (A := B)).
Proof. by intros s. Qed.

(** Computations that only read *)
Lemma writes_reads {B} (m : comp runtime B) :
  (forall s, match m s with Ok _ s' | Fail s' => s' = s | _ => True end) -> writes e m.
Proof. intros H s. specialize (H s). destruct (m s); try done; by subst; constructor. Qed.

Lemma writes_load p : writes e (load p).
Proof.
  apply writes_reads. intros s. unfold load, at_word. destruct p as [z|b o|g]; [by case_decide| |by case_decide].
  destruct (live_block b s); [|done]. by destruct (_ && _).
Qed.

Lemma writes_get p f : writes e (get p f).
Proof. unfold get. case_decide; [apply writes_crashed|apply writes_load]. Qed.

Lemma writes_get_int p f : writes e (get_int p f).
Proof. apply writes_bind; [apply writes_get|]. intros []; [apply writes_ret|apply writes_crashed..]. Qed.

Lemma writes_with_local {T B} (v : T) (m : comp T B) : writes e (with_local v m).
Proof.
  apply writes_reads. intros s. unfold with_local. by destruct (m v).
Qed.

Lemma writes_deref p : writes e (deref p).
Proof. apply writes_reads. intros s. unfold deref. destruct (word_at p); [done|]. by destruct (_ =? _). Qed.

Lemma writes_type_info_at p : writes e (type_info_at p).
Proof. destruct p; cbn; [|apply writes_crashed..]. destruct (type_at _); [apply writes_ret|apply writes_crashed]. Qed.

Lemma writes_class_of_header p : writes e (class_of_header p).
Proof. apply writes_get_int. Qed.

Lemma writes_terminate {B} t : writes e (terminate (A := B) t).
Proof.
  intros s. unfold terminate. unfold mbind, comp_bind at 1.
  destruct (terminate_calls t s) as [h s'|s'|c|] eqn:E; [by case_decide| |done..].
  unfold terminate_calls, static_info, thread_info, read_info, gets, mret, comp_ret, mbind, comp_bind in E.
  repeat case_match; simplify_eq.
Qed.

(** Writes to the fields above *)
Lemma writes_set f w : f ∈ cache -> writes e (set_ (Ptr e 0) f w).
Proof.
  intros Hf s. unfold set_. rewrite decide_False by done. unfold store, at_word. cbn [shift].
  destruct (live_block e s) as [c|] eqn:Hc; [|done]. rewrite Z.add_0_l. destruct (_ && _); [|done].
  apply rtc_once. exists f, w, c. by split_and!.
Qed.
End Writes.

Create HintDb writes.

Ltac writes_step :=
  match goal with
  | |- forall _, _ => intros ?
  | |- writes _ (mbind _ _) => apply writes_bind; [|intros ?]
  | |- writes _ (if decide ?b then _ else _) => destruct (decide b)
  | |- writes _ (if ?b then _ else _) => destruct b
  | |- writes _ (match ?x with _ => _ end) => destruct x
  | |- _ => solve [eauto 2 with writes]
  end.
Ltac writes_auto := repeat writes_step.

#[export] Hint Resolve writes_ret writes_crashed writes_no_fuel writes_get writes_get_int writes_with_local
  writes_deref writes_type_info_at writes_class_of_header writes_terminate : writes.
#[export] Hint Extern 1 (writes _ (set_ _ _ _)) => apply writes_set; by repeat first [left|right] : writes.

Section Personality.
Context {L : Linked} {M : Memory} {W : Words} {A : AddressSpace}.
Context (e : block).

Lemma writes_check_type_signature ex type : writes e (check_type_signature ex type (Ptr e 0)).
Proof. unfold check_type_signature. writes_auto. Qed.

Lemma writes_get_type_info_entry context lsda filter : writes e (get_type_info_entry context lsda filter).
Proof. unfold get_type_info_entry. writes_auto. Qed.

Lemma writes_realException ex : writes e (realExceptionFromException ex).
Proof. unfold realExceptionFromException. writes_auto. Qed.

#[local] Hint Resolve writes_check_type_signature writes_get_type_info_entry writes_realException : writes.

Lemma writes_allowed fuel context lsda p ex : writes e (allowed fuel context lsda p ex (Ptr e 0)).
Proof. revert p. induction fuel as [|fuel IH]; intros p; cbn [allowed]; writes_auto. Qed.

#[local] Hint Resolve writes_allowed : writes.

Lemma writes_read_action p : writes e (read_action p).
Proof. unfold read_action. writes_auto. Qed.

Lemma writes_check_filter fuel context lsda ex found selector filter :
  writes e (check_filter fuel context lsda ex (Ptr e 0) found selector filter).
Proof. unfold check_filter. writes_auto. Qed.

#[local] Hint Resolve writes_read_action writes_check_filter : writes.

Lemma writes_action_loop fuel context lsda ex p found selector :
  writes e (action_loop fuel context lsda ex (Ptr e 0) p found selector).
Proof. revert p found selector. induction fuel as [|fuel IH]; intros p found selector; cbn [action_loop]; writes_auto. Qed.

#[local] Hint Resolve writes_action_loop : writes.

Lemma writes_check_action_record fuel context lsda p ex selector :
  writes e (check_action_record fuel context lsda p ex (Ptr e 0) selector).
Proof. unfold check_action_record. writes_auto. Qed.

Lemma writes_find_action context lsda_addr : writes e (find_action context lsda_addr).
Proof. unfold find_action. writes_auto. Qed.

#[local] Hint Resolve writes_check_action_record writes_find_action : writes.

Lemma writes_personality fuel t version actions cls context lsda_addr :
  isCXXException cls = true ->
  writes e (__gxx_personality_v0 fuel t version actions cls (Ptr e 96) context lsda_addr).
Proof.
  intros Hcls. unfold __gxx_personality_v0. rewrite Hcls. cbn [negb]. cbv zeta.
  change (exceptionFromPointer (Ptr e 96)) with (Ptr e 0).
  unfold search_phase, cleanup_phase, handler_frame, continueUnwinding, install, saveLandingPad, loadLandingPad.
  writes_auto.
Qed.
End Personality.

Section Protocol.
Context {L : Linked} {M : Memory} {W : Words} {A : AddressSpace}.
Hypothesis pthreads : fakeTLS = false.
Hypothesis destructors_return : forall f, destructor_throws f = false.
Hypothesis unwinder_takes : forall again e s, unwind again e s = None.

Lemma cached_reachable ts e k s s' σ h :
  cached e s s' -> reachable ts s σ h -> live σ !! e = Some k -> k <> Raw -> reachable ts s' σ h.
Proof.
  intros Hc. induction Hc as [|s s1 s' (f & w & c & Hf & Hlive & ->) _ IH]; intros Hr Hk Hne; [done|].
  apply IH; try done. eapply scribbles; [done..|]. rewrite Hk. destruct k; [done|..];
    (repeat (apply elem_of_cons in Hf as [->|Hf]; [done|])); by apply not_elem_of_nil in Hf.
Qed.

(** C6. The personality function fits the protocol: whatever tables and
    types it meets, in either phase and in any frame, a call of it for an
    exception in flight leaves the runtime in a state of the same run, with
    the same stacks, owners and counts; so every theorem about the calls of
    Exception holds with the unwinder at work between them. *)
Theorem personality_keeps_protocol ts s σ h t u e fuel version actions cls context lsda_addr v s' :
  reachable ts s σ h -> Flying e ∈ stack_of t σ -> isCXXException cls = true ->
  __gxx_personality_v0 fuel u version actions cls (Ptr e 96) context lsda_addr s = Ok v s' ->
  reachable ts s' σ h.
Proof using pthreads destructors_return unwinder_takes.
  intros Hr Hf Hcls E. pose proof (writes_personality e fuel u version actions cls context lsda_addr Hcls s) as Hw.
  rewrite E in Hw. destruct (reachable_rel pthreads destructors_return unwinder_takes _ _ _ _ Hr) as (_ & HI & _).
  unfold stack_of in Hf. destruct (stacks σ !! t) as [st|] eqn:Hst; [|by apply not_elem_of_nil in Hf].
  destruct (inv_stack _ _ HI t st e Hst) as (k & Hk & Ht).
  { apply list_elem_of_fmap. by exists (Flying e). }
  eapply cached_reachable; [done..|]. by intros ->.
Qed.
End Protocol.

(** ** At a concrete input: the frame of PersonalityTheorems *)
Lemma personality_keeps_protocol_witness :
  exists s', @__gxx_personality_v0 plain_linked frame_memory no_words program_types 2 0 1 _UA_SEARCH_PHASE exception_class
      (Ptr (Heap 0) 96) frame 1000 thrown_D = Ok (Reason _URC_HANDLER_FOUND) s' /\
    exists σ h, @reachable plain_linked [0%nat] s' σ h.
Proof.
  destruct (@__gxx_personality_v0 plain_linked frame_memory no_words program_types 2 0 1 _UA_SEARCH_PHASE exception_class
      (Ptr (Heap 0) 96) frame 1000 thrown_D) as [v s'|s'|c|] eqn:E; [|by vm_compute in E..].
  assert (v = Reason _URC_HANDLER_FOUND) as Hv by (vm_compute in E; by injection E).
  exists s'. split; [by rewrite Hv|].
  assert (is_Some (@calls_of plain_linked [0%nat] [Allocate 0 8; Throw 0 (Heap 0) (Int 5) NULL])) as Hc
    by (vm_compute; by eexists).
  pose proof (@after_reachable plain_linked [0%nat] [Allocate 0 8; Throw 0 (Heap 0) (Int 5) NULL] Hc) as Hr.
  eexists _, _. refine (@personality_keeps_protocol plain_linked frame_memory no_words program_types eq_refl (fun _ => eq_refl)
    (fun _ _ _ => eq_refl) [0%nat] _ _ _ 0 0 (Heap 0) 2 1 _UA_SEARCH_PHASE exception_class frame 1000 v s' Hr _ eq_refl E).
  vm_compute. left.
Defined.
