(* ===== verification/DiagnosticsTheorems.v ===== *)
(** * What the default terminate handler prints *)
From S2P Require Import Prelude CString Platform Demangler CxaDemangle CxaDemangleTheorems TypeInfo TypeInfoTheorems ExnState ExnHandlers Exception Personality Diagnostics ExnRefine ExnSpec ExnTheorems PersonalityTheorems.

#[global] Open Scope Z_scope.

Section Theorems.
Context {P : Platform}.

(** The text for a type is its demangled name, or its name as it is. *)
Lemma type_text_spec nm heap :
  match @__cxa_demangle_gnu3 P (Some nm) (S heap) with
  | Ok (Some m) _ => exists text k, type_text nm heap = Ok text k /\ (m = Bytes text \/ text = nm)
  | Ok None _ => exists k, type_text nm heap = Ok nm k
  | Crash c => type_text nm heap = Crash c
  | Fail _ | NoFuel => False
  end.
Proof.
  unfold type_text. set (p := if malloc_ok heap 128 then Some heap else None).
  assert (Platform.malloc 128 heap = Ok p (S heap)) as Em by done.
  rewrite (bind_Ok _ _ _ _ _ Em).
  set (buf := match p with Some _ => Some 128 | None => None end).
  assert (buffer_ok buf (Some 128)) as Hb by (unfold buf; destruct p; [exists 128; done|done]).
  pose proof (cxa_demangle_shape (Some nm) buf (Some 128) (Some 0) (S heap) Hb) as H.
  destruct (__cxa_demangle_gnu3 (Some nm) (S heap)) as [[m|] k|k|c|]; try done.
  - destruct H as (s & r & k'' & -> & E & Hd). rewrite (bind_Ok _ _ _ _ _ E).
    destruct Hd as [(size & Hbuf & _ & _ & Hs)|[(Hbuf & _ & Hs) _]]; rewrite Hbuf, Hs; eexists _, _;
      (split; [done|]); [by left|by right].
  - destruct H as (r & E & Hbuf & _ & Hs). rewrite (bind_Ok _ _ _ _ _ E), Hbuf, Hs. by eexists.
  - by rewrite (bind_Crash _ _ _ _ H).
Qed.

Context {L : Linked} {W : Words} {A : AddressSpace} {D : Program}.

(** [std::exception] has no bases. *)
Hypothesis std_exception : ti_dyn typeid_exception = Class_.

Lemma what_text_spec ty object s : object <> 0 ->
  what_text ty object s
  = Ok (if is_class ty && (ti_addr typeid_exception =? ti_addr ty) then [Said (what object)] else []) s.
Proof using std_exception.
  intros Hne. unfold what_text. destruct (is_class ty); [|done]. cbn [andb].
  assert (cast_to typeid_exception object (ti_addr ty) tt
    = Ok (if ti_addr typeid_exception =? ti_addr ty then object else 0) tt) as E.
  { destruct typeid_exception as [a n k]. cbn in std_exception. subst k. done. }
  unfold with_local. rewrite (bind_Ok _ _ s _ s) by (by rewrite E). cbn beta iota.
  destruct (_ =? ti_addr ty); [by rewrite (proj2 (Z.eqb_neq _ _))|done].
Qed.

(** The documented part of [_Unwind_Backtrace]: it starts with the frame of its
    caller, and stops when the callback answers anything but
    [_URC_NO_REASON]. *)
Context (here : Z).
Hypothesis stops_at_reason : forall (f : Z -> list line * Z),
  (f here).2 <> _URC_NO_REASON -> _Unwind_Backtrace f = (f here).1.

(** C39. What the default handler prints for an exception that is being
    handled: its address and the name of its type; the text of [what] only
    for an object of class [std::exception] itself, not of a class derived
    from it, since the cast goes from [std::exception] to the thrown type; and
    no frame of the stack, since the first one, the handler's own, is left
    out, and the answer of the callback ends the walk there. *)
Theorem diagnostics_printed t heap s th e ex c a ty text k fn file g :
  fakeTLS = false -> infos s !! Some t = Some th -> caughtExceptions th = Ptr e 0 ->
  realExceptionFromException (Ptr e 0) s = Ok (Ptr ex 0) s ->
  live_block ex s = Some c -> header_fits c -> words c (offsetof exceptionType) = Int a -> type_at a = Some ty ->
  addr_of ex + sizeof_cxa_exception <> 0 ->
  type_text (name_at (name ty)) heap = Ok text k ->
  dladdr here = Some (fn, file) -> dladdr self = Some (g, file) ->
  terminate_with_diagnostics t heap s = Ok (Uncaught_exception (Ptr e 0) ::
    (if is_class ty && (ti_addr typeid_exception =? ti_addr ty)
     then [Said (what (addr_of ex + sizeof_cxa_exception))] else []) ++ [Of_type text]) s.
Proof using std_exception stops_at_reason.
  intros Hpt Hi Hca Hreal Hc Hf Ha Hty Hne Ht Hhere Hself. unfold terminate_with_diagnostics.
  assert (thread_info t s = Ok (Some (Some t)) s) as E1 by (unfold thread_info; by rewrite Hpt, Hi).
  assert (read_info (Some (Some t)) s = Ok th s) as E2 by (unfold read_info; by rewrite Hi).
  rewrite (bind_Ok _ _ _ _ _ E1), (bind_Ok _ _ _ _ _ E2), Hca, decide_False by done.
  assert (get (Ptr ex 0) exceptionType s = Ok (Int a) s) as E3.
  { destruct (ok_run (get (Ptr ex 0) exceptionType) s (fun w s' => w = Int a /\ s' = s)) as (? & ? & -> & -> & ->); [|done].
    by eapply ok_get. }
  assert (type_info_at (Int a) s = Ok ty s) as E4 by (cbn; by rewrite Hty).
  rewrite (bind_Ok _ _ _ _ _ Hreal), (bind_Ok _ _ _ _ _ E3), (bind_Ok _ _ _ _ _ E4).
  change (address (shift (Ptr ex 0) sizeof_cxa_exception)) with (addr_of ex + sizeof_cxa_exception).
  rewrite (bind_Ok _ _ _ _ _ (what_text_spec ty _ s Hne)).
  assert (with_local heap (type_text (name_at (name ty))) s = Ok (text, k) s) as E5 by (unfold with_local; by rewrite Ht).
  rewrite (bind_Ok _ _ _ _ _ E5). cbn beta iota.
  rewrite (stops_at_reason trace) by done. unfold trace. rewrite Hhere, Hself, decide_False by (by intros []).
  by rewrite app_nil_r.
Qed.
End Theorems.

(** ** At a concrete input: an object of class [D], caught *)
Definition some_program : Program := {|
  name_at _ := lit "1D";
  typeid_exception := TypeInfo 50 51 Class_;
  what _ := lit "std::exception";
  dladdr _ := Some (lit "f", lit "libcxxrt.so");
  self := 0;
  _Unwind_Backtrace _ f := (f 7).1;
|}.

Definition caught_D : runtime :=
  (@after plain_linked [0%nat] [Allocate 0 8; Throw 0 (Heap 0) (Int 5) NULL; BeginCatch 0 (Heap 0)]).1.1.

Lemma diagnostics_printed_witness :
  @terminate_with_diagnostics plain_linked no_words program_types plain_platform some_program 0 0 caught_D
  = Ok [Uncaught_exception (Ptr (Heap 0) 0); Of_type (lit "D")] caught_D.
Proof.
  assert (exists c th k, live_block (Heap 0) caught_D = Some c /\ header_fits c /\
    words c (offsetof exceptionType) = Int 5 /\ infos caught_D !! Some 0%nat = Some th /\
    caughtExceptions th = Ptr (Heap 0) 0 /\ @type_text plain_platform (lit "1D") 0%nat = Ok (lit "D") k)
    as (c & th & k & H1 & H2 & H3 & H4 & H5 & H6).
  { eexists _, _, _. split; [vm_compute; reflexivity|]. split; [vm_compute; discriminate|].
    split; [vm_compute; reflexivity|]. split; [vm_compute; reflexivity|]. split; [reflexivity|vm_compute; reflexivity]. }
  apply (@diagnostics_printed plain_platform plain_linked no_words program_types some_program eq_refl 7 (fun _ _ => eq_refl)
    0 0 caught_D th (Heap 0) (Heap 0) c 5 ti_D (lit "D") k (lit "f") (lit "libcxxrt.so") (lit "f"));
    [reflexivity|exact H4|exact H5|vm_compute; reflexivity|exact H1|exact H2|exact H3|reflexivity|discriminate|exact H6|
     reflexivity|reflexivity].
Defined.
