(* ===== verification/AuxTheorems.v ===== *)
(** * The helper functions throw what they say *)
From S2P Require Import Prelude ExnState ExnHandlers ExnAlloc Exception ExnSpec ExnSpecLemmas ExnRefine ExnSim ExnTheorems AuxHelper.

#[global] Open Scope Z_scope.

Section Throws.
Context {L : Linked} {Em : Emitted}.
Hypothesis pthreads : fakeTLS = false.
Hypothesis destructors_return : forall f, destructor_throws f = false.
Hypothesis unwinder_takes : forall again e s, unwind again e s = None.

(** The call of the protocol a helper comes to, on the block [e] *)
Definition throw_call (x : std_exception) (t : tid) (e : block) : call :=
  Throw t e (typeid x) (Fn (destructor x)).

(** [e] holds an object of the class [x], thrown as one. *)
Definition holds_object (x : std_exception) (e : block) (s : runtime) : Prop :=
  exists c, live_block e s = Some c /\ words c (offsetof exceptionType) = typeid x /\
    words c sizeof_cxa_exception = vtable x.

(** From a block just allocated *)
Lemma construct_and_throw ts s σ h t x b s1 st :
  reachable ts s σ h -> stacks σ !! t = Some st -> Z.of_nat (length st) < INT_MAX ->
  __cxa_allocate_exception t sizeof_object s = Ok (object_of b) s1 ->
  new_block (sizeof_object + sizeof_cxa_exception) s σ b s1 ->
  ok (construct x (object_of b);; __cxa_throw t (object_of b) (typeid x) (Fn (destructor x))) s1 (fun r s' =>
    r = Unwinding (Ptr b (offsetof unwindHeader)) /\ holds_object x b s' /\
    let σ1 := next (Allocate t sizeof_object) (object_of b) σ in
    reachable ts s' (next (throw_call x t b) (in_unwinder r) σ1) (throw_call x t b :: Allocate t sizeof_object :: h)).
Proof using pthreads destructors_return unwinder_takes.
  intros Hr Hst Hroom Ealloc (Hrel & Hnone & c & Hc & Hsize & _).
  change (sizeof_object + sizeof_cxa_exception) with 136 in Hsize.
  assert (reachable ts s1 (set_kind b Raw σ) (Allocate t sizeof_object :: h)) as Hr1.
  { eapply (returns ts s σ h (Allocate t sizeof_object) (object_of b) s1 Hr); [|exact Ealloc]. split; [by eexists|done]. }
  apply ok_bind. unfold construct, object_of. eapply (ok_store b sizeof_cxa_exception c); [done|change sizeof_cxa_exception with 128; lia|].
  set (c2 := write sizeof_cxa_exception (vtable x) c). set (s2 := put b c2 s1).
  assert (reachable ts s2 (set_kind b Raw σ) (Allocate t sizeof_object :: h)) as Hr2.
  { eapply scribbles; [exact Hr1|exact Hc|]. cbn [live set_kind]. by rewrite lookup_insert_eq. }
  destruct (reachable_rel pthreads destructors_return unwinder_takes _ _ _ _ Hr2) as (Hrel2 & HI2 & _).
  assert (live_block b s2 = Some c2) as Hc2 by (by eapply live_put).
  assert (live (set_kind b Raw σ) !! b = Some Raw) as Hraw by (cbn; apply lookup_insert_eq).
  pose proof (throw_ok pthreads unwinder_takes t b (typeid x) (Fn (destructor x)) st s2 _ Hrel2 HI2 Hst Hraw Hroom) as Ht.
  destruct (ok_run _ _ _ Ht) as (r & s' & E & -> & _ & Hw). unfold ok. rewrite E.
  destruct (Hw c2 Hc2) as (c' & Hc' & Hti & Hobj). split; [done|]. split.
  - exists c'. split; [done|]. split; [done|]. by rewrite Hobj.
  - cbv zeta. eapply (returns ts s2 _ _ (throw_call x t b) _ s' Hr2).
    + cbn. split; [by eexists|]. split; [done|]. split; [|by right; eexists].
      unfold room_on, stack_of. cbn [stacks set_kind]. rewrite Hst. by apply Z.ltb_lt.
    + cbn [run throw_call]. by rewrite (bind_Ok _ _ _ _ _ E).
Qed.

End Throws.

Definition some_emitted : Emitted := {|
  typeid x := Int (match x with exception => 10 | bad_alloc => 11 | bad_cast => 12 | bad_typeid => 13 | bad_array_new_length => 14 end);
  vtable _ := Int 77;
  destructor _ := User 5;
  exceptions := true;
|}.

