(* ===== verification/Ehabi.v ===== *)
(** * ARM EHABI

    What 32-bit ARM has in the place of the Itanium unwinder's interface: the
    inline functions of [unwind-arm.h], the preamble it gives the personality
    function, the branches of [exception.cc] for it, and the list of the
    exceptions whose clean-ups run ([pushCleanupException],
    [__cxa_get_cleanup]).  What the tables of a frame say is looked up as on
    other platforms ([Personality]); here it is given, in a [frame]. *)
From stdpp Require Export gmap.
From S2P Require Import Prelude DwarfEh ExnState Personality.

#[global] Open Scope Z_scope.

(** [_Unwind_Reason_Code] *)
Module Urc.
Definition _URC_OK : Z := 0.
Definition _URC_HANDLER_FOUND : Z := 6.
Definition _URC_INSTALL_CONTEXT : Z := 7.
Definition _URC_CONTINUE_UNWIND : Z := 8.
Definition _URC_FAILURE : Z := 9.
End Urc.
Export Urc.

(** [_Unwind_State] *)
Definition _US_VIRTUAL_UNWIND_FRAME : Z := 0.
Definition _US_UNWIND_FRAME_STARTING : Z := 1.
Definition _US_UNWIND_FRAME_RESUME : Z := 2.

(** What the unwinder gives: the virtual registers of a frame, and the step to
    the next frame. *)
Class Vrs := {
  vrs : Type;
  VRS_Get : vrs -> Z -> Z;
  VRS_Set : vrs -> Z -> Z -> vrs;
  gnu_unwind_frame : Z -> vrs -> Z * vrs;
}.

(** A register keeps the 32 bits last put in it. *)
Class VrsLaws `(Vrs) : Prop := {
  get_range c r : 0 <= VRS_Get c r < 2 ^ 32;
  get_set c r v : 0 <= v < 2 ^ 32 -> VRS_Get (VRS_Set c r v) r = v;
  get_set_ne c r r' v : r <> r' -> VRS_Get (VRS_Set c r v) r' = VRS_Get c r';
}.

(** ** Memory

    An exception, by the address of its [_Unwind_Exception]: of the unwinder's
    part the class and the barrier cache, of the [__cxa_exception] around it,
    if it is one of ours, the fields used here.  (The fields have the
    suffix [_] where the name has another use.) *)
Record exn := Exn {
  cls : Z;
  barrier_sp : Z;
  bitpattern_1 : Z;
  bitpattern_3 : Z;
  nextCleanup : Z;
  cleanupCount : Z;
  handlerSwitchValue_ : Z;
  catchTemp_ : Z;
}.

Definition set_barrier (sp b1 b3 : Z) (x : exn) : exn :=
  Exn (cls x) sp b1 b3 (nextCleanup x) (cleanupCount x) (handlerSwitchValue_ x) (catchTemp_ x).
Definition set_cleanup (next count : Z) (x : exn) : exn :=
  Exn (cls x) (barrier_sp x) (bitpattern_1 x) (bitpattern_3 x) next count (handlerSwitchValue_ x) (catchTemp_ x).
Definition set_saved (selector landingPad : Z) (x : exn) : exn :=
  Exn (cls x) (barrier_sp x) (bitpattern_1 x) (bitpattern_3 x) (nextCleanup x) (cleanupCount x) selector landingPad.

Section Ehabi.
Context {V : Vrs}.

(** What a thread works on: its [currentCleanup], None while it has no
    [__cxa_thread_info]; exceptions; the registers of the frame. *)
Record arm := Arm {
  currentCleanup : option Z;
  exns : gmap Z exn;
  context : vrs;
}.

Definition set_current (e : Z) (s : arm) : arm := Arm (Some e) (exns s) (context s).
Definition set_exns (h : gmap Z exn) (s : arm) : arm := Arm (currentCleanup s) h (context s).
Definition set_context (c : vrs) (s : arm) : arm := Arm (currentCleanup s) (exns s) c.

Abbreviation M := (comp arm).

(** [exceptionFromPointer]: the header of a [__cxa_exception] has 14 words of
    4 bytes before the unwinder's part. *)
Definition offsetof_unwindHeader : Z := 56.
Definition exceptionFromPointer (eo : Z) : Z := eo - offsetof_unwindHeader.

(** Reading and changing an exception *)
Definition at_exn (eo : Z) : M exn := fun s =>
  match exns s !! eo with
  | Some x => Ok x s
  | None => if eo =? 0 then Crash NullDeref else Crash UseAfterFree
  end.
Definition put_exn (eo : Z) (x : exn) : M unit := modify (fun s => set_exns (<[eo := x]> (exns s)) s).

(** [thread_info_fast()->currentCleanup] *)
Definition get_current : M Z := fun s =>
  match currentCleanup s with Some e => Ok e s | None => Crash NullDeref end.
Definition put_current (e : Z) : M unit := get_current;; modify (set_current e).

(** [int] arithmetic *)
Definition int32 (z : Z) : M Z :=
  if (- 2 ^ 31 <=? z) && (z <=? INT_MAX) then mret z else crashed SignedOverflow.

(** ** unwind-arm.h *)
Definition _Unwind_GetGR (reg : Z) : M Z := gets (fun s => VRS_Get (context s) reg).
Definition _Unwind_SetGR (reg val : Z) : M unit := modify (fun s => set_context (VRS_Set (context s) reg val) s).

Definition _Unwind_GetIP : M Z := ip ← _Unwind_GetGR 15; mret (Z.land ip (Z.lnot 1)).
Definition _Unwind_SetIP (val : Z) : M unit :=
  ip ← _Unwind_GetGR 15;
  _Unwind_SetGR 15 (Z.lor val (Z.land ip 1)).

Definition continueUnwinding (eo : Z) : M Z := fun s =>
  let '(r, c) := gnu_unwind_frame eo (context s) in
  Ok (if r =? _URC_OK then _URC_CONTINUE_UNWIND else _URC_FAILURE) (set_context c s).

(** [BEGIN_PERSONALITY_FUNCTION]: a result at once, or the [actions] *)
Definition begin_personality (state eo : Z) : M (Z + Z) :=
  x ← at_exn eo;
  actions ←
    (if state =? _US_VIRTUAL_UNWIND_FRAME then mret (inr _UA_SEARCH_PHASE)
     else if state =? _US_UNWIND_FRAME_STARTING then
       sp ← _Unwind_GetGR 13;
       mret (inr (if barrier_sp x =? sp then Z.lor _UA_CLEANUP_PHASE _UA_HANDLER_FRAME else _UA_CLEANUP_PHASE))
     else if state =? _US_UNWIND_FRAME_RESUME then r ← continueUnwinding eo; mret (inl r)
     else mret (inl _URC_FAILURE));
  match actions with
  | inl r => mret (inl r)
  | inr a => _Unwind_SetGR 12 eo;; mret (inr a)
  end.

(** ** The handler found in phase 1 *)
Definition saveLandingPad (eo ex selector landingPad : Z) : M unit :=
  sp ← _Unwind_GetGR 13;
  x ← at_exn eo;
  put_exn eo (set_barrier sp (selector mod 2 ^ 32) landingPad x);;
  if ex =? 0 then mret tt
  else x ← at_exn (ex + offsetof_unwindHeader);
       put_exn (ex + offsetof_unwindHeader) (set_saved selector landingPad x).

Definition loadLandingPad (eo : Z) : M (Z * Z) :=
  x ← at_exn eo; mret (bitpattern_1 x, bitpattern_3 x).

(** ** Clean-ups *)
Definition pushCleanupException (exceptionObject ex : Z) : M unit :=
  if ex =? 0 then put_current exceptionObject
  else
    x ← at_exn (ex + offsetof_unwindHeader);
    count ← int32 (cleanupCount x + 1);
    put_exn (ex + offsetof_unwindHeader) (set_cleanup (nextCleanup x) count x);;
    if 1 <? count then
      current ← get_current;
      assert_ (exceptionObject =? current)
    else
      current ← get_current;
      put_exn (ex + offsetof_unwindHeader) (set_cleanup current count x);;
      put_current exceptionObject.

Definition __cxa_get_cleanup : M Z :=
  exceptionObject ← get_current;
  x ← at_exn exceptionObject;
  (if isCXXException (cls x) then
     let ex := exceptionFromPointer exceptionObject in
     count ← int32 (cleanupCount x - 1);
     put_exn (ex + offsetof_unwindHeader) (set_cleanup (nextCleanup x) count x);;
     if count =? 0 then
       put_current (nextCleanup x);;
       put_exn (ex + offsetof_unwindHeader) (set_cleanup 0 count x)
     else mret tt
   else put_current 0);;
  mret exceptionObject.

(** ** __gxx_personality_v0

    What the tables of a frame say of the call in progress: where they are;
    the landing pad, None if no call site covers the call; what
    [check_action_record] finds and the selector it gives. *)
Record frame := Frame {
  lsda_addr : Z;
  callsite : option Z;
  found_handler : handler_type;
  selector : Z;
}.

(** [action.landing_pad]; [action] starts as zeros. *)
Definition landing_pad (f : frame) : Z := default 0 (callsite f).

Definition search_phase (f : frame) (eo ex : Z) : M Z :=
  match callsite f with
  | None => mret _URC_HANDLER_FOUND
  | Some pad =>
      match found_handler f with
      | handler_catch =>
          (if ex =? 0 then mret tt else saveLandingPad eo ex (signed 32 (selector f)) pad);;
          mret _URC_HANDLER_FOUND
      | _ => continueUnwinding eo
      end
  end.

Definition install_context (pad eo sel : Z) : M Z :=
  _Unwind_SetIP pad;;
  _Unwind_SetGR 0 eo;;
  _Unwind_SetGR 1 sel;;
  mret _URC_INSTALL_CONTEXT.

Definition cleanup_frame (f : frame) (eo ex : Z) : M Z :=
  if landing_pad f =? 0 then continueUnwinding eo
  else match found_handler f with
  | handler_cleanup => pushCleanupException eo ex;; install_context (landing_pad f) eo (selector f)
  | _ => continueUnwinding eo
  end.

Definition handler_frame (eo ex : Z) : M Z :=
  x ← at_exn (ex + offsetof_unwindHeader);
  if catchTemp_ x =? 0 then crashed Terminate
  else
    '(sel, pad) ← loadLandingPad eo;
    x ← at_exn (ex + offsetof_unwindHeader);
    put_exn (ex + offsetof_unwindHeader) (set_saved 0 0 x);;
    install_context pad eo sel.

Definition personality (state eo : Z) (f : frame) : M Z :=
  x ← at_exn eo;
  r ← begin_personality state eo;
  match r with
  | inl r => mret r
  | inr actions =>
      let foreignException := negb (isCXXException (cls x)) in
      let ex := if foreignException then 0 else exceptionFromPointer eo in
      if lsda_addr f =? 0 then continueUnwinding eo
      else if has_flag actions _UA_SEARCH_PHASE then search_phase f eo ex
      else if negb (has_flag actions _UA_HANDLER_FRAME) then cleanup_frame f eo ex
      else if foreignException then install_context (landing_pad f) eo (selector f)
      else handler_frame eo ex
  end.

(** ** __cxa_end_cleanup

    The registers the assembly names.  [clobbered] is what the call leaves in
    r1, r2 and r3, which a function need not keep. *)
Record cpu := Cpu { r0 : Z; r1 : Z; r2 : Z; r3 : Z; r4 : Z; lr : Z }.

(** The registers with which [_Unwind_Resume] is entered *)
Definition __cxa_end_cleanup (clobbered : Z * Z * Z) (return_address : Z) (c : cpu) : M cpu :=
  let pushed := (r1 c, r2 c, r3 c, r4 c) in
  let c := Cpu (r0 c) (r1 c) (r2 c) (r3 c) (lr c) (lr c) in
  eo ← __cxa_get_cleanup;
  let '(x1, x2, x3) := clobbered in
  let c := Cpu eo x1 x2 x3 (r4 c) return_address in
  let c := Cpu (r0 c) (r1 c) (r2 c) (r3 c) (r4 c) (r4 c) in
  let '(p1, p2, p3, p4) := pushed in
  mret (Cpu (r0 c) p1 p2 p3 p4 (lr c)).
End Ehabi.
