(* ===== verification/EhabiTheorems.v ===== *)
(** * ARM EHABI: theorems

    The list of clean-ups nests; the two phases of the personality function
    agree for what phase 1 saves, and what it does not save is not found
    again. *)
From S2P Require Import Prelude DwarfEh ExnState Personality Ehabi.

#[global] Open Scope Z_scope.

(** The accesses, and the steps that are one *)
Ltac access H := erewrite bind_Ok by (eapply H; cbn; solve [eauto | lia | unfold INT_MAX; lia | by rewrite lookup_insert_eq]); cbv beta iota.


Section Accesses.
Context {V : Vrs}.

Lemma at_exn_Ok s e x : exns s !! e = Some x -> at_exn e s = Ok x s.
Proof. unfold at_exn. by intros ->. Qed.
Lemma int32_Ok z s : 0 <= z <= INT_MAX -> int32 z s = Ok (A := Z) (S := arm) z s.
Proof. intros H. unfold int32. rewrite !(proj2 (Z.leb_le _ _)); [done | lia..]. Qed.
Lemma get_current_Ok s c : currentCleanup s = Some c -> get_current s = Ok c s.
Proof. unfold get_current. by intros ->. Qed.
Lemma put_current_Ok s c e : currentCleanup s = Some c -> put_current e s = Ok tt (set_current e s).
Proof. intros H. unfold put_current. by run get_current_Ok. Qed.

End Accesses.

(** ** The stack of clean-ups

    An exception with the number of its clean-ups in progress, the innermost
    first *)
Definition stack := list (Z * Z).

(** Another clean-up of [e]: of the innermost exception, or of one that has
    none *)
Definition push (e : Z) (st : stack) : option stack :=
  match st with
  | [] => Some [(e, 1)]
  | (e', n) :: r =>
      if e =? e' then if n <? INT_MAX then Some ((e, n + 1) :: r) else None
      else if bool_decide (e ∈ r.*1) then None else Some ((e, 1) :: st)
  end.

Section Cleanups.
Context {V : Vrs}.

Fixpoint chain (h : gmap Z exn) (current : Z) (st : stack) : Prop :=
  match st with
  | [] => current = 0
  | (e, n) :: st =>
      current = e /\ 0 < n <= INT_MAX /\
      exists x, h !! e = Some x /\ isCXXException (cls x) = true /\ cleanupCount x = n /\ chain h (nextCleanup x) st
  end.

(** There is an exception of ours at [e]. *)
Definition ours (s : arm) (e : Z) : Prop :=
  exists x, exns s !! e = Some x /\ isCXXException (cls x) = true.

(** The thread's list is [st]; exceptions that are not on it are as
    [__cxa_allocate_exception] leaves them. *)
Record tracks (s : arm) (st : stack) : Prop := {
  tr_distinct : NoDup st.*1;
  tr_chain : exists c, currentCleanup s = Some c /\ chain (exns s) c st;
  tr_header : forall e, ours s e -> exceptionFromPointer e <> 0;
  tr_idle : forall e x, exns s !! e = Some x -> isCXXException (cls x) = true -> e ∉ st.*1 ->
    nextCleanup x = 0 /\ cleanupCount x = 0;
}.

Lemma chain_frame h e x c st : e ∉ st.*1 -> chain h c st -> chain (<[e := x]> h) c st.
Proof.
  revert c. induction st as [|[e' n] st IH]; intros c He; [done|]. cbn in He |- *.
  apply not_elem_of_cons in He as [Hne He]. intros (-> & Hn & y & Hy & Hc & Hk & Hch).
  repeat split; [lia..|]. exists y. rewrite lookup_insert_ne by done. eauto.
Qed.

Lemma header_of e : exceptionFromPointer e + offsetof_unwindHeader = e.
Proof. unfold exceptionFromPointer. lia. Qed.

(** Putting back what was there *)
Lemma put_back s e x y n c :
  exns s !! e = Some x -> n = nextCleanup x -> c = cleanupCount x -> y = set_cleanup n c x ->
  Arm (currentCleanup s) (<[e := y]> (exns s)) (context s) = s.
Proof. intros H -> -> ->. rewrite insert_id; [by destruct s | by destruct x]. Qed.

(** A clean-up of the innermost exception, begun and ended *)
Lemma push_pop_again s e n r x :
  tracks s ((e, n) :: r) -> exns s !! e = Some x -> isCXXException (cls x) = true -> n < INT_MAX ->
  let s' := set_exns (<[e := set_cleanup (nextCleanup x) (n + 1) x]> (exns s)) s in
  pushCleanupException e (exceptionFromPointer e) s = Ok tt s' /\
  tracks s' ((e, n + 1) :: r) /\ __cxa_get_cleanup s' = Ok e s.
Proof.
  intros [Hd (c & Hcur & Hch) Hh Hi] Hx Hc Hlt s'. cbn in Hch.
  destruct Hch as (-> & Hn & y & Hy & _ & Hk & Hch). simplify_eq.
  assert (ours s e) as He by (eexists; eauto). cbn in Hd. apply NoDup_cons in Hd as [Hnin Hd].
  split; [|split].
  - unfold pushCleanupException. rewrite (proj2 (Z.eqb_neq _ _) (Hh _ He)), header_of.
    access at_exn_Ok. access int32_Ok. run1. rewrite (proj2 (Z.ltb_lt 1 _)) by lia.
    access get_current_Ok. by rewrite Z.eqb_refl.
  - constructor.
    + by apply NoDup_cons.
    + exists e. split; [done|]. cbn. split; [done|]. split; [lia|]. rewrite lookup_insert_eq.
      eexists; repeat split; eauto using chain_frame.
    + intros e' (z & Hz & Hcz). cbn in Hz. apply Hh. destruct (decide (e' = e)) as [->|]; [done|].
      rewrite lookup_insert_ne in Hz by done. by exists z.
    + intros e' z Hz Hcz Hnin'. cbn in Hz, Hnin'. apply not_elem_of_cons in Hnin' as [Hne Hnin'].
      rewrite lookup_insert_ne in Hz by done. eapply Hi; eauto. cbn. by apply not_elem_of_cons.
  - unfold __cxa_get_cleanup. access get_current_Ok. access at_exn_Ok. cbn [cls set_cleanup].
    rewrite Hc. cbn [cleanupCount set_cleanup nextCleanup]. rewrite header_of.
    rewrite bind_assoc. access int32_Ok. rewrite bind_assoc. run1. rewrite (proj2 (Z.eqb_neq _ 0)) by lia.
    run1. unfold mret, comp_ret. f_equal. unfold s', set_exns. cbn. rewrite insert_insert_eq.
    eapply put_back; eauto. destruct y; unfold set_cleanup; cbn. f_equal. lia.
Qed.

(** Of one that has none *)
Lemma push_pop_first s st e x :
  tracks s st -> exns s !! e = Some x -> isCXXException (cls x) = true -> e ∉ st.*1 ->
  exists s', pushCleanupException e (exceptionFromPointer e) s = Ok tt s' /\
    (forall e', ours s e' -> ours s' e') /\ tracks s' ((e, 1) :: st) /\ __cxa_get_cleanup s' = Ok e s.
Proof.
  intros [Hd (c & Hcur & Hch) Hh Hi] Hx Hc Hnin.
  assert (ours s e) as He by (eexists; eauto). destruct (Hi _ _ Hx Hc Hnin) as [Hnext Hcount].
  eexists (Arm (Some e) (<[e := set_cleanup c 1 x]> (exns s)) (context s)). split; [|split; [|split]].
  - unfold pushCleanupException. rewrite (proj2 (Z.eqb_neq _ _) (Hh _ He)), header_of.
    access at_exn_Ok. rewrite Hcount. access int32_Ok. run1.
    change (1 <? 0 + 1) with false. cbn iota.
    access get_current_Ok. run1. erewrite put_current_Ok by done. f_equal. cbn. unfold set_current. cbn.
    by rewrite insert_insert_eq.
  - intros e' (z & Hz & Hcz). destruct (decide (e' = e)) as [->|].
    + exists (set_cleanup c 1 x). cbn. by rewrite lookup_insert_eq.
    + exists z. cbn. by rewrite lookup_insert_ne.
  - constructor.
    + by apply NoDup_cons.
    + exists e. split; [done|]. cbn. repeat split; [done..|]. rewrite lookup_insert_eq.
      eexists; repeat split; eauto using chain_frame.
    + intros e' (z & Hz & Hcz). cbn in Hz. apply Hh. destruct (decide (e' = e)) as [->|]; [done|].
      rewrite lookup_insert_ne in Hz by done. by exists z.
    + intros e' z Hz Hcz Hnin'. cbn in Hz, Hnin'. apply not_elem_of_cons in Hnin' as [Hne Hnin'].
      rewrite lookup_insert_ne in Hz by done. by eapply Hi.
  - unfold __cxa_get_cleanup. access get_current_Ok. access at_exn_Ok. cbn [cls set_cleanup].
    rewrite Hc. cbn [cleanupCount set_cleanup nextCleanup]. rewrite header_of.
    rewrite bind_assoc. access int32_Ok. rewrite bind_assoc. run1. change (1 - 1 =? 0) with true. cbn iota.
    rewrite bind_assoc. access put_current_Ok. run1. unfold mret, comp_ret. f_equal. unfold set_exns, set_current. cbn. rewrite !insert_insert_eq.
    rewrite <- Hcur. eapply put_back; [eauto..|]. by destruct x; cbn in *; subst.
Qed.
(** What compiled code and the unwinder do to the list: the personality
    function enters a clean-up of an exception; the landing pad ends. *)
Inductive cleanup_op := Begin (e : Z) | End.

(** The exceptions the landing pads resume *)
Fixpoint drive (ops : list cleanup_op) : comp arm (list Z) :=
  match ops with
  | [] => mret []
  | Begin e :: ops => pushCleanupException e (exceptionFromPointer e);; drive ops
  | End :: ops =>
      e ← __cxa_get_cleanup;
      outs ← drive ops;
      mret (e :: outs)
  end.

(** Clean-ups that nest, and what has to be resumed at their ends *)
Inductive balanced (s : arm) : stack -> list cleanup_op -> list Z -> Prop :=
  | balanced_nil st : balanced s st [] []
  | balanced_nest st st' e inner rest outs outs' :
      ours s e -> push e st = Some st' ->
      balanced s st' inner outs -> balanced s st rest outs' ->
      balanced s st (Begin e :: inner ++ End :: rest) (outs ++ e :: outs').

Lemma push_pop s st e st' :
  tracks s st -> ours s e -> push e st = Some st' ->
  exists s', pushCleanupException e (exceptionFromPointer e) s = Ok tt s' /\
    (forall e', ours s e' -> ours s' e') /\ tracks s' st' /\ __cxa_get_cleanup s' = Ok e s.
Proof.
  intros Ht (x & Hx & Hc) Hp. destruct st as [|[e' n] r]; cbn in Hp.
  - injection Hp as <-. eapply push_pop_first; eauto. by apply not_elem_of_nil.
  - destruct (Z.eqb_spec e e') as [->|Hne].
    + destruct (Z.ltb_spec n INT_MAX); [|done]. injection Hp as <-.
      destruct (push_pop_again s e' n r x) as (H1 & H2 & H3); [done..|].
      eexists. split; [exact H1|]. split; [|by split].
      intros e (z & Hz & Hcz). unfold ours. cbn.
      destruct (decide (e = e')) as [->|]; [rewrite lookup_insert_eq | rewrite lookup_insert_ne by done]; eauto.
    + case_bool_decide; [done|]. injection Hp as <-. eapply push_pop_first; eauto.
      by apply not_elem_of_cons.
Qed.

Lemma drive_app ops ops' s outs s' :
  drive ops s = Ok outs s' -> drive (ops ++ ops') s = (outs' ← drive ops'; mret (outs ++ outs')) s'.
Proof.
  revert s outs. induction ops as [|[e|] ops IH]; intros s outs H.
  - injection H as <- <-. cbn. unfold mbind, comp_bind. by destruct (drive ops' s).
  - cbn in H |- *. unfold mbind at 1, comp_bind at 1 in H. unfold mbind at 1, comp_bind at 1.
    destruct (pushCleanupException e _ s); try done. by apply IH.
  - cbn in H |- *. unfold mbind at 1, comp_bind at 1 in H. unfold mbind at 1, comp_bind at 1.
    destruct (__cxa_get_cleanup s) as [e s1| | |]; try done.
    unfold mbind at 1, comp_bind at 1 in H. destruct (drive ops s1) as [os s2| | |] eqn:Ho; try done.
    injection H as <- <-. unfold mbind at 1, comp_bind at 1. rewrite (IH _ _ Ho).
    unfold mbind, comp_bind, mret, comp_ret. by destruct (drive ops' s2).
Qed.

Lemma balanced_mono s s' st ops outs :
  (forall e, ours s e -> ours s' e) -> balanced s st ops outs -> balanced s' st ops outs.
Proof. intros H. induction 1; econstructor; eauto. Qed.

(** The list does not survive a foreign exception.  Its
    clean-up is resumed rightly, but the exceptions whose clean-ups it
    interrupted are forgotten: the end of the next one reads through a null
    pointer.  In a thread that has not used the runtime before, entering the
    clean-up already does. *)
Theorem foreign_cleanup_loses_list s f x :
  exns s !! f = Some x -> isCXXException (cls x) = false -> exns s !! 0 = None ->
  match currentCleanup s with
  | None => pushCleanupException f 0 s = Crash NullDeref
  | Some _ => exists s', (pushCleanupException f 0;; __cxa_get_cleanup) s = Ok f s' /\
      exns s' = exns s /\ __cxa_get_cleanup s' = Crash NullDeref
  end.
Proof.
  intros Hx Hc H0. unfold pushCleanupException. change (0 =? 0) with true. cbn iota.
  destruct (currentCleanup s) as [c|] eqn:Hcur.
  - eexists (set_current 0 (set_current f s)). split; [|split; [done|]].
    + access put_current_Ok. unfold __cxa_get_cleanup. access get_current_Ok. access at_exn_Ok.
      rewrite Hc. by access put_current_Ok.
    + unfold __cxa_get_cleanup. access get_current_Ok. erewrite bind_Crash; [done|].
      unfold at_exn. cbn. by rewrite H0.
  - unfold put_current. erewrite bind_Crash; [done|]. unfold get_current. by rewrite Hcur.
Qed.
End Cleanups.

(** ** The two phases *)
Section Phases.
Context {V : Vrs} {VL : VrsLaws V}.

(** What the personality function has done before it looks at the frame *)
Definition started (s : arm) (eo : Z) : arm := set_context (VRS_Set (context s) 12 eo) s.

Definition stack_pointer (s : arm) : Z := VRS_Get (context s) 13.

Lemma search_starts s eo x f :
  exns s !! eo = Some x -> lsda_addr f <> 0 ->
  personality _US_VIRTUAL_UNWIND_FRAME eo f s =
    search_phase f eo (if isCXXException (cls x) then exceptionFromPointer eo else 0) (started s eo).
Proof.
  intros Hx Hl. unfold personality, begin_personality. access at_exn_Ok. rewrite bind_assoc. access at_exn_Ok.
  rewrite !bind_assoc. run1. rewrite bind_assoc. run1. rewrite bind_ret.
  rewrite (proj2 (Z.eqb_neq _ _) Hl). cbn. by destruct (isCXXException (cls x)).
Qed.

(** Phase 2: the frame is the handler's if its stack pointer is the saved one. *)
Lemma phase2_starts s eo x f :
  exns s !! eo = Some x -> lsda_addr f <> 0 ->
  let own := isCXXException (cls x) in
  let ex := if own then exceptionFromPointer eo else 0 in
  personality _US_UNWIND_FRAME_STARTING eo f s =
    (if barrier_sp x =? stack_pointer s
     then if own then handler_frame eo ex else install_context (landing_pad f) eo (selector f)
     else cleanup_frame f eo ex) (started s eo).
Proof.
  intros Hx Hl own ex. unfold personality, begin_personality. access at_exn_Ok. rewrite bind_assoc. access at_exn_Ok.
  rewrite !bind_assoc. change (_US_UNWIND_FRAME_STARTING =? _US_VIRTUAL_UNWIND_FRAME) with false.
  change (_US_UNWIND_FRAME_STARTING =? _US_UNWIND_FRAME_STARTING) with true. cbn iota.
  rewrite bind_assoc. run1. rewrite bind_ret. cbn beta iota. rewrite bind_assoc. run1. rewrite bind_ret.
  rewrite (proj2 (Z.eqb_neq _ _) Hl). unfold own, ex, stack_pointer.
  destruct (_ =? _); destruct (isCXXException (cls x)); done.
Qed.
Lemma lor_range a b : 0 <= a < 2 ^ 32 -> 0 <= b < 2 ^ 32 -> 0 <= Z.lor a b < 2 ^ 32.
Proof.
  intros Ha Hb. replace (Z.lor a b) with (Z.lor a b mod 2 ^ 32); [by apply Z.mod_pos_bound|].
  rewrite <- Z.land_ones, Z.land_lor_distr_l, !Z.land_ones by lia. by rewrite !Z.mod_small.
Qed.

Lemma signed_mod v : 0 <= v < 2 ^ 32 -> signed 32 v mod 2 ^ 32 = v.
Proof.
  intros H. unfold signed. rewrite (Z.mod_small v) by done. destruct (_ <? _); [by apply Z.mod_small|].
  replace (v - 2 ^ 32) with (v + (-1) * 2 ^ 32) by lia. rewrite Z.mod_add by done. by apply Z.mod_small.
Qed.

(** Where the thread goes on: the instruction set is still the one the frame
    uses. *)
Definition entered (pad eo sel : Z) (before after : arm) : Prop :=
  VRS_Get (context after) 15 = Z.lor pad (Z.land (VRS_Get (context before) 15) 1) /\
  VRS_Get (context after) 0 = eo /\ VRS_Get (context after) 1 = sel.

Lemma install_context_spec pad eo sel s :
  0 <= pad < 2 ^ 32 -> 0 <= eo < 2 ^ 32 -> 0 <= sel < 2 ^ 32 ->
  exists s', install_context pad eo sel s = Ok _URC_INSTALL_CONTEXT s' /\ entered pad eo sel s s' /\ exns s' = exns s.
Proof.
  intros Hp He Hs. eexists. split; [|split].
  - unfold install_context, _Unwind_SetIP. rewrite bind_assoc. run1. run1. run1. run1. reflexivity.
  - pose proof (get_range (context s) 15) as Hip.
    assert (0 <= Z.land (VRS_Get (context s) 15) 1 < 2 ^ 32).
    { change 1 with (Z.ones 1). rewrite Z.land_ones by lia. pose proof (Z.mod_pos_bound (VRS_Get (context s) 15) (2 ^ 1)). lia. }
    repeat split; cbn; rewrite ?get_set_ne by lia; apply get_set; try apply lor_range; lia.
  - done.
Qed.

(** C37. On ARM, the two phases agree on what phase 1 saves.  When phase
    1 finds a handler in a frame for an exception of ours, phase 2, whatever
    happened in between to anything but that exception, enters the landing pad
    and selector found then, if the frame is the one with the same stack
    pointer, in the instruction set of the frame, and clears what was saved;
    every other frame it treats as one to clean up. *)
Theorem ehabi_phases_agree s eo x f pad :
  exns s !! eo = Some x -> isCXXException (cls x) = true -> 0 <= eo < 2 ^ 32 -> exceptionFromPointer eo <> 0 ->
  lsda_addr f <> 0 -> callsite f = Some pad -> 0 < pad < 2 ^ 32 ->
  found_handler f = handler_catch -> 0 <= selector f < 2 ^ 32 ->
  exists s1, personality _US_VIRTUAL_UNWIND_FRAME eo f s = Ok _URC_HANDLER_FOUND s1 /\
  forall s2 f2, exns s2 !! eo = exns s1 !! eo -> lsda_addr f2 <> 0 ->
    if stack_pointer s2 =? stack_pointer s
    then exists s3, personality _US_UNWIND_FRAME_STARTING eo f2 s2 = Ok _URC_INSTALL_CONTEXT s3 /\
      entered pad eo (selector f) s2 s3 /\
      (fun x => (catchTemp_ x, handlerSwitchValue_ x)) <$> exns s3 !! eo = Some (0, 0)
    else personality _US_UNWIND_FRAME_STARTING eo f2 s2 = cleanup_frame f2 eo (exceptionFromPointer eo) (started s2 eo).
Proof.
  intros Hx Hc Heo Hex Hl Hcs Hpad Hf Hsel.
  set (x1 := set_saved (signed 32 (selector f)) pad (set_barrier (stack_pointer s) (signed 32 (selector f) mod 2 ^ 32) pad x)).
  exists (set_exns (<[eo := x1]> (exns s)) (started s eo)). split.
  - erewrite search_starts by done. rewrite Hc. unfold search_phase. rewrite Hcs, Hf.
    rewrite (proj2 (Z.eqb_neq _ 0)) by done. unfold saveLandingPad. rewrite bind_assoc. run1.
    rewrite bind_assoc. access at_exn_Ok. rewrite bind_assoc. run1. rewrite (proj2 (Z.eqb_neq _ 0)) by done.
    rewrite header_of, bind_assoc. access at_exn_Ok. run1. cbn. unfold set_exns, mret, comp_ret. f_equal. f_equal. cbn.
    rewrite insert_insert_eq. unfold x1, stack_pointer. by rewrite get_set_ne.
  - intros s2 f2 H2 Hl2. cbn in H2. rewrite lookup_insert_eq in H2. erewrite phase2_starts by done.
    change (cls x1) with (cls x). rewrite Hc, Z.eqb_sym. change (barrier_sp x1) with (stack_pointer s).
    destruct (_ =? _); [|done].
    unfold handler_frame. rewrite header_of. access at_exn_Ok. change (catchTemp_ x1) with pad.
    rewrite (proj2 (Z.eqb_neq pad 0)) by lia. unfold loadLandingPad. rewrite bind_assoc. access at_exn_Ok.
    rewrite bind_ret. cbn beta iota. access at_exn_Ok. run1.
    destruct (install_context_spec pad eo (bitpattern_1 x1) (set_exns (<[eo := set_saved 0 0 x1]> (exns (started s2 eo))) (started s2 eo)))
      as (s3 & H3 & He & Hs3); [lia|done|by apply Z.mod_pos_bound|].
    exists s3. split; [exact H3|]. rewrite Hs3. cbn. rewrite lookup_insert_eq. split; [|done].
    destruct He as (H15 & H0 & H1). cbn in H1. rewrite signed_mod in H1 by done.
    repeat split; [|done..]. rewrite H15. cbn. by rewrite get_set_ne.
Qed.

(** What phase 1 does not save, phase 2 on ARM does not find.  For a
    call that no call site covers, and for a foreign exception with a handler
    in the frame, phase 1 reports a handler without saving the stack pointer
    of the frame; phase 2 then takes the same frame for one without a
    handler and goes on unwinding, past the handler, and without the call of
    [std::terminate] that is meant for the former. *)
Theorem ehabi_handler_frame_missed s eo x f :
  exns s !! eo = Some x -> lsda_addr f <> 0 -> stack_pointer s <> barrier_sp x ->
  callsite f = None \/ isCXXException (cls x) = false /\ found_handler f = handler_catch ->
  exists s1, personality _US_VIRTUAL_UNWIND_FRAME eo f s = Ok _URC_HANDLER_FOUND s1 /\
  forall s2, exns s2 !! eo = exns s1 !! eo -> stack_pointer s2 = stack_pointer s ->
    personality _US_UNWIND_FRAME_STARTING eo f s2 = continueUnwinding eo (started s2 eo).
Proof.
  intros Hx Hl Hsp Hf. exists (started s eo). split.
  - erewrite search_starts by done. unfold search_phase. destruct Hf as [->|[-> ->]]; [done|]. by destruct (callsite f).
  - intros s2 H2 Hsp2. cbn in H2. rewrite Hx in H2. erewrite phase2_starts by done.
    rewrite Hsp2, Z.eqb_sym, (proj2 (Z.eqb_neq _ _) Hsp). unfold cleanup_frame, landing_pad.
    destruct Hf as [->|[_ ->]]; [done|]. by destruct (default 0 (callsite f) =? 0).
Qed.
End Phases.

(** ** Witnesses *)

(** A frame's registers as a function; the next frame has the same. *)
#[export] Instance plain_vrs : Vrs := {
  vrs := Z -> Z;
  VRS_Get c r := c r mod 2 ^ 32;
  VRS_Set c r v := fun r' => if r' =? r then v else c r';
  gnu_unwind_frame _ c := (_URC_OK, c);
}.

#[export] Instance plain_vrs_laws : VrsLaws plain_vrs.
Proof.
  split.
  - intros c r. by apply Z.mod_pos_bound.
  - intros c r v H. cbn. rewrite Z.eqb_refl. by apply Z.mod_small.
  - intros c r r' v H. cbn. by rewrite (proj2 (Z.eqb_neq r' r)).
Defined.

(** Two exceptions of ours, at 1000 and 2000, and a foreign one at 3000; the
    frame's stack pointer is 64 and its instructions are Thumb. *)
Definition thrown : exn := Exn exception_class 0 0 0 0 0 0 0.
Definition foreign : exn := Exn 1 0 0 0 0 0 0 0.
Definition sample : arm :=
  Arm (Some 0) (<[1000 := thrown]> (<[2000 := thrown]> (<[3000 := foreign]> ∅)))
    (fun r => if r =? 13 then 64 else if r =? 15 then 4097 else 0).

Lemma sample_tracks : tracks sample [].
Proof.
  assert (forall e x, exns sample !! e = Some x -> (e = 1000 \/ e = 2000 \/ e = 3000) /\ nextCleanup x = 0 /\ cleanupCount x = 0).
  { intros e x. cbn. rewrite !lookup_insert_Some, lookup_empty.
    intros [[<- <-]|[_ [[<- <-]|[_ [[<- <-]|[_ ?]]]]]]; cbn; auto 6; done. }
  split; [constructor| by exists 0 | | by intros e x Hx; destruct (H e x Hx)].
  intros e (x & Hx & _). by destruct (H _ _ Hx) as [[->|[->| ->]] _].
Defined.


Lemma foreign_cleanup_loses_list_witness : exists s',
  (pushCleanupException 3000 0;; __cxa_get_cleanup) (set_current 1000 sample) = Ok 3000 s' /\
  exns s' = exns sample /\ __cxa_get_cleanup s' = Crash NullDeref.
Proof. exact (foreign_cleanup_loses_list (set_current 1000 sample) 3000 foreign eq_refl eq_refl eq_refl). Defined.

Definition catching : frame := Frame 500 (Some 8192) handler_catch 7.

Lemma ehabi_phases_agree_witness : exists s1,
  personality _US_VIRTUAL_UNWIND_FRAME 1000 catching sample = Ok _URC_HANDLER_FOUND s1 /\
  exists s3, personality _US_UNWIND_FRAME_STARTING 1000 catching (Arm (Some 0) (exns s1) (context sample)) =
    Ok _URC_INSTALL_CONTEXT s3 /\ VRS_Get (context s3) 15 = 8193 /\ VRS_Get (context s3) 1 = 7.
Proof.
  destruct (ehabi_phases_agree sample 1000 thrown catching 8192 eq_refl eq_refl ltac:(lia) ltac:(done) ltac:(done) eq_refl ltac:(lia) eq_refl ltac:(cbn; lia))
    as (s1 & H1 & H2).
  exists s1. split; [exact H1|].
  destruct (H2 (Arm (Some 0) (exns s1) (context sample)) catching eq_refl ltac:(done)) as (s3 & H3 & (He & _ & Hs) & _).
  exists s3. split; [exact H3|]. split; [exact He | exact Hs].
Defined.

(** The foreign exception passes the frame that catches it. *)
Lemma ehabi_handler_frame_missed_witness : exists s1,
  personality _US_VIRTUAL_UNWIND_FRAME 3000 catching sample = Ok _URC_HANDLER_FOUND s1 /\
  exists s3, personality _US_UNWIND_FRAME_STARTING 3000 catching (Arm (Some 0) (exns s1) (context sample)) =
    Ok _URC_CONTINUE_UNWIND s3.
Proof.
  destruct (ehabi_handler_frame_missed sample 3000 foreign catching eq_refl ltac:(done) ltac:(done) (or_intror (conj eq_refl eq_refl)))
    as (s1 & H1 & H2).
  exists s1. split; [exact H1|]. eexists. rewrite (H2 (Arm (Some 0) (exns s1) (context sample)) eq_refl eq_refl). reflexivity.
Defined.
