(* ===== verification/ThreadInfo.v ===== *)
(** * Where a thread keeps its information

    The set-up behind [thread_info] in [exception.cc]: [init_key], the
    thread-local slot it makes, and the static structure used when there is
    none; over what POSIX says of [pthread_once] and of keys.  [ExnHandlers]
    takes a thread's information by its key; here that is shown to be sound. *)
From stdpp Require Export gmap.
From S2P Require Import Prelude ExnState.

#[global] Open Scope Z_scope.

(** A process as it is linked and run: which functions of pthreads there are
    (they are weak symbols); whether [pthread_once] reports success; the key
    the [n]-th [pthread_key_create] makes, None when there are too many; which
    [pthread_setspecific] of an existing key find memory, by thread; the
    address the [n]-th [calloc] gives. *)
Class Posix := {
  have_key_create : bool;
  have_setspecific : bool;
  have_getspecific : bool;
  have_once : bool;
  once_ok : bool;
  new_key : nat -> option Z;
  set_ok : tid -> bool;
  calloc_at : nat -> option Z;
}.

(** Pointers are addresses; [&singleThreadInfo] is one of them. *)
Definition singleThreadInfo : Z := -1.

(** [keys]: those anybody in the process has made; [slots]: the value of a
    key for a thread, 0 if there is none. *)
Record tls := Tls {
  once_control : bool;
  fakeTLS : bool;
  eh_key : Z;
  keys : gset Z;
  slots : gmap (tid * Z) Z;
  keys_made : nat;
  callocs : nat;
}.

Section ThreadInfo.
Context {P : Posix}.

Definition set_fakeTLS (b : bool) (s : tls) : tls :=
  Tls (once_control s) b (eh_key s) (keys s) (slots s) (keys_made s) (callocs s).
Definition set_slots (m : gmap (tid * Z) Z) (s : tls) : tls :=
  Tls (once_control s) (fakeTLS s) (eh_key s) (keys s) m (keys_made s) (callocs s).

(** ** pthreads *)
Definition pthread_key_create : comp tls unit := fun s =>
  match new_key (keys_made s) with
  | Some k => Ok tt (Tls (once_control s) (fakeTLS s) k ({[k]} ∪ keys s) (slots s) (S (keys_made s)) (callocs s))
  | None => Ok tt (Tls (once_control s) (fakeTLS s) (eh_key s) (keys s) (slots s) (S (keys_made s)) (callocs s))
  end.

Definition pthread_setspecific (t : tid) (v : Z) : comp tls unit := fun s =>
  Ok tt (if bool_decide (eh_key s ∈ keys s) && set_ok t then set_slots (<[(t, eh_key s) := v]> (slots s)) s else s).

Definition pthread_getspecific (t : tid) : comp tls Z :=
  gets (fun s => if bool_decide (eh_key s ∈ keys s) then default 0 (slots s !! (t, eh_key s)) else 0).

Definition calloc_info : comp tls Z := fun s =>
  Ok (default 0 (calloc_at (callocs s)))
     (Tls (once_control s) (fakeTLS s) (eh_key s) (keys s) (slots s) (keys_made s) (S (callocs s))).

(** ** exception.cc *)
Definition init_key (t : tid) : comp tls unit :=
  if negb have_key_create || negb have_setspecific || negb have_getspecific then modify (set_fakeTLS true)
  else
    pthread_key_create;;
    pthread_setspecific t 0x42;;
    v ← pthread_getspecific t;
    modify (set_fakeTLS (negb (v =? 0x42)));;
    pthread_setspecific t 0.

(** True for an error, as the code tests it *)
Definition pthread_once (t : tid) : comp tls bool := fun s =>
  if once_ok then
    if once_control s then Ok false s
    else (init_key t;; mret false) (Tls true (fakeTLS s) (eh_key s) (keys s) (slots s) (keys_made s) (callocs s))
  else Ok true s.

Definition thread_info (t : tid) : comp tls Z :=
  failed_once ← (if negb have_once then mret true else pthread_once t);
  (if (failed_once : bool) then modify (set_fakeTLS true) else mret tt);;
  fake ← gets fakeTLS;
  if (fake : bool) then mret singleThreadInfo
  else
    info ← pthread_getspecific t;
    if info =? 0 then
      info ← calloc_info;
      pthread_setspecific t info;;
      mret info
    else mret info.

Definition thread_info_fast (t : tid) : comp tls Z :=
  fake ← gets fakeTLS;
  if (fake : bool) then mret singleThreadInfo else pthread_getspecific t.

(** The address of [globals], which comes [sizeof] of the members before it
    after the start *)
Definition offsetof_globals : Z := 40.

Definition __cxa_get_globals (t : tid) : comp tls Z := info ← thread_info t; mret (info + offsetof_globals).
Definition __cxa_get_globals_fast (t : tid) : comp tls Z := info ← thread_info_fast t; mret (info + offsetof_globals).
(** ** What threads get *)

(** When the process starts; [others] are the keys of its other libraries. *)
Definition start (others : gset Z) (values : gmap (tid * Z) Z) : tls := Tls false false 0 others values 0 0.

Definition tls_works : Prop :=
  (have_key_create && have_setspecific && have_getspecific && have_once && once_ok) = true.

(** [k] is our key; [m] says which [calloc] made the information a thread has
    in its slot. *)
Record ready (k : Z) (m : gmap tid nat) (s : tls) : Prop := {
  rd_once : once_control s = true;
  rd_tls : fakeTLS s = false;
  rd_key : eh_key s = k;
  rd_made : k ∈ keys s;
  rd_slot : forall t, default 0 (slots s !! (t, k)) =
    match m !! t with Some j => default 0 (calloc_at j) | None => 0 end;
  rd_old : forall t j, m !! t = Some j -> (j < callocs s)%nat /\ set_ok t = true;
  rd_inj : forall t u j, m !! t = Some j -> m !! u = Some j -> t = u;
}.

Lemma setspecific_ready k m s t v : ready k m s ->
  pthread_setspecific t v s = Ok tt (if set_ok t then set_slots (<[(t, k) := v]> (slots s)) s else s).
Proof. intros []. unfold pthread_setspecific. subst k. by rewrite bool_decide_true. Qed.

Lemma getspecific_ready k m s t : ready k m s ->
  pthread_getspecific t s = Ok (match m !! t with Some j => default 0 (calloc_at j) | None => 0 end) s.
Proof. intros []. unfold pthread_getspecific, gets. subst k. rewrite bool_decide_true by done. by rewrite rd_slot0. Qed.

Lemma once_done k m s t : tls_works -> ready k m s ->
  (if negb have_once then mret true else pthread_once t) s = Ok false s.
Proof.
  intros Hw []. unfold tls_works in Hw. rewrite !andb_true_iff in Hw. destruct Hw as [[_ Ho] Hok].
  rewrite Ho. cbn. unfold pthread_once. by rewrite Hok, rd_once0.
Qed.

Context (Hcalloc : forall n, exists a, calloc_at n = Some a /\ 0 < a).
Context (Hfresh : forall n n', calloc_at n = calloc_at n' -> n = n').

Definition info_at (n : nat) : Z := default 0 (calloc_at n).

Lemma info_positive n : 0 < info_at n.
Proof using Hcalloc. unfold info_at. by destruct (Hcalloc n) as (a & -> & ?). Qed.

Lemma info_inj n n' : info_at n = info_at n' -> n = n'.
Proof using Hcalloc Hfresh.
  unfold info_at. intros H. apply Hfresh. destruct (Hcalloc n) as (a & Ha & _), (Hcalloc n') as (a' & Ha' & _).
  rewrite Ha, Ha' in *. cbn in H. by subst.
Qed.

(** One call: the information in the slot, or new information, in the slot if
    the slot can be set *)
Lemma thread_info_ready k m s t : tls_works -> ready k m s ->
  exists j m' s', thread_info t s = Ok (info_at j) s' /\ ready k m' s' /\ (callocs s <= callocs s')%nat /\
    (m !! t = Some j /\ m' = m \/
     m !! t = None /\ j = callocs s /\ (j < callocs s')%nat /\ m' = if set_ok t then <[t := j]> m else m).
Proof using Hcalloc Hfresh.
  intros Hw Hr. unfold thread_info. erewrite bind_Ok by (by eapply once_done). cbn beta iota. run1.
  rewrite (bind_Ok _ _ s false s) by (unfold gets; by rewrite (rd_tls _ _ _ Hr)). cbn iota.
  erewrite bind_Ok by (by eapply getspecific_ready). destruct (m !! t) as [j|] eqn:Hm.
  - pose proof (info_positive j). unfold info_at in *. rewrite (proj2 (Z.eqb_neq _ 0)) by lia.
    exists j, m, s. by split; [|split; [|split; [lia|left]]].
  - cbn. run1. set (s1 := Tls _ _ _ _ _ _ _).
    assert (ready k m s1) as Hr1.
    { destruct Hr as [? ? ? ? ? Hold ?]. constructor; try done. intros u j Hu. destruct (Hold u j Hu). cbn. split; [lia|done]. }
    erewrite bind_Ok by (by eapply setspecific_ready). eexists (callocs s), _, _. split; [reflexivity|].
    split; [|split; [|right; split; [done|]; split; [done|]; split; [|reflexivity]]]; cbn.
    2, 3: by destruct (set_ok t); cbn; lia.
    destruct (set_ok t) eqn:Hok; [|done]. destruct Hr1 as [? ? ? ? Hslot Hold Hinj]. constructor; try done.
    + intros u. cbn. destruct (decide (u = t)) as [->|Hne]; [by rewrite !lookup_insert_eq|].
      rewrite !lookup_insert_ne by congruence. apply Hslot.
    + intros u j Hu. cbn. destruct (decide (u = t)) as [->|Hne].
      * rewrite lookup_insert_eq in Hu. injection Hu as <-. split; [lia|done].
      * rewrite lookup_insert_ne in Hu by done. by apply Hold.
    + intros u v j Hu Hv. assert (forall w, m !! w = Some (callocs s) -> False) as Hnew.
      { intros w Hw'. destruct Hr as [_ _ _ _ _ Hold' _]. destruct (Hold' _ _ Hw'). lia. }
      revert Hu Hv. rewrite !lookup_insert_Some. intros [[<- <-]|[_ Hu]] [[<- E]|[_ Hv]]; [done|..].
      * by destruct (Hnew v).
      * subst. by destruct (Hnew u).
      * by eapply Hinj.
Qed.
(** What is known of the results [ps] of calls by the threads [ts] between
    two states *)
Record given (m : gmap tid nat) (s : tls) (ts : list tid) (ps : list Z) (m' : gmap tid nat) (s' : tls) : Prop := {
  gv_length : length ps = length ts;
  gv_grows : m ⊆ m' /\ (callocs s <= callocs s')%nat;
  gv_each : forall i t p, ts !! i = Some t -> ps !! i = Some p -> exists j, p = info_at j /\
    (m !! t = Some j \/ m !! t = None /\ (callocs s <= j)%nat) /\ (set_ok t = true -> m' !! t = Some j);
  gv_distinct : forall i j t u p, (i < j)%nat -> ts !! i = Some t -> ts !! j = Some u ->
    ps !! i = Some p -> ps !! j = Some p -> t = u /\ set_ok t = true;
}.

Lemma run_ready k m s ts : tls_works -> ready k m s ->
  exists ps m' s', mapM thread_info ts s = Ok ps s' /\ ready k m' s' /\ given m s ts ps m' s'.
Proof using Hcalloc Hfresh.
  intros Hw. revert m s. induction ts as [|t ts IH]; intros m s Hr.
  { exists [], m, s. split; [done|]. split; [done|]. constructor; [done|done|..]; by intros []. }
  destruct (thread_info_ready k m s t Hw Hr) as (j & m1 & s1 & H1 & Hr1 & Hle & Hj).
  destruct (IH m1 s1 Hr1) as (ps & m' & s' & Hrun & Hr' & [Hlen [Hsub Hle'] Heach Hdist]).
  assert (m ⊆ m1) as Hsub1.
  { destruct Hj as [[_ ->]|(Hn & _ & _ & ->)]; [done|]. destruct (set_ok t); [|done]. by apply insert_subseteq. }
  assert (forall u, m1 !! u = None -> m !! u = None) as Hnone.
  { intros u Hu. by eapply lookup_weaken_None. }
  exists (info_at j :: ps), m', s'. split; [|split; [done|constructor]].
  - cbn [mapM]. erewrite bind_Ok by exact H1. by erewrite bind_Ok by exact Hrun.
  - cbn. by f_equal.
  - split; [by etrans | lia].
  - intros [|i] u p Hu Hp; cbn in Hu, Hp.
    + injection Hu as <-. injection Hp as <-. exists j. split; [done|]. split.
      * destruct Hj as [[Hm _]|(Hm & -> & _)]; auto.
      * intros Hok. eapply lookup_weaken; [|exact Hsub]. destruct Hj as [[Hm ->]|(_ & _ & _ & ->)]; [done|].
        rewrite Hok. apply lookup_insert_eq.
    + destruct (Heach _ _ _ Hu Hp) as (j' & -> & Hcase & Hset). exists j'. split; [done|]. split; [|done].
      destruct Hcase as [Hm1|[Hm1 Hge]]; [|right; split; [by apply Hnone | lia]].
      destruct Hj as [[_ ->]|(Hn & -> & _ & ->)]; [by left|]. destruct (set_ok t); [|by left].
      apply lookup_insert_Some in Hm1 as [[<- <-]|[_ Hm1]]; [by right | by left].
  - intros [|i] [|j'] u v p Hlt Hu Hv Hp Hq; [lia| |lia|cbn in *; eapply (Hdist i j'); eauto; lia].
    cbn in Hu, Hv, Hp, Hq. injection Hu as <-. injection Hp as <-.
    destruct (Heach _ _ _ Hv Hq) as (j2 & E & Hcase & _). apply info_inj in E as <-.
    destruct Hcase as [Hm1|[Hm1 Hge]].
    + destruct Hj as [[Hm ->]|(Hm & -> & _ & ->)].
      * split; [by eapply (rd_inj _ _ _ Hr) | by eapply (rd_old _ _ _ Hr)].
      * destruct (set_ok t) eqn:Hok; [apply lookup_insert_Some in Hm1 as [[<- _]|[_ Hm1]]; [done|]|];
          destruct (rd_old _ _ _ Hr _ _ Hm1); lia.
    + destruct Hj as [[Hm Hm']|(Hm & -> & Hlt' & _)]; [|lia]. subst m1.
      destruct (rd_old _ _ _ Hr _ _ Hm); lia.
Qed.

(** The tests for a key that was made *)
Ltac found_key H := repeat (match goal with |- context [@bool_decide _ ?D] => rewrite (@bool_decide_true _ D H) end; cbn).

(** The first call, where there is thread-local storage, does what later
    ones do, the key made. *)
Lemma first_call k others values t :
  tls_works -> new_key 0 = Some k -> set_ok t = true -> (forall u, values !! (u, k) = None) ->
  exists s, ready k ∅ s /\ thread_info t (start others values) = thread_info t s.
Proof using Type.
  intros Hw Hk Hok Hv. unfold tls_works in Hw. rewrite !andb_true_iff in Hw. destruct Hw as [[[[Hc Hs] Hg] Ho] Hoo].
  assert (k ∈ {[k]} ∪ others) as Hin by (apply elem_of_union; left; by apply elem_of_singleton).
  set (s := Tls true false k ({[k]} ∪ others) (<[(t, k) := 0]> (<[(t, k) := 0x42]> values)) 1 0).
  exists s. split.
  - constructor; try done. intros u. cbn. rewrite lookup_empty.
    destruct (decide (u = t)) as [->|Hne]; [by rewrite lookup_insert_eq|].
    rewrite !lookup_insert_ne by congruence. by rewrite Hv.
  - unfold thread_info. rewrite Ho. cbn [negb].
    assert (pthread_once t s = Ok false s) as H1 by (unfold pthread_once; by rewrite Hoo).
    enough (pthread_once t (start others values) = Ok false s) as H2.
    { by rewrite (bind_Ok _ _ _ _ _ H1), (bind_Ok _ _ _ _ _ H2). }
    unfold pthread_once. rewrite Hoo. cbn [once_control start]. unfold init_key. rewrite Hc, Hs, Hg. cbn [negb orb].
    unfold mbind, comp_bind, mret, comp_ret, pthread_key_create. cbn [keys_made start]. rewrite Hk.
    unfold pthread_setspecific, pthread_getspecific, gets, modify. cbn. rewrite Hok.
    found_key Hin. rewrite lookup_insert_eq. cbn. by found_key Hin.
Qed.

(** C35. Every thread has information of its own.  In a process with
    working thread-local storage (the functions are linked, a key is free, and
    the first thread can set it), calls of [thread_info] by any threads in any
    order return; two calls return the same structure exactly if they are by
    the same thread and that thread can set its slot (a failure to set it goes
    unnoticed, and each call makes another structure), and [thread_info_fast]
    returns it then too. *)
Theorem thread_info_private k others values t ts :
  tls_works -> new_key 0 = Some k -> set_ok t = true -> (forall u, values !! (u, k) = None) ->
  exists ps s, mapM thread_info (t :: ts) (start others values) = Ok ps s /\ length ps = S (length ts) /\
  (forall i j u v p q, i <> j -> (t :: ts) !! i = Some u -> (t :: ts) !! j = Some v ->
     ps !! i = Some p -> ps !! j = Some q -> p = q <-> u = v /\ set_ok u = true) /\
  (forall i u p, (t :: ts) !! i = Some u -> ps !! i = Some p -> set_ok u = true -> thread_info_fast u s = Ok p s).
Proof using Hcalloc Hfresh.
  intros Hw Hk Hok Hv. destruct (first_call k others values t) as (s0 & Hr & Hfirst); [done..|].
  destruct (run_ready k ∅ s0 (t :: ts) Hw Hr) as (ps & m & s & Hrun & Hr' & [Hlen _ Heach Hdist]).
  exists ps, s. split; [|split; [done|split]].
  - rewrite <- Hrun. cbn [mapM]. unfold mbind at 1 3, comp_bind at 1 3. by rewrite Hfirst.
  - intros i j u v p q Hne Hu Hv' Hp Hq. split.
    + intros <-. destruct (decide (i < j)%nat); [by eapply (Hdist i j)|].
      destruct (Hdist j i v u p) as [-> ?]; [lia|done..].
    + intros [<- Hset]. destruct (Heach _ _ _ Hu Hp) as (a & -> & _ & Ha), (Heach _ _ _ Hv' Hq) as (b & -> & _ & Hb).
      specialize (Ha Hset). rewrite (Hb Hset) in Ha. by injection Ha as ->.
  - intros i u p Hu Hp Hset. destruct (Heach _ _ _ Hu Hp) as (a & -> & _ & Ha). unfold thread_info_fast.
    rewrite (bind_Ok _ _ s false s) by (unfold gets; by rewrite (rd_tls _ _ _ Hr')).
    erewrite getspecific_ready by done. by rewrite (Ha Hset).
Qed.

(** When no key is to be had, [init_key] goes on with the key it has
    not set, number 0.  If another library made that key, its value for the
    thread is replaced by a pointer to our information. *)
Theorem init_key_takes_foreign_key others values t :
  tls_works -> new_key 0 = None -> set_ok t = true -> 0 ∈ others ->
  exists s, thread_info t (start others values) = Ok (info_at 0) s /\ slots s !! (t, 0) = Some (info_at 0).
Proof using Type.
  intros Hw Hk Hok Hin. unfold tls_works in Hw. rewrite !andb_true_iff in Hw. destruct Hw as [[[[Hc Hs] Hg] Ho] Hoo].
  unfold thread_info. rewrite Ho. cbn [negb]. unfold pthread_once. rewrite Hoo. cbn [once_control start].
  unfold init_key. rewrite Hc, Hs, Hg. cbn [negb orb].
  unfold mbind, comp_bind, mret, comp_ret, pthread_key_create. cbn [keys_made start]. rewrite Hk.
  unfold pthread_setspecific, pthread_getspecific, gets, modify. cbn. rewrite Hok.
  found_key Hin. rewrite lookup_insert_eq. cbn. found_key Hin. rewrite lookup_insert_eq. cbn. found_key Hin.
  eexists. split; [reflexivity|]. cbn. apply lookup_insert_eq.
Qed.

(** Without working thread-local storage all threads share one structure, as
    [ExnHandlers] has it. *)
Lemma thread_info_shared others values ts :
  ~ tls_works -> exists s, mapM thread_info ts (start others values) = Ok ((fun _ => singleThreadInfo) <$> ts) s.
Proof using Type.
  intros Hw. enough (forall s, (once_control s = true -> fakeTLS s = true) -> exists s', mapM thread_info ts s = Ok ((fun _ => singleThreadInfo) <$> ts) s')
    as H by by apply H.
  assert (forall t s, (once_control s = true -> fakeTLS s = true) -> exists s', thread_info t s = Ok singleThreadInfo s' /\ fakeTLS s' = true) as Hone.
  { intros t s Hs. unfold thread_info, tls_works in *. destruct have_once; [|eexists; split; reflexivity].
    unfold pthread_once. destruct once_ok; [|eexists; split; reflexivity]. cbn. destruct (once_control s) eqn:Hc.
    - exists s. unfold mbind, comp_bind, gets. rewrite Hc. cbn. by rewrite Hs.
    - unfold mbind at 1, comp_bind at 1. rewrite Hc. unfold init_key. destruct have_key_create, have_setspecific, have_getspecific; try (eexists; split; reflexivity). by destruct Hw. }
  clear Hw. induction ts as [|t ts IH]; intros s Hs; [by eexists|].
  destruct (Hone t s Hs) as (s1 & H1 & Hf). destruct (IH s1 (fun _ => Hf)) as (s' & H2).
  exists s'. cbn. erewrite bind_Ok by exact H1. by erewrite bind_Ok by exact H2.
Qed.
End ThreadInfo.

(** ** Witnesses *)

(** Linked with pthreads; the first key is 5, if there is one; thread 2 has no
    memory for its slot; memory is given out by the kilobyte. *)
Definition posix (key : option Z) : Posix := {|
  have_key_create := true; have_setspecific := true; have_getspecific := true; have_once := true; once_ok := true;
  new_key _ := key; set_ok t := negb (t =? 2)%nat; calloc_at n := Some (Z.of_nat n * 1024 + 1024) |}.

Lemma thread_info_private_witness : exists ps s,
  mapM (thread_info (P := posix (Some 5))) [0; 1; 0; 2; 2]%nat (start {[7]} ∅) = Ok ps s /\
  ps !! 0%nat = ps !! 2%nat /\ ps !! 3%nat <> ps !! 4%nat.
Proof.
  destruct (thread_info_private (P := posix (Some 5)) ltac:(intros n; cbn; eexists; split; [done|lia])
    ltac:(intros n n'; cbn; intros [= E]; lia) 5 {[7]} ∅ 0%nat [1; 0; 2; 2]%nat eq_refl eq_refl eq_refl ltac:(done))
    as (ps & s & Hrun & Hlen & Hps & _).
  exists ps, s. split; [exact Hrun|]. destruct ps as [|p0 [|p1 [|p2 [|p3 [|p4 [|]]]]]]; try discriminate Hlen. split.
  - change (Some p0 = Some p2). f_equal.
    exact (proj2 (Hps 0%nat 2%nat 0%nat 0%nat p0 p2 (ltac:(lia)) eq_refl eq_refl eq_refl eq_refl) (conj eq_refl eq_refl)).
  - change (Some p3 <> Some p4). intros [= E].
    destruct (proj1 (Hps 3%nat 4%nat 2%nat 2%nat p3 p4 (ltac:(lia)) eq_refl eq_refl eq_refl eq_refl) E) as [_ H]. discriminate H.
Defined.

Lemma init_key_takes_foreign_key_witness : exists s,
  thread_info (P := posix None) 0%nat (start {[0]} {[(0%nat, 0) := 77]}) = Ok 1024 s /\ slots s !! (0%nat, 0) = Some 1024.
Proof. by apply (init_key_takes_foreign_key (P := posix None)). Defined.
